(* ===== verification/_CoqProject ===== *)
-Q . S2P
Prelude.v
Ring.v
CLib.v
Log.v
FixedString.v
StaticVector.v
Layout.v
MessageChannel.v
ZephyrEvents.v
AtCommand.v
MessageQueue.v
Monitor.v
QueueThreads.v
ChannelThreads.v
EventThreads.v
Timer.v
TimerThreads.v
TimerThreadsProps.v
ZephyrQueue.v
ModemController.v
Uart.v
ControllerProps.v
Xe310Types.v
Xe310.v
Strtof.v
Survey.v
Xe310Props.v
OperatorProps.v
Trace.v
TraceMutex.v
Hal.v
NetworkTypes.v
Typed.v
NetworkLte.v
NetworkInv.v
NetworkSafety.v
NetworkApi.v
NetworkProps.v
NetworkLive.v
UartModem.v
RadioMessages.v
RadioLte.v
RadioLteProps.v
Json.v
RpcHelpers.v
NetworkLog.v
TestXe310.v
RpcHelpersProps.v
RpcServer.v
RpcServerProps.v
RpcSafety.v
IpcServer.v
IpcThreads.v
Win32Ipc.v
AppIpc.v
AppIpcProps.v
Desktop.v
DesktopProps.v
ZephyrHal.v
ZephyrApp.v
ZephyrAppProps.v
ZephyrLive.v
