(* ===== verification/Prelude.v ===== *)
(** * Verification of the xE310 modem library

    The program drives a Telit xE310 cellular modem over a serial line.  From the
    bottom up it consists of heap-free containers; a platform layer (serial port,
    timers, message queues, message channels, event flags, each for POSIX, Win32
    and Zephyr); the parser of AT replies; a controller that sends one command at
    a time and collects unsolicited result codes; the driver [xE310] with one
    method per AT command; the state machine [NetworkLte] that brings the modem
    to a data connection and moves datagrams; a radio service through which other
    threads send requests to the thread that owns the state machine; and a desktop
    program that offers the modem to local clients: an RPC server (text requests,
    JSON replies) that goes through the radio service, and data, CoAP and AT
    servers that hand commands to the network thread; a Zephyr application around
    the same state machine and service; and a test program for the driver.

    ** Files

    - [Prelude]: byte strings, fixed-width integers, the state monad [ST] of code
      that always returns, the outcome monad [NL] of code that may index out of
      range or loop ([Done], [Undef], [NoFuel]), their Hoare rules, scripts of
      calls and their simulation lemma, hint databases and tactics.
    - [Ring]: circular buffers as lists.  [CLib]: the parts of the C and C++
      library the sources call ([string_view] searches, [strtol], [strtoul],
      [atoi], [snprintf] conversions, line and comma splitting loops).
      [Strtof]: [strtof] at binary32.
    - [Log] (include/hal/log.h): the log macros of each platform and their time
      stamps.  [NetworkLog]: the names and messages of the state machine's log.
    - [FixedString], [StaticVector] (include/hal/fixed_string.h,
      static_vector.h): array and size members, refined to plain strings and
      lists cut at the capacity.  The other files compute with those values.
    - [AtCommand] (src/at_command.cpp): [parse_response].
    - [MessageQueue] (src/hal/posix_message_queue.cpp, win32_message_queue.cpp):
      the per-connection payload queues.
    - [Timer] (src/hal/posix_timer.cpp, win32_timer.cpp, zephyr_timer.cpp): modules
      [Posix] and [Zephyr], and the class [CommandTimer] of the controller's timer.
      [TimerThreads], [TimerThreadsProps]: the same class as the threads it makes,
      with the condition variable, the joins and the callbacks interleaved.
    - [Hal]: the timers and the payload queue as the state machine uses them, as
      classes ([HalTimer], [HalQueue]) with their laws; the POSIX objects are the
      instances found by default.  [ZephyrHal]: those of Zephyr, where one static
      timer is everybody's.
    - [ZephyrQueue] (src/hal/zephyr_message_queue.cpp): the same queues over the
      kernel's message queues (class [KMsgq]) and clock (class [KTime]).
    - [MessageChannel] (src/hal/posix_message_channel.cpp,
      zephyr_message_channel.cpp, posix_event_flags.cpp): the class
      [MessageChannel] with its laws, two implementations, event flags.
      [ZephyrEvents] (src/hal/zephyr_event_flags.cpp).
    - [Monitor]: objects with a mutex and condition variables, called by any number of
      threads.  [QueueThreads], [ChannelThreads], [EventThreads]
      (src/hal/win32_message_queue.cpp, win32_message_channel.cpp,
      win32_event_flags.cpp and their POSIX twins): the queue, the channel and the
      event flags as such objects.
    - [ModemController] (src/modem_controller.cpp): [send_command], [send_raw],
      [send_binary], [send_with_prompt], [poll_urc] over the class [Platform] of
      serial, clock and lock operations; it implements the class [Controller] the
      driver is written against.  [ControllerProps]: its properties, and a
      scripted serial line for examples.
    - [Uart] (src/hal/posix_uart.cpp, win32_uart.cpp, zephyr_uart.cpp): the three
      serial drivers, each over a class of the system calls it makes, and that they
      are platforms the controller can run on.
    - [Xe310Types], [Xe310], [Survey] (include/modem/xe310.h, src/xe310.cpp): data,
      one definition per method of [xE310], the network survey.  [Xe310Props].
      [OperatorProps]: the operator list and the power-saving settings read back.
      [TestXe310] (examples/desktop/test_xe310.cpp): the test program.
    - [Trace], [TraceMutex], [NetworkTypes], [NetworkLte] (include/hal/trace_mutex.h,
      include/modem/network_lte.h, network_lte_config.h, src/network_lte.cpp): the
      trace ring buffer and its blocking read, the members, every method of the
      state machine.  [execute_actions] is [run_action] with one [act_...]
      definition per case; [change_state] is [leave_state], [enter_state] and
      [reset_for_state], its three switches; [loop] is [poll_events] (with
      [process_event], the event switch) and [execute_actions].
    - [Typed]: what it means that a member holds a value of its C++ type, and that
      the parsers produce such values.
    - [NetworkInv], [NetworkSafety]: the invariant [lte_wf] and its preservation by
      every action and handler.  [NetworkApi]: the interface as a type [Call],
      safety of call sequences.  [NetworkProps]: behaviour of the operations.
      [NetworkLive]: that connecting succeeds.  [UartModem]: the same from the bytes
      of a modem on the serial line.
    - [Layout], [RadioMessages], [RadioLte], [RadioLteProps]
      (include/modem/i_radio_lte.h, src/i_radio_lte.cpp): object representations of
      the C++ structures, the messages, [RadioLteChannels] and
      [process_radio_requests], and the service's properties.
    - [Json], [RpcHelpers], [RpcHelpersProps] (examples/desktop/rpc_helpers.h): a
      JSON reader to state round trips with, the serialisers and the parser of
      configuration texts.
    - [RpcServer] (examples/desktop/app_rpc_server.cpp): [handle_request] and the
      exchange with the radio service; the network thread is the argument [worker]
      of the waits.  [RpcServerProps]: requests end to end; [RpcSafety].
    - [IpcServer] (examples/desktop/ipc_server.h, posix/posix_ipc_server.cpp): the
      TCP server with lines or frames, over a class [Sockets].  [Win32Ipc]
      (win32/win32_ipc_server.cpp): the Windows server over a class [Winsock].
      [IpcThreads]: who opens and closes its descriptors, with [stop] called while a
      client is served.
    - [AppIpc], [AppIpcProps] (examples/desktop/app_ipc_servers.cpp): the command
      queue, the synchronous calls, the handlers and the network thread's turn.
    - [Desktop], [DesktopProps] (examples/desktop/main.cpp): [main] and its threads
      as interleaved steps of the whole program.
    - [ZephyrApp], [ZephyrAppProps] (examples/embedded/zephyr/zephyr_main.cpp): the
      same for the Zephyr application.  [ZephyrLive]: that it gets connected.

    ** State and effects

    A C++ object is a record with its members; a method is a function that returns
    the new record with the result, [out] parameters being arguments and part of
    the result.  Strings and vectors are the values of their containers, cut at the
    same capacities.  Integers are [Z] with the wrap-around of their width written
    out; an enumeration received from the outside has a constructor for the values
    without a name.  Reads of indeterminate values (a view of a dead temporary, an
    uninitialised variable, an out-of-range float conversion) are the fields of the
    class [Residue], about which nothing is assumed.

    Time is what the platform's clock says.  Timer threads run between two modem
    calls ([tick]), so a state timeout can be posted at any command.  A timed wait
    of a queue or channel is a function that says what the waiting thread finds.
    Each lock-protected operation is one step.  The files with [Threads] in their name
    justify this: there a call is several steps of one of many threads (lock, wait,
    wake up, lock again, work, notify), in any interleaving, and the theorems give the
    order in which the calls can be taken as one step each.  A critical section is one
    step there, because the mutex is held from its first to its last statement.

    ** What is proved

    - Containers, queues, channels and the trace buffer refine lists, for every
      script of calls, and keep their size invariants.
    - Parsers equal declarative readings: AT replies, unsolicited codes, the
      registration, band, context and datagram replies; commands that carry
      numbers are written without truncation and read back.
    - The controller: what the first chunk of a reply decides, which codes survive.
    - The state machine, on every platform whose timers and queue meet their laws:
      from the constructor, every sequence of interface calls with connection
      numbers 1 to 5 keeps the invariant and never leaves the server array, whatever
      the modem answers; every member holds a value of its type; [go_to_state] and
      [network_connect] report the truth; time accounting, timeouts, loss of the
      network, attach attempts, transmission order, delivery of datagrams; and
      [network_connect] does succeed with a modem that answers, on the Zephyr
      application from the bytes on the line up to its log.
    - The radio service: each request is served once and in order; blocking actions
      and the configuration make the round trip; arbitrary request bytes are safe.
    - The platform layer: the Zephyr queue refines the same list as the POSIX one
      and its blocking pop returns; a blocking read of the trace returns on both
      platforms; the serial drivers keep the contract of the
      controller; the POSIX write loop delivers and ends.
    - The RPC server: every [GET] resource, every acting request and [SET CONFIG]
      end to end through channels and network thread; replies are JSON that reads
      back; any request line without ten digits in a row is safe.
    - The threads of the platform layer: queue, channel and event flags are linearizable
      for any number of threads, waits that time out do so for a reason and return, and
      which notifications can be lost; a timer whose calls do not overlap never
      terminates the program, refines the atomic timer, calls back at most once per
      [start] and not after a joined [stop], and [stop] returns; the IPC server closes
      the descriptors it opened, once, unless [stop] meets a client.
    - The IPC servers and the command queue: lines and frames reach the handlers as
      sent; commands run once and in order; synchronous calls are answered;
      datagrams are forwarded both ways.
      The Windows server is the POSIX server over its casts.
    - The desktop program and the Zephyr application as a whole are safe from [main]
      on, for every interleaving of clients and threads.
    - Log lines are written exactly when their level is enabled, to the right stream,
      with time stamps that read back; the test program reports on every query.
    - Where the code does not do what it means to, theorems state what it does: a
      reply split over two reads fails, a full code buffer wedges, datagrams equal
      to a status line are lost, contexts above 9 are misread, on Zephyr
      every command cancels the state timeout, large query results are never published, firmware update never
      starts, unchecked connection numbers leave the array, a stale state timer is
      inherited, a late reply is taken for the answer to the next request, long
      frames fall apart, Zephyr event waits discard what was posted, a timer's callback
      can run after [stop] has returned, a [stop] inside a callback can end the program,
      a second reader of a queue can miss its wake-up, [stop] of a server closes a
      client's descriptor twice, an operator name with a parenthesis is lost.

    ** Bounds

    Loops over a buffer take the buffer's length as fuel, which each round
    shortens, so they always finish.  [read_loop] ends because the reply of a read
    is final; its fuel is only reached by reads that return nothing.  [send_loop]
    takes the queue's length.  The loops the source leaves unbounded
    ([go_to_state], [check_responsiveness], the wait for a GNSS fix, the request
    loop) take a number of rounds and give [NoFuel] beyond it: safety theorems hold
    for every number, [network_connect_succeeds] shows that five rounds are enough
    with a modem that answers, and [radio_requests_served] that one more round than
    there are requests is.  The request queue holds [MODEM_TX_Q_DEPTH] messages, so
    one round more is enough for every turn of the network thread.  The Zephyr
    polling loops need as many rounds as milliseconds of timeout, since each sleeps
    for one; a blocking read of the trace one more than the thread is woken; the IPC loops as many as bytes or frames that arrive; the nested request
    of [request_radio_state_impl] has depth two.  A caller that waits for a promise
    gets a number of turns of the network thread; [sync_call_answers] shows that one
    is enough.

    ** Not modelled

    The desktop timer, queue, channel and event flags exist twice, for POSIX and for
    Win32, with the same text under two class names: a model of one stands for both.
    The factories return the modelled objects.  Log calls inside the library have no
    effect on its state and are left out of its operations; what a log call writes is
    in [Log], for one thread at a time.  The state machine, the radio service and the
    programs are composed of the one-step operations, not of the [Threads] models: the
    refinement theorems relate the two, object by object.  Memory that two threads
    access without a lock is interleaved statement by statement; that C++ gives such
    races no meaning at all is not modelled.  The modem of the connection theorems
    answers each command in one read; replies that come in pieces are covered by the
    safety theorems, which hold for whatever the line delivers.  Unit tests, scripts
    and build files are not part of the program. *)

From stdpp Require Export base list strings.
From Stdlib Require Export Ascii ZArith Lia.

#[export] Set Default Proof Using "Type".
#[export] Set Default Goal Selector "!".

(** ** Byte strings

    A [std::string_view], a C character buffer and a UART byte sequence are all
    sequences of 8-bit characters. *)

Notation str := (list ascii).

Definition lit (s : String.string) : str := String.list_ascii_of_string s.
Arguments lit s%_string_scope : simpl nomatch.

Definition NUL : ascii := Ascii.zero.
Definition TAB : ascii := Ascii.ascii_of_nat 9.
Definition LF : ascii := Ascii.ascii_of_nat 10.
Definition CR : ascii := Ascii.ascii_of_nat 13.
Definition SPACE : ascii := Ascii.ascii_of_nat 32.
Definition DQUOTE : ascii := Ascii.ascii_of_nat 34.
Definition COMMA : ascii := Ascii.ascii_of_nat 44.
Definition COLON : ascii := Ascii.ascii_of_nat 58.

Definition ch_eqb (a b : ascii) : bool := Ascii.eqb a b.
Definition str_eqb (a b : str) : bool := bool_decide (a = b).



(** ** Machine integers: the wrap-around of the fixed-width types. *)

Definition u8 (z : Z) : Z := z mod 2 ^ 8.
Definition u16 (z : Z) : Z := z mod 2 ^ 16.
Definition u32 (z : Z) : Z := z mod 2 ^ 32.
Definition u64 (z : Z) : Z := z mod 2 ^ 64.
Definition i8 (z : Z) : Z := (z + 2 ^ 7) mod 2 ^ 8 - 2 ^ 7.
Definition i32 (z : Z) : Z := (z + 2 ^ 31) mod 2 ^ 32 - 2 ^ 31.

(** ** Hint databases and small tactics of the development *)

Create HintDb modem discriminated.
Create HintDb nlte discriminated.

(** Case analysis on the outermost [match] or [if] of the goal. *)
Ltac case_goal :=
  match goal with
  | |- context [match ?x with _ => _ end] => destruct x eqn:?
  end.

(** Rewrites the decidable comparisons of the context into propositions. *)
Ltac bool_facts :=
  repeat match goal with
  | H : bool_decide _ = true |- _ => apply bool_decide_eq_true in H
  | H : bool_decide _ = false |- _ => apply bool_decide_eq_false in H
  | H : (_ =? _)%Z = true |- _ => apply Z.eqb_eq in H
  | H : (_ =? _)%Z = false |- _ => apply Z.eqb_neq in H
  | H : (_ <=? _)%Z = true |- _ => apply Z.leb_le in H
  | H : (_ <=? _)%Z = false |- _ => apply Z.leb_gt in H
  | H : (_ <? _)%Z = true |- _ => apply Z.ltb_lt in H
  | H : (_ <? _)%Z = false |- _ => apply Z.ltb_ge in H
  | H : (_ =? _) = true |- _ => apply Nat.eqb_eq in H
  | H : (_ =? _) = false |- _ => apply Nat.eqb_neq in H
  | H : (_ <=? _) = true |- _ => apply Nat.leb_le in H
  | H : (_ <=? _) = false |- _ => apply Nat.leb_gt in H
  | H : (_ <? _) = true |- _ => apply Nat.ltb_lt in H
  | H : (_ <? _) = false |- _ => apply Nat.ltb_ge in H
  | H : _ && _ = true |- _ => apply andb_true_iff in H as [? ?]
  | H : _ || _ = false |- _ => apply orb_false_iff in H as [? ?]
  | H : negb _ = true |- _ => apply negb_true_iff in H
  | H : negb _ = false |- _ => apply negb_false_iff in H
  | H : ch_eqb _ _ = true |- _ => apply Ascii.eqb_eq in H
  | H : ch_eqb _ _ = false |- _ => apply Ascii.eqb_neq in H
  | H : str_eqb _ _ = true |- _ => apply bool_decide_eq_true in H
  | H : str_eqb _ _ = false |- _ => apply bool_decide_eq_false in H
  end.

Lemma str_eqb_refl s : str_eqb s s = true.
Proof. by apply bool_decide_eq_true. Qed.

Lemma ch_eqb_refl c : ch_eqb c c = true.
Proof. apply Ascii.eqb_refl. Qed.

Lemma take_take_app {A} n (a b : list A) : take n (take n a ++ b) = take n (a ++ b).
Proof.
  destruct (decide (length a <= n)).
  - by rewrite (take_ge a).
  - rewrite !take_app_le by (rewrite ?length_take; lia). rewrite take_take. f_equal. lia.
Qed.

(** ** State monad of the modem driver

    [xE310] methods read and write the driver object and always return, so they
    are pure state transformers. *)

Declare Scope st_scope.
Delimit Scope st_scope with st.

Definition ST (S A : Type) : Type := S -> A * S.

Definition st_ret {S A} (a : A) : ST S A := fun s => (a, s).
Definition st_bind {S A B} (m : ST S A) (k : A -> ST S B) : ST S B :=
  fun s => let '(a, s') := m s in k a s'.

Notation "'do' x <- m ; k" := (st_bind m (fun x => k))
  (at level 10, x pattern, m at level 100, k at level 200) : st_scope.
Notation "'do_' m ; k" := (st_bind m (fun _ => k))
  (at level 10, m at level 100, k at level 200) : st_scope.

(** [st_ok I m P]: [m] keeps the invariant [I] and its result satisfies [P]. *)
Definition st_ok {S A} (I : S -> Prop) (m : ST S A) (P : A -> Prop) : Prop :=
  forall s, I s -> I (snd (m s)) /\ P (fst (m s)).

Definition st_keeps {S A} (I : S -> Prop) (m : ST S A) : Prop := st_ok I m (fun _ => True).

Section StRules.
Context {S : Type}.
Implicit Type I : S -> Prop.

Lemma st_ok_bind {A B} I (m : ST S A) (k : A -> ST S B) P Q :
  st_ok I m P -> (forall a, P a -> st_ok I (k a) Q) -> st_ok I (st_bind m k) Q.
Proof.
  intros Hm Hk s Hs. unfold st_bind. destruct (Hm s Hs) as [H1 H2]. destruct (m s) as [a s'].
  by apply (Hk a).
Qed.

Lemma st_ok_weaken {A} I (m : ST S A) P Q : st_ok I m P -> (forall a, P a -> Q a) -> st_ok I m Q.
Proof. intros Hm Hpq s Hs. destruct (Hm s Hs). auto. Qed.

Lemma st_ok_keeps {A} I (m : ST S A) P : st_ok I m P -> st_keeps I m.
Proof. intros Hm. by eapply st_ok_weaken. Qed.

Lemma st_keeps_bind {A B} I (m : ST S A) (k : A -> ST S B) :
  st_keeps I m -> (forall a, st_keeps I (k a)) -> st_keeps I (st_bind m k).
Proof. intros Hm Hk. eapply st_ok_bind; [exact Hm|]. intros a _. apply Hk. Qed.

Lemma st_keeps_ret {A} I (a : A) : st_keeps I (st_ret a).
Proof. by intros s Hs. Qed.

End StRules.

(** ** Outcome monad of the network state machine

    A computation of [NetworkLte] returns normally, has undefined behaviour (an
    access outside [serverInfo]) or exhausts the fuel that bounds the loops the
    source leaves unbounded. *)

Declare Scope nl_scope.
Delimit Scope nl_scope with nl.

Inductive Outcome (A : Type) : Type :=
| Done (a : A)
| Undef
| NoFuel.
Arguments Done {A} a.
Arguments Undef {A}.
Arguments NoFuel {A}.

Definition NL (S A : Type) : Type := S -> Outcome (A * S).

Definition nl_ret {S A} (a : A) : NL S A := fun s => Done (a, s).
Definition nl_bind {S A B} (m : NL S A) (k : A -> NL S B) : NL S B :=
  fun s => match m s with
           | Done (a, s') => k a s'
           | Undef => Undef
           | NoFuel => NoFuel
           end.
Definition nl_undef {S A} : NL S A := fun _ => Undef.
Definition nl_nofuel {S A} : NL S A := fun _ => NoFuel.
Definition nl_get {S} : NL S S := fun s => Done (s, s).
Definition nl_gets {S A} (f : S -> A) : NL S A := fun s => Done (f s, s).
Definition nl_modify {S} (f : S -> S) : NL S unit := fun s => Done (tt, f s).
Definition nl_when {S} (b : bool) (m : NL S unit) : NL S unit :=
  if b then m else nl_ret tt.
Fixpoint nl_for {S A} (f : A -> NL S unit) (l : list A) : NL S unit :=
  match l with
  | [] => nl_ret tt
  | x :: l' => nl_bind (f x) (fun _ => nl_for f l')
  end.

Notation "'let*' x := m 'in' k" := (nl_bind m (fun x => k))
  (at level 10, x pattern, m at level 100, k at level 200) : nl_scope.
Notation "m ;;; k" := (nl_bind m (fun _ => k))
  (at level 100, k at level 200, right associativity) : nl_scope.

(** ** Hoare triples over [NL]

    [hoare P m Q]: from a state in [P], [m] has no undefined behaviour and, when
    it returns, [Q] relates the initial state, the result and the final state.
    Running out of fuel satisfies every triple; termination is stated apart. *)

Definition hoare {S A} (P : S -> Prop) (m : NL S A) (Q : S -> A -> S -> Prop) : Prop :=
  forall s, P s -> match m s with
                   | Done (a, s') => Q s a s'
                   | Undef => False
                   | NoFuel => True
                   end.

(** An invariant of a computation. *)
Definition keeps {S A} (I : S -> Prop) (m : NL S A) : Prop :=
  hoare I m (fun _ _ s' => I s').

(** A relation between the states before and after a computation. *)
Definition rel {S A} (R : S -> S -> Prop) (m : NL S A) : Prop :=
  hoare (fun _ => True) m (fun s _ s' => R s s').

Section HoareRules.
Context {S : Type}.
Implicit Types (P I : S -> Prop).

Lemma keeps_ret {A} I (a : A) : keeps I (nl_ret a).
Proof. by intros s Hs. Qed.

Lemma keeps_bind {A B} I (m : NL S A) (k : A -> NL S B) :
  keeps I m -> (forall a, keeps I (k a)) -> keeps I (nl_bind m k).
Proof.
  intros Hm Hk s Hs. unfold nl_bind. specialize (Hm s Hs).
  destruct (m s) as [[a s']| |]; [|done|done]. exact (Hk a s' Hm).
Qed.

Lemma keeps_get I : keeps I nl_get.
Proof. by intros s Hs. Qed.

Lemma keeps_gets {A} I (f : S -> A) : keeps I (nl_gets f).
Proof. by intros s Hs. Qed.

Lemma keeps_nofuel {A} I : keeps I (@nl_nofuel S A).
Proof. by intros s Hs. Qed.

Lemma keeps_modify I (f : S -> S) : (forall s, I s -> I (f s)) -> keeps I (nl_modify f).
Proof. intros H s Hs. by apply H. Qed.

Lemma keeps_when I b (m : NL S unit) : keeps I m -> keeps I (nl_when b m).
Proof. destruct b; [done|]. intros _. apply keeps_ret. Qed.

Lemma keeps_for_ok {A} I (ok : A -> Prop) (f : A -> NL S unit) l :
  (forall x, ok x -> keeps I (f x)) -> Forall ok l -> keeps I (nl_for f l).
Proof.
  intros Hf. induction 1 as [|x l Hx Hl IH]; simpl; [apply keeps_ret|]. apply keeps_bind; [by apply Hf|]. intros _. exact IH.
Qed.

Lemma keeps_for {A} I (f : A -> NL S unit) l :
  (forall x, keeps I (f x)) -> keeps I (nl_for f l).
Proof. intros Hf. apply (keeps_for_ok I (fun _ => True)); [auto|]. by apply Forall_true. Qed.

End HoareRules.

#[export] Hint Resolve keeps_ret keeps_get keeps_gets keeps_nofuel : nlte.

(** ** Scripts of calls

    The results of the calls of a script, in order, and the final state; two
    implementations that simulate each other call by call return the same
    results on every script. *)

Fixpoint run_script {S Op R} (step : S -> Op -> R * S) (s : S) (ops : list Op) : list R * S :=
  match ops with
  | [] => ([], s)
  | op :: ops' => let '(r, s1) := step s op in
                  let '(rs, s2) := run_script step s1 ops' in (r :: rs, s2)
  end.

Lemma run_script_sim {S1 S2 Op R} (R12 : S1 -> S2 -> Prop) (step1 : S1 -> Op -> R * S1) (step2 : S2 -> Op -> R * S2) :
  (forall s1 s2 op, R12 s1 s2 ->
     fst (step1 s1 op) = fst (step2 s2 op) /\ R12 (snd (step1 s1 op)) (snd (step2 s2 op))) ->
  forall ops s1 s2, R12 s1 s2 ->
    fst (run_script step1 s1 ops) = fst (run_script step2 s2 ops) /\
    R12 (snd (run_script step1 s1 ops)) (snd (run_script step2 s2 ops)).
Proof.
  intros Hstep ops. induction ops as [|op ops IH]; intros s1 s2 Hr; [done|]. simpl.
  destruct (Hstep s1 s2 op Hr) as [He Hr']. destruct (step1 s1 op) as [r1 s1'], (step2 s2 op) as [r2 s2'].
  simpl in *. destruct (IH _ _ Hr') as [H1 H2].
  destruct (run_script step1 s1' ops), (run_script step2 s2' ops). simpl in *. by subst.
Qed.
