(* ===== verification/Ring.v ===== *)
(** * Ring buffers

    The relation between a circular array with a head index and the list of its
    live elements, oldest first, shared by the trace buffer of [NetworkLte] and
    the message channels. *)

From S2P Require Import Prelude.

Section Ring.
Context {A : Type} (N : nat).
Implicit Types (buf l : list A) (head : nat) (x : A).

(** The array index of the element at position [i] from the oldest. *)
Definition ring_index head (i : nat) : nat := (head + i) mod N.

Definition ring_rel head buf l : Prop :=
  length buf = N /\ head < N /\ length l <= N /\
  forall i x, l !! i = Some x -> buf !! ring_index head i = Some x.

Lemma ring_index_lt head i : 0 < N -> ring_index head i < N.
Proof. intros HN. apply Nat.mod_upper_bound. lia. Qed.

Lemma ring_index_0 head : head < N -> ring_index head 0 = head.
Proof. intros Hh. unfold ring_index. by rewrite Nat.add_0_r, Nat.mod_small. Qed.

Lemma ring_index_inj head i j : i < N -> j < N -> ring_index head i = ring_index head j -> i = j.
Proof.
  unfold ring_index. intros Hi Hj H.
  pose proof (Nat.div_mod_eq (head + i) N). pose proof (Nat.div_mod_eq (head + j) N).
  destruct (Nat.lt_trichotomy ((head + i) / N) ((head + j) / N)) as [?|[?|?]]; nia.
Qed.

Lemma ring_index_next head i : ring_index (ring_index head 1) i = ring_index head (S i).
Proof.
  unfold ring_index. rewrite Nat.Div0.add_mod_idemp_l.
  by replace (head + 1 + i) with (head + S i) by lia.
Qed.

Lemma ring_index_wrap head : head < N -> ring_index head N = head.
Proof.
  intros Hh. unfold ring_index. replace (head + N) with (head + 1 * N) by lia.
  by rewrite Nat.Div0.mod_add, Nat.mod_small.
Qed.

Lemma ring_rel_nil x : 0 < N -> ring_rel 0 (replicate N x) [].
Proof. intros HN. repeat split; rewrite ?length_replicate; simpl; try lia; done. Qed.

(** Writing behind the newest element appends. *)
Lemma ring_push head buf l x :
  ring_rel head buf l -> length l < N ->
  ring_rel head (<[ring_index head (length l) := x]> buf) (l ++ [x]).
Proof.
  intros (Hb & Hh & _ & Hat) Hl. repeat split; rewrite ?length_insert, ?length_app; simpl; try lia; try done.
  intros i y Hi. apply lookup_app_Some in Hi as [Hi|[Hge Hi]].
  - pose proof (lookup_lt_Some _ _ _ Hi). rewrite list_lookup_insert_ne; [by apply Hat|].
    intros Heq. apply ring_index_inj in Heq; lia.
  - apply list_lookup_singleton_Some in Hi as [Hi <-]. replace i with (length l) by lia.
    apply list_lookup_insert_eq. rewrite Hb. apply ring_index_lt. lia.
Qed.

(** The head is the oldest element; advancing the head removes it. *)
Lemma ring_pop head buf x l :
  ring_rel head buf (x :: l) -> buf !! head = Some x /\ ring_rel (ring_index head 1) buf l.
Proof.
  intros (Hb & Hh & Hl & Hat). simpl in Hl. split.
  { specialize (Hat 0 x eq_refl). by rewrite ring_index_0 in Hat. }
  repeat split; try done; [apply ring_index_lt; lia|lia|].
  intros i y Hi. rewrite ring_index_next. by apply Hat.
Qed.

(** On a full buffer, overwriting the head drops the oldest element. *)
Lemma ring_overwrite head buf y l x :
  ring_rel head buf (y :: l) -> length (y :: l) = N ->
  ring_rel (ring_index head 1) (<[head := x]> buf) (l ++ [x]).
Proof.
  intros Hr Hfull. destruct (ring_pop _ _ _ _ Hr) as [_ Hp]. destruct Hr as (_ & Hh & _).
  simpl in Hfull. pose proof (ring_push _ _ _ x Hp ltac:(lia)) as Hq.
  rewrite ring_index_next, Hfull, ring_index_wrap in Hq by done. done.
Qed.

End Ring.
