(* ===== verification/CLib.v ===== *)
(** * C and C++ library functions the driver uses

    [std::string_view] searches and slices, [atoi]/[strtol]/[strtoul] on
    NUL-terminated buffers and the [snprintf] conversions that appear in the
    sources.  [npos] is [None].  [int] has 32 and [long] 64 bits (LP64); a value
    outside [int] takes glibc's course, [(int)strtol(s)]. *)

From S2P Require Import Prelude.

(** ** Searching *)

Fixpoint find_if (p : ascii -> bool) (s : str) : option nat :=
  match s with
  | [] => None
  | c :: s' => if p c then Some 0 else S <$> find_if p s'
  end.

(** [s.find(c)] and [s.find(c, pos)]. *)
Definition find_char (c : ascii) (s : str) : option nat := find_if (ch_eqb c) s.
Definition find_char_from (c : ascii) (s : str) (pos : nat) : option nat :=
  (fun i => pos + i) <$> find_char c (drop pos s).

(** [s.substr(0, p.size()) == p], and [s.rfind(p, 0) == 0]. *)
Fixpoint starts_with (p s : str) : bool :=
  match p, s with
  | [], _ => true
  | a :: p', b :: s' => ch_eqb a b && starts_with p' s'
  | _ :: _, [] => false
  end.

(** [s.find(p)] and [s.find(p, pos)]. *)
Fixpoint find_sub (p s : str) : option nat :=
  if starts_with p s then Some 0
  else match s with
       | [] => None
       | _ :: s' => S <$> find_sub p s'
       end.
Definition find_sub_from (p s : str) (pos : nat) : option nat :=
  (fun i => pos + i) <$> find_sub p (drop pos s).

(** [s.rfind(c)]. *)
Definition rfind_char (c : ascii) (s : str) : option nat :=
  (fun i => length s - 1 - i) <$> find_char c (reverse s).

Definition mem (set : str) (c : ascii) : bool := existsb (ch_eqb c) set.

Definition find_first_not_of (set s : str) : option nat :=
  find_if (fun c => negb (mem set c)) s.
Definition find_last_not_of (set s : str) : option nat :=
  (fun i => length s - 1 - i) <$> find_if (fun c => negb (mem set c)) (reverse s).

(** [s.substr(pos, n)]. *)
Definition substr (pos n : nat) (s : str) : str := take n (drop pos s).

(** The trimming idiom of the response parsers:
    [a = find_first_not_of(set); b = find_last_not_of(set);]
    [a == npos ? empty : token.substr(a, b - a + 1)]. *)
Definition strip (set token : str) : str :=
  match find_first_not_of set token, find_last_not_of set token with
  | Some a, Some b => substr a (b - a + 1) token
  | _, _ => []
  end.

(** [start = find_first_not_of(space); start == npos ? empty : token.substr(start)]. *)
Definition strip_left (token : str) : str :=
  match find_first_not_of [SPACE] token with
  | Some a => drop a token
  | None => []
  end.

(** ** Splitting loops *)

Definition CRLF : str := [CR; LF].

(** The loop [while (start < raw.size()) { end = raw.find("\r\n", start); ... }]:
    the list of lines it visits, empty ones included. *)
Fixpoint lines_loop (fuel : nat) (raw : str) (start : nat) : list str :=
  match fuel with
  | 0 => []
  | S fuel' =>
      if start <? length raw then
        match find_sub_from CRLF raw start with
        | None => [drop start raw]
        | Some e => substr start (e - start) raw :: lines_loop fuel' raw (e + 2)
        end
      else []
  end.
Definition sv_lines (raw : str) : list str := lines_loop (length raw) raw 0.

(** The loop [while (!sv.empty() && count < n) { comma = sv.find(','); ... }]:
    a trailing empty token is not produced. *)
Fixpoint comma_fields (n : nat) (sv : str) : list str :=
  match n, sv with
  | 0, _ => []
  | _, [] => []
  | S n', _ =>
      match find_char COMMA sv with
      | None => [sv]
      | Some c => take c sv :: comma_fields n' (drop (S c) sv)
      end
  end.

(** The loop [while (pos <= payload.size() && count < n)]: empty tokens are
    preserved, the trailing one included. *)
Fixpoint csv_fields (n : nat) (sv : str) : list str :=
  match n with
  | 0 => []
  | S n' =>
      match find_char COMMA sv with
      | None => [sv]
      | Some c => take c sv :: csv_fields n' (drop (S c) sv)
      end
  end.

(** ** C strings *)

(** The NUL-terminated string at the start of a buffer. *)
Fixpoint cstr (s : str) : str :=
  match s with
  | [] => []
  | c :: s' => if ch_eqb c NUL then [] else c :: cstr s'
  end.

(** [memcpy] of at most [n - 1] characters into [char buf[n]], then NUL. *)
Definition to_buf (n : nat) (s : str) : str := cstr (take (n - 1) s).

(** ** Numbers *)

Definition is_space (c : ascii) : bool :=
  let n := nat_of_ascii c in (n =? 32) || ((9 <=? n) && (n <=? 13)).

Definition digit_val (c : ascii) : option Z :=
  let n := Z.of_nat (nat_of_ascii c) in
  if ((48 <=? n) && (n <=? 57))%Z then Some (n - 48)%Z
  else if ((97 <=? n) && (n <=? 122))%Z then Some (n - 87)%Z
  else if ((65 <=? n) && (n <=? 90))%Z then Some (n - 55)%Z
  else None.

Definition digit_in (base : Z) (c : ascii) : option Z :=
  match digit_val c with
  | Some d => if (d <? base)%Z then Some d else None
  | None => None
  end.

(** Value and unread rest of the longest digit prefix. *)
Fixpoint read_digits (base acc : Z) (s : str) : Z * str :=
  match s with
  | [] => (acc, [])
  | c :: s' =>
      match digit_in base c with
      | Some d => read_digits base (acc * base + d)%Z s'
      | None => (acc, s)
      end
  end.

Fixpoint skip_spaces (s : str) : str :=
  match s with
  | c :: s' => if is_space c then skip_spaces s' else s
  | [] => []
  end.

Definition read_sign (s : str) : bool * str :=
  match s with
  | c :: s' => if ch_eqb c "-"%char then (true, s')
               else if ch_eqb c "+"%char then (false, s') else (false, s)
  | [] => (false, [])
  end.

(** A ["0x"] prefix counts only when a hexadecimal digit follows it. *)
Definition skip_0x (s : str) : str :=
  match s with
  | z :: x :: h :: s' =>
      if ch_eqb z "0"%char && (ch_eqb x "x"%char || ch_eqb x "X"%char)
         && match digit_in 16 h with Some _ => true | None => false end
      then h :: s' else s
  | _ => s
  end.

(** Sign, magnitude and the unread rest, [None] when no digit was read. *)
Definition read_number (base : Z) (s : str) : option (bool * Z * str) :=
  let '(neg, s1) := read_sign (skip_spaces (cstr s)) in
  let s2 := if (base =? 16)%Z then skip_0x s1 else s1 in
  match s2 with
  | c :: _ =>
      match digit_in base c with
      | Some _ => let '(v, rest) := read_digits base 0 s2 in Some (neg, v, rest)
      | None => None
      end
  | [] => None
  end.

Definition LONG_MAX : Z := 2 ^ 63 - 1.
Definition LONG_MIN : Z := - 2 ^ 63.
Definition ULONG_MAX : Z := 2 ^ 64 - 1.

(** [strtol(s, nullptr, 10)], [atol] and [atoll]. *)
Definition strtol (s : str) : Z :=
  match read_number 10 s with
  | Some (neg, v, _) => Z.max LONG_MIN (Z.min LONG_MAX (if neg then - v else v)%Z)
  | None => 0
  end.
Definition atol (s : str) : Z := strtol s.
Definition atoi (s : str) : Z := i32 (strtol s).

(** [strtoul]/[strtoull] with the position at which they stopped: [None] when
    nothing was converted ([parse_end == s]). *)
Definition strtoul_end (base : Z) (s : str) : Z * option str :=
  match read_number base s with
  | Some (neg, v, rest) =>
      ((if (ULONG_MAX <? v)%Z then ULONG_MAX else u64 (if neg then - v else v)), Some rest)
  | None => (0%Z, None)
  end.
Definition strtoul (base : Z) (s : str) : Z := fst (strtoul_end base s).

(** ** [snprintf] *)

Definition digit_char (d : Z) : ascii := ascii_of_nat (48 + Z.to_nat d).

#[global] Arguments digit_char : simpl never.

Fixpoint dec_digits (fuel : nat) (n : Z) : str :=
  match fuel with
  | 0 => []
  | S fuel' => if (n <? 10)%Z then [digit_char n]
               else dec_digits fuel' (n / 10) ++ [digit_char (n mod 10)]
  end.

(** [%u], [%zu], [%llu] of a non-negative number; one binary digit is worth at
    most one decimal digit, so the fuel is enough (see [dec_roundtrip]). *)
Definition fmt_u (n : Z) : str := dec_digits (S (Z.to_nat (Z.log2 n))) n.

(** [%d]. *)
Definition fmt_d (n : Z) : str :=
  if (n <? 0)%Z then "-"%char :: fmt_u (- n) else fmt_u n.

(** [%.*s] with a view's size and data: a NUL inside the view ends it. *)
Definition fmt_sv (s : str) : str := cstr s.

(** [snprintf(cmd, size, ...)] and the string the buffer then holds. *)
Definition snprintf (size : nat) (out : str) : str := take (size - 1) out.

(** ** Lemmas: searching *)

Lemma find_if_Some p s i :
  find_if p s = Some i <->
  i < length s /\ (exists c, s !! i = Some c /\ p c = true) /\
  (forall j c, j < i -> s !! j = Some c -> p c = false).
Proof.
  revert i. induction s as [|a s IH]; intros i; simpl.
  { split; [done|]. intros [? _]. lia. }
  destruct (p a) eqn:Ha.
  - split.
    + intros [= <-]. split; [lia|]. split; [by exists a|]. intros; lia.
    + intros (_ & _ & Hmin). destruct i as [|i]; [done|].
      rewrite (Hmin 0 a) in Ha; [done|lia|done].
  - destruct (find_if p s) as [k|] eqn:Hk; simpl.
    + split.
      * intros [= <-]. destruct (proj1 (IH k) eq_refl) as (? & Hx & Hmin).
        split; [lia|]. split; [done|]. intros [|j] c Hj; simpl; [by intros [= <-]|].
        intros. apply (Hmin j c); [lia|done].
      * intros (Hi & (c & Hc & Hp) & Hmin). destruct i as [|i]; [simpl in Hc; congruence|].
        f_equal. assert (Some k = Some i) as [= ->]; [|done]. apply IH.
        split; [lia|]. split; [by exists c|].
        intros j d Hj Hd. apply (Hmin (S j) d); [lia|done].
    + split; [done|]. intros (Hi & (c & Hc & Hp) & Hmin).
      destruct i as [|i]; [simpl in Hc; congruence|].
      assert (None = Some i) as [=]. apply IH.
      split; [lia|]. split; [by exists c|].
      intros j d Hj Hd. apply (Hmin (S j) d); [lia|done].
Qed.

Lemma find_if_None p s : find_if p s = None <-> Forall (fun c => p c = false) s.
Proof.
  induction s as [|a s IH]; simpl; [by split|].
  destruct (p a) eqn:Ha; [split; [done|]; inversion 1; congruence|].
  rewrite fmap_None, IH, Forall_cons. naive_solver.
Qed.

Lemma find_if_app_None p s t :
  find_if p s = None -> find_if p (s ++ t) = (fun i => length s + i) <$> find_if p t.
Proof.
  induction s as [|a s IH]; simpl.
  { intros _. by destruct (find_if p t). }
  destruct (p a); [done|]. rewrite fmap_None. intros H. rewrite (IH H).
  by destruct (find_if p t).
Qed.

(** The first separator after a separator-free prefix. *)
Lemma find_char_app c s t : find_char c s = None -> find_char c (s ++ c :: t) = Some (length s).
Proof.
  intros H. unfold find_char in *. rewrite (find_if_app_None _ _ _ H). simpl.
  rewrite ch_eqb_refl. simpl. f_equal. lia.
Qed.

Lemma find_char_lt c s i : find_char c s = Some i -> i < length s.
Proof. intros H. by apply find_if_Some in H as [? _]. Qed.

Lemma starts_with_spec p s : starts_with p s = true <-> exists t, s = p ++ t.
Proof.
  revert s. induction p as [|a p IH]; intros s; simpl; [naive_solver|].
  destruct s as [|b s].
  { split; [done|]. by intros [t [=]]. }
  rewrite andb_true_iff, IH. unfold ch_eqb. rewrite Ascii.eqb_eq. naive_solver.
Qed.

Lemma starts_with_app p t : starts_with p (p ++ t) = true.
Proof. apply starts_with_spec. by exists t. Qed.

Lemma find_sub_lt p s i : find_sub p s = Some i -> i + length p <= length s.
Proof.
  revert i. induction s as [|a s IH]; intros i; simpl.
  - destruct (starts_with p []) eqn:E; [|done]. intros [= <-].
    apply starts_with_spec in E as [t E%(f_equal length)]. rewrite length_app in E. simpl in E. lia.
  - destruct (starts_with p (a :: s)) eqn:E.
    + intros [= <-]. apply starts_with_spec in E as [t E%(f_equal length)].
      rewrite length_app in E. simpl in E. lia.
    + intros (k & Hk & ->)%fmap_Some. specialize (IH _ Hk). lia.
Qed.

(** ** Lemmas: the line loop *)

(** A line: no CRLF inside. *)
Definition no_crlf (l : str) : Prop := find_sub CRLF l = None.

Lemma find_crlf_app l rest : no_crlf l -> find_sub CRLF (l ++ CRLF ++ rest) = Some (length l).
Proof.
  unfold no_crlf. induction l as [|a l IH]; [done|]. intros H.
  change ((a :: l) ++ CRLF ++ rest) with (a :: (l ++ CRLF ++ rest)).
  cbn [find_sub] in H |- *.
  assert (starts_with CRLF (a :: l ++ CRLF ++ rest) = false) as ->.
  { destruct l as [|b l]; cbn [starts_with CRLF app] in H |- *.
    - by rewrite !andb_false_r.
    - by destruct (ch_eqb CR a), (ch_eqb LF b). }
  destruct (starts_with CRLF (a :: l)); [done|]. apply fmap_None in H. by rewrite IH.
Qed.

Fixpoint lines_ref (fuel : nat) (s : str) : list str :=
  match fuel, s with
  | _, [] => []
  | 0, _ => []
  | S f, _ => match find_sub CRLF s with
              | None => [s]
              | Some e => take e s :: lines_ref f (drop (e + 2) s)
              end
  end.

Lemma lines_loop_ref fuel raw start : lines_loop fuel raw start = lines_ref fuel (drop start raw).
Proof.
  revert start. induction fuel as [|f IH]; intros start; simpl.
  { by destruct (drop start raw). }
  destruct (start <? length raw) eqn:Hs; bool_facts.
  - destruct (drop start raw) as [|c t] eqn:Hd.
    { apply (f_equal length) in Hd. rewrite length_drop in Hd. simpl in Hd. lia. }
    unfold find_sub_from. rewrite Hd. destruct (find_sub CRLF (c :: t)) as [e|] eqn:He; simpl; [|done].
    f_equal.
    + unfold substr. rewrite Hd. f_equal. lia.
    + rewrite IH. f_equal. rewrite <- Hd, drop_drop. f_equal. lia.
  - rewrite drop_ge by lia. done.
Qed.

Lemma lines_ref_fuel f f' s : length s <= f -> length s <= f' -> lines_ref f s = lines_ref f' s.
Proof.
  revert f' s. induction f as [|f IH]; intros f' s Hf Hf'.
  - destruct s; [|simpl in *; lia]. by destruct f'.
  - destruct s as [|c s]; [by destruct f'|]. destruct f' as [|f']; [simpl in *; lia|].
    cbn [lines_ref]. destruct (find_sub CRLF (c :: s)) as [e|] eqn:He; [|done].
    f_equal. apply IH; rewrite length_drop; simpl in *; lia.
Qed.

(** The loop started anywhere, with any sufficient fuel, yields the lines of the
    rest of the buffer: the fuel of [sv_lines] is enough. *)
Lemma lines_loop_fuel fuel raw start :
  length raw - start <= fuel -> lines_loop fuel raw start = sv_lines (drop start raw).
Proof.
  intros Hf. unfold sv_lines. rewrite !lines_loop_ref, drop_0.
  apply lines_ref_fuel; rewrite length_drop; lia.
Qed.

Lemma sv_lines_nil : sv_lines [] = [].
Proof. done. Qed.

Lemma sv_lines_cons l rest : no_crlf l -> sv_lines (l ++ CRLF ++ rest) = l :: sv_lines rest.
Proof.
  intros Hl. unfold sv_lines. rewrite !lines_loop_ref, !drop_0.
  pose proof (find_crlf_app l rest Hl) as Hfind.
  assert (length (l ++ CRLF ++ rest) = S (length l + 1 + length rest)) as Hlen.
  { rewrite !length_app. simpl. lia. }
  destruct (l ++ CRLF ++ rest) as [|c s] eqn:E; [done|].
  rewrite Hlen. cbn [lines_ref]. rewrite Hfind, <- E, take_app_length. f_equal.
  replace (length l + 2) with (length (l ++ CRLF)) by (rewrite length_app; simpl; lia).
  rewrite app_assoc, drop_app_length. apply lines_ref_fuel; lia.
Qed.

Lemma sv_lines_last l : l <> [] -> no_crlf l -> sv_lines l = [l].
Proof.
  intros Hne Hl. unfold sv_lines. rewrite lines_loop_ref, drop_0.
  destruct l as [|c l]; [done|]. cbn [length lines_ref]. unfold no_crlf in Hl. by rewrite Hl.
Qed.

(** ** Lemmas: decimal numbers *)

Definition decimal (s : str) : Prop := Forall (fun c => exists d, (0 <= d < 10)%Z /\ c = digit_char d) s.

Lemma digit_cases (P : Z -> Prop) d :
  (0 <= d < 10)%Z ->
  P 0%Z -> P 1%Z -> P 2%Z -> P 3%Z -> P 4%Z -> P 5%Z -> P 6%Z -> P 7%Z -> P 8%Z -> P 9%Z -> P d.
Proof.
  intros Hd. assert (d = 0 \/ d = 1 \/ d = 2 \/ d = 3 \/ d = 4 \/ d = 5 \/ d = 6 \/ d = 7
    \/ d = 8 \/ d = 9)%Z as Hc by lia. intuition (subst; assumption).
Qed.

Lemma digit_in_char d : (0 <= d < 10)%Z -> digit_in 10 (digit_char d) = Some d.
Proof. intros Hd. by apply (digit_cases (fun d => digit_in 10 (digit_char d) = Some d)). Qed.

(** A predicate that fails on every digit fails along a decimal string. *)
Lemma decimal_Forall (p : ascii -> bool) s :
  (forall d, (0 <= d < 10)%Z -> p (digit_char d) = false) -> decimal s -> Forall (fun c => p c = false) s.
Proof. intros Hp Hs. eapply Forall_impl; [exact Hs|]. intros c (d & Hd & ->). by apply Hp. Qed.

Lemma digit_not c d : (0 <= d < 10)%Z -> digit_in 10 c = None -> ch_eqb c (digit_char d) = false.
Proof.
  intros Hd Hc. apply Ascii.eqb_neq. intros ->. rewrite digit_in_char in Hc; done.
Qed.

Lemma digit_not' c d : (0 <= d < 10)%Z -> digit_in 10 c = None -> ch_eqb (digit_char d) c = false.
Proof. intros. unfold ch_eqb. rewrite Ascii.eqb_sym. by apply digit_not. Qed.

Lemma digit_not_space d : (0 <= d < 10)%Z -> is_space (digit_char d) = false.
Proof. intros Hd. by apply (digit_cases (fun d => is_space (digit_char d) = false)). Qed.

Lemma dec_digits_decimal fuel n : (0 <= n)%Z -> decimal (dec_digits fuel n).
Proof.
  revert n. induction fuel as [|f IH]; intros n Hn; simpl; [constructor|].
  destruct (n <? 10)%Z eqn:E; bool_facts.
  - constructor; [|constructor]. exists n. split; [lia|done].
  - apply Forall_app. split; [apply IH, Z.div_pos; lia|].
    constructor; [|constructor]. exists (n mod 10)%Z. split; [apply Z.mod_pos_bound; lia|done].
Qed.

Lemma read_digits_dec fuel n acc rest :
  (0 <= n < 10 ^ Z.of_nat (S fuel))%Z ->
  read_digits 10 acc (dec_digits (S fuel) n ++ rest) =
  read_digits 10 (acc * 10 ^ Z.of_nat (length (dec_digits (S fuel) n)) + n)%Z rest.
Proof.
  revert n acc rest. induction fuel as [|f IH]; intros n acc rest Hn.
  - cbn [dec_digits]. assert (n <? 10 = true)%Z as -> by (apply Z.ltb_lt; lia).
    cbn [app read_digits length]. rewrite digit_in_char by lia. f_equal; lia.
  - remember (S f) as f1. cbn [dec_digits]. destruct (n <? 10)%Z eqn:E; bool_facts.
    + cbn [app read_digits length]. rewrite digit_in_char by lia. f_equal; lia.
    + rewrite <- app_assoc. subst f1. rewrite IH.
      * cbn [app read_digits]. rewrite digit_in_char by (apply Z.mod_pos_bound; lia).
        rewrite length_app. cbn [length]. rewrite Nat2Z.inj_add, Z.pow_add_r by lia.
        f_equal. pose proof (Z.div_mod n 10). change (10 ^ Z.of_nat 1)%Z with 10%Z. lia.
      * rewrite Nat2Z.inj_succ, Z.pow_succ_r in Hn by lia.
        split; [apply Z.div_pos; lia|]. apply Z.div_lt_upper_bound; lia.
Qed.

Lemma log2_fuel n : (0 <= n)%Z -> (0 <= n < 10 ^ Z.of_nat (S (Z.to_nat (Z.log2 n))))%Z.
Proof.
  intros Hn. split; [done|]. destruct (Z.eq_dec n 0) as [->|Hne]; [done|].
  pose proof (Z.log2_spec n ltac:(lia)) as [_ Hlt]. pose proof (Z.log2_nonneg n).
  rewrite Nat2Z.inj_succ, Z2Nat.id by lia.
  eapply Z.lt_le_trans; [exact Hlt|]. apply Z.pow_le_mono_l. lia.
Qed.

Lemma fmt_u_decimal n : (0 <= n)%Z -> decimal (fmt_u n).
Proof. apply dec_digits_decimal. Qed.

Lemma fmt_u_ne n : fmt_u n <> [].
Proof.
  unfold fmt_u. cbn [dec_digits]. destruct (n <? 10)%Z; [done|]. by destruct (dec_digits _ _).
Qed.

Lemma fmt_u_head n : (0 <= n)%Z -> exists d t, (0 <= d < 10)%Z /\ fmt_u n = digit_char d :: t.
Proof.
  intros Hn. pose proof (fmt_u_decimal n Hn) as Hd. pose proof (fmt_u_ne n).
  destruct (fmt_u n) as [|c t]; [done|]. inversion Hd as [|? ? (d & ? & ->)]. eauto.
Qed.

Lemma fmt_u_find c n : (0 <= n)%Z -> digit_in 10 c = None -> find_char c (fmt_u n) = None.
Proof.
  intros Hn Hc. apply find_if_None. apply decimal_Forall; [|by apply fmt_u_decimal].
  intros d Hd. by apply digit_not.
Qed.

Lemma cstr_id s : Forall (fun c => ch_eqb c NUL = false) s -> cstr s = s.
Proof. induction 1 as [|c s Hc _ IH]; simpl; [done|]. by rewrite Hc, IH. Qed.

Lemma cstr_decimal s : decimal s -> cstr s = s.
Proof.
  intros H. apply cstr_id, (decimal_Forall (fun c => ch_eqb c NUL)); [|done].
  intros d Hd. by apply digit_not'.
Qed.

Lemma length_cstr s : length (cstr s) <= length s.
Proof. induction s as [|c s IH]; simpl; [lia|]. destruct (ch_eqb c NUL); simpl; lia. Qed.

Lemma read_number_fmt_u n : (0 <= n)%Z -> read_number 10 (fmt_u n) = Some (false, n, []).
Proof.
  intros Hn. unfold read_number. rewrite cstr_decimal by (by apply fmt_u_decimal).
  destruct (fmt_u_head n Hn) as (d & t & Hd & E).
  assert (skip_spaces (fmt_u n) = fmt_u n) as ->.
  { rewrite E. cbn [skip_spaces]. by rewrite digit_not_space. }
  assert (read_sign (fmt_u n) = (false, fmt_u n)) as ->.
  { rewrite E. unfold read_sign.
    by rewrite !digit_not'. }
  cbv beta iota zeta delta [Z.eqb Pos.eqb].
  pose proof (read_digits_dec _ _ 0 [] (log2_fuel n Hn)) as Hr.
  fold (fmt_u n) in Hr. rewrite app_nil_r, Z.mul_0_l, Z.add_0_l in Hr.
  rewrite E in Hr |- *. rewrite digit_in_char by done. by rewrite Hr.
Qed.

(** Printing and reading back a decimal number. *)
Lemma strtol_fmt_u n : (0 <= n <= LONG_MAX)%Z -> strtol (fmt_u n) = n.
Proof.
  intros Hn. unfold strtol. rewrite read_number_fmt_u by lia. unfold LONG_MIN, LONG_MAX in *. lia.
Qed.

Lemma i32_small z : (- 2 ^ 31 <= z < 2 ^ 31)%Z -> i32 z = z.
Proof. intros H. unfold i32. rewrite Z.mod_small; lia. Qed.

Lemma atoi_fmt_u n : (0 <= n < 2 ^ 31)%Z -> atoi (fmt_u n) = n.
Proof.
  intros Hn. unfold atoi. rewrite strtol_fmt_u by (unfold LONG_MAX; lia). apply i32_small; lia.
Qed.

Lemma strtoul_end_fmt_u n : (0 <= n <= ULONG_MAX)%Z -> strtoul_end 10 (fmt_u n) = (n, Some []).
Proof.
  intros Hn. unfold strtoul_end. rewrite read_number_fmt_u by lia.
  assert (ULONG_MAX <? n = false)%Z as -> by (apply Z.ltb_ge; lia).
  unfold u64. rewrite Z.mod_small by (unfold ULONG_MAX in Hn; lia). done.
Qed.

(** At most twenty digits for a 64-bit number. *)
Lemma dec_digits_length fuel n k :
  (0 <= n < 10 ^ Z.of_nat (S k))%Z -> length (dec_digits fuel n) <= S k.
Proof.
  revert n k. induction fuel as [|f IH]; intros n k Hn; simpl; [lia|].
  destruct (n <? 10)%Z eqn:E; bool_facts; [simpl; lia|].
  destruct k as [|k]; [simpl in Hn; lia|].
  rewrite length_app. simpl. rewrite Nat2Z.inj_succ, Z.pow_succ_r in Hn by lia.
  pose proof (IH (n / 10)%Z k). assert (0 <= n / 10 < 10 ^ Z.of_nat (S k))%Z; [|lia].
  split; [apply Z.div_pos; lia|]. apply Z.div_lt_upper_bound; lia.
Qed.

Lemma fmt_u_length n : (0 <= n <= ULONG_MAX)%Z -> length (fmt_u n) <= 20.
Proof.
  intros Hn. apply (dec_digits_length _ _ 19). split; [lia|].
  eapply Z.le_lt_trans; [apply Hn|]. done.
Qed.

(** ** Lemmas: fields *)

Lemma comma_fields_cons n a s :
  find_char COMMA a = None -> comma_fields (S n) (a ++ COMMA :: s) = a :: comma_fields n s.
Proof.
  intros Ha. pose proof (find_char_app COMMA a s Ha) as Hf.
  assert (a ++ COMMA :: s <> []) as Hne by (by destruct a).
  cbn [comma_fields]. destruct (a ++ COMMA :: s) as [|c t] eqn:E; [done|].
  rewrite Hf, <- E, take_app_length. f_equal.
  rewrite (cons_middle COMMA a s), app_assoc.
  replace (S (length a)) with (length (a ++ [COMMA])) by (rewrite length_app; simpl; lia).
  by rewrite drop_app_length.
Qed.

Lemma comma_fields_last n a : a <> [] -> find_char COMMA a = None -> comma_fields (S n) a = [a].
Proof. intros Hne Ha. cbn [comma_fields]. destruct a; [done|]. by rewrite Ha. Qed.

Lemma comma_fields_length n s : length (comma_fields n s) <= n.
Proof.
  revert s. induction n as [|n IH]; intros s; [done|]. cbn [comma_fields].
  destruct s; [simpl; lia|]. destruct (find_char _ _); simpl; [|lia]. specialize (IH (drop n0 s)). lia.
Qed.

Lemma mem_false_first set s :
  Forall (fun c => mem set c = false) s -> s <> [] -> strip set s = s.
Proof.
  intros Hs Hne. unfold strip.
  assert (forall t, Forall (fun c => mem set c = false) t -> t <> [] ->
    find_if (fun c => negb (mem set c)) t = Some 0) as Hf.
  { intros [|c t]; [done|]. inversion 1 as [|? ? Hc]. simpl. by rewrite Hc. }
  unfold find_first_not_of, find_last_not_of. rewrite (Hf s), (Hf (reverse s)); try done.
  - simpl. unfold substr. rewrite drop_0. apply take_ge. destruct s; [done|simpl; lia].
  - by apply Forall_reverse.
  - intros E. apply (f_equal reverse) in E. rewrite reverse_involutive in E. done.
Qed.
