(* ===== verification/Log.v ===== *)
(** * Log messages (include/hal/log.h)

    The macros are chosen by the preprocessor: [Defines] holds the level definitions
    given to the compiler.  A macro that is switched off expands to an empty block,
    one that is switched on writes a time stamp, the formatted text and a line end:
    to the console with [printk] on Zephyr, to [stdout] or [stderr] elsewhere.  The
    text is the result of formatting the macro's arguments.  The theorems relate the
    sixteen macros to one description of a log line and read the time stamps back. *)

From S2P Require Import Prelude CLib.

(** ** Levels *)

Definition MODEM_LOG_LEVEL_NONE : Z := 0.
Definition MODEM_LOG_LEVEL_ERR : Z := 1.
Definition MODEM_LOG_LEVEL_WRN : Z := 2.
Definition MODEM_LOG_LEVEL_INF : Z := 3.
Definition MODEM_LOG_LEVEL_DBG : Z := 4.

(** [-DMODEM_LOG_LEVEL=...] and [-DNETWORK_LOG_LEVEL=...]; [None] is not defined. *)
Record Defines := mkDefines { D_MODEM : option Z; D_NETWORK : option Z }.

Definition MODEM_LOG_LEVEL (cfg : Defines) : Z := default MODEM_LOG_LEVEL_INF (D_MODEM cfg).
Definition NETWORK_LOG_LEVEL (cfg : Defines) : Z := default (MODEM_LOG_LEVEL cfg) (D_NETWORK cfg).

Inductive LogModule := Log_modem | Log_network.
Inductive Level := DBG | INF | WRN | ERR.

(** [%02u], [%03u]. *)
Definition fmt_0u (width : nat) (n : Z) : str := replicate (width - length (fmt_u n)) "0"%char ++ fmt_u n.
(** [%02d], [%03d]: the sign counts. *)
Definition fmt_0d (width : nat) (n : Z) : str :=
  if (n <? 0)%Z then "-"%char :: fmt_0u (width - 1) (- n) else fmt_0u width n.

(** The size of [s_buf]. *)
Definition STAMP_SIZE : nat := 24.

(** ** Zephyr *)

Module ZephyrLog.

(** The text on the console. *)
Definition printk (text : str) (c : str) : str := c ++ text.

(** [now] is [k_uptime_get()]. *)
Definition timestamp (now : Z) : str :=
  let uptime_ms := now in
  let ms := u32 (Z.rem uptime_ms 1000) in
  let total_seconds := u32 (Z.quot uptime_ms 1000) in
  let sec := (total_seconds mod 60)%Z in
  let total_seconds := (total_seconds / 60)%Z in
  let min := (total_seconds mod 60)%Z in
  let total_seconds := (total_seconds / 60)%Z in
  let hour := (total_seconds mod 24)%Z in
  snprintf STAMP_SIZE
    (fmt_0u 2 hour ++ lit ":" ++ fmt_0u 2 min ++ lit ":" ++ fmt_0u 2 sec ++ lit "." ++ fmt_0u 3 ms).

Definition MODEM_LOG_DBG (cfg : Defines) (now : Z) (text : str) (c : str) : str :=
  if (MODEM_LOG_LEVEL cfg >=? MODEM_LOG_LEVEL_DBG)%Z then
    let c := printk (lit "[" ++ timestamp now ++ lit "][DBG][M] ") c in
    let c := printk text c in
    printk [LF] c
  else c.

Definition MODEM_LOG_INF (cfg : Defines) (now : Z) (text : str) (c : str) : str :=
  if (MODEM_LOG_LEVEL cfg >=? MODEM_LOG_LEVEL_INF)%Z then
    let c := printk (lit "[" ++ timestamp now ++ lit "][INF][M] ") c in
    let c := printk text c in
    printk [LF] c
  else c.

Definition MODEM_LOG_WRN (cfg : Defines) (now : Z) (text : str) (c : str) : str :=
  if (MODEM_LOG_LEVEL cfg >=? MODEM_LOG_LEVEL_WRN)%Z then
    let c := printk (lit "[" ++ timestamp now ++ lit "][WRN][M] ") c in
    let c := printk text c in
    printk [LF] c
  else c.

Definition MODEM_LOG_ERR (cfg : Defines) (now : Z) (text : str) (c : str) : str :=
  if (MODEM_LOG_LEVEL cfg >=? MODEM_LOG_LEVEL_ERR)%Z then
    let c := printk (lit "[" ++ timestamp now ++ lit "][ERR][M] ") c in
    let c := printk text c in
    printk [LF] c
  else c.

Definition NETWORK_LOG_DBG (cfg : Defines) (now : Z) (text : str) (c : str) : str :=
  if (NETWORK_LOG_LEVEL cfg >=? MODEM_LOG_LEVEL_DBG)%Z then
    let c := printk (lit "[" ++ timestamp now ++ lit "][DBG][N] ") c in
    let c := printk text c in
    printk [LF] c
  else c.

Definition NETWORK_LOG_INF (cfg : Defines) (now : Z) (text : str) (c : str) : str :=
  if (NETWORK_LOG_LEVEL cfg >=? MODEM_LOG_LEVEL_INF)%Z then
    let c := printk (lit "[" ++ timestamp now ++ lit "][INF][N] ") c in
    let c := printk text c in
    printk [LF] c
  else c.

Definition NETWORK_LOG_WRN (cfg : Defines) (now : Z) (text : str) (c : str) : str :=
  if (NETWORK_LOG_LEVEL cfg >=? MODEM_LOG_LEVEL_WRN)%Z then
    let c := printk (lit "[" ++ timestamp now ++ lit "][WRN][N] ") c in
    let c := printk text c in
    printk [LF] c
  else c.

Definition NETWORK_LOG_ERR (cfg : Defines) (now : Z) (text : str) (c : str) : str :=
  if (NETWORK_LOG_LEVEL cfg >=? MODEM_LOG_LEVEL_ERR)%Z then
    let c := printk (lit "[" ++ timestamp now ++ lit "][ERR][N] ") c in
    let c := printk text c in
    printk [LF] c
  else c.

(** The macro of a module and a level. *)
Definition log_macro (m : LogModule) (l : Level) : Defines -> Z -> str -> str -> str :=
  match m, l with
  | Log_modem, DBG => MODEM_LOG_DBG
  | Log_modem, INF => MODEM_LOG_INF
  | Log_modem, WRN => MODEM_LOG_WRN
  | Log_modem, ERR => MODEM_LOG_ERR
  | Log_network, DBG => NETWORK_LOG_DBG
  | Log_network, INF => NETWORK_LOG_INF
  | Log_network, WRN => NETWORK_LOG_WRN
  | Log_network, ERR => NETWORK_LOG_ERR
  end.

End ZephyrLog.

(** ** POSIX and Windows *)

(** What [localtime_r] and [localtime_s] fill in, as far as it is used. *)
Record Tm := mkTm { tm_hour : Z; tm_min : Z; tm_sec : Z }.
Class LocalTime := { localtime : Z -> Tm }.
(** Documented ranges; 60 is a leap second. *)
Class LocalTimeLaws {HT : LocalTime} : Prop := {
  localtime_range t : (0 <= tm_hour (localtime t) < 24 /\ 0 <= tm_min (localtime t) < 60 /\
                       0 <= tm_sec (localtime t) <= 60)%Z }.

Module StdLog.
Section StdLog.
Context {HT : LocalTime}.

Record Output := mkOutput { out : str; err : str }.
Inductive Stream := stdout | stderr.
Definition fprintf (f : Stream) (text : str) (o : Output) : Output :=
  match f with
  | stdout => mkOutput (out o ++ text) (err o)
  | stderr => mkOutput (out o) (err o ++ text)
  end.

(** [now] is [clock::now()] in nanoseconds since the epoch. *)
Definition timestamp (now : Z) : str :=
  let ms := Z.rem (Z.quot now 1000000) 1000 in
  let t := Z.quot now 1000000000 in
  let tm_buf := localtime t in
  snprintf STAMP_SIZE
    (fmt_0d 2 (tm_hour tm_buf) ++ lit ":" ++ fmt_0d 2 (tm_min tm_buf) ++ lit ":" ++
     fmt_0d 2 (tm_sec tm_buf) ++ lit "." ++ fmt_0d 3 ms).

Definition MODEM_LOG_DBG (cfg : Defines) (now : Z) (text : str) (o : Output) : Output :=
  if (MODEM_LOG_LEVEL cfg >=? MODEM_LOG_LEVEL_DBG)%Z then
    let o := fprintf stdout (lit "[" ++ timestamp now ++ lit "][DBG][M] ") o in
    let o := fprintf stdout text o in
    fprintf stdout [LF] o
  else o.

Definition MODEM_LOG_INF (cfg : Defines) (now : Z) (text : str) (o : Output) : Output :=
  if (MODEM_LOG_LEVEL cfg >=? MODEM_LOG_LEVEL_INF)%Z then
    let o := fprintf stdout (lit "[" ++ timestamp now ++ lit "][INF][M] ") o in
    let o := fprintf stdout text o in
    fprintf stdout [LF] o
  else o.

Definition MODEM_LOG_WRN (cfg : Defines) (now : Z) (text : str) (o : Output) : Output :=
  if (MODEM_LOG_LEVEL cfg >=? MODEM_LOG_LEVEL_WRN)%Z then
    let o := fprintf stderr (lit "[" ++ timestamp now ++ lit "][WRN][M] ") o in
    let o := fprintf stderr text o in
    fprintf stderr [LF] o
  else o.

Definition MODEM_LOG_ERR (cfg : Defines) (now : Z) (text : str) (o : Output) : Output :=
  if (MODEM_LOG_LEVEL cfg >=? MODEM_LOG_LEVEL_ERR)%Z then
    let o := fprintf stderr (lit "[" ++ timestamp now ++ lit "][ERR][M] ") o in
    let o := fprintf stderr text o in
    fprintf stderr [LF] o
  else o.

Definition NETWORK_LOG_DBG (cfg : Defines) (now : Z) (text : str) (o : Output) : Output :=
  if (NETWORK_LOG_LEVEL cfg >=? MODEM_LOG_LEVEL_DBG)%Z then
    let o := fprintf stdout (lit "[" ++ timestamp now ++ lit "][DBG][N] ") o in
    let o := fprintf stdout text o in
    fprintf stdout [LF] o
  else o.

Definition NETWORK_LOG_INF (cfg : Defines) (now : Z) (text : str) (o : Output) : Output :=
  if (NETWORK_LOG_LEVEL cfg >=? MODEM_LOG_LEVEL_INF)%Z then
    let o := fprintf stdout (lit "[" ++ timestamp now ++ lit "][INF][N] ") o in
    let o := fprintf stdout text o in
    fprintf stdout [LF] o
  else o.

Definition NETWORK_LOG_WRN (cfg : Defines) (now : Z) (text : str) (o : Output) : Output :=
  if (NETWORK_LOG_LEVEL cfg >=? MODEM_LOG_LEVEL_WRN)%Z then
    let o := fprintf stderr (lit "[" ++ timestamp now ++ lit "][WRN][N] ") o in
    let o := fprintf stderr text o in
    fprintf stderr [LF] o
  else o.

Definition NETWORK_LOG_ERR (cfg : Defines) (now : Z) (text : str) (o : Output) : Output :=
  if (NETWORK_LOG_LEVEL cfg >=? MODEM_LOG_LEVEL_ERR)%Z then
    let o := fprintf stderr (lit "[" ++ timestamp now ++ lit "][ERR][N] ") o in
    let o := fprintf stderr text o in
    fprintf stderr [LF] o
  else o.

(** The macro of a module and a level. *)
Definition log_macro (m : LogModule) (l : Level) : Defines -> Z -> str -> Output -> Output :=
  match m, l with
  | Log_modem, DBG => MODEM_LOG_DBG
  | Log_modem, INF => MODEM_LOG_INF
  | Log_modem, WRN => MODEM_LOG_WRN
  | Log_modem, ERR => MODEM_LOG_ERR
  | Log_network, DBG => NETWORK_LOG_DBG
  | Log_network, INF => NETWORK_LOG_INF
  | Log_network, WRN => NETWORK_LOG_WRN
  | Log_network, ERR => NETWORK_LOG_ERR
  end.

End StdLog.
End StdLog.

(** ** What a log message is *)

Definition level_val (l : Level) : Z :=
  match l with
  | ERR => MODEM_LOG_LEVEL_ERR | WRN => MODEM_LOG_LEVEL_WRN
  | INF => MODEM_LOG_LEVEL_INF | DBG => MODEM_LOG_LEVEL_DBG
  end.
Definition level_name (l : Level) : str :=
  match l with ERR => lit "ERR" | WRN => lit "WRN" | INF => lit "INF" | DBG => lit "DBG" end.
Definition module_name (m : LogModule) : str := match m with Log_modem => lit "M" | Log_network => lit "N" end.

(** The level a module is compiled with. *)
Definition threshold (cfg : Defines) (m : LogModule) : Z :=
  match m with Log_modem => MODEM_LOG_LEVEL cfg | Log_network => NETWORK_LOG_LEVEL cfg end.
Definition enabled (cfg : Defines) (m : LogModule) (l : Level) : bool := (level_val l <=? threshold cfg m)%Z.

Definition log_text (stamp : str) (m : LogModule) (l : Level) (text : str) : str :=
  lit "[" ++ stamp ++ lit "][" ++ level_name l ++ lit "][" ++ module_name m ++ lit "] " ++ text ++ [LF].

(** Warnings and errors go to [stderr]. *)
Definition is_severe (l : Level) : bool := match l with WRN | ERR => true | _ => false end.

(** A message: its module, level, time and text. *)
Record Message := mkMessage { msg_module : LogModule; msg_level : Level; msg_time : Z; msg_text : str }.

Definition run_log {O} (log : LogModule -> Level -> Defines -> Z -> str -> O -> O) (cfg : Defines) (ms : list Message) (o : O) : O :=
  foldl (fun o m => log (msg_module m) (msg_level m) cfg (msg_time m) (msg_text m) o) o ms.

(** The lines of the messages that are enabled and chosen by [keep]. *)
Definition lines_of (stamp : Z -> str) (cfg : Defines) (keep : Level -> bool) (ms : list Message) : str :=
  mjoin ((fun m => log_text (stamp (msg_time m)) (msg_module m) (msg_level m) (msg_text m)) <$>
         filter (fun m => enabled cfg (msg_module m) (msg_level m) && keep (msg_level m) = true) ms).

Lemma lines_of_snoc stamp cfg keep ms m :
  lines_of stamp cfg keep (ms ++ [m]) =
  lines_of stamp cfg keep ms ++
  (if enabled cfg (msg_module m) (msg_level m) && keep (msg_level m)
   then log_text (stamp (msg_time m)) (msg_module m) (msg_level m) (msg_text m) else []).
Proof.
  unfold lines_of. rewrite filter_app, fmap_app, join_app. f_equal. cbn [filter list_filter].
  destruct (enabled _ _ _ && keep _); [|done]. rewrite decide_True by done. apply app_nil_r.
Qed.

Lemma zephyr_macro m l cfg now text c :
  ZephyrLog.log_macro m l cfg now text c =
  c ++ (if enabled cfg m l then log_text (ZephyrLog.timestamp now) m l text else []).
Proof.
  unfold enabled, log_text. destruct m, l; cbn [ZephyrLog.log_macro level_val level_name module_name threshold];
    unfold ZephyrLog.MODEM_LOG_DBG, ZephyrLog.MODEM_LOG_INF, ZephyrLog.MODEM_LOG_WRN, ZephyrLog.MODEM_LOG_ERR,
      ZephyrLog.NETWORK_LOG_DBG, ZephyrLog.NETWORK_LOG_INF, ZephyrLog.NETWORK_LOG_WRN, ZephyrLog.NETWORK_LOG_ERR,
      ZephyrLog.printk;
    rewrite Z.geb_leb; (case_goal; [by rewrite <- !app_assoc|by rewrite app_nil_r]).
Qed.

Section Std.
Context {HT : LocalTime}.
Import StdLog.

Lemma std_macro m l cfg now text o :
  StdLog.log_macro m l cfg now text o =
  mkOutput (out o ++ (if enabled cfg m l && negb (is_severe l) then log_text (StdLog.timestamp now) m l text else []))
           (err o ++ (if enabled cfg m l && is_severe l then log_text (StdLog.timestamp now) m l text else [])).
Proof.
  unfold enabled, log_text. destruct o as [o e], m, l; cbn [StdLog.log_macro level_val level_name module_name threshold is_severe];
    unfold StdLog.MODEM_LOG_DBG, StdLog.MODEM_LOG_INF, StdLog.MODEM_LOG_WRN, StdLog.MODEM_LOG_ERR,
      StdLog.NETWORK_LOG_DBG, StdLog.NETWORK_LOG_INF, StdLog.NETWORK_LOG_WRN, StdLog.NETWORK_LOG_ERR,
      StdLog.fprintf;
    rewrite Z.geb_leb, ?andb_true_r, ?andb_false_r; cbn [out err negb];
    rewrite ?andb_true_r, ?andb_false_r; (case_goal; cbn [out err]; by rewrite <- ?app_assoc, ?app_nil_r).
Qed.

End Std.

(** Log messages, on every platform and for every choice of compile-time levels:
    of a sequence of messages exactly those are written whose level is at most the
    level their module is compiled with, in order, each as one line
    [[stamp][level][module] text]; the other macros have no effect.  On Zephyr all
    go to the console; elsewhere warnings and errors go to [stderr] and the rest to
    [stdout].  Without definitions, debug messages only are left out. *)
Theorem log_messages_written `{LocalTime} (cfg : Defines) (ms : list Message) (c : str) (o : StdLog.Output) :
  run_log ZephyrLog.log_macro cfg ms c = c ++ lines_of ZephyrLog.timestamp cfg (fun _ => true) ms /\
  run_log StdLog.log_macro cfg ms o =
    StdLog.mkOutput (StdLog.out o ++ lines_of StdLog.timestamp cfg (fun l => negb (is_severe l)) ms)
                    (StdLog.err o ++ lines_of StdLog.timestamp cfg is_severe ms) /\
  (forall m l, enabled (mkDefines None None) m l = match l with DBG => false | _ => true end).
Proof.
  split_and!.
  - induction ms as [|m ms IH] using rev_ind; [symmetry; apply app_nil_r|].
    unfold run_log in *. rewrite foldl_app. cbn [foldl]. rewrite IH, zephyr_macro, lines_of_snoc, andb_true_r.
    by rewrite app_assoc.
  - induction ms as [|m ms IH] using rev_ind; [destruct o; unfold run_log, lines_of; cbn; by rewrite !app_nil_r|].
    unfold run_log in *. rewrite foldl_app. cbn [foldl]. rewrite IH, std_macro, !lines_of_snoc. cbn [StdLog.out StdLog.err].
    by rewrite !app_assoc.
  - intros m l. by destruct m, l.
Qed.

(** ** Time stamps *)

Definition digits2 (a b : ascii) : option Z :=
  match digit_in 10 a, digit_in 10 b with Some x, Some y => Some (10 * x + y)%Z | _, _ => None end.

(** A reader of [hh:mm:ss.mmm]. *)
Definition read_stamp (s : str) : option (Z * Z * Z * Z) :=
  match s with
  | [h1; h2; c1; m1; m2; c2; s1; s2; p; x; y; z] =>
      if ch_eqb c1 ":" && ch_eqb c2 ":" && ch_eqb p "." then
        match digits2 h1 h2, digits2 m1 m2, digits2 s1 s2, digits2 x y, digit_in 10 z with
        | Some h, Some m, Some s, Some xy, Some z => Some (h, m, s, 10 * xy + z)%Z
        | _, _, _, _, _ => None
        end
      else None
  | _ => None
  end.

Lemma below_forallb (p : Z -> bool) (k : nat) n :
  forallb (fun i => p (Z.of_nat i)) (seq 0 k) = true -> (0 <= n < Z.of_nat k)%Z -> p n = true.
Proof.
  intros Hp Hn. rewrite forallb_forall in Hp. specialize (Hp (Z.to_nat n)).
  rewrite Z2Nat.id in Hp by lia. apply Hp, in_seq. lia.
Qed.

Lemma fmt_02u n : (0 <= n < 100)%Z -> exists a b, fmt_0u 2 n = [a; b] /\ digits2 a b = Some n.
Proof.
  intros Hn.
  set (p := fun n => match fmt_0u 2 n with [a; b] => bool_decide (digits2 a b = Some n) | _ => false end).
  assert (p n = true) as H by (apply (below_forallb p 100); [vm_compute; reflexivity|lia]).
  unfold p in H. destruct (fmt_0u 2 n) as [|a [|b [|]]]; try done. bool_facts. by exists a, b.
Qed.

Lemma fmt_03u n : (0 <= n < 1000)%Z ->
  exists a b c, fmt_0u 3 n = [a; b; c] /\
    match digits2 a b, digit_in 10 c with Some x, Some y => Some (10 * x + y)%Z | _, _ => None end = Some n.
Proof.
  intros Hn.
  set (p := fun n => match fmt_0u 3 n with
    | [a; b; c] => bool_decide (match digits2 a b, digit_in 10 c with Some x, Some y => Some (10 * x + y)%Z | _, _ => None end = Some n)
    | _ => false end).
  assert (p n = true) as H by (apply (below_forallb p 1000); [vm_compute; reflexivity|lia]).
  unfold p in H. destruct (fmt_0u 3 n) as [|a [|b [|c [|]]]]; try done. bool_facts. by exists a, b, c.
Qed.

Lemma stamp_reads h m s ms :
  (0 <= h < 100)%Z -> (0 <= m < 100)%Z -> (0 <= s < 100)%Z -> (0 <= ms < 1000)%Z ->
  read_stamp (snprintf STAMP_SIZE
    (fmt_0u 2 h ++ lit ":" ++ fmt_0u 2 m ++ lit ":" ++ fmt_0u 2 s ++ lit "." ++ fmt_0u 3 ms)) = Some (h, m, s, ms).
Proof.
  intros Hh Hm Hs Hms.
  destruct (fmt_02u h Hh) as (h1 & h2 & -> & Eh), (fmt_02u m Hm) as (m1 & m2 & -> & Em),
    (fmt_02u s Hs) as (s1 & s2 & -> & Es), (fmt_03u ms Hms) as (x & y & z & -> & Ez).
  cbn. rewrite Eh, Em, Es. destruct (digits2 x y), (digit_in 10 z); try done. by injection Ez as ->.
Qed.

Lemma fmt_0d_nonneg w n : (0 <= n)%Z -> fmt_0d w n = fmt_0u w n.
Proof. intros Hn. unfold fmt_0d. destruct (Z.ltb_spec n 0); [lia|done]. Qed.

(** Time stamps are never cut off and read back exactly: on Zephyr as the time of
    the day counted from the start, for uptimes up to 2^32 seconds (the cast to 32
    bits loses nothing before); elsewhere as the local time and the milliseconds of
    the clock, for times since the epoch. *)
Theorem timestamps_exact `{LocalTimeLaws} (uptime_ms now : Z) :
  (0 <= uptime_ms < 2 ^ 32 * 1000)%Z -> (0 <= now)%Z ->
  (exists h m s ms, read_stamp (ZephyrLog.timestamp uptime_ms) = Some (h, m, s, ms) /\
     (0 <= h < 24 /\ 0 <= m < 60 /\ 0 <= s < 60 /\ 0 <= ms < 1000 /\
      ((h * 60 + m) * 60 + s) * 1000 + ms = uptime_ms mod 86400000)%Z) /\
  let tm := localtime (now / 1000000000)%Z in
  read_stamp (StdLog.timestamp now) = Some (tm_hour tm, tm_min tm, tm_sec tm, (now / 1000000) mod 1000)%Z.
Proof.
  intros Hu Hn. split.
  - unfold ZephyrLog.timestamp. rewrite Z.rem_mod_nonneg, Z.quot_div_nonneg by lia.
    assert (0 <= uptime_ms / 1000 < 2 ^ 32)%Z as Hs
      by (split; [apply Z.div_pos; lia|apply Z.div_lt_upper_bound; lia]).
    unfold u32. rewrite (Z.mod_small (uptime_ms / 1000)) by lia.
    pose proof (Z.mod_pos_bound uptime_ms 1000 ltac:(lia)). rewrite (Z.mod_small (uptime_ms mod 1000)) by lia.
    eexists _, _, _, _. split; [apply stamp_reads; (split; [apply Z.mod_pos_bound; lia|eapply Z.lt_trans; [apply Z.mod_pos_bound; lia|lia]]) || lia|].
    rewrite !Z.div_div by lia. Z.to_euclidean_division_equations. lia.
  - intros tm. unfold StdLog.timestamp. rewrite !Z.quot_div_nonneg by lia. fold tm.
    pose proof (localtime_range (now / 1000000000)) as Hr. fold tm in Hr.
    assert (0 <= now / 1000000)%Z by (apply Z.div_pos; lia). rewrite Z.rem_mod_nonneg by lia.
    pose proof (Z.mod_pos_bound (now / 1000000) 1000 ltac:(lia)).
    rewrite !fmt_0d_nonneg by lia. apply stamp_reads; lia.
Qed.

#[local] Instance utc : LocalTime :=
  {| localtime t := mkTm ((t / 3600) mod 24) ((t / 60) mod 60) (t mod 60) |}.
#[local] Instance utc_laws : LocalTimeLaws.
Proof.
  split. intros t. cbn. pose proof (Z.mod_pos_bound (t / 3600) 24 ltac:(lia)).
  pose proof (Z.mod_pos_bound (t / 60) 60 ltac:(lia)). pose proof (Z.mod_pos_bound t 60 ltac:(lia)). lia.
Qed.

Lemma timestamps_exact_witness :
  ZephyrLog.timestamp 90061007 = lit "01:01:01.007" /\
  read_stamp (StdLog.timestamp 1700000000123456789) = Some (22, 13, 20, 123)%Z.
Proof. split; [reflexivity|]. exact (proj2 (timestamps_exact 0 1700000000123456789 ltac:(lia) ltac:(lia))). Defined.
