(* ===== verification/FixedString.v ===== *)
(** * [FixedString<Capacity>]: the heap-free string (include/hal/fixed_string.h)

    The object is its character array and its size.  [view] is the abstract
    value; the refinement theorem states that the array operations implement a
    string truncated to the capacity, which is the value the other components
    compute with ([fs_set], [fs_cat]). *)

From S2P Require Import Prelude CLib.

Record FixedString := mkFS { buf_ : str; size_ : nat }.

(** [memcpy(buf + off, src, n)] for the whole of [src].  A write that does not
    fit makes the array longer, which the invariant rules out. *)
Definition memcpy (buf : str) (off : nat) (src : str) : str :=
  take off buf ++ src ++ drop (off + length src) buf.

Section FixedString.
Variable Capacity : nat.

Implicit Type fs : FixedString.

(** ** Data *)

Definition fs_min (a b : nat) : nat := if a <? b then a else b.

Definition terminate (buf : str) (size : nat) : FixedString :=
  mkFS (memcpy buf size [NUL]) size.

Definition zeroed : str := replicate (S Capacity) NUL.

(** ** Constructors *)

Definition fs_default : FixedString := mkFS (memcpy zeroed 0 [NUL]) 0.

(** [FixedString(const char* s)]; [None] is [nullptr]. *)
Definition fs_of_cstr (s : option str) : FixedString :=
  match s with
  | Some s => let size := fs_min (length (cstr s)) Capacity in
              terminate (memcpy zeroed 0 (take size (cstr s))) size
  | None => terminate zeroed 0
  end.

(** [FixedString(const char* s, size_t len)]. *)
Definition fs_of_ptr (s : str) (len : nat) : FixedString :=
  let size := fs_min len Capacity in terminate (memcpy zeroed 0 (take size s)) size.

(** [FixedString(std::string_view sv)]. *)
Definition fs_of_sv (sv : str) : FixedString :=
  let size := fs_min (length sv) Capacity in terminate (memcpy zeroed 0 (take size sv)) size.

(** ** Observers *)

Definition view fs : str := take (size_ fs) (buf_ fs).
Definition fs_empty fs : bool := size_ fs =? 0.
Definition fs_full_size fs : nat := size_ fs.
Definition fs_find_char (c : ascii) (pos : nat) fs : option nat := find_char_from c (view fs) pos.
Definition fs_find (sv : str) (pos : nat) fs : option nat := find_sub_from sv (view fs) pos.
Definition fs_eqb fs (other : str) : bool := str_eqb (view fs) other.

(** ** Assignment and modifiers *)

Definition fs_assign_cstr fs (s : option str) : FixedString :=
  match s with
  | Some s => let size := fs_min (length (cstr s)) Capacity in
              terminate (memcpy (buf_ fs) 0 (take size (cstr s))) size
  | None => terminate (buf_ fs) 0
  end.

Definition fs_assign fs (sv : str) : FixedString :=
  let size := fs_min (length sv) Capacity in
  terminate (memcpy (buf_ fs) 0 (take size sv)) size.

Definition fs_clear fs : FixedString := mkFS (memcpy (buf_ fs) 0 [NUL]) 0.

(** [append(s, len)]: [s] holds at least [len] characters. *)
Definition fs_append fs (s : str) : FixedString :=
  let to_copy := fs_min (length s) (Capacity - size_ fs) in
  terminate (memcpy (buf_ fs) (size_ fs) (take to_copy s)) (size_ fs + to_copy).

Definition fs_push fs (c : ascii) : FixedString :=
  if size_ fs <? Capacity
  then terminate (memcpy (buf_ fs) (size_ fs) [c]) (size_ fs + 1)
  else fs.

(** [erase(pos, count)], [None] for [NPOS]; [pos + count] is below [2^64]. *)
Definition fs_erase fs (pos : nat) (count : option nat) : FixedString :=
  if size_ fs <=? pos then fs
  else match count with
       | None => terminate (buf_ fs) pos
       | Some n =>
           if size_ fs <=? pos + n then terminate (buf_ fs) pos
           else terminate
                  (memcpy (buf_ fs) pos (take (size_ fs - pos - n) (drop (pos + n) (buf_ fs))))
                  (size_ fs - n)
       end.

Definition fs_substr fs (pos : nat) (count : option nat) : FixedString :=
  if size_ fs <=? pos then fs_default
  else let len := match count with
                  | None => size_ fs - pos
                  | Some n => fs_min n (size_ fs - pos)
                  end in
       fs_of_ptr (drop pos (buf_ fs)) len.

Definition fs_set_size fs (n : nat) : FixedString := terminate (buf_ fs) (fs_min n Capacity).

(** [operator+(const FixedString<N>&, std::string_view)] and its mirror image. *)
Definition fs_concat_r fs (rhs : str) : FixedString := fs_append fs rhs.
Definition fs_concat_l (lhs : str) fs : FixedString := fs_append (fs_of_sv lhs) (view fs).

(** ** Invariant *)

Definition fs_wf fs : Prop :=
  length (buf_ fs) = S Capacity /\ size_ fs <= Capacity /\ buf_ fs !! size_ fs = Some NUL.

End FixedString.

(** ** Abstract operations used by the other components *)

Definition fs_set (cap : nat) (s : str) : str := take cap s.
Definition fs_cat (cap : nat) (v s : str) : str := take cap (v ++ s).
Definition fs_cstr (cap : nat) (s : str) : str := take cap (cstr s).

(** A script of mutating calls and its two executions. *)
Inductive fs_op :=
| OpAssign (sv : str)
| OpAssignC (s : option str)
| OpClear
| OpAppend (s : str)
| OpPush (c : ascii)
| OpErase (pos : nat) (count : option nat)
| OpSubstr (pos : nat) (count : option nat).

Definition fs_run (cap : nat) (fs : FixedString) (op : fs_op) : FixedString :=
  match op with
  | OpAssign sv => fs_assign cap fs sv
  | OpAssignC s => fs_assign_cstr cap fs s
  | OpClear => fs_clear fs
  | OpAppend s => fs_append cap fs s
  | OpPush c => fs_push cap fs c
  | OpErase pos count => fs_erase fs pos count
  | OpSubstr pos count => fs_substr cap fs pos count
  end.

Definition fs_spec (cap : nat) (v : str) (op : fs_op) : str :=
  match op with
  | OpAssign sv => fs_set cap sv
  | OpAssignC (Some s) => fs_cstr cap s
  | OpAssignC None => []
  | OpClear => []
  | OpAppend s => fs_cat cap v s
  | OpPush c => fs_cat cap v [c]
  | OpErase pos None => take pos v
  | OpErase pos (Some n) => take pos v ++ drop (pos + n) v
  | OpSubstr pos None => drop pos v
  | OpSubstr pos (Some n) => take n (drop pos v)
  end.

(** ** Lemmas *)

Lemma fs_min_min a b : fs_min a b = a `min` b.
Proof. unfold fs_min. destruct (a <? b) eqn:E; bool_facts; lia. Qed.

Lemma length_memcpy buf off src :
  off + length src <= length buf -> length (memcpy buf off src) = length buf.
Proof. intros H. unfold memcpy. rewrite !length_app, length_take, length_drop. lia. Qed.

Lemma take_memcpy_le buf off src n : n <= off -> off <= length buf -> take n (memcpy buf off src) = take n buf.
Proof.
  intros Hn Ho. unfold memcpy. rewrite take_app_le by (rewrite length_take; lia).
  rewrite take_take. f_equal. lia.
Qed.

Lemma take_memcpy_end buf off src :
  off <= length buf -> take (off + length src) (memcpy buf off src) = take off buf ++ src.
Proof.
  intros Ho. unfold memcpy. rewrite app_assoc, take_app_le.
  - apply take_ge. rewrite length_app, length_take. lia.
  - rewrite length_app, length_take. lia.
Qed.

Lemma lookup_memcpy_first buf off c : off < length buf -> memcpy buf off [c] !! off = Some c.
Proof.
  intros Ho. unfold memcpy. rewrite lookup_app_r; rewrite length_take.
  - by replace (off - off `min` length buf) with 0 by lia.
  - lia.
Qed.

(** Every operation ends by terminating an array of the right length. *)
Lemma terminate_wf cap buf n :
  length buf = S cap -> n <= cap -> fs_wf cap (terminate buf n) /\ view (terminate buf n) = take n buf.
Proof.
  intros Hl Hn. unfold fs_wf, view, terminate. simpl. repeat split.
  - rewrite length_memcpy; simpl; lia.
  - done.
  - apply lookup_memcpy_first. lia.
  - apply take_memcpy_le; lia.
Qed.

(** [memcpy] of [src] at [off], then termination after it. *)
Lemma terminate_memcpy cap buf off src :
  length buf = S cap -> off + length src <= cap ->
  fs_wf cap (terminate (memcpy buf off src) (off + length src)) /\
  view (terminate (memcpy buf off src) (off + length src)) = take off buf ++ src.
Proof.
  intros Hl Hn. destruct (terminate_wf cap (memcpy buf off src) (off + length src)) as [Hwf Hv].
  - rewrite length_memcpy; lia.
  - done.
  - split; [done|]. rewrite Hv. apply take_memcpy_end. lia.
Qed.

Lemma length_zeroed cap : length (zeroed cap) = S cap.
Proof. apply length_replicate. Qed.

(** The common shape of the constructors and the assignments. *)
Lemma write_prefix cap buf s len :
  length buf = S cap -> len <= length s ->
  let size := fs_min len cap in
  fs_wf cap (terminate (memcpy buf 0 (take size s)) size) /\
  view (terminate (memcpy buf 0 (take size s)) size) = take cap (take len s).
Proof.
  intros Hl Hs size. subst size. rewrite fs_min_min.
  pose proof (terminate_memcpy cap buf 0 (take (len `min` cap) s) Hl) as H.
  rewrite length_take in H. replace (0 + len `min` cap `min` length s) with (len `min` cap) in H by lia.
  destruct H as [Hwf Hv]; [lia|]. split; [done|]. rewrite Hv, take_take. simpl. f_equal. lia.
Qed.

Lemma length_view cap fs : fs_wf cap fs -> length (view fs) = size_ fs.
Proof. intros (Hl & Hs & _). unfold view. rewrite length_take. lia. Qed.

Lemma fs_default_ok cap : fs_wf cap (fs_default cap) /\ view (fs_default cap) = [].
Proof.
  destruct (terminate_wf cap (zeroed cap) 0 (length_zeroed cap)) as [Hwf Hv]; [lia|]. by split.
Qed.

Lemma fs_append_ok cap fs s :
  fs_wf cap fs ->
  fs_wf cap (fs_append cap fs s) /\ view (fs_append cap fs s) = fs_cat cap (view fs) s.
Proof.
  intros Hwf. pose proof (length_view _ _ Hwf) as Hv. destruct Hwf as (Hl & Hs & _).
  unfold fs_append. cbv zeta. rewrite fs_min_min.
  set (k := length s `min` (cap - size_ fs)).
  assert (length (take k s) = k) as Hk by (rewrite length_take; lia).
  pose proof (terminate_memcpy cap (buf_ fs) (size_ fs) (take k s) Hl) as H.
  rewrite Hk in H. destruct H as [H1 H2]; [lia|]. split; [done|].
  rewrite H2. unfold fs_cat. rewrite take_app, Hv. fold (view fs). f_equal.
  - symmetry. apply take_ge. lia.
  - unfold k. destruct (decide (length s <= cap - size_ fs)).
    + rewrite !take_ge by lia. done.
    + f_equal. lia.
Qed.

Lemma fs_erase_ok cap fs pos count :
  fs_wf cap fs ->
  fs_wf cap (fs_erase fs pos count) /\
  view (fs_erase fs pos count) = fs_spec cap (view fs) (OpErase pos count).
Proof.
  intros Hwf. pose proof (length_view _ _ Hwf) as Hv. pose proof Hwf as (Hl & Hs & Hn).
  unfold fs_erase. destruct (size_ fs <=? pos) eqn:E; bool_facts.
  - split; [done|]. cbn [fs_spec]. destruct count as [n|].
    + rewrite take_ge, drop_ge, app_nil_r by lia. done.
    + rewrite take_ge by lia. done.
  - assert (take pos (buf_ fs) = take pos (view fs)) as Hp.
    { unfold view. rewrite take_take. f_equal. lia. }
    destruct count as [n|]; cbn [fs_spec].
    + destruct (size_ fs <=? pos + n) eqn:E2; bool_facts.
      * destruct (terminate_wf cap (buf_ fs) pos Hl) as [H1 H2]; [lia|]. split; [done|].
        rewrite H2, drop_ge, app_nil_r by lia. done.
      * set (m := take (size_ fs - pos - n) (drop (pos + n) (buf_ fs))).
        assert (length m = size_ fs - pos - n) as Hm
          by (unfold m; rewrite length_take, length_drop; lia).
        pose proof (terminate_memcpy cap (buf_ fs) pos m Hl) as H. rewrite Hm in H.
        replace (pos + (size_ fs - pos - n)) with (size_ fs - n) in H by lia.
        destruct H as [H1 H2]; [lia|]. split; [done|]. rewrite H2, Hp. f_equal.
        unfold m, view. rewrite skipn_firstn_comm. f_equal. lia.
    + destruct (terminate_wf cap (buf_ fs) pos Hl) as [H1 H2]; [lia|]. split; [done|]. by rewrite H2.
Qed.

Lemma fs_push_ok cap fs c :
  fs_wf cap fs -> fs_wf cap (fs_push cap fs c) /\ view (fs_push cap fs c) = fs_cat cap (view fs) [c].
Proof.
  intros Hwf. pose proof (length_view _ _ Hwf) as Hv. pose proof Hwf as (Hl & Hs & _).
  unfold fs_push. destruct (size_ fs <? cap) eqn:E; bool_facts.
  - destruct (terminate_memcpy cap (buf_ fs) (size_ fs) [c] Hl) as [H1 H2]; [simpl; lia|].
    split; [done|]. simpl in H2. rewrite H2. unfold fs_cat. rewrite (take_ge (_ ++ _)); [done|].
    rewrite length_app. simpl. lia.
  - split; [done|]. unfold fs_cat. rewrite take_app_le, take_ge by lia. done.
Qed.

Lemma fs_substr_ok cap fs pos count :
  fs_wf cap fs ->
  fs_wf cap (fs_substr cap fs pos count) /\
  view (fs_substr cap fs pos count) = fs_spec cap (view fs) (OpSubstr pos count).
Proof.
  intros Hwf. pose proof (length_view _ _ Hwf) as Hv. pose proof Hwf as (Hl & Hs & _).
  unfold fs_substr. destruct (size_ fs <=? pos) eqn:E; bool_facts.
  - destruct (fs_default_ok cap) as [H1 H2]. split; [done|]. rewrite H2. cbn [fs_spec].
    destruct count; rewrite drop_ge by lia; [by rewrite take_nil|done].
  - set (len := match count with None => _ | Some n => _ end).
    assert (len <= size_ fs - pos) by (unfold len; destruct count; rewrite ?fs_min_min; lia).
    destruct (write_prefix cap (zeroed cap) (drop pos (buf_ fs)) len (length_zeroed cap)) as [H1 H2].
    { rewrite length_drop. lia. }
    split; [done|]. unfold fs_of_ptr. cbv zeta. rewrite H2, take_take.
    rewrite Nat.min_r by lia. unfold view, len. cbn [fs_spec].
    destruct count as [n|]; rewrite skipn_firstn_comm, ?take_take, ?fs_min_min; done.
Qed.

Lemma fs_run_ok cap fs op :
  fs_wf cap fs -> fs_wf cap (fs_run cap fs op) /\ view (fs_run cap fs op) = fs_spec cap (view fs) op.
Proof.
  intros Hwf. destruct op; cbn [fs_run fs_spec].
  - destruct (write_prefix cap (buf_ fs) sv (length sv)) as [H1 H2]; [apply Hwf|done|].
    split; [done|]. unfold fs_assign. cbv zeta. rewrite H2. unfold fs_set. by rewrite (take_ge sv).
  - destruct s as [s|]; cbn [fs_assign_cstr].
    + destruct (write_prefix cap (buf_ fs) (cstr s) (length (cstr s))) as [H1 H2]; [apply Hwf|done|].
      split; [done|]. cbv zeta. rewrite H2. unfold fs_cstr. by rewrite (take_ge (cstr s)).
    + destruct Hwf as [Hl _]. destruct (terminate_wf cap (buf_ fs) 0 Hl) as [H1 H2]; [lia|].
      split; [done|]. by rewrite H2.
  - destruct Hwf as [Hl _]. destruct (terminate_wf cap (buf_ fs) 0 Hl) as [H1 H2]; [lia|].
    split; [exact H1|done].
  - by apply fs_append_ok.
  - by apply fs_push_ok.
  - by apply fs_erase_ok.
  - by apply fs_substr_ok.
Qed.


(** The abstract value never exceeds the capacity. *)
Lemma length_fs_set cap s : length (fs_set cap s) <= cap.
Proof. unfold fs_set. rewrite length_take. lia. Qed.

Lemma length_fs_cat cap v s : length (fs_cat cap v s) <= cap.
Proof. unfold fs_cat. rewrite length_take. lia. Qed.

Lemma length_fs_cstr cap s : length (fs_cstr cap s) <= cap.
Proof. unfold fs_cstr. rewrite length_take. lia. Qed.

Lemma fs_set_small cap s : length s <= cap -> fs_set cap s = s.
Proof. intros. by apply take_ge. Qed.

Lemma fs_cat_small cap v s : length v + length s <= cap -> fs_cat cap v s = v ++ s.
Proof. intros. apply take_ge. rewrite length_app. lia. Qed.

#[export] Hint Resolve length_fs_set length_fs_cat length_fs_cstr : modem.
