(* ===== verification/StaticVector.v ===== *)
(** * [StaticVector<T, Capacity>]: the heap-free vector (include/hal/static_vector.h)

    The object is its array and its size.  The refinement theorem states that
    the operations implement a list truncated to the capacity, which is the
    value the other components compute with ([vec_push]). *)

From S2P Require Import Prelude.

Record StaticVector (T : Type) := mkSV { data_ : list T; sv_size : nat }.
Arguments mkSV {T} _ _.
Arguments data_ {T} _.
Arguments sv_size {T} _.

Section StaticVector.
Context {T : Type}.
Variable (dflt : T) (Capacity : nat).

Implicit Type v : StaticVector T.

Definition sv_min (a b : nat) : nat := if a <? b then a else b.

Definition sv_default : StaticVector T := mkSV (replicate Capacity dflt) 0.

Definition sv_full v : bool := Capacity <=? sv_size v.
Definition sv_elems v : list T := take (sv_size v) (data_ v).

Definition sv_clear v : StaticVector T := mkSV (data_ v) 0.

(** [data_[size_++] = value], refused when full. *)
Definition sv_push_back v (x : T) : StaticVector T * bool :=
  if Capacity <=? sv_size v then (v, false)
  else (mkSV (<[sv_size v := x]> (data_ v)) (S (sv_size v)), true).

(** The constructor and [assign] from an initializer list: push until full. *)
Fixpoint sv_push_all v (l : list T) : StaticVector T :=
  match l with
  | [] => v
  | x :: l' => if Capacity <=? sv_size v then v else sv_push_all (fst (sv_push_back v x)) l'
  end.
Definition sv_of_list (l : list T) : StaticVector T := sv_push_all sv_default l.
Definition sv_assign_list v (l : list T) : StaticVector T := sv_push_all (sv_clear v) l.

Definition sv_pop_back v : StaticVector T :=
  if 0 <? sv_size v then mkSV (data_ v) (sv_size v - 1) else v.

(** [for (i = first; i < first + n; ++i) data_[i] = f(i - first)]. *)
Fixpoint sv_write (data : list T) (first : nat) (l : list T) : list T :=
  match l with
  | [] => data
  | x :: l' => sv_write (<[first := x]> data) (S first) l'
  end.

Definition sv_resize v (new_size : nat) (value : T) : StaticVector T :=
  let n := new_size `min` Capacity in
  mkSV (if sv_size v <? n then sv_write (data_ v) (sv_size v) (replicate (n - sv_size v) value)
        else data_ v) n.

(** [assign(first, last)] and the constructor from a range. *)
Definition sv_assign v (l : list T) : StaticVector T :=
  let count := sv_min (length l) Capacity in
  mkSV (sv_write (data_ v) 0 (take count l)) count.

Definition sv_wf v : Prop := length (data_ v) = Capacity /\ sv_size v <= Capacity.

End StaticVector.

(** [operator==]: sizes first, then the elements. *)
Definition sv_eqb {T} (eqb : T -> T -> bool) (a b : StaticVector T) : bool :=
  if sv_size a =? sv_size b
  then forallb (fun '(x, y) => eqb x y) (combine (sv_elems a) (sv_elems b))
  else false.

(** ** Abstract operation used by the other components *)

Definition vec_push {T} (cap : nat) (l : list T) (x : T) : list T :=
  if length l <? cap then l ++ [x] else l.

Inductive sv_op (T : Type) :=
| VPush (x : T)
| VPop
| VClear
| VResize (n : nat) (x : T)
| VAssign (l : list T)
| VAssignList (l : list T).
Arguments VPush {T} _.
Arguments VPop {T}.
Arguments VClear {T}.
Arguments VResize {T} _ _.
Arguments VAssign {T} _.
Arguments VAssignList {T} _.

Definition sv_run {T} (cap : nat) (v : StaticVector T) (op : sv_op T) : StaticVector T :=
  match op with
  | VPush x => fst (sv_push_back cap v x)
  | VPop => sv_pop_back v
  | VClear => sv_clear v
  | VResize n x => sv_resize cap v n x
  | VAssign l => sv_assign cap v l
  | VAssignList l => sv_assign_list cap v l
  end.

Definition sv_spec {T} (cap : nat) (l : list T) (op : sv_op T) : list T :=
  match op with
  | VPush x => vec_push cap l x
  | VPop => take (length l - 1) l
  | VClear => []
  | VResize n x => take (n `min` cap) (l ++ replicate (n `min` cap - length l) x)
  | VAssign l' => take cap l'
  | VAssignList l' => take cap l'
  end.

(** ** Lemmas *)

Section Facts.
Context {T : Type}.
Implicit Types (v : StaticVector T) (l : list T).

Lemma length_sv_write (data : list T) first l : length (sv_write data first l) = length data.
Proof. revert data first. induction l as [|x l IH]; intros; simpl; [done|]. by rewrite IH, length_insert. Qed.

Lemma take_sv_write (data : list T) first l :
  first + length l <= length data ->
  take (first + length l) (sv_write data first l) = take first data ++ l.
Proof.
  revert data first. induction l as [|x l IH]; intros data first H; simpl in *.
  - by rewrite Nat.add_0_r, app_nil_r.
  - replace (first + S (length l)) with (S first + length l) by lia.
    rewrite IH by (rewrite length_insert; lia).
    rewrite (take_S_r _ _ x) by (apply list_lookup_insert_eq; lia).
    by rewrite take_insert_ge, <- app_assoc.
Qed.

Lemma length_sv_elems cap v : sv_wf cap v -> length (sv_elems v) = sv_size v.
Proof. intros [Hl Hs]. unfold sv_elems. rewrite length_take. lia. Qed.

Lemma sv_push_ok cap v x :
  sv_wf cap v ->
  sv_wf cap (fst (sv_push_back cap v x)) /\
  sv_elems (fst (sv_push_back cap v x)) = vec_push cap (sv_elems v) x /\
  snd (sv_push_back cap v x) = (length (sv_elems v) <? cap).
Proof.
  intros Hwf. pose proof (length_sv_elems _ _ Hwf) as He. destruct Hwf as [Hl Hs].
  unfold sv_push_back, vec_push. rewrite He. destruct (cap <=? sv_size v) eqn:E; bool_facts; simpl.
  - assert (sv_size v <? cap = false) as -> by (apply Nat.ltb_ge; lia). by repeat split.
  - assert (sv_size v <? cap = true) as -> by (apply Nat.ltb_lt; lia). split; [|split; [|done]].
    + split; simpl; [by rewrite length_insert|lia].
    + unfold sv_elems. simpl. rewrite (take_S_r _ _ x) by (apply list_lookup_insert_eq; lia).
      by rewrite take_insert_ge.
Qed.

Lemma sv_push_all_ok cap v l :
  sv_wf cap v ->
  sv_wf cap (sv_push_all cap v l) /\ sv_elems (sv_push_all cap v l) = take cap (sv_elems v ++ l).
Proof.
  revert v. induction l as [|x l IH]; intros v Hwf; simpl.
  { rewrite app_nil_r, take_ge; [done|]. rewrite (length_sv_elems cap) by done. apply Hwf. }
  destruct (cap <=? sv_size v) eqn:E; bool_facts.
  - split; [done|]. pose proof (length_sv_elems _ _ Hwf). destruct Hwf.
    rewrite take_app_le, take_ge by lia. done.
  - destruct (sv_push_ok cap v x Hwf) as (H1 & H2 & _). destruct (IH _ H1) as [H3 H4].
    split; [done|]. rewrite H4, H2. unfold vec_push. rewrite (length_sv_elems cap) by done.
    assert (sv_size v <? cap = true) as -> by (apply Nat.ltb_lt; lia). by rewrite <- app_assoc.
Qed.

Lemma sv_write_ok cap v first l n :
  length (data_ v) = cap -> n = first + length l -> n <= cap ->
  sv_wf cap (mkSV (sv_write (data_ v) first l) n) /\
  sv_elems (mkSV (sv_write (data_ v) first l) n) = take first (data_ v) ++ l.
Proof.
  intros Hl -> Hn. unfold sv_wf, sv_elems. simpl.
  rewrite length_sv_write, take_sv_write by lia. done.
Qed.

Lemma sv_run_ok cap v op :
  sv_wf cap v -> sv_wf cap (sv_run cap v op) /\ sv_elems (sv_run cap v op) = sv_spec cap (sv_elems v) op.
Proof.
  intros Hwf. pose proof (length_sv_elems _ _ Hwf) as He. pose proof Hwf as [Hl Hs].
  destruct op; cbn [sv_run sv_spec].
  - destruct (sv_push_ok cap v x Hwf) as (H1 & H2 & _). done.
  - unfold sv_pop_back. rewrite He. destruct (0 <? sv_size v) eqn:E; bool_facts.
    + split; [split; simpl; lia|]. unfold sv_elems. simpl. rewrite take_take. f_equal. lia.
    + split; [done|]. symmetry. apply take_ge. lia.
  - split; [split; simpl; lia|done].
  - unfold sv_resize. cbv zeta. rewrite He. destruct (sv_size v <? n `min` cap) eqn:E; bool_facts.
    + destruct (sv_write_ok cap v (sv_size v) (replicate (n `min` cap - sv_size v) x) (n `min` cap))
        as [H1 H2]; [done|rewrite length_replicate; lia|lia|]. split; [done|].
      rewrite H2, (take_ge (_ ++ _)); [done|]. rewrite length_app, He, length_replicate. lia.
    + split; [split; simpl; lia|]. unfold sv_elems. simpl.
      rewrite take_app_le by (rewrite length_take; lia). rewrite take_take. f_equal. lia.
  - unfold sv_assign. cbv zeta. assert (sv_min (length l) cap = length l `min` cap) as ->.
    { unfold sv_min. destruct (length l <? cap) eqn:E; bool_facts; lia. }
    destruct (sv_write_ok cap v 0 (take (length l `min` cap) l) (length l `min` cap)) as [H1 H2];
      [done|rewrite length_take; lia|lia|]. split; [done|]. rewrite H2. simpl.
    destruct (decide (length l <= cap)); [rewrite !take_ge by lia; done|f_equal; lia].
  - destruct (sv_push_all_ok cap (sv_clear v) l) as [H1 H2]; [split; simpl; lia|]. done.
Qed.

(** C38. [StaticVector] refines a capacity-truncated list: after any sequence of
    [push_back], [pop_back], [clear], [resize] and [assign] calls the array still
    has [Capacity] elements, the size is at most [Capacity], and the elements are
    those of the same sequence on plain lists, a push on a full vector being
    dropped. *)
Theorem static_vector_refines (dflt : T) cap ops :
  sv_wf cap (foldl (sv_run cap) (sv_default dflt cap) ops) /\
  sv_elems (foldl (sv_run cap) (sv_default dflt cap) ops) = foldl (sv_spec cap) [] ops.
Proof.
  assert (sv_wf cap (sv_default dflt cap)) as Hwf.
  { split; simpl; [apply length_replicate|lia]. }
  change (@nil T) with (sv_elems (sv_default dflt cap)). revert Hwf. generalize (sv_default dflt cap).
  induction ops as [|op ops IH]; intros v Hwf; [done|].
  destruct (sv_run_ok cap v op Hwf) as [H1 H2]. simpl. rewrite <- H2. by apply IH.
Qed.

Lemma length_vec_push cap l (x : T) : length l <= cap -> length (vec_push cap l x) <= cap.
Proof. intros. unfold vec_push. case_goal; bool_facts; [rewrite length_app; simpl; lia|done]. Qed.

End Facts.

#[export] Hint Resolve length_vec_push : modem.
