(* ===== verification/Layout.v ===== *)
(** * Object representations

    The radio service copies structures byte for byte through its channels
    ([memcpy] of [sizeof] bytes).  A [Codec] gives the size, the alignment and
    the bytes of a C++ type under the LP64 rules: little-endian integers, members
    at the next multiple of their alignment, the whole rounded up to the largest
    alignment.  Padding bytes, which no reader looks at, are written as NUL. *)

From S2P Require Import Prelude CLib.

Record Codec (T : Type) := mkCodec {
  sizeof : nat;
  alignof : nat;
  enc : T -> str;
  dec : str -> T }.
Arguments mkCodec {T} _ _ _ _.
Arguments sizeof {T} _.
Arguments alignof {T} _.
Arguments enc {T} _ _.
Arguments dec {T} _ _.

(** ** Integers *)

Definition byte_of (z : Z) : ascii := ascii_of_N (Z.to_N (z mod 256)).
Definition of_byte (c : ascii) : Z := Z.of_N (N_of_ascii c).

(** [n] bytes of [z], least significant first. *)
Fixpoint le (n : nat) (z : Z) : str :=
  match n with
  | 0 => []
  | S n' => byte_of z :: le n' (z / 256)
  end.

Fixpoint un_le (s : str) : Z :=
  match s with
  | [] => 0
  | c :: s' => of_byte c + 256 * un_le s'
  end.

Definition uint (n : nat) : Codec Z := mkCodec n n (le n) (fun s => un_le (take n s)).

Definition sint (n : nat) : Codec Z :=
  mkCodec n n (le n)
    (fun s => let u := un_le (take n s) in
              if (2 ^ (8 * Z.of_nat n - 1) <=? u)%Z then (u - 2 ^ (8 * Z.of_nat n))%Z else u).

(** An enumeration or a flag, through the integer it is stored as. *)
Definition map_c {A B} (c : Codec A) (to : B -> A) (from : A -> B) : Codec B :=
  mkCodec (sizeof c) (alignof c) (fun b => enc c (to b)) (fun s => from (dec c s)).

Definition bool_c : Codec bool := map_c (uint 1) (fun b : bool => if b then 1%Z else 0%Z) (fun z => negb (z =? 0)%Z).

(** ** Structures *)

(** The smallest multiple of [a] that is at least [n]. *)
Definition align_up (n a : nat) : nat := (n + a - 1) / a * a.

Definition padding (n a : nat) : str := replicate (align_up n a - n) NUL.

(** A member after the members so far. *)
Definition pair_c {A B} (ca : Codec A) (cb : Codec B) : Codec (A * B) :=
  let off := align_up (sizeof ca) (alignof cb) in
  mkCodec (off + sizeof cb) (alignof ca `max` alignof cb)
    (fun v => enc ca (fst v) ++ padding (sizeof ca) (alignof cb) ++ enc cb (snd v))
    (fun s => (dec ca s, dec cb (drop off s))).

Declare Scope codec_scope.
Delimit Scope codec_scope with codec.
Notation "ca & cb" := (pair_c ca cb) (at level 50, left associativity) : codec_scope.

(** The end of a structure. *)
Definition struct_c {A B} (c : Codec A) (to : B -> A) (from : A -> B) : Codec B :=
  mkCodec (align_up (sizeof c) (alignof c)) (alignof c)
    (fun b => enc c (to b) ++ padding (sizeof c) (alignof c)) (fun s => from (dec c s)).

(** [T a[n]], the elements beyond those of the list being [dflt]. *)
Fixpoint array_enc {A} (c : Codec A) (dflt : A) (n : nat) (l : list A) : str :=
  match n with
  | 0 => []
  | S n' => enc c (default dflt (head l)) ++ array_enc c dflt n' (tail l)
  end.

Fixpoint array_dec {A} (c : Codec A) (n : nat) (s : str) : list A :=
  match n with
  | 0 => []
  | S n' => dec c s :: array_dec c n' (drop (sizeof c) s)
  end.

Definition array_c {A} (c : Codec A) (dflt : A) (n : nat) : Codec (list A) :=
  mkCodec (n * sizeof c) (alignof c) (array_enc c dflt n) (array_dec c n).

Definition char_c : Codec ascii := mkCodec 1 1 (fun c => [c]) (fun s => default NUL (head s)).

(** [FixedString<N>]: [char buf_[N + 1]] and [size_t size_]. *)
Definition fixed_string_c (N : nat) : Codec str :=
  struct_c (pair_c (array_c char_c NUL (S N)) (uint 8))
    (fun s => (s, Z.of_nat (length s))) (fun v => take (Z.to_nat (snd v)) (fst v)).

(** [StaticVector<T, N>]: [std::array<T, N> data_] and [size_t size_]. *)
Definition static_vector_c {A} (c : Codec A) (dflt : A) (N : nat) : Codec (list A) :=
  struct_c (pair_c (array_c c dflt N) (uint 8))
    (fun l => (l, Z.of_nat (length l))) (fun v => take (Z.to_nat (snd v)) (fst v)).

(** ** Laws: [enc] writes [sizeof] bytes and [dec] reads them back *)

Definition sized {A} (c : Codec A) : Prop := forall v, length (enc c v) = sizeof c.
Definition decodes {A} (c : Codec A) (ok : A -> Prop) : Prop :=
  forall v r, ok v -> dec c (enc c v ++ r) = v.

Lemma length_le n z : length (le n z) = n.
Proof. revert z. induction n; intros z; simpl; [done|]. by rewrite IHn. Qed.

Lemma of_byte_of z : of_byte (byte_of z) = (z mod 256)%Z.
Proof.
  unfold of_byte, byte_of. pose proof (Z.mod_pos_bound z 256 ltac:(lia)).
  rewrite N_ascii_embedding by lia. lia.
Qed.

Lemma un_le_le n z : un_le (le n z) = (z mod 256 ^ Z.of_nat n)%Z.
Proof.
  revert z. induction n; intros z; [by rewrite Z.mod_1_r|].
  cbn [le un_le]. rewrite IHn, of_byte_of.
  replace (Z.of_nat (S n)) with (Z.succ (Z.of_nat n)) by lia. rewrite Z.pow_succ_r by lia.
  rewrite Z.rem_mul_r by (try apply Z.pow_nonzero; lia). done.
Qed.

Lemma sized_uint n : sized (uint n).
Proof. intros z. apply length_le. Qed.

Lemma sized_sint n : sized (sint n).
Proof. intros z. apply length_le. Qed.

Lemma decodes_uint n : decodes (uint n) (fun z => (0 <= z < 256 ^ Z.of_nat n)%Z).
Proof.
  intros z r Hz. cbn [dec enc uint]. rewrite take_app_length' by (by rewrite length_le).
  rewrite un_le_le. by apply Z.mod_small.
Qed.

Lemma sized_map {A B} (c : Codec A) (to : B -> A) from : sized c -> sized (map_c c to from).
Proof. intros Hc v. apply Hc. Qed.

Lemma decodes_map {A B} (c : Codec A) (to : B -> A) from (okA : A -> Prop) (ok : B -> Prop) :
  decodes c okA -> (forall b, ok b -> okA (to b) /\ from (to b) = b) -> decodes (map_c c to from) ok.
Proof. intros Hc Hb v r Hv. destruct (Hb v Hv) as [H1 H2]. cbn. by rewrite Hc. Qed.

Lemma sized_bool : sized bool_c.
Proof. apply sized_map, sized_uint. Qed.

Lemma decodes_bool : decodes bool_c (fun _ => True).
Proof. eapply decodes_map; [apply decodes_uint|]. intros [] _; simpl; split; lia || done. Qed.

Lemma length_padding n a : length (padding n a) = align_up n a - n.
Proof. apply length_replicate. Qed.

Lemma align_up_ge n a : 0 < a -> n <= align_up n a.
Proof.
  intros Ha. unfold align_up. pose proof (Nat.div_mod_eq (n + a - 1) a).
  pose proof (Nat.mod_upper_bound (n + a - 1) a ltac:(lia)). nia.
Qed.

Lemma sized_pair {A B} (ca : Codec A) (cb : Codec B) :
  0 < alignof cb -> sized ca -> sized cb -> sized (pair_c ca cb).
Proof.
  intros Ha Hca Hcb v. cbn. rewrite !length_app, Hca, Hcb, length_padding.
  pose proof (align_up_ge (sizeof ca) (alignof cb) Ha). lia.
Qed.

Lemma dec_pair {A B} (ca : Codec A) (cb : Codec B) v r :
  0 < alignof cb -> sized ca ->
  exists r', dec (pair_c ca cb) (enc (pair_c ca cb) v ++ r) =
             (dec ca (enc ca (fst v) ++ r'), dec cb (enc cb (snd v) ++ r)).
Proof.
  intros Ha Hca. destruct v as [a b]. cbn. rewrite <- !app_assoc. eexists. f_equal.
  rewrite (assoc_L (++)), drop_app_length'; [done|].
  rewrite length_app, Hca, length_padding. pose proof (align_up_ge (sizeof ca) (alignof cb) Ha). lia.
Qed.

Lemma decodes_pair {A B} (ca : Codec A) (cb : Codec B) okA okB :
  0 < alignof cb -> sized ca -> decodes ca okA -> decodes cb okB ->
  decodes (pair_c ca cb) (fun v => okA (fst v) /\ okB (snd v)).
Proof.
  intros Ha Hca Hda Hdb [a b] r [Hoa Hob]. destruct (dec_pair ca cb (a, b) r Ha Hca) as [r' ->].
  simpl in *. by rewrite Hda, Hdb.
Qed.

Lemma sized_struct {A B} (c : Codec A) (to : B -> A) from :
  0 < alignof c -> sized c -> sized (struct_c c to from).
Proof.
  intros Ha Hc v. cbn. rewrite length_app, Hc, length_padding.
  pose proof (align_up_ge (sizeof c) (alignof c) Ha). lia.
Qed.

Lemma decodes_struct {A B} (c : Codec A) (to : B -> A) from (okA : A -> Prop) (ok : B -> Prop) :
  decodes c okA -> (forall b, ok b -> okA (to b) /\ from (to b) = b) -> decodes (struct_c c to from) ok.
Proof. intros Hc Hb v r Hv. destruct (Hb v Hv) as [H1 H2]. cbn. by rewrite <- app_assoc, Hc. Qed.

Lemma sized_array {A} (c : Codec A) dflt n : sized c -> sized (array_c c dflt n).
Proof.
  intros Hc l. cbn. revert l. induction n as [|n IH]; intros l; cbn; [done|].
  by rewrite length_app, Hc, IH.
Qed.

Lemma array_dec_enc {A} (c : Codec A) dflt n l r :
  sized c -> decodes c (fun _ => True) -> length l <= n ->
  array_dec c n (array_enc c dflt n l ++ r) = l ++ replicate (n - length l) dflt.
Proof.
  intros Hs Hd. revert l. induction n as [|n IH]; intros l Hl; [by destruct l; simpl in *; [|lia]|].
  cbn [array_enc array_dec]. rewrite <- app_assoc, Hd by done.
  rewrite drop_app_length' by (by rewrite Hs). rewrite IH by (destruct l; simpl in *; lia).
  destruct l as [|x l]; simpl; [|done]. by rewrite Nat.sub_0_r.
Qed.

Lemma sized_fixed_string N : sized (fixed_string_c N).
Proof.
  apply sized_struct; [simpl; lia|]. apply sized_pair; [simpl; lia| |apply sized_uint].
  apply sized_array. by intros c.
Qed.

(** A string that fits is read back. *)
Lemma decodes_fixed_string N :
  (Z.of_nat N < 2 ^ 64)%Z -> decodes (fixed_string_c N) (fun s => length s <= N).
Proof.
  intros HN s r Hs. assert (sized (array_c char_c NUL (S N))) as Hsz by (by apply sized_array; intros c).
  unfold fixed_string_c, struct_c. cbn [dec enc]. rewrite <- app_assoc.
  edestruct (dec_pair (array_c char_c NUL (S N)) (uint 8) (s, Z.of_nat (length s))) as [r' ->];
    [simpl; lia|done|]. cbn [fst snd]. rewrite decodes_uint by (simpl Z.of_nat; lia).
  cbn [array_c dec enc]. rewrite array_dec_enc; [|by intros c|by intros c ? _|lia].
  rewrite Nat2Z.id. by apply take_app_length.
Qed.

Lemma decodes_sint n :
  0 < n -> decodes (sint n) (fun z => (- 2 ^ (8 * Z.of_nat n - 1) <= z < 2 ^ (8 * Z.of_nat n - 1))%Z).
Proof.
  intros Hn z r Hz. cbn [dec enc sint]. rewrite take_app_length' by (by rewrite length_le). rewrite un_le_le.
  replace (256 ^ Z.of_nat n)%Z with (2 ^ (8 * Z.of_nat n))%Z by (rewrite Z.pow_mul_r by lia; done).
  assert (2 ^ (8 * Z.of_nat n) = 2 * 2 ^ (8 * Z.of_nat n - 1))%Z as ->.
  { rewrite <- Z.pow_succ_r by lia. f_equal. lia. }
  set (h := (2 ^ (8 * Z.of_nat n - 1))%Z) in *. assert (0 <= z < h \/ - h <= z < 0)%Z as [H|H] by lia.
  - rewrite Z.mod_small by lia. destruct (h <=? z)%Z eqn:E; bool_facts; lia.
  - replace (z mod (2 * h))%Z with (z + 2 * h)%Z
      by (apply (Z.mod_unique_pos _ _ (-1)); lia).
    destruct (h <=? z + 2 * h)%Z eqn:E; bool_facts; lia.
Qed.

(** ** Automation: sizes and round trips of structures *)

Create HintDb codec discriminated.
#[export] Hint Resolve sized_uint sized_sint sized_map sized_bool sized_pair sized_struct sized_array
  sized_fixed_string decodes_bool : codec.
#[export] Hint Extern 1 (0 < alignof _) => (vm_compute; lia) : codec.

(** Goes through the members of a structure; what remains is about the values. *)
Ltac decode_members :=
  repeat first
    [ apply decodes_pair; [vm_compute; lia|solve [eauto 40 with codec]| |]
    | eassumption ].
