(* ===== verification/MessageChannel.v ===== *)
(** * Message channels and event flags
      (include/hal/message_channel_interface.h, src/hal/posix_message_channel.cpp,
      src/hal/zephyr_message_channel.cpp, src/hal/posix_event_flags.cpp; the Win32
      files are the POSIX code)

    [MessageChannel] is the interface the radio service uses and
    [MessageChannelLaws] what it promises: a bounded FIFO of byte strings.  The
    circular buffer of the POSIX class and the Zephyr class, the latter over the
    kernel's message queue as a parameter, are two implementations. *)

From S2P Require Import Prelude CLib FixedString Ring Layout.

Inductive MessageChannelError :=
| ChannelError_ok | ChannelError_full | ChannelError_empty | ChannelError_timeout
| ChannelError_invalid_argument | ChannelError_invalid_size.

#[export] Instance MessageChannelError_eq_dec : EqDecision MessageChannelError.
Proof. solve_decision. Defined.

Definition MESSAGE_CHANNEL_MAX_DATA : nat := 512.
Definition CHANNEL_DEFAULT_CAPACITY : nat := 16.

(** [data] has [MESSAGE_CHANNEL_MAX_DATA] bytes, of which [length] count. *)
Record MessageFrame := mkFrame { fr_data : str; fr_length : nat }.

Definition MessageFrame_default : MessageFrame := mkFrame (replicate MESSAGE_CHANNEL_MAX_DATA NUL) 0.

(** The capacity both constructors settle on. *)
Definition clamp_capacity (capacity : nat) : nat :=
  if (capacity =? 0) || (CHANNEL_DEFAULT_CAPACITY <? capacity) then CHANNEL_DEFAULT_CAPACITY else capacity.

(** ** The interface, for calls with [timeout_ms = 0] *)

Class MessageChannel (Ch : Type) := {
  ch_create : nat -> Ch;
  ch_send : str -> ST Ch MessageChannelError;
  ch_receive : MessageFrame -> ST Ch (MessageChannelError * MessageFrame);
  ch_count : Ch -> nat }.

(** The frame carries the message [x]. *)
Definition frame_is (f : MessageFrame) (x : str) : Prop :=
  length (fr_data f) = MESSAGE_CHANNEL_MAX_DATA /\ fr_length f = length x /\
  take (length x) (fr_data f) = x.

Definition frame_sized (f : MessageFrame) : Prop := length (fr_data f) = MESSAGE_CHANNEL_MAX_DATA.

(** The bounded FIFO. *)
Definition spec_send (capacity : nat) (x : str) (l : list str) : MessageChannelError * list str :=
  if MESSAGE_CHANNEL_MAX_DATA <? length x then (ChannelError_invalid_size, l)
  else if capacity <=? length l then (ChannelError_full, l)
  else (ChannelError_ok, l ++ [x]).

Class MessageChannelLaws (Ch : Type) `{MessageChannel Ch} := {
  ch_rel : nat -> Ch -> list str -> Prop;
  law_create n : ch_rel (clamp_capacity n) (ch_create n) [];
  law_send cap c l x :
    ch_rel cap c l ->
    fst (ch_send x c) = fst (spec_send cap x l) /\ ch_rel cap (snd (ch_send x c)) (snd (spec_send cap x l));
  law_receive_empty cap c f :
    ch_rel cap c [] -> fst (fst (ch_receive f c)) = ChannelError_empty /\ ch_rel cap (snd (ch_receive f c)) [];
  law_receive cap c x l f :
    ch_rel cap c (x :: l) -> frame_sized f ->
    fst (fst (ch_receive f c)) = ChannelError_ok /\ frame_is (snd (fst (ch_receive f c))) x /\
    ch_rel cap (snd (ch_receive f c)) l;
  law_count cap c l : ch_rel cap c l -> ch_count c = length l }.

(** ** POSIX and Win32: a circular buffer *)

Module PosixChannel.

Record Channel := mkChannel {
  capacity_ : nat; buffer_ : list MessageFrame; head_ : nat; tail_ : nat; count_ : nat }.

Definition create (capacity : nat) : Channel :=
  mkChannel (clamp_capacity capacity) (replicate CHANNEL_DEFAULT_CAPACITY MessageFrame_default) 0 0 0.

(** [data] is [None] for [nullptr]; [wait] is the outcome of
    [cvReceive_.wait_for]: the channel when the lock is taken again with the
    predicate true, [None] when the time is over. *)
Definition send (wait : Channel -> option Channel) (data : option str) (length : nat) (timeout_ms : Z) (c : Channel)
  : MessageChannelError * Channel :=
  if match data with None => negb (length =? 0) | _ => false end then (ChannelError_invalid_size, c)
  else if MESSAGE_CHANNEL_MAX_DATA <? length then (ChannelError_invalid_size, c)
  else
    let put c :=
      let slot := default MessageFrame_default (buffer_ c !! tail_ c) in
      let slot := mkFrame (if negb (length =? 0) then memcpy (fr_data slot) 0 (take length (default [] data))
                           else fr_data slot) length in
      (ChannelError_ok,
       mkChannel (capacity_ c) (<[tail_ c := slot]> (buffer_ c)) (head_ c)
         ((tail_ c + 1) mod CHANNEL_DEFAULT_CAPACITY) (S (count_ c))) in
    if capacity_ c <=? count_ c then
      if (timeout_ms =? 0)%Z then (ChannelError_full, c)
      else match wait c with
           | None => (ChannelError_timeout, c)
           | Some c' => put c'
           end
    else put c.

Definition receive (wait : Channel -> option Channel) (msg : MessageFrame) (timeout_ms : Z) (c : Channel)
  : MessageChannelError * MessageFrame * Channel :=
  let get c :=
    (ChannelError_ok, default MessageFrame_default (buffer_ c !! head_ c),
     mkChannel (capacity_ c) (buffer_ c) ((head_ c + 1) mod CHANNEL_DEFAULT_CAPACITY) (tail_ c) (count_ c - 1)) in
  if count_ c =? 0 then
    if (timeout_ms =? 0)%Z then (ChannelError_empty, msg, c)
    else match wait c with
         | None => (ChannelError_timeout, msg, c)
         | Some c' => get c'
         end
  else get c.

Definition count (c : Channel) : nat := count_ c.

Definition no_wait : Channel -> option Channel := fun _ => None.

#[global] Instance posix_channel : MessageChannel Channel := {
  ch_create := create;
  ch_send x := send no_wait (Some x) (length x) 0;
  ch_receive f := receive no_wait f 0;
  ch_count := count }.

(** ** The buffer represents the queued messages *)

Definition channel_rel (cap : nat) (c : Channel) (l : list str) : Prop :=
  capacity_ c = cap /\ cap <= CHANNEL_DEFAULT_CAPACITY /\ count_ c = length l /\ length l <= cap /\
  tail_ c = ring_index CHANNEL_DEFAULT_CAPACITY (head_ c) (length l) /\ Forall frame_sized (buffer_ c) /\
  exists frames, ring_rel CHANNEL_DEFAULT_CAPACITY (head_ c) (buffer_ c) frames /\ Forall2 frame_is frames l.

Lemma clamp_capacity_le n : clamp_capacity n <= CHANNEL_DEFAULT_CAPACITY.
Proof. unfold clamp_capacity. destruct (_ || _) eqn:E; [lia|]. apply orb_false_iff in E as [_ E]. bool_facts. lia. Qed.

Lemma frame_default_sized : frame_sized MessageFrame_default.
Proof. apply length_replicate. Qed.

Lemma create_rel n : channel_rel (clamp_capacity n) (create n) [].
Proof.
  pose proof (clamp_capacity_le n).
  repeat split; cbn [capacity_ buffer_ head_ tail_ count_ create length]; try done; try lia.
  - apply Forall_replicate, frame_default_sized.
  - exists []. split; [|done]. apply ring_rel_nil. unfold CHANNEL_DEFAULT_CAPACITY. lia.
Qed.

(** What [send] writes into a slot. *)
Lemma written_slot f x :
  frame_sized f -> length x <= MESSAGE_CHANNEL_MAX_DATA ->
  frame_is (mkFrame (if negb (length x =? 0) then memcpy (fr_data f) 0 (take (length x) x) else fr_data f)
                    (length x)) x.
Proof.
  intros Hf Hx. destruct (length x =? 0) eqn:E; bool_facts.
  { apply nil_length_inv in E as ->. done. }
  unfold frame_sized, frame_is in *. rewrite firstn_all2 by done. cbn [negb fr_data fr_length].
  split; [rewrite length_memcpy; lia|]. split; [done|].
  apply (take_memcpy_end (fr_data f) 0 x). lia.
Qed.

Lemma send_rel cap c l x :
  channel_rel cap c l ->
  fst (ch_send x c) = fst (spec_send cap x l) /\ channel_rel cap (snd (ch_send x c)) (snd (spec_send cap x l)).
Proof.
  intros Hr. pose proof Hr as (Hcap & Hmax & Hcnt & Hl & Htail & Hall & frames & Hring & Hfr).
  cbn [ch_send posix_channel]. unfold send, spec_send.
  destruct (MESSAGE_CHANNEL_MAX_DATA <? length x) eqn:Ex; [done|]. bool_facts.
  rewrite Hcap, Hcnt. destruct (cap <=? length l) eqn:El; [done|]. bool_facts. cbn [fst snd default].
  split; [done|]. pose proof (Forall2_length _ _ _ Hfr) as Hlen.
  set (slot := default MessageFrame_default (buffer_ c !! tail_ c)).
  assert (frame_sized slot) as Hslot.
  { unfold slot. destruct (buffer_ c !! tail_ c) eqn:E; [|apply frame_default_sized].
    by eapply Forall_lookup_1. }
  pose proof (written_slot slot x Hslot ltac:(lia)) as Hw. set (w := mkFrame _ _) in *.
  unfold channel_rel. cbn [capacity_ buffer_ head_ tail_ count_]. rewrite length_app. cbn [length].
  split; [done|]. split; [done|]. split; [lia|]. split; [lia|]. split.
  { rewrite Htail. unfold ring_index. rewrite Nat.Div0.add_mod_idemp_l. f_equal. lia. }
  split; [apply Forall_insert; [done|apply Hw]|].
  exists (frames ++ [w]). split; [|apply Forall2_app; [done|by constructor; [|constructor]]].
  rewrite Htail, <- Hlen. apply ring_push; [done|lia].
Qed.

Lemma receive_rel cap c x l f :
  channel_rel cap c (x :: l) ->
  fst (fst (ch_receive f c)) = ChannelError_ok /\ frame_is (snd (fst (ch_receive f c))) x /\
  channel_rel cap (snd (ch_receive f c)) l.
Proof.
  intros (Hcap & Hmax & Hcnt & Hl & Htail & Hall & frames & Hring & Hfr).
  cbn [ch_receive posix_channel]. unfold receive. rewrite Hcnt. cbn [length Nat.eqb fst snd] in *.
  apply Forall2_cons_inv_r in Hfr as (w & frames' & Hw & Hfr & ->).
  destruct (ring_pop _ _ _ _ _ Hring) as [Hhead Hpop]. rewrite Hhead. cbn [default].
  split; [done|]. split; [done|]. unfold channel_rel. cbn [capacity_ buffer_ head_ tail_ count_].
  repeat split; try done; try lia; [|by exists frames'].
  rewrite Htail. symmetry. apply ring_index_next.
Qed.

Lemma receive_empty_rel cap c f :
  channel_rel cap c [] -> fst (fst (ch_receive f c)) = ChannelError_empty /\ channel_rel cap (snd (ch_receive f c)) [].
Proof.
  intros Hr. pose proof Hr as (_ & _ & Hc & _). cbn [ch_receive posix_channel]. unfold receive.
  rewrite Hc. done.
Qed.

Lemma count_rel cap c l : channel_rel cap c l -> ch_count c = length l.
Proof. by intros (_ & _ & Hc & _). Qed.

#[global] Instance posix_channel_laws : MessageChannelLaws Channel := {
  ch_rel := channel_rel; law_create := create_rel; law_send := send_rel;
  law_receive_empty := receive_empty_rel; law_count := count_rel;
  law_receive cap c x l f Hr _ := receive_rel cap c x l f Hr }.

End PosixChannel.

(** ** Zephyr: slots of the kernel's message queue

    [k_msgq_put] and [k_msgq_get] are kernel functions.  [KMsgqLaws] states their
    documented behaviour for [K_NO_WAIT]: a queue of at most [max] slots of a
    fixed size, first in first out, and [-ENOMSG] when full or empty. *)

Module ZephyrChannel.

(** The class tells apart only zero, [-EAGAIN] and the rest. *)
Definition ENOMSG : Z := 35.
Definition EAGAIN : Z := 11.

Definition SLOT_SIZE : nat := MESSAGE_CHANNEL_MAX_DATA + 2.

Class KMsgq (Q : Type) := {
  k_msgq_init : nat -> nat -> Q;
  k_msgq_put : str -> ST Q Z;
  k_msgq_get : ST Q (Z * str);
  k_msgq_num_used_get : Q -> nat }.

Class KMsgqLaws (Q : Type) `{KMsgq Q} := {
  kq_rel : nat -> nat -> Q -> list str -> Prop;
  kq_init sz max : kq_rel sz max (k_msgq_init sz max) [];
  kq_put sz max q l x :
    kq_rel sz max q l -> length x = sz ->
    if max <=? length l then fst (k_msgq_put x q) = (- ENOMSG)%Z /\ kq_rel sz max (snd (k_msgq_put x q)) l
    else fst (k_msgq_put x q) = 0%Z /\ kq_rel sz max (snd (k_msgq_put x q)) (l ++ [x]);
  kq_get_empty sz max q :
    kq_rel sz max q [] -> fst (fst (k_msgq_get q)) = (- ENOMSG)%Z /\ kq_rel sz max (snd (k_msgq_get q)) [];
  kq_get sz max q x l :
    kq_rel sz max q (x :: l) -> fst (k_msgq_get q) = (0%Z, x) /\ kq_rel sz max (snd (k_msgq_get q)) l;
  kq_used sz max q l : kq_rel sz max q l -> k_msgq_num_used_get q = length l }.

Definition map_put_result (ret : Z) : MessageChannelError :=
  if (ret =? 0)%Z then ChannelError_ok
  else if (ret =? - EAGAIN)%Z then ChannelError_timeout
  else ChannelError_full.

Definition map_get_result (ret : Z) : MessageChannelError :=
  if (ret =? 0)%Z then ChannelError_ok
  else if (ret =? - EAGAIN)%Z then ChannelError_timeout
  else ChannelError_empty.

Section Zephyr.
Context {Q : Type} {HQ : KMsgq Q}.

Record Channel := mkZChannel { zcapacity_ : nat; queue_ : Q }.

Definition create (capacity : nat) : Channel :=
  mkZChannel (clamp_capacity capacity) (k_msgq_init SLOT_SIZE (clamp_capacity capacity)).

(** The slot [send] fills: the length in two bytes, the data, zeros. *)
Definition slot_of (x : str) : str := memcpy (memcpy (replicate SLOT_SIZE NUL) 0 (le 2 (Z.of_nat (length x)))) 2 x.

Definition send (data : option str) (length : nat) (c : Channel) : MessageChannelError * Channel :=
  if match data with None => negb (length =? 0) | _ => false end then (ChannelError_invalid_size, c)
  else if MESSAGE_CHANNEL_MAX_DATA <? length then (ChannelError_invalid_size, c)
  else let '(ret, q) := k_msgq_put (slot_of (take length (default [] data))) (queue_ c) in
       (map_put_result ret, mkZChannel (zcapacity_ c) q).

Definition receive (msg : MessageFrame) (c : Channel) : MessageChannelError * MessageFrame * Channel :=
  let '((ret, slot), q) := k_msgq_get (queue_ c) in
  let c := mkZChannel (zcapacity_ c) q in
  match map_get_result ret with
  | ChannelError_ok =>
      let size := Z.to_nat (un_le (take 2 slot)) in
      if MESSAGE_CHANNEL_MAX_DATA <? size then (ChannelError_invalid_size, mkFrame (fr_data msg) size, c)
      else (ChannelError_ok, mkFrame (memcpy (fr_data msg) 0 (take size (drop 2 slot))) size, c)
  | err => (err, msg, c)
  end.

Definition count (c : Channel) : nat := k_msgq_num_used_get (queue_ c).

#[global] Instance zephyr_channel : MessageChannel Channel := {
  ch_create := create;
  ch_send x := send (Some x) (length x);
  ch_receive f := receive f;
  ch_count := count }.

Context {HL : KMsgqLaws Q}.

Definition channel_rel (cap : nat) (c : Channel) (l : list str) : Prop :=
  zcapacity_ c = cap /\ Forall (fun x => length x <= MESSAGE_CHANNEL_MAX_DATA) l /\
  kq_rel SLOT_SIZE cap (queue_ c) (map slot_of l).

Lemma length_header z : length (memcpy (replicate SLOT_SIZE NUL) 0 (le 2 z)) = 2 + MESSAGE_CHANNEL_MAX_DATA.
Proof. rewrite length_memcpy; rewrite length_replicate; unfold SLOT_SIZE; rewrite ?length_le; lia. Qed.

Lemma length_slot x : length x <= MESSAGE_CHANNEL_MAX_DATA -> length (slot_of x) = SLOT_SIZE.
Proof.
  intros Hx. unfold slot_of. rewrite length_memcpy, length_header; unfold SLOT_SIZE; [lia|].
  rewrite length_header. lia.
Qed.

(** Header and data of a slot read back. *)
Lemma slot_fields x :
  length x <= MESSAGE_CHANNEL_MAX_DATA ->
  Z.to_nat (un_le (take 2 (slot_of x))) = length x /\ take (length x) (drop 2 (slot_of x)) = x.
Proof.
  intros Hx. unfold slot_of. pose proof (length_header (Z.of_nat (length x))) as Hb. set (b := memcpy _ 0 _) in *.
  assert (take 2 b = le 2 (Z.of_nat (length x))) as Hh.
  { unfold b. pose proof (take_memcpy_end (replicate SLOT_SIZE NUL) 0 (le 2 (Z.of_nat (length x)))) as H.
    rewrite length_le in H. apply H. lia. }
  split.
  - rewrite take_memcpy_le by lia. rewrite Hh, un_le_le, Z.mod_small; [apply Nat2Z.id|].
    unfold MESSAGE_CHANNEL_MAX_DATA in *. simpl Z.of_nat. lia.
  - unfold memcpy. rewrite drop_app_length' by (rewrite length_take; lia). apply take_app_length.
Qed.

Lemma zephyr_send_rel cap c l x :
  channel_rel cap c l ->
  fst (ch_send x c) = fst (spec_send cap x l) /\ channel_rel cap (snd (ch_send x c)) (snd (spec_send cap x l)).
Proof.
  intros (Hcap & Hall & Hq). cbn [ch_send zephyr_channel]. unfold send, spec_send.
  destruct (MESSAGE_CHANNEL_MAX_DATA <? length x) eqn:Ex; [done|]. bool_facts.
  change (default [] (Some x)) with x. rewrite firstn_all2 by done. pose proof (kq_put _ _ _ _ (slot_of x) Hq (length_slot x Ex)) as Hp.
  rewrite length_map in Hp. destruct (k_msgq_put (slot_of x) (queue_ c)) as [ret q].
  cbn [fst snd] in Hp. destruct (cap <=? length l); destruct Hp as [-> Hq']; cbn [fst snd];
    (split; [reflexivity|]); (split; [done|]); [done|].
  split; [|by rewrite map_app]. apply Forall_app. by split; [|constructor].
Qed.

Lemma zephyr_receive_rel cap c x l f :
  channel_rel cap c (x :: l) -> frame_sized f ->
  fst (fst (ch_receive f c)) = ChannelError_ok /\ frame_is (snd (fst (ch_receive f c))) x /\
  channel_rel cap (snd (ch_receive f c)) l.
Proof.
  intros (Hcap & Hall & Hq) Hf. apply Forall_cons in Hall as [Hx Hall]. cbn [map] in Hq.
  destruct (kq_get _ _ _ _ _ Hq) as [Hg Hq']. destruct (slot_fields x Hx) as [Hsz Hdata].
  cbn [ch_receive zephyr_channel]. unfold receive. destruct (k_msgq_get (queue_ c)) as [r q]. cbn [fst] in Hg.
  subst r. change (map_get_result 0) with ChannelError_ok. cbv beta iota zeta. rewrite Hsz, Hdata.
  destruct (MESSAGE_CHANNEL_MAX_DATA <? length x) eqn:E; bool_facts; [lia|].
  split; [done|]. split; [|done]. unfold frame_is, frame_sized in *. cbn [fr_data fr_length fst snd].
  split; [rewrite length_memcpy; lia|]. split; [done|]. apply (take_memcpy_end (fr_data f) 0 x). lia.
Qed.

Lemma zephyr_create_rel n : channel_rel (clamp_capacity n) (create n) [].
Proof. split; [done|]. split; [constructor|apply kq_init]. Qed.

Lemma zephyr_receive_empty_rel cap c f :
  channel_rel cap c [] -> fst (fst (ch_receive f c)) = ChannelError_empty /\ channel_rel cap (snd (ch_receive f c)) [].
Proof.
  intros (Hcap & _ & Hq). destruct (kq_get_empty _ _ _ Hq) as [Hg Hq'].
  cbn [ch_receive zephyr_channel]. unfold receive. destruct (k_msgq_get (queue_ c)) as [[ret slot] q].
  cbn [fst snd] in *. subst ret. done.
Qed.

Lemma zephyr_count_rel cap c l : channel_rel cap c l -> ch_count c = length l.
Proof. intros (_ & _ & Hq). cbn [ch_count zephyr_channel]. unfold count. by rewrite (kq_used _ _ _ _ Hq), length_map. Qed.

#[global] Instance zephyr_channel_laws : MessageChannelLaws Channel := {
  ch_rel := channel_rel; law_create := zephyr_create_rel; law_send := zephyr_send_rel;
  law_receive_empty := zephyr_receive_empty_rel; law_receive := zephyr_receive_rel;
  law_count := zephyr_count_rel }.

End Zephyr.
Arguments Channel : clear implicits.
End ZephyrChannel.

(** ** Scripts of calls on a channel *)

Inductive ch_op := ChSend (x : str) | ChReceive | ChCount.

(** The code a call returns, the message a successful [receive] delivers and the
    number [count] gives. *)
Definition ch_result : Type := MessageChannelError * option str * nat.

Definition frame_bytes (f : MessageFrame) : str := take (fr_length f) (fr_data f).

Definition ch_step {Ch} `{MessageChannel Ch} (c : Ch) (op : ch_op) : ch_result * Ch :=
  match op with
  | ChSend x => let '(e, c') := ch_send x c in ((e, None, 0), c')
  | ChReceive => let '((e, f), c') := ch_receive MessageFrame_default c in
                 ((e, if decide (e = ChannelError_ok) then Some (frame_bytes f) else None, 0), c')
  | ChCount => ((ChannelError_ok, None, ch_count c), c)
  end.

Definition fifo_step (capacity : nat) (l : list str) (op : ch_op) : ch_result * list str :=
  match op with
  | ChSend x => let '(e, l') := spec_send capacity x l in ((e, None, 0), l')
  | ChReceive => match l with
                 | [] => ((ChannelError_empty, None, 0), [])
                 | x :: l' => ((ChannelError_ok, Some x, 0), l')
                 end
  | ChCount => ((ChannelError_ok, None, length l), l)
  end.

Lemma frame_is_bytes f x : frame_is f x -> frame_bytes f = x.
Proof. intros (_ & Hl & Hx). unfold frame_bytes. by rewrite Hl. Qed.

(** A lawful channel simulates the FIFO, one call at a time. *)
Lemma ch_step_refines {Ch} `{MessageChannelLaws Ch} cap (c : Ch) l op :
  ch_rel cap c l ->
  fst (ch_step c op) = fst (fifo_step cap l op) /\ ch_rel cap (snd (ch_step c op)) (snd (fifo_step cap l op)).
Proof.
  intros Hr. destruct op as [x| |]; simpl.
  - destruct (law_send cap c l x Hr) as [He Hr']. destruct (ch_send x c), (spec_send cap x l). simpl in *. by subst.
  - destruct l as [|x l].
    + destruct (law_receive_empty cap c MessageFrame_default Hr) as [He Hr'].
      destruct (ch_receive MessageFrame_default c) as [[e f] c']. simpl in *. by subst.
    + destruct (law_receive cap c x l MessageFrame_default Hr) as (He & Hf & Hr').
      { apply PosixChannel.frame_default_sized. }
      destruct (ch_receive MessageFrame_default c) as [[e f] c']. simpl in *. subst.
      by rewrite (frame_is_bytes f x).
  - by rewrite (law_count cap c l).
Qed.

Lemma channel_script_refines {Ch} `{MessageChannelLaws Ch} capacity ops :
  fst (run_script ch_step (ch_create (Ch := Ch) capacity) ops) =
    fst (run_script (fifo_step (clamp_capacity capacity)) [] ops) /\
  ch_rel (clamp_capacity capacity) (snd (run_script ch_step (ch_create capacity) ops))
    (snd (run_script (fifo_step (clamp_capacity capacity)) [] ops)).
Proof. apply (run_script_sim (ch_rel _)); [apply ch_step_refines|apply law_create]. Qed.

(** C16. A message channel is a bounded FIFO of byte strings: every script of
    [send], [receive] and [count] calls on the circular buffer returns the codes,
    messages and counts of a plain list, in which a message over 512 bytes is
    refused as [invalid_size], a full list as [full], and [receive] takes the
    oldest; a requested capacity of zero or above sixteen becomes sixteen. *)
Theorem message_channel_refines capacity ops :
  fst (run_script ch_step (PosixChannel.create capacity) ops) =
    fst (run_script (fifo_step (clamp_capacity capacity)) [] ops) /\
  PosixChannel.channel_rel (clamp_capacity capacity)
    (snd (run_script ch_step (PosixChannel.create capacity) ops))
    (snd (run_script (fifo_step (clamp_capacity capacity)) [] ops)).
Proof. exact (channel_script_refines capacity ops). Qed.

(** A kernel message queue that meets [KMsgqLaws]: the list of its slots. *)
Module ListMsgq.

Record Q := mkQ { max_msgs : nat; msgs : list str }.

#[global] Instance list_msgq : ZephyrChannel.KMsgq Q := {
  k_msgq_init _ max := mkQ max [];
  k_msgq_put x q := if max_msgs q <=? length (msgs q) then ((- ZephyrChannel.ENOMSG)%Z, q)
                    else (0%Z, mkQ (max_msgs q) (msgs q ++ [x]));
  k_msgq_get q := match msgs q with
                  | [] => (((- ZephyrChannel.ENOMSG)%Z, []), q)
                  | x :: l => ((0%Z, x), mkQ (max_msgs q) l)
                  end;
  k_msgq_num_used_get q := length (msgs q) }.

#[global] Instance list_msgq_laws : ZephyrChannel.KMsgqLaws Q.
Proof.
  exists (fun _ max q l => q = mkQ max l).
  - done.
  - intros sz max q l x -> _. cbn [ZephyrChannel.k_msgq_put list_msgq max_msgs msgs].
    by destruct (max <=? length l).
  - by intros sz max q ->.
  - by intros sz max q x l ->.
  - by intros sz max q l ->.
Defined.

End ListMsgq.

(** The Zephyr channel, which frames each message in a slot of the kernel's
    message queue behind a two-byte length, implements the same bounded FIFO,
    provided the kernel queue behaves as documented ([KMsgqLaws]). *)
Theorem zephyr_channel_refines {Q} `{ZephyrChannel.KMsgqLaws Q} capacity ops :
  fst (run_script ch_step (ZephyrChannel.create (Q := Q) capacity) ops) =
  fst (run_script (fifo_step (clamp_capacity capacity)) [] ops).
Proof. exact (proj1 (channel_script_refines (Ch := ZephyrChannel.Channel Q) capacity ops)). Qed.

(** Two sends, a count and a receive over the list queue. *)
Lemma zephyr_channel_refines_witness :
  fst (run_script ch_step (ZephyrChannel.create (Q := ListMsgq.Q) 1)
         [ChSend (lit "ab"); ChSend (lit "c"); ChCount; ChReceive]) =
  [(ChannelError_ok, None, 0); (ChannelError_full, None, 0); (ChannelError_ok, None, 1);
   (ChannelError_ok, Some (lit "ab"), 0)].
Proof. rewrite (zephyr_channel_refines 1). reflexivity. Defined.

(** ** Event flags *)

Module EventFlags.

Definition set (flags_ flags : Z) : Z := Z.lor flags_ flags.

(** [other] is what [cv_.wait_for] finds when it takes the lock again with a
    match, [None] when the time is over. *)
Definition wait (other : Z -> option Z) (flags_ flags : Z) (fClear : bool) (timeout_ms : Z) : Z * Z :=
  let finish flags_ :=
    let matched := Z.land flags_ flags in
    (matched, if fClear then Z.land flags_ (Z.lnot matched) else flags_) in
  if negb (Z.land flags_ flags =? 0)%Z then finish flags_
  else if (timeout_ms =? 0)%Z then (0%Z, flags_)
  else match other flags_ with
       | None => (0%Z, flags_)
       | Some f => finish f
       end.

Definition clear (flags_ flags : Z) : Z := Z.land flags_ (Z.lnot flags).

Definition get (flags_ : Z) : Z := flags_.

(** Waiting on event flags is exact: a wait with the clear option returns the
    requested flags that are set, bit by bit, removes exactly those and keeps
    every other flag, so that a notification of another kind is never lost;
    a flag that was posted stays until it is waited for or cleared. *)
Theorem event_flags_exact flags_ posted flags i :
  (0 <= i)%Z ->
  let f := set flags_ posted in
  let '(matched, rest) := wait (fun _ => None) f flags true 0 in
  Z.testbit matched i = Z.testbit f i && Z.testbit flags i /\
  Z.testbit rest i = Z.testbit f i && negb (Z.testbit flags i) /\
  (Z.testbit posted i = true -> Z.testbit f i = true) /\
  Z.testbit (clear f flags) i = Z.testbit f i && negb (Z.testbit flags i).
Proof.
  intros Hi. cbv zeta. set (f := set flags_ posted). unfold wait.
  assert (Z.testbit posted i = true -> Z.testbit f i = true) as Hpost.
  { intros H. unfold f, set. rewrite Z.lor_spec, H. apply orb_true_r. }
  assert (Z.testbit (clear f flags) i = Z.testbit f i && negb (Z.testbit flags i)) as Hclear
    by (unfold clear; by rewrite Z.land_spec, Z.lnot_spec).
  pose proof (Z.land_spec f flags i) as Hm.
  destruct (Z.land f flags =? 0)%Z eqn:E; bool_facts; cbn [negb Z.eqb]; cbv beta zeta iota.
  - rewrite E, Z.bits_0 in Hm. rewrite Z.bits_0. split; [done|]. split; [|done].
    destruct (Z.testbit f i), (Z.testbit flags i); done.
  - split; [done|]. split; [|done]. rewrite Z.land_spec, Z.lnot_spec, Hm by done.
    destruct (Z.testbit f i), (Z.testbit flags i); done.
Qed.

(** Waiting for the response bit while a request and a log notice are pending. *)
Lemma event_flags_exact_witness :
  let f := set 9 2 in
  let '(matched, rest) := wait (fun _ => None) f 2 true 0 in
  Z.testbit matched 1 = Z.testbit f 1 && Z.testbit 2 1 /\
  Z.testbit rest 1 = Z.testbit f 1 && negb (Z.testbit 2 1) /\
  (Z.testbit 2 1 = true -> Z.testbit f 1 = true) /\
  Z.testbit (clear f 2) 1 = Z.testbit f 1 && negb (Z.testbit 2 1).
Proof. apply (event_flags_exact 9 2 2 1). lia. Defined.

End EventFlags.
