(* ===== verification/ZephyrEvents.v ===== *)
(** * Event flags on Zephyr (src/hal/zephyr_event_flags.cpp)

    The class forwards to the kernel's event objects.  [KEventLaws] states the
    documented behaviour of the kernel's functions; [EventFlags] is what the
    interface promises and the other platforms do. *)

From S2P Require Import Prelude CLib MessageChannel.

Module ZephyrEvents.

(** [struct k_event] and its functions; [k_event_wait] takes what other threads
    post while it waits. *)
Class KEvent (K : Type) := {
  k_event_init : K;
  k_event_post : Z -> K -> K;
  k_event_wait : (Z -> option Z) -> Z -> bool -> Z -> K -> Z * K;
  k_event_clear : Z -> K -> K;
  k_event_test : Z -> K -> Z }.

(** [events k] are the events tracked by the object.  [k_event_post] adds to them;
    [k_event_wait] first clears them all when [reset] is true, then waits until one
    of the requested events is tracked and returns those that are, without removing
    them; [k_event_clear] removes events and [k_event_test] reads them. *)
Class KEventLaws (K : Type) `{KEvent K} := {
  events : K -> Z;
  init_events : events k_event_init = 0%Z;
  post_events flags k : events (k_event_post flags k) = Z.lor (events k) flags;
  wait_events other flags (reset : bool) timeout k :
    let e := if reset then 0%Z else events k in
    let e' := if negb (Z.land e flags =? 0)%Z || (timeout =? 0)%Z then e else default e (other e) in
    fst (k_event_wait other flags reset timeout k) = Z.land e' flags /\
    events (snd (k_event_wait other flags reset timeout k)) = e';
  clear_events flags k : events (k_event_clear flags k) = Z.land (events k) (Z.lnot flags);
  test_events mask k : k_event_test mask k = Z.land (events k) mask }.

Section Flags.
Context {K : Type} {HK : KEvent K}.

Definition create_platform_event_flags : K := k_event_init.
Definition set (flags : Z) (event_ : K) : K := k_event_post flags event_.
Definition wait (other : Z -> option Z) (flags : Z) (fClear : bool) (timeout_ms : Z) (event_ : K) : Z * K :=
  k_event_wait other flags fClear timeout_ms event_.
Definition clear (flags : Z) (event_ : K) : K := k_event_clear flags event_.
Definition get (event_ : K) : Z := k_event_test (2 ^ 32 - 1) event_.

Context {HL : KEventLaws K}.

(** Without [fClear] the class keeps the interface's promise. *)
Lemma wait_keeping_agrees flags k :
  fst (wait (fun _ => None) flags false 0 k) = fst (EventFlags.wait (fun _ => None) (events k) flags false 0) /\
  events (snd (wait (fun _ => None) flags false 0 k)) = snd (EventFlags.wait (fun _ => None) (events k) flags false 0).
Proof using HL.
  destruct (wait_events (fun _ => None) flags false 0 k) as [H1 H2]. unfold wait. rewrite H1, H2.
  unfold EventFlags.wait. rewrite orb_true_r. destruct (Z.land (events k) flags =? 0)%Z eqn:E; bool_facts; [by rewrite E|done].
Qed.

(** On Zephyr a clearing wait loses notifications: flags that were posted before
    the wait are discarded by it, all of them and not only the requested ones, and
    the wait returns nothing; the interface promises the requested flags and to
    clear only those.  A flag that does wake the wait stays set afterwards. *)
Theorem zephyr_wait_discards_posted posted flags k :
  (0 <= posted < 2 ^ 32)%Z -> (0 <= flags < 2 ^ 32)%Z -> Z.land posted flags <> 0%Z -> events k = 0%Z ->
  let k1 := set posted k in
  get k1 = posted /\
  fst (EventFlags.wait (fun _ => None) posted flags true 0) = Z.land posted flags /\
  fst (wait (fun _ => None) flags true 0 k1) = 0%Z /\ get (snd (wait (fun _ => None) flags true 0 k1)) = 0%Z /\
  forall t, (t =? 0)%Z = false ->
    let '(matched, k2) := wait (fun _ => Some posted) flags true t k1 in
    matched = Z.land posted flags /\ get k2 = posted.
Proof using HL.
  intros Hp Hf Hm Hk. cbv zeta. unfold get, set, wait.
  assert (forall z, (0 <= z < 2 ^ 32)%Z -> Z.land z (2 ^ 32 - 1) = z) as Hmask.
  { intros z Hz. change (2 ^ 32 - 1)%Z with (Z.ones 32). rewrite Z.land_ones by lia. by apply Z.mod_small. }
  rewrite !test_events, post_events, Hk, Z.lor_0_l, Hmask by done.
  destruct (wait_events (fun _ => None) flags true 0 (k_event_post posted k)) as [H1 H2].
  rewrite H1, H2, orb_true_r, Z.land_0_l. split; [done|]. split.
  { unfold EventFlags.wait. destruct (Z.land posted flags =? 0)%Z eqn:E; bool_facts; done. }
  split; [done|]. split; [done|]. intros t Ht.
  destruct (wait_events (fun _ => Some posted) flags true t (k_event_post posted k)) as [H3 H4].
  rewrite Ht in H3, H4. cbn in H3, H4. destruct (k_event_wait (fun _ => Some posted) flags true t (k_event_post posted k)) as [m k2]. cbn [fst snd] in *.
  rewrite test_events, H4, H3. split; [done|by apply Hmask].
Qed.

End Flags.

(** A kernel with the events in a word. *)
Module WordEvents.
#[global] Instance word_events : KEvent Z := {
  k_event_init := 0%Z;
  k_event_post flags k := Z.lor k flags;
  k_event_wait other flags reset timeout k :=
    let e := if reset : bool then 0%Z else k in
    let e' := if negb (Z.land e flags =? 0)%Z || (timeout =? 0)%Z then e else default e (other e) in (Z.land e' flags, e');
  k_event_clear flags k := Z.land k (Z.lnot flags);
  k_event_test mask k := Z.land k mask }.
#[global] Instance word_events_laws : KEventLaws Z.
Proof. by refine {| events k := k |}. Defined.
End WordEvents.
Import WordEvents.

(** A response posted before the client waits for it. *)
Lemma zephyr_wait_discards_posted_witness :
  get (K := Z) (set 2 0%Z) = 2%Z /\ fst (EventFlags.wait (fun _ => None) 2 2 true 0) = 2%Z /\
  fst (wait (K := Z) (fun _ => None) 2 true 0 (set 2 0%Z)) = 0%Z /\
  get (snd (wait (K := Z) (fun _ => None) 2 true 0 (set 2 0%Z))) = 0%Z /\
  forall t, (t =? 0)%Z = false ->
    let '(matched, k2) := wait (fun _ => Some 2%Z) 2 true t (set 2 0%Z) in matched = Z.land 2 2 /\ get k2 = 2%Z.
Proof. apply (zephyr_wait_discards_posted 2 2 0%Z); [lia|lia|discriminate|reflexivity]. Defined.

End ZephyrEvents.
