(* ===== verification/AtCommand.v ===== *)
(** * AT commands and responses (include/modem/at_command.h, src/at_command.cpp) *)

From S2P Require Import Prelude CLib FixedString.

Inductive AtStatus := AtStatus_ok | AtStatus_error | AtStatus_timeout | AtStatus_busy.

#[export] Instance AtStatus_eq_dec : EqDecision AtStatus.
Proof. solve_decision. Defined.

Definition AT_CMD_MAX : nat := 256.
(** Kept in binary: unary 2048 would slow every conversion down. *)
Definition AT_RESPONSE_MAX : nat := N.to_nat 2048.

(** [struct AtResponse]; [body] is the value of a [FixedString<AT_RESPONSE_MAX>]. *)
Record AtResponse := mkResponse { status : AtStatus; body : str }.

Definition AtResponse_default : AtResponse := mkResponse AtStatus_error [].

(** [class AtCommand]: the string is a [FixedString<AT_CMD_MAX>]. *)
Record AtCommand := mkAtCommand { command_ : str; timeout_ms_ : Z }.

Definition at_command (command : str) (timeout_ms : Z) : AtCommand :=
  mkAtCommand (fs_set AT_CMD_MAX command) timeout_ms.

Definition command_string (cmd : AtCommand) : str := command_ cmd.
Definition timeout_ms (cmd : AtCommand) : Z := timeout_ms_ cmd.

Definition is_ok_line (line : str) : bool := str_eqb line (lit "OK").
Definition is_error_line (line : str) : bool :=
  str_eqb line (lit "ERROR") || starts_with (lit "+CME ERROR:") line
  || starts_with (lit "+CMS ERROR:") line.
Definition is_busy_line (line : str) : bool := str_eqb line (lit "BUSY").

(** The body of the line loop of [parse_response]. *)
Definition parse_line (response : AtResponse) (line : str) : AtResponse :=
  match line with
  | [] => response
  | _ =>
      if is_ok_line line then mkResponse AtStatus_ok (body response)
      else if is_error_line line then mkResponse AtStatus_error (body response)
      else if is_busy_line line then mkResponse AtStatus_busy (body response)
      else
        let b := match body response with
                 | [] => []
                 | b => fs_cat AT_RESPONSE_MAX b CRLF
                 end in
        mkResponse (status response) (fs_cat AT_RESPONSE_MAX b line)
  end.

Definition parse_response (raw : str) : AtResponse :=
  match raw with
  | [] => mkResponse AtStatus_timeout []
  | _ => foldl parse_line AtResponse_default (sv_lines raw)
  end.

(** ** Reference: the status is the last status line, the body the other lines *)

(** The status a line reports, [None] for a payload or empty line. *)
Definition line_status (line : str) : option AtStatus :=
  if is_ok_line line then Some AtStatus_ok
  else if is_error_line line then Some AtStatus_error
  else if is_busy_line line then Some AtStatus_busy
  else None.

Definition is_payload (line : str) : bool :=
  negb (str_eqb line []) && match line_status line with None => true | Some _ => false end.

Fixpoint join (sep : str) (ls : list str) : str :=
  match ls with
  | [] => []
  | [l] => l
  | l :: ls' => l ++ sep ++ join sep ls'
  end.

Definition reply_status (lines : list str) : AtStatus :=
  foldl (fun st l => default st (line_status l)) AtStatus_error lines.

Definition reply_body (lines : list str) : str :=
  take AT_RESPONSE_MAX (join CRLF (List.filter is_payload lines)).

(** ** Lemmas *)

Lemma line_status_nil : line_status [] = None.
Proof. done. Qed.

Lemma join_snoc sep ls l :
  join sep (ls ++ [l]) = match ls with [] => l | _ => join sep ls ++ sep ++ l end.
Proof.
  induction ls as [|a ls IH]; [done|]. destruct ls as [|b ls]; [done|].
  change (join sep ((a :: b :: ls) ++ [l])) with (a ++ sep ++ join sep ((b :: ls) ++ [l])).
  rewrite IH. cbn [join]. by rewrite <- !app_assoc.
Qed.

Lemma join_nil sep ls : Forall (fun l => l <> []) ls -> join sep ls = [] -> ls = [].
Proof. intros H. destruct H as [|a ls Ha _]; [done|]. destruct ls, a; done. Qed.

Lemma fs_cat_take cap a b : fs_cat cap (take cap a) b = take cap (a ++ b).
Proof. apply take_take_app. Qed.

Lemma payload_ne ls : Forall (fun l => l <> []) (List.filter is_payload ls).
Proof.
  induction ls as [|l ls IH]; simpl; [constructor|]. destruct (is_payload l) eqn:E; [|done].
  constructor; [|done]. intros ->. done.
Qed.

Lemma parse_line_status r l :
  l <> [] ->
  parse_line r l =
  match line_status l with
  | Some st => mkResponse st (body r)
  | None => mkResponse (status r)
      (fs_cat AT_RESPONSE_MAX
         (match body r with [] => [] | b => fs_cat AT_RESPONSE_MAX b CRLF end) l)
  end.
Proof.
  intros Hl. unfold parse_line, line_status. destruct l as [|c l]; [done|].
  by repeat case_goal.
Qed.

Lemma is_payload_status l :
  l <> [] -> is_payload l = match line_status l with None => true | Some _ => false end.
Proof.
  intros Hl. unfold is_payload.
  assert (str_eqb l [] = false) as -> by (by apply bool_decide_eq_false). done.
Qed.

(** The loop invariant of [parse_response]. *)
Lemma parse_lines_spec done_ ls :
  foldl parse_line (mkResponse (reply_status done_) (reply_body done_)) ls =
  mkResponse (reply_status (done_ ++ ls)) (reply_body (done_ ++ ls)).
Proof.
  revert done_. induction ls as [|l ls IH]; intros done_; [by rewrite app_nil_r|].
  simpl. rewrite cons_middle, app_assoc, <- IH. f_equal. clear IH ls.
  unfold reply_status at 2, reply_body at 2.
  rewrite foldl_app, List.filter_app. fold (reply_status done_). cbn [foldl List.filter].
  destruct (decide (l = [])) as [->|Hl]; [by rewrite app_nil_r|].
  rewrite parse_line_status, is_payload_status by done. cbn [status body].
  destruct (line_status l); [by rewrite app_nil_r|].
  f_equal. rewrite join_snoc. unfold reply_body.
  pose proof (payload_ne done_) as Hne. set (P := List.filter is_payload done_) in *.
  clearbody P. destruct P as [|p P']; [cbn [join]; by rewrite take_nil|].
  destruct (take AT_RESPONSE_MAX (join CRLF (p :: P'))) as [|x t] eqn:Et.
  - exfalso. destruct (join CRLF (p :: P')) eqn:Ej; [|done].
    by pose proof (join_nil _ _ Hne Ej).
  - rewrite <- Et, !fs_cat_take. by rewrite <- app_assoc.
Qed.

(** C36. [parse_response] meets its declarative reading for every raw buffer: an
    empty buffer is a timeout; otherwise the status is the one reported by the
    last status line ([OK], [ERROR], [+CME ERROR:], [+CMS ERROR:], [BUSY]) and
    the body is the remaining non-empty lines, in order, joined by CRLF and cut
    at [AT_RESPONSE_MAX]. *)
Theorem parse_response_reference (raw : str) :
  parse_response raw =
  if str_eqb raw [] then mkResponse AtStatus_timeout []
  else mkResponse (reply_status (sv_lines raw)) (reply_body (sv_lines raw)).
Proof.
  unfold parse_response. destruct raw as [|c raw]; [done|].
  assert (str_eqb (c :: raw) [] = false) as -> by (by apply bool_decide_eq_false).
  exact (parse_lines_spec [] (sv_lines (c :: raw))).
Qed.

Lemma reply_status_none ls :
  Forall (fun l => line_status l = None) ls -> reply_status ls = AtStatus_error.
Proof.
  unfold reply_status. generalize AtStatus_error. induction ls as [|l ls IH]; intros st; [done|].
  inversion 1 as [|? ? Hl Hls]. simpl. by rewrite Hl, IH.
Qed.

Lemma reply_status_not_timeout ls : reply_status ls <> AtStatus_timeout.
Proof.
  unfold reply_status. assert (AtStatus_error <> AtStatus_timeout) as H by done.
  revert H. generalize AtStatus_error. induction ls as [|l ls IH]; intros st H; [done|].
  simpl. apply IH. unfold line_status. by repeat case_goal.
Qed.

Lemma parse_response_ne raw :
  raw <> [] -> parse_response raw = mkResponse (reply_status (sv_lines raw)) (reply_body (sv_lines raw)).
Proof.
  intros H. unfold parse_response. destruct raw; [done|].
  exact (parse_lines_spec [] _).
Qed.

(** The body fits its [FixedString]. *)
Lemma parse_response_body raw : length (body (parse_response raw)) <= AT_RESPONSE_MAX.
Proof.
  destruct (decide (raw = [])) as [->|H]; [simpl; lia|]. rewrite parse_response_ne by done.
  simpl. unfold reply_body. rewrite length_take. lia.
Qed.

(** A non-empty reply that contains no status line yet (the modem is still
    sending) is classified as [AtStatus_error], the default of [AtResponse]:
    there is no pending status, so the callers that read until a final status
    arrives cannot tell an incomplete reply from an [ERROR]. *)
Lemma parse_response_incomplete_is_error (raw : str) :
  raw <> [] ->
  Forall (fun l => line_status l = None) (sv_lines raw) ->
  status (parse_response raw) = AtStatus_error.
Proof. intros Hr Hl. rewrite parse_response_ne by done. by apply reply_status_none. Qed.

(** The first half of a registration reply, cut before its [OK]. *)
Lemma parse_response_incomplete_is_error_witness :
  status (parse_response (CRLF ++ lit "+CEREG: 4,1" ++ CRLF)) = AtStatus_error.
Proof.
  apply (parse_response_incomplete_is_error (CRLF ++ lit "+CEREG: 4,1" ++ CRLF)); [done|].
  vm_compute. repeat constructor.
Defined.
