(* ===== verification/MessageQueue.v ===== *)
(** * Per-connection message queues (include/hal/message_queue_interface.h,
      src/hal/posix_message_queue.cpp; src/hal/win32_message_queue.cpp is the same
      code under another class name)

    Each direction keeps one deque per connection and one deque with the
    connection of every queued message in arrival order.  The abstract queue is
    a single list of messages.  A call is one step; [QueueThreads] has the threads. *)

From S2P Require Import Prelude.

Inductive QueueError :=
| QueueError_ok | QueueError_full | QueueError_empty | QueueError_timeout | QueueError_invalid_id.

#[export] Instance QueueError_eq_dec : EqDecision QueueError.
Proof. solve_decision. Defined.

Definition MAX_MSG_DATA : nat := 256.
Definition MAX_CONNECTIONS : nat := 5.
Definition DEFAULT_CAPACITY : nat := 5.

(** [struct QueueMessage]: [data] is the first [length] bytes of the array. *)
Record QueueMessage := mkMsg { cid : Z; data : str }.

#[export] Instance QueueMessage_eq_dec : EqDecision QueueMessage.
Proof. solve_decision. Defined.

(** One direction: [std::array<std::deque<QueueMessage>, 5>] and its order deque. *)
Record Lane := mkLane { queues : list (list QueueMessage); order : list Z }.

Record MessageQueue := mkQueue { capacity_ : nat; tx_ : Lane; rx_ : Lane }.

Definition lane_init : Lane := mkLane (replicate MAX_CONNECTIONS []) [].

Definition create_message_queue (capacity : nat) : MessageQueue :=
  mkQueue (if capacity =? 0 then DEFAULT_CAPACITY else capacity) lane_init lane_init.

Definition valid_id (conn_id : Z) : bool := (1 <=? conn_id)%Z && (conn_id <=? 5)%Z.

(** [queues[conn_id - 1]]. *)
Definition lane_queue (l : Lane) (conn_id : Z) : list QueueMessage :=
  default [] (queues l !! Z.to_nat (conn_id - 1)).
Definition set_queue (l : Lane) (conn_id : Z) (q : list QueueMessage) : list (list QueueMessage) :=
  <[Z.to_nat (conn_id - 1) := q]> (queues l).

(** [order.erase(std::find(order.begin(), order.end(), conn_id))]. *)
Fixpoint remove_order_entry (order : list Z) (conn_id : Z) : list Z :=
  match order with
  | [] => []
  | c :: o => if (c =? conn_id)%Z then o else c :: remove_order_entry o conn_id
  end.

Definition push_to (capacity : nat) (l : Lane) (conn_id : Z) (bytes : str) : QueueError * Lane :=
  if negb (valid_id conn_id) then (QueueError_invalid_id, l)
  else
    let q := lane_queue l conn_id in
    if (capacity <=? length q) || (capacity <=? length (order l)) then (QueueError_full, l)
    else
      let msg := mkMsg conn_id (take (length bytes `min` MAX_MSG_DATA) bytes) in
      (QueueError_ok, mkLane (set_queue l conn_id (q ++ [msg])) (order l ++ [conn_id])).

(** [wait] is the outcome of [cv_push_.wait_for]: the lane when the lock is taken
    again with the predicate true, [None] when the time is over. *)
Definition pop_from (wait : Lane -> option Lane) (l : Lane) (conn_id : Z) (timeout_ms : Z)
  : QueueError * option QueueMessage * Lane :=
  if negb (valid_id conn_id) then (QueueError_invalid_id, None, l)
  else
    let take_front (l : Lane) :=
      match lane_queue l conn_id with
      | [] => (QueueError_empty, None, l)
      | msg :: q => (QueueError_ok, Some msg,
                     mkLane (set_queue l conn_id q) (remove_order_entry (order l) conn_id))
      end in
    match lane_queue l conn_id with
    | [] => if (timeout_ms =? 0)%Z then (QueueError_empty, None, l)
            else match wait l with
                 | None => (QueueError_timeout, None, l)
                 | Some l' => take_front l'
                 end
    | _ => take_front l
    end.

Definition pop_next_from (wait : Lane -> option Lane) (l : Lane) (timeout_ms : Z)
  : QueueError * option QueueMessage * Lane :=
  let take_front (l : Lane) :=
    match order l with
    | [] => (QueueError_empty, None, l)
    | conn_id :: o =>
        match lane_queue l conn_id with
        | [] => (QueueError_empty, None, l)
        | msg :: q => (QueueError_ok, Some msg, mkLane (set_queue l conn_id q) o)
        end
    end in
  match order l with
  | [] => if (timeout_ms =? 0)%Z then (QueueError_empty, None, l)
          else match wait l with
               | None => (QueueError_timeout, None, l)
               | Some l' => take_front l'
               end
  | _ => take_front l
  end.

Definition no_wait : Lane -> option Lane := fun _ => None.

(** ** The interface methods, with the default [timeout_ms = 0] of their callers *)

Definition tx_push (q : MessageQueue) (conn_id : Z) (bytes : str) : QueueError * MessageQueue :=
  let '(e, l) := push_to (capacity_ q) (tx_ q) conn_id bytes in (e, mkQueue (capacity_ q) l (rx_ q)).
Definition rx_push (q : MessageQueue) (conn_id : Z) (bytes : str) : QueueError * MessageQueue :=
  let '(e, l) := push_to (capacity_ q) (rx_ q) conn_id bytes in (e, mkQueue (capacity_ q) (tx_ q) l).
Definition tx_pop (q : MessageQueue) (conn_id : Z) : QueueError * option QueueMessage * MessageQueue :=
  let '(e, m, l) := pop_from no_wait (tx_ q) conn_id 0 in (e, m, mkQueue (capacity_ q) l (rx_ q)).
Definition rx_pop (q : MessageQueue) (conn_id : Z) : QueueError * option QueueMessage * MessageQueue :=
  let '(e, m, l) := pop_from no_wait (rx_ q) conn_id 0 in (e, m, mkQueue (capacity_ q) (tx_ q) l).
Definition tx_pop_next (q : MessageQueue) : QueueError * option QueueMessage * MessageQueue :=
  let '(e, m, l) := pop_next_from no_wait (tx_ q) 0 in (e, m, mkQueue (capacity_ q) l (rx_ q)).
Definition tx_count (q : MessageQueue) (conn_id : Z) : nat :=
  if negb (valid_id conn_id) then 0 else length (lane_queue (tx_ q) conn_id).
Definition rx_count (q : MessageQueue) (conn_id : Z) : nat :=
  if negb (valid_id conn_id) then 0 else length (lane_queue (rx_ q) conn_id).

(** ** Specification: one list of messages per direction *)

Definition spec_push (capacity : nat) (L : list QueueMessage) (conn_id : Z) (bytes : str)
  : QueueError * list QueueMessage :=
  if negb (valid_id conn_id) then (QueueError_invalid_id, L)
  else if capacity <=? length L then (QueueError_full, L)
  else (QueueError_ok, L ++ [mkMsg conn_id (take MAX_MSG_DATA bytes)]).

(** Takes the oldest message of a connection out of the list. *)
Fixpoint take_first (conn_id : Z) (L : list QueueMessage) : option (QueueMessage * list QueueMessage) :=
  match L with
  | [] => None
  | m :: L' => if (cid m =? conn_id)%Z then Some (m, L')
               else match take_first conn_id L' with
                    | Some (x, L'') => Some (x, m :: L'')
                    | None => None
                    end
  end.

Definition spec_pop (L : list QueueMessage) (conn_id : Z)
  : QueueError * option QueueMessage * list QueueMessage :=
  if negb (valid_id conn_id) then (QueueError_invalid_id, None, L)
  else match take_first conn_id L with
       | Some (m, L') => (QueueError_ok, Some m, L')
       | None => (QueueError_empty, None, L)
       end.

Definition spec_pop_next (L : list QueueMessage) : QueueError * option QueueMessage * list QueueMessage :=
  match L with
  | [] => (QueueError_empty, None, [])
  | m :: L' => (QueueError_ok, Some m, L')
  end.

(** The lane holds exactly the messages of [L]. *)
Definition lane_rel (capacity : nat) (l : Lane) (L : list QueueMessage) : Prop :=
  length (queues l) = MAX_CONNECTIONS /\
  order l = cid <$> L /\
  (forall c, valid_id c = true -> lane_queue l c = filter (fun m => cid m = c) L) /\
  Forall (fun m => valid_id (cid m) = true) L /\
  length L <= capacity.

(** ** Lemmas *)

Lemma valid_id_range c : valid_id c = true <-> (1 <= c <= 5)%Z.
Proof. unfold valid_id. rewrite andb_true_iff, !Z.leb_le. done. Qed.

Lemma lane_queue_set l c q c' :
  length (queues l) = MAX_CONNECTIONS -> valid_id c = true -> valid_id c' = true ->
  lane_queue (mkLane (set_queue l c q) (order l)) c' = if decide (c' = c) then q else lane_queue l c'.
Proof.
  rewrite !valid_id_range. intros Hl Hc Hc'. unfold lane_queue, set_queue. simpl.
  case_decide as E; subst.
  - rewrite list_lookup_insert_eq; [done|]. rewrite Hl. unfold MAX_CONNECTIONS. lia.
  - rewrite list_lookup_insert_ne; [done|]. lia.
Qed.

Lemma lane_init_rel capacity : lane_rel capacity lane_init [].
Proof.
  repeat split; try done; try constructor; simpl; try lia.
  intros c Hc. unfold lane_queue, lane_init. simpl.
  destruct (Z.to_nat (c - 1)) as [|[|[|[|[|[]]]]]]; done.
Qed.

Lemma push_to_refines capacity l L c bytes :
  lane_rel capacity l L ->
  let '(e, l') := push_to capacity l c bytes in
  let '(e', L') := spec_push capacity L c bytes in
  e = e' /\ lane_rel capacity l' L'.
Proof.
  intros Hrel. pose proof Hrel as (Hlen & Hord & Hq & Hids & Hcap).
  unfold push_to, spec_push. destruct (valid_id c) eqn:Hc; simpl; [|by split].
  assert (length (order l) = length L) as Ho by (by rewrite Hord, length_fmap).
  assert (length (lane_queue l c) <= length L) as Hle.
  { rewrite Hq by done. apply length_filter. }
  destruct (capacity <=? length L) eqn:E; bool_facts.
  - assert ((capacity <=? length (lane_queue l c)) || (capacity <=? length (order l)) = true) as ->.
    { apply orb_true_iff. right. apply Nat.leb_le. lia. }
    by split.
  - assert ((capacity <=? length (lane_queue l c)) || (capacity <=? length (order l)) = false) as ->.
    { apply orb_false_iff. split; apply Nat.leb_gt; lia. }
    set (m := mkMsg c _). assert (mkMsg c (take MAX_MSG_DATA bytes) = m) as ->.
    { unfold m. f_equal. rewrite <- firstn_all2 with (n := length bytes) (l := bytes) at 1 by lia.
      rewrite take_take. f_equal. lia. }
    split; [done|]. repeat split.
    + simpl. unfold set_queue. by rewrite length_insert.
    + simpl. by rewrite Hord, fmap_app.
    + intros c' Hc'. pose proof (lane_queue_set l c (lane_queue l c ++ [m]) c' Hlen Hc Hc') as E2.
      unfold lane_queue at 1 in E2. unfold lane_queue at 1. simpl in *. rewrite E2.
      rewrite filter_app, !Hq by done. case_decide as Ecc; subst; simpl.
      * rewrite filter_cons_True by done. done.
      * rewrite filter_cons_False by (simpl; congruence). by rewrite filter_nil, app_nil_r.
    + apply Forall_app. split; [done|]. by constructor.
    + rewrite length_app. simpl. lia.
Qed.

Lemma take_first_filter c L m L' :
  take_first c L = Some (m, L') ->
  filter (fun x => cid x = c) L = m :: filter (fun x => cid x = c) L' /\
  (forall c', c' <> c -> filter (fun x => cid x = c') L = filter (fun x => cid x = c') L') /\
  remove_order_entry (cid <$> L) c = cid <$> L' /\
  length L = S (length L') /\ cid m = c /\
  (forall P : QueueMessage -> Prop, Forall P L -> Forall P L').
Proof.
  revert L'. induction L as [|x L IH]; intros L'; simpl; [done|].
  destruct (cid x =? c)%Z eqn:E; bool_facts.
  - intros [= -> ->]. rewrite !filter_cons_True by done. split; [done|]. repeat split; try done.
    + intros c' Hne. by rewrite filter_cons_False by congruence.
    + intros P. by inversion 1.
  - destruct (take_first c L) as [[y L1]|]; [|done]. intros [= -> <-].
    destruct (IH L1 eq_refl) as (H1 & H2 & H3 & H4 & H5 & H6).
    rewrite !filter_cons_False by done. split; [done|]. repeat split.
    + intros c' Hne. rewrite !filter_cons. case_decide; [f_equal|]; by apply H2.
    + cbn. f_equal. exact H3.
    + simpl. lia.
    + done.
    + intros P. inversion 1; subst. constructor; [done|]. by apply H6.
Qed.

Lemma take_first_None c L : take_first c L = None <-> filter (fun x => cid x = c) L = [].
Proof.
  induction L as [|x L IH]; simpl; [by split|].
  destruct (cid x =? c)%Z eqn:E; bool_facts.
  - by rewrite filter_cons_True.
  - rewrite filter_cons_False by done. rewrite <- IH. by destruct (take_first c L) as [[]|].
Qed.

Lemma pop_rel capacity l L c m L' :
  lane_rel capacity l L -> valid_id c = true -> take_first c L = Some (m, L') ->
  exists q, lane_queue l c = m :: q /\
    lane_rel capacity (mkLane (set_queue l c q) (remove_order_entry (order l) c)) L'.
Proof.
  intros (Hlen & Hord & Hq & Hids & Hcap) Hc Ht.
  destruct (take_first_filter _ _ _ _ Ht) as (H1 & H2 & H3 & H4 & H5 & H6).
  exists (filter (fun x => cid x = c) L'). rewrite Hq, H1 by done. split; [done|].
  repeat split.
  - simpl. unfold set_queue. by rewrite length_insert.
  - simpl. by rewrite Hord.
  - intros c' Hc'. pose proof (lane_queue_set l c (filter (fun x => cid x = c) L') c' Hlen Hc Hc') as E2.
    unfold lane_queue at 1 in E2. unfold lane_queue at 1. simpl in *. rewrite E2.
    case_decide as Ecc; [by subst|]. rewrite Hq by done. by apply H2.
  - by apply H6.
  - lia.
Qed.

Lemma pop_from_refines capacity l L c :
  lane_rel capacity l L ->
  let '(e, m, l') := pop_from no_wait l c 0 in
  let '(e', m', L') := spec_pop L c in
  e = e' /\ m = m' /\ lane_rel capacity l' L'.
Proof.
  intros Hrel. unfold pop_from, spec_pop. destruct (valid_id c) eqn:Hc; simpl; [|done].
  destruct (take_first c L) as [[m L']|] eqn:Ht.
  - destruct (pop_rel _ _ _ _ _ _ Hrel Hc Ht) as (q & Eq & Hr). rewrite Eq. done.
  - apply take_first_None in Ht. pose proof Hrel as (_ & _ & Hq & _). rewrite Hq, Ht by done. done.
Qed.

Lemma pop_next_refines capacity l L :
  lane_rel capacity l L ->
  let '(e, m, l') := pop_next_from no_wait l 0 in
  let '(e', m', L') := spec_pop_next L in
  e = e' /\ m = m' /\ lane_rel capacity l' L'.
Proof.
  intros Hrel. pose proof Hrel as (_ & Hord & Hq & Hids & _).
  unfold pop_next_from, spec_pop_next. destruct L as [|m L']; rewrite Hord; simpl; [done|].
  inversion Hids as [|? ? Hm HL]; subst.
  assert (take_first (cid m) (m :: L') = Some (m, L')) as Ht by (simpl; by rewrite Z.eqb_refl).
  destruct (pop_rel _ _ _ _ _ _ Hrel Hm Ht) as (q & -> & Hr). split; [done|]. split; [done|].
  rewrite Hord in Hr. simpl in Hr. by rewrite Z.eqb_refl in Hr.
Qed.

(** ** Scripts of calls on one direction *)

Inductive lane_op := LPush (conn_id : Z) (bytes : str) | LPop (conn_id : Z) | LPopNext.

Definition lane_step (capacity : nat) (l : Lane) (op : lane_op)
  : QueueError * option QueueMessage * Lane :=
  match op with
  | LPush c bytes => let '(e, l') := push_to capacity l c bytes in (e, None, l')
  | LPop c => pop_from no_wait l c 0
  | LPopNext => pop_next_from no_wait l 0
  end.

Definition spec_step (capacity : nat) (L : list QueueMessage) (op : lane_op)
  : QueueError * option QueueMessage * list QueueMessage :=
  match op with
  | LPush c bytes => let '(e, L') := spec_push capacity L c bytes in (e, None, L')
  | LPop c => spec_pop L c
  | LPopNext => spec_pop_next L
  end.

Lemma lane_step_refines capacity l L op :
  lane_rel capacity l L ->
  fst (lane_step capacity l op) = fst (spec_step capacity L op) /\
  lane_rel capacity (snd (lane_step capacity l op)) (snd (spec_step capacity L op)).
Proof.
  intros Hrel. destruct op as [c bytes|c|]; simpl.
  - pose proof (push_to_refines capacity l L c bytes Hrel) as H.
    destruct (push_to _ _ _ _), (spec_push _ _ _ _). naive_solver.
  - pose proof (pop_from_refines capacity l L c Hrel) as H.
    destruct (pop_from _ _ _ _) as [[e m] l'], (spec_pop _ _) as [[e' m'] L']. naive_solver.
  - pose proof (pop_next_refines capacity l L Hrel) as H.
    destruct (pop_next_from _ _ _) as [[e m] l'], (spec_pop_next _) as [[e' m'] L']. naive_solver.
Qed.

(** The queue of a direction (five deques and the order deque) refines one
    bounded list of messages: every script of [push], [pop] and [pop_next] calls
    returns the same codes and messages as on the list, where a push appends, a
    full list refuses, [pop] takes the oldest message of its connection and
    [pop_next] the oldest of all; and the two representations stay related. *)
Theorem message_queue_refines capacity ops :
  fst (run_script (lane_step capacity) lane_init ops) = fst (run_script (spec_step capacity) [] ops) /\
  lane_rel capacity (snd (run_script (lane_step capacity) lane_init ops))
                    (snd (run_script (spec_step capacity) [] ops)).
Proof. apply (run_script_sim (lane_rel capacity)); [apply lane_step_refines|apply lane_init_rel]. Qed.

Lemma spec_push_pop capacity L c bytes :
  valid_id c = true -> length L < capacity -> take_first c L = None ->
  take_first c (snd (spec_push capacity L c bytes)) = Some (mkMsg c (take MAX_MSG_DATA bytes), L).
Proof.
  intros Hc Hlen Hno. unfold spec_push. rewrite Hc. simpl.
  assert (capacity <=? length L = false) as -> by (apply Nat.leb_gt; lia). simpl.
  clear Hlen. induction L as [|x L IH]; simpl in *; [by rewrite Z.eqb_refl|].
  destruct (cid x =? c)%Z; [done|]. destruct (take_first c L) as [[]|]; [done|]. by rewrite IH.
Qed.

(** What is read back from the receive queue is what was pushed, cut at
    [MAX_MSG_DATA]: on a queue with room and nothing pending for the connection,
    [rx_push] returns [ok] and the next [rx_pop] of that connection returns the
    first 256 bytes of the payload and restores the queue's contents. *)
Lemma rx_push_pop_roundtrip (q : MessageQueue) L conn_id bytes :
  lane_rel (capacity_ q) (rx_ q) L ->
  valid_id conn_id = true -> length L < capacity_ q -> take_first conn_id L = None ->
  let '(e1, q1) := rx_push q conn_id bytes in
  let '(e2, m, q2) := rx_pop q1 conn_id in
  e1 = QueueError_ok /\ e2 = QueueError_ok /\
  m = Some (mkMsg conn_id (take MAX_MSG_DATA bytes)) /\ lane_rel (capacity_ q) (rx_ q2) L.
Proof.
  intros Hrel Hc Hlen Hno. unfold rx_push, rx_pop.
  pose proof (push_to_refines _ _ _ conn_id bytes Hrel) as H1.
  pose proof (spec_push_pop (capacity_ q) L conn_id bytes Hc Hlen Hno) as Hs.
  destruct (push_to (capacity_ q) (rx_ q) conn_id bytes) as [e1 l1].
  destruct (spec_push (capacity_ q) L conn_id bytes) as [e1' L1] eqn:Esp. destruct H1 as [-> H1].
  simpl. pose proof (pop_from_refines _ _ _ conn_id H1) as H2. unfold spec_pop in H2. simpl in Hs.
  rewrite Hc, Hs in H2. simpl in H2. destruct (pop_from no_wait l1 conn_id 0) as [[e2 m] l2].
  destruct H2 as (-> & -> & H2). split; [|done].
  unfold spec_push in Esp. rewrite Hc in Esp. simpl in Esp.
  assert (capacity_ q <=? length L = false) as E by (apply Nat.leb_gt; lia).
  rewrite E in Esp. congruence.
Qed.

(** A 300-byte datagram on connection 2 of a fresh queue. *)
Lemma rx_push_pop_roundtrip_witness :
  let '(e1, q1) := rx_push (create_message_queue 0) 2 (replicate 300 SPACE) in
  let '(e2, m, q2) := rx_pop q1 2 in
  e1 = QueueError_ok /\ e2 = QueueError_ok /\
  m = Some (mkMsg 2 (take MAX_MSG_DATA (replicate 300 SPACE))) /\
  lane_rel (capacity_ (create_message_queue 0)) (rx_ q2) [].
Proof.
  apply (rx_push_pop_roundtrip (create_message_queue 0) [] 2 (replicate 300 SPACE)).
  - apply lane_init_rel.
  - reflexivity.
  - simpl. unfold DEFAULT_CAPACITY. lia.
  - reflexivity.
Defined.
