(* ===== verification/Monitor.v ===== *)
(** * Objects with a mutex and condition variables

    The payload queue, the message channel and the event flags of the desktop platforms
    are built alike: a call locks the mutex, waits with [wait_for] and a predicate if it
    has to and may, does its work, notifies, returns.  [MonitorClass] is such a class:
    for each call its critical section, which is [None] while the predicate of its wait
    is false, what it returns without waiting and when its time is over, the condition
    variable it waits on and the notification it ends with.

    [exec] is one step of one thread of any number.  A critical section is one step;
    a waiting thread is woken by a notification, by its time or spuriously, locks
    again and tests its predicate ([wait_for] is
    [while (!pred()) if (wait_until(...) == timeout) return pred(); return true]).

    The theorems: the calls are linearized by their critical sections
    ([reach_replay]); a call times out only when its time is over
    ([returns_unready]), and then it does return ([late_wait_returns]); and three
    conditions under which no wake-up is lost: notifications to everybody, a single
    waiting thread ([reach_awake]), or one notification per thing to wait for
    ([reach_paid]). *)

From S2P Require Import Prelude.

Inductive cv_status := no_timeout | timeout.

(** [notify_one] and [notify_all]. *)
Inductive wakes := wake_one | wake_all.

#[export] Instance wakes_eq_dec : EqDecision wakes.
Proof. solve_decision. Defined.

Class MonitorClass (S Op R CV : Type) := {
  mc_step : Op -> S -> option (R * S);
  mc_empty : Op -> R;
  mc_timeout : Op -> R;
  mc_cv : Op -> option CV;
  mc_notify : Op -> R -> option (CV * wakes);
  (** The notification comes after the mutex is unlocked. *)
  mc_after : Op -> bool }.

Section Monitor.
Context {S Op R CV : Type} {HM : MonitorClass S Op R CV}.
Context `{EqDecision R} `{EqDecision CV}.

(** A thread is outside; in [wait_until], the mutex released, since [since] and for
    [ms]; back from it, about to lock again; or unlocked, about to notify. *)
Inductive thread :=
| outside
| waiting (op : Op) (since ms : Z) (signalled : bool)
| woken (op : Op) (since ms : Z) (status : cv_status)
| notifying (cv : CV) (w : wakes).

Record State := mkState { mem : S; threads : list thread; now : Z }.

(** Call [op] of thread [t] returned [r]. *)
Record event := mkEvent { ev_thread : nat; ev_op : Op; ev_result : R }.

Definition set_mem (m : S) (s : State) : State := mkState m (threads s) (now s).
Definition set_threads (l : list thread) (s : State) : State := mkState (mem s) l (now s).
Definition set_thread (t : nat) (x : thread) (s : State) : State := set_threads (<[t := x]> (threads s)) s.

(** The thread sleeps on [cv]: nobody has notified it. *)
Definition sleeps (cv : CV) (x : thread) : bool :=
  match x with waiting op _ _ false => bool_decide (mc_cv op = Some cv) | _ => false end.

Definition signal (cv : CV) (x : thread) : thread :=
  match x with
  | waiting op since ms b => if bool_decide (mc_cv op = Some cv) then waiting op since ms true else x
  | _ => x
  end.

(** [u] is the thread [notify_one] unblocks, if anybody sleeps on [cv]. *)
Definition notify (cv : CV) (w : wakes) (u : option nat) (s : State) : option State :=
  match w, u with
  | wake_all, _ => Some (set_threads (signal cv <$> threads s) s)
  | wake_one, None => if existsb (sleeps cv) (threads s) then None else Some s
  | wake_one, Some u =>
      match threads s !! u with
      | Some x => if sleeps cv x then Some (set_thread u (signal cv x) s) else None
      | None => None
      end
  end.

(** The end of the critical section of [op]. *)
Definition finish (t : nat) (op : Op) (r : R) (m : S) (u : option nat) (s : State) : option (State * list event) :=
  let s := set_mem m s in
  let ev := [mkEvent t op r] in
  match mc_notify op r with
  | None => Some (set_thread t outside s, ev)
  | Some (cv, w) =>
      if mc_after op then Some (set_thread t (notifying cv w) s, ev)
      else match notify cv w u (set_thread t outside s) with
           | Some s' => Some (s', ev)
           | None => None
           end
  end.

(** A call, up to its return or its wait. *)
Definition call (t : nat) (op : Op) (timeout_ms : Z) (u : option nat) (s : State) : option (State * list event) :=
  match threads s !! t with
  | Some outside =>
      match mc_step op (mem s) with
      | Some (r, m) => finish t op r m u s
      | None =>
          if (timeout_ms =? 0)%Z || bool_decide (mc_cv op = None) then Some (s, [mkEvent t op (mc_empty op)])
          else Some (set_thread t (waiting op (now s) timeout_ms false) s, [])
      end
  | _ => None
  end.

(** The mutex is locked again: [wait_for] tests its predicate. *)
Definition relock (t : nat) (u : option nat) (s : State) : option (State * list event) :=
  match threads s !! t with
  | Some (woken op since ms status) =>
      match mc_step op (mem s) with
      | Some (r, m) => finish t op r m u s
      | None =>
          match status with
          | timeout => Some (set_thread t outside s, [mkEvent t op (mc_timeout op)])
          | no_timeout => Some (set_thread t (waiting op since ms false) s, [])
          end
      end
  | _ => None
  end.

(** [wait_until] ends. *)
Definition wake (t : nat) (status : cv_status) (s : State) : option State :=
  match threads s !! t with
  | Some (waiting op since ms _) =>
      match status with
      | timeout => if (since + ms <=? now s)%Z then Some (set_thread t (woken op since ms timeout) s) else None
      | no_timeout => Some (set_thread t (woken op since ms no_timeout) s)
      end
  | _ => None
  end.

Definition late_notify (t : nat) (u : option nat) (s : State) : option State :=
  match threads s !! t with
  | Some (notifying cv w) => notify cv w u (set_thread t outside s)
  | _ => None
  end.

Inductive action :=
| a_time (ms : Z)
| a_call (t : nat) (op : Op) (timeout_ms : Z) (u : option nat)
| a_wake (t : nat) (status : cv_status)
| a_relock (t : nat) (u : option nat)
| a_notify (t : nat) (u : option nat).

(** One step; [None] when it cannot be taken in this state. *)
Definition exec (a : action) (s : State) : option (State * list event) :=
  match a with
  | a_time ms => if (0 <=? ms)%Z then Some (mkState (mem s) (threads s) (now s + ms), []) else None
  | a_call t op ms u => call t op ms u s
  | a_wake t status => (fun s => (s, [])) <$> wake t status s
  | a_relock t u => relock t u s
  | a_notify t u => (fun s => (s, [])) <$> late_notify t u s
  end.

Fixpoint exec_all (l : list action) (s : State) : option (State * list event) :=
  match l with
  | [] => Some (s, [])
  | a :: l' =>
      match exec a s with
      | None => None
      | Some (s1, evs) =>
          match exec_all l' s1 with
          | None => None
          | Some (s2, evs') => Some (s2, evs ++ evs')
          end
      end
  end.

(** [n] threads and a fresh object. *)
Definition start (m : S) (n : nat) (at_ : Z) : State := mkState m (replicate n outside) at_.

(** The states of the runs that stay in [P], with what the calls returned. *)
Inductive reach (P : State -> Prop) (s0 : State) : State -> list event -> Prop :=
| reach_start : reach P s0 s0 []
| reach_exec s tr a s' evs :
    reach P s0 s tr -> exec a s = Some (s', evs) -> P s' -> reach P s0 s' (tr ++ evs).

Lemma reach_exec_all (P : State -> Prop) s0 l s tr s' evs :
  (forall s, P s) -> reach P s0 s tr -> exec_all l s = Some (s', evs) -> reach P s0 s' (tr ++ evs).
Proof using Type.
  intros HP. revert s tr evs. induction l as [|a l IH]; intros s tr evs Hr He; cbn in *; [simplify_eq; by rewrite app_nil_r|].
  destruct (exec a s) as [[s1 evs1]|] eqn:E; [|done]. destruct (exec_all l s1) as [[s2 evs2]|] eqn:E2; [|done].
  simplify_eq. rewrite app_assoc. apply (IH s1); [|done]. by apply (reach_exec P s0 s tr a).
Qed.

(** ** Linearization *)

(** The object after a call that returned [r]: its critical section alone, or nothing
    if it cannot be executed. *)
Definition replay_one (ev : event) (m : S) : option S :=
  match mc_step (ev_op ev) m with
  | Some (r, m') => if decide (ev_result ev = r) then Some m' else None
  | None => if decide (ev_result ev = mc_empty (ev_op ev) \/ ev_result ev = mc_timeout (ev_op ev)) then Some m else None
  end.

Fixpoint replay (tr : list event) (m : S) : option S :=
  match tr with
  | [] => Some m
  | ev :: tr' => match replay_one ev m with Some m' => replay tr' m' | None => None end
  end.

Lemma replay_app tr evs m :
  replay (tr ++ evs) m = match replay tr m with Some m' => replay evs m' | None => None end.
Proof. revert m. induction tr as [|ev tr IH]; intros m; [done|]. cbn. destruct (replay_one ev m); [apply IH|done]. Qed.

Lemma notify_mem cv w u s s' : notify cv w u s = Some s' -> mem s' = mem s /\ now s' = now s.
Proof. unfold notify. intros E. repeat (case_match; simplify_eq); done. Qed.

Lemma replay_step t op r m m' : mc_step op m = Some (r, m') -> replay [mkEvent t op r] m = Some m'.
Proof. intros E. unfold replay, replay_one. cbn [ev_op ev_result]. rewrite E. by rewrite decide_True. Qed.

Lemma replay_unready t op r m :
  mc_step op m = None -> r = mc_empty op \/ r = mc_timeout op -> replay [mkEvent t op r] m = Some m.
Proof. intros E Hr. unfold replay, replay_one. cbn [ev_op ev_result]. rewrite E. by rewrite decide_True. Qed.

Lemma finish_replay t op r m u s s' evs :
  mc_step op (mem s) = Some (r, m) -> finish t op r m u s = Some (s', evs) -> replay evs (mem s) = Some (mem s').
Proof.
  intros Hs E. unfold finish in E. destruct (mc_notify op r) as [[cv w]|]; [destruct (mc_after op)|].
  - simplify_eq. by apply replay_step.
  - destruct (notify cv w u _) eqn:En; simplify_eq. apply notify_mem in En as [-> _]. by apply replay_step.
  - simplify_eq. by apply replay_step.
Qed.

Lemma exec_replay a s s' evs : exec a s = Some (s', evs) -> replay evs (mem s) = Some (mem s').
Proof.
  destruct a as [ms|t op ms u|t status|t u|t u]; cbn [exec].
  - destruct (0 <=? ms)%Z; intros; by simplify_eq.
  - unfold call. destruct (threads s !! t) as [[]|]; try done. destruct (mc_step op (mem s)) as [[r m]|] eqn:Es.
    + by apply finish_replay.
    + case_match; intros; simplify_eq; [|done]. apply replay_unready; [done|by left].
  - unfold wake. repeat case_match; intros; by simplify_eq/=.
  - unfold relock. destruct (threads s !! t) as [[]|]; try done. destruct (mc_step op (mem s)) as [[r m]|] eqn:Es.
    + by apply finish_replay.
    + destruct status; intros; simplify_eq; [done|]. apply replay_unready; [done|by right].
  - destruct (late_notify t u s) eqn:E; [|done]. intros; simplify_eq/=. unfold late_notify in E.
    destruct (threads s !! t) as [[]|]; try done. apply notify_mem in E as [-> _]. done.
Qed.

(** The calls return what they return one after the other, in the order of their last
    critical sections, and the object is as it is then. *)
Lemma reach_replay P s0 s tr : reach P s0 s tr -> replay tr (mem s0) = Some (mem s).
Proof.
  induction 1 as [|s tr a s' evs Hr IH He HP]; [done|]. rewrite replay_app, IH. by apply (exec_replay a).
Qed.

(** ** Time *)

(** Some state of the object makes the call wait. *)
Definition could_wait (op : Op) : Prop := mc_cv op <> None /\ exists m, mc_step op m = None.

Definition thread_ok (at_ : Z) (x : thread) : Prop :=
  match x with
  | waiting op _ _ _ => could_wait op
  | woken op since ms status => could_wait op /\ (status = timeout -> (since + ms <= at_)%Z)
  | _ => True
  end.

Definition threads_ok (s : State) : Prop := Forall (thread_ok (now s)) (threads s).

Lemma threads_ok_lookup s t x : threads_ok s -> threads s !! t = Some x -> thread_ok (now s) x.
Proof. intros H Hx. by apply (Forall_lookup_1 _ _ _ _ H Hx). Qed.

Lemma threads_ok_set s t x : threads_ok s -> thread_ok (now s) x -> threads_ok (set_thread t x s).
Proof. intros H Hx. by apply Forall_insert. Qed.

Lemma signal_ok cv at_ x : thread_ok at_ x -> thread_ok at_ (signal cv x).
Proof. destruct x; cbn; try done. by case_match. Qed.

Lemma notify_ok cv w u s s' : threads_ok s -> notify cv w u s = Some s' -> threads_ok s'.
Proof.
  intros Ht. unfold notify. destruct w, u as [u|]; intros E.
  - destruct (threads s !! u) as [x|] eqn:Hx; [|done]. case_match; simplify_eq. apply threads_ok_set; [done|].
    apply signal_ok. by apply (threads_ok_lookup s u).
  - case_match; by simplify_eq.
  - simplify_eq. apply Forall_fmap. apply (Forall_impl _ _ _ Ht). intros x. apply signal_ok.
  - simplify_eq. apply Forall_fmap. apply (Forall_impl _ _ _ Ht). intros x. apply signal_ok.
Qed.

Lemma finish_ok t op r m u s s' evs : threads_ok s -> finish t op r m u s = Some (s', evs) -> threads_ok s'.
Proof.
  intros Ht E. assert (threads_ok (set_mem m s)) as Ht' by done. unfold finish in E.
  destruct (mc_notify op r) as [[cv w]|]; [destruct (mc_after op)|].
  - simplify_eq. by apply threads_ok_set.
  - destruct (notify cv w u _) eqn:En; simplify_eq. apply notify_ok in En; [done|]. by apply threads_ok_set.
  - simplify_eq. by apply threads_ok_set.
Qed.

Lemma exec_threads_ok a s s' evs : threads_ok s -> exec a s = Some (s', evs) -> threads_ok s'.
Proof.
  intros Ht. destruct a as [ms|t op ms u|t status|t u|t u]; cbn [exec].
  - destruct (0 <=? ms)%Z eqn:Hms; intros; simplify_eq. bool_facts. apply (Forall_impl _ _ _ Ht). intros x. cbn.
    destruct x; cbn; try done. intros [Hc Hx]. split; [done|]. intros E. specialize (Hx E). lia.
  - unfold call. destruct (threads s !! t) as [[]|] eqn:Hx; try done. destruct (mc_step op (mem s)) as [[r m]|] eqn:Es.
    + by apply finish_ok.
    + case_match eqn:Ew; intros; simplify_eq; [done|]. apply threads_ok_set; [done|]. cbn.
      apply orb_false_iff in Ew as [_ Ew]. apply bool_decide_eq_false in Ew. split; [done|]. by exists (mem s).
  - unfold wake. destruct (threads s !! t) as [[]|] eqn:Hx; try done. pose proof (threads_ok_lookup s t _ Ht Hx).
    destruct status; [|case_match; bool_facts]; intros; simplify_eq/=; by apply threads_ok_set.
  - unfold relock. destruct (threads s !! t) as [[]|] eqn:Hx; try done. pose proof (threads_ok_lookup s t _ Ht Hx) as [Hc _].
    destruct (mc_step op (mem s)) as [[r m]|] eqn:Es; [by apply finish_ok|].
    destruct status; intros; simplify_eq; by apply threads_ok_set.
  - destruct (late_notify t u s) eqn:E; [|done]. intros; simplify_eq/=. unfold late_notify in E.
    destruct (threads s !! t) as [[]|]; try done. apply notify_ok in E; [done|]. by apply threads_ok_set.
Qed.

Lemma reach_threads_ok P m n at_ s tr : reach P (start m n at_) s tr -> threads_ok s.
Proof. induction 1; [by apply Forall_replicate|]. by eapply exec_threads_ok. Qed.

Lemma finish_events t op r m u s s' evs : finish t op r m u s = Some (s', evs) -> evs = [mkEvent t op r].
Proof. unfold finish. intros E. repeat (case_match; simplify_eq); done. Qed.

(** A call whose critical section cannot be executed returns only if it does not wait,
    or when its time is over. *)
Lemma returns_unready a s s' t op r :
  threads_ok s -> exec a s = Some (s', [mkEvent t op r]) -> mc_step op (mem s) = None ->
  (exists ms u, a = a_call t op ms u /\ r = mc_empty op /\ (ms = 0%Z \/ mc_cv op = None)) \/
  (exists since ms, threads s !! t = Some (woken op since ms timeout) /\ (since + ms <= now s)%Z /\ r = mc_timeout op).
Proof.
  intros Ht. destruct a as [ms|t' op' ms u|t' status|t' u|t' u]; cbn [exec].
  - by destruct (0 <=? ms)%Z.
  - unfold call. destruct (threads s !! t') as [[]|] eqn:Hx; try done. destruct (mc_step op' (mem s)) as [[r' m]|] eqn:Es.
    + intros E Hn. apply finish_events in E. by simplify_eq.
    + case_match eqn:Ew; intros; simplify_eq. left. exists ms, u. split_and!; try done.
      apply orb_true_iff in Ew as [Ew|Ew]; bool_facts; auto.
  - by destruct (wake t' status s).
  - unfold relock. destruct (threads s !! t') as [[]|] eqn:Hx; try done. destruct (mc_step op0 (mem s)) as [[r' m]|] eqn:Es.
    + intros E Hn. apply finish_events in E. by simplify_eq.
    + destruct status; intros; simplify_eq. right. exists since, ms. split; [done|]. split; [|done].
      by apply (threads_ok_lookup s t _ Ht Hx).
  - by destruct (late_notify t' u s).
Qed.

(** Somebody can always be notified. *)
Lemma notify_some cv w s : exists u s', notify cv w u s = Some s'.
Proof.
  destruct w; [|by eexists None, _]. destruct (existsb (sleeps cv) (threads s)) eqn:E.
  - apply existsb_exists in E as (x & Hin & Hx). apply list_elem_of_In, list_elem_of_lookup in Hin as [u Hu].
    exists (Some u). cbn. rewrite Hu, Hx. by eexists.
  - exists None. cbn. rewrite E. by eexists.
Qed.

Lemma finish_some t op r m s : exists u s', finish t op r m u s = Some (s', [mkEvent t op r]).
Proof.
  unfold finish. destruct (mc_notify op r) as [[cv w]|]; [|by eexists None, _].
  destruct (mc_after op); [by eexists None, _|].
  destruct (notify_some cv w (set_thread t outside (set_mem m s))) as (u & s' & E). exists u, s'. by rewrite E.
Qed.

(** A waiting call whose time is over returns by two steps of its own thread, whatever
    the others do; with the result of its critical section if it can be executed. *)
Lemma late_wait_returns s t op since ms b :
  threads s !! t = Some (waiting op since ms b) -> (since + ms <= now s)%Z ->
  exists s1 u s2 r, exec (a_wake t timeout) s = Some (s1, []) /\ exec (a_relock t u) s1 = Some (s2, [mkEvent t op r]) /\
    r = match mc_step op (mem s) with Some (r, _) => r | None => mc_timeout op end.
Proof.
  intros Hx Hle. pose proof (lookup_lt_Some _ _ _ Hx) as Hlt. exists (set_thread t (woken op since ms timeout) s).
  cbn [exec]. unfold wake, relock. rewrite Hx, (proj2 (Z.leb_le _ _) Hle).
  assert (threads (set_thread t (woken op since ms timeout) s) !! t = Some (woken op since ms timeout)) as ->
    by (cbn; by rewrite list_lookup_insert_eq).
  change (mem (set_thread t (woken op since ms timeout) s)) with (mem s).
  destruct (mc_step op (mem s)) as [[r m]|].
  - destruct (finish_some t op r m (set_thread t (woken op since ms timeout) s)) as (u & s2 & E). exists u, s2, r. by rewrite E.
  - by eexists None, _, (mc_timeout op).
Qed.

(** ** Wake-ups *)

(** At most one thread is in a wait. *)
Definition in_wait (x : thread) : bool := match x with waiting _ _ _ _ | woken _ _ _ _ => true | _ => false end.

Definition one_waiter (s : State) : Prop :=
  forall t u x y, threads s !! t = Some x -> threads s !! u = Some y -> in_wait x = true -> in_wait y = true -> t = u.

(** A thread that sleeps has nothing to do, or somebody is about to wake everybody. *)
Definition awake (s : State) : Prop :=
  forall t op since ms, threads s !! t = Some (waiting op since ms false) -> mc_step op (mem s) <> None ->
    exists u cv, threads s !! u = Some (notifying cv wake_all) /\ mc_cv op = Some cv.

(** A critical section that makes a waiting call executable notifies its condition
    variable: everybody, or one thread, at once, in runs that stay in [P]. *)
Definition notifies (P : State -> Prop) : Prop :=
  forall op r m m' op', could_wait op' -> mc_step op m = Some (r, m') -> mc_step op' m = None -> mc_step op' m' <> None ->
    exists cv w, mc_cv op' = Some cv /\ mc_notify op r = Some (cv, w) /\
      (w = wake_all \/ mc_after op = false /\ forall s, P s -> one_waiter s).

Lemma sleeps_signal cv x op since ms : signal cv x = waiting op since ms false -> x = waiting op since ms false /\ mc_cv op <> Some cv.
Proof. destruct x; cbn; try done. destruct (bool_decide (mc_cv op0 = Some cv)) eqn:E; intros; simplify_eq. by apply bool_decide_eq_false in E. Qed.

(** After a notification of [cv] nobody sleeps on it, if it was for everybody or there
    is only one thread to wake. *)
Lemma notify_awake cv w u s s' :
  notify cv w u s = Some s' -> (w = wake_all \/ one_waiter s') ->
  forall t op since ms, threads s' !! t = Some (waiting op since ms false) ->
    threads s !! t = Some (waiting op since ms false) /\ mc_cv op <> Some cv.
Proof.
  intros E Hw t op since ms Hx. unfold notify in E. destruct w.
  - destruct Hw as [?|H1]; [done|]. destruct u as [u|].
    + destruct (threads s !! u) as [y|] eqn:Hu; [|done]. destruct (sleeps cv y) eqn:Hs; simplify_eq.
      exfalso. pose proof (lookup_lt_Some _ _ _ Hu) as Hlt.
      destruct y as [|op' since' ms' []| |]; try done. cbn in Hs.
      assert (signal cv (waiting op' since' ms' false) = waiting op' since' ms' true) as Es by (cbn; by rewrite Hs).
      rewrite Es in *.
      assert (threads (set_thread u (waiting op' since' ms' true) s) !! u = Some (waiting op' since' ms' true)) as Hu'
        by (cbn; by rewrite list_lookup_insert_eq).
      assert (u = t) as -> by (by apply (H1 u t _ _ Hu' Hx)). rewrite Hu' in Hx. by simplify_eq.
    + destruct (existsb (sleeps cv) (threads s)) eqn:Ex; simplify_eq. split; [done|]. intros Hcv.
      assert (existsb (sleeps cv) (threads s') = true) as E2; [|congruence].
      apply existsb_exists. exists (waiting op since ms false). split; [|cbn; by apply bool_decide_eq_true].
      apply list_elem_of_In. by apply (list_elem_of_lookup_2 _ t).
  - assert (threads s' = signal cv <$> threads s) as Hth by (destruct u; by simplify_eq).
    rewrite Hth, list_lookup_fmap_Some in Hx. destruct Hx as (x & Hx & Hs). symmetry in Hx.
    apply sleeps_signal in Hx as [-> Hne]. done.
Qed.

(** A thread that notifies keeps doing so. *)
Lemma notify_keeps cv w u s s' t cv' w' :
  notify cv w u s = Some s' -> threads s !! t = Some (notifying cv' w') -> threads s' !! t = Some (notifying cv' w').
Proof.
  intros E Ht. unfold notify in E. destruct w, u as [u|].
  - destruct (threads s !! u) as [y|] eqn:Hu; [|done]. destruct (sleeps cv y) eqn:Hs; simplify_eq. cbn.
    rewrite list_lookup_insert_ne; [done|]. intros ->. rewrite Ht in Hu. by simplify_eq.
  - by case_match; simplify_eq.
  - simplify_eq. cbn. by rewrite list_lookup_fmap, Ht.
  - simplify_eq. cbn. by rewrite list_lookup_fmap, Ht.
Qed.

Lemma notify_sleeper cv w u s s' t op since ms :
  notify cv w u s = Some s' -> threads s' !! t = Some (waiting op since ms false) ->
  threads s !! t = Some (waiting op since ms false).
Proof.
  intros E Hx. unfold notify in E. destruct w, u as [u|].
  - destruct (threads s !! u) as [y|] eqn:Hu; [|done]. destruct (sleeps cv y) eqn:Hs; simplify_eq. cbn in Hx.
    rewrite list_lookup_insert_Some in Hx. destruct Hx as [(-> & Hx & _)|[_ Hx]]; [|done].
    apply sleeps_signal in Hx as [-> _]. done.
  - by case_match; simplify_eq.
  - simplify_eq. cbn in Hx. rewrite list_lookup_fmap_Some in Hx. destruct Hx as (x & Hx & Hs). symmetry in Hx.
    by apply sleeps_signal in Hx as [-> _].
  - simplify_eq. cbn in Hx. rewrite list_lookup_fmap_Some in Hx. destruct Hx as (x & Hx & Hs). symmetry in Hx.
    by apply sleeps_signal in Hx as [-> _].
Qed.

(** The thread holds no notification back. *)
Definition no_notice (x : option thread) : Prop := match x with Some (notifying _ _) => False | _ => True end.

Lemma set_sleeper t x s u op since ms :
  x <> waiting op since ms false -> threads (set_thread t x s) !! u = Some (waiting op since ms false) ->
  u <> t /\ threads s !! u = Some (waiting op since ms false).
Proof. intros Hx. cbn. rewrite list_lookup_insert_Some. intros [(_ & ? & _)|[? ?]]; [done|done]. Qed.

Lemma set_keeps t x s u y : no_notice (threads s !! t) -> threads s !! u = Some y -> y <> outside ->
  (exists cv w, y = notifying cv w) -> threads (set_thread t x s) !! u = Some y.
Proof.
  intros Hn Hu _ (cv & w & ->). cbn. rewrite list_lookup_insert_ne; [done|]. intros ->. by rewrite Hu in Hn.
Qed.

Lemma awake_finish (P : State -> Prop) t op r m u s s' evs :
  notifies P -> P s' -> awake s -> threads_ok s -> no_notice (threads s !! t) -> t < length (threads s) ->
  mc_step op (mem s) = Some (r, m) -> finish t op r m u s = Some (s', evs) -> awake s'.
Proof.
  intros HN HP Ha Ht Hno Hlt Hst E.
  (** a thread that slept before and had nothing to do *)
  assert (forall v op' since ms, threads s !! v = Some (waiting op' since ms false) -> mc_step op' m <> None ->
    (exists v' cv, threads s !! v' = Some (notifying cv wake_all) /\ mc_cv op' = Some cv) \/
    (exists cv w, mc_cv op' = Some cv /\ mc_notify op r = Some (cv, w) /\ (w = wake_all \/ mc_after op = false /\ one_waiter s'))) as Hcase.
  { intros v op' since ms Hv Hr. destruct (mc_step op' (mem s)) as [p|] eqn:Eop.
    - left. apply (Ha v op' since ms Hv). by rewrite Eop.
    - right. pose proof (threads_ok_lookup s v _ Ht Hv) as Hc.
      destruct (HN op r (mem s) m op' Hc Hst Eop Hr) as (cv & w & H1 & H2 & H3). exists cv, w. split_and!; try done.
      destruct H3 as [?|[? H3]]; [by left|right; auto]. }
  assert (forall x v' cv, threads s !! v' = Some (notifying cv wake_all) ->
    threads (set_thread t x (set_mem m s)) !! v' = Some (notifying cv wake_all)) as Hkeep.
  { intros x v' cv Hv'. apply set_keeps; eauto. }
  unfold finish in E. destruct (mc_notify op r) as [[cv w]|] eqn:En; [destruct (mc_after op) eqn:Eaf|].
  - simplify_eq. intros v op' since ms Hv Hr. apply set_sleeper in Hv as [Hne Hv]; [|done].
    destruct (Hcase v op' since ms Hv Hr) as [(v' & cv' & H1 & H2)|(cv' & w' & H1 & H2 & [->|[? _]])]; [|simplify_eq|done].
    + exists v', cv'. split; [by apply Hkeep|done].
    + exists t, cv'. split; [cbn; by rewrite list_lookup_insert_eq|done].
  - destruct (notify cv w u _) as [s1|] eqn:Eno; simplify_eq. intros v op' since ms Hv Hr.
    pose proof (notify_sleeper _ _ _ _ _ _ _ _ _ Eno Hv) as Hv0. apply set_sleeper in Hv0 as [Hne Hv0]; [|done].
    rewrite (proj1 (notify_mem _ _ _ _ _ Eno)) in Hr.
    destruct (Hcase v op' since ms Hv0 Hr) as [(v' & cv' & H1 & H2)|(cv' & w' & H1 & H2 & H3)].
    + exists v', cv'. split; [|done]. by eapply notify_keeps; [|apply Hkeep].
    + simplify_eq. destruct (notify_awake _ _ _ _ _ Eno ltac:(naive_solver) v op' since ms Hv) as [_ ?]. done.
  - simplify_eq. intros v op' since ms Hv Hr. apply set_sleeper in Hv as [Hne Hv]; [|done].
    destruct (Hcase v op' since ms Hv Hr) as [(v' & cv' & H1 & H2)|(cv' & w' & H1 & H2 & _)]; [|done].
    exists v', cv'. split; [by apply Hkeep|done].
Qed.

(** A thread changes its state, and what is new sleeps only if it has nothing to do. *)
Lemma awake_set t x s :
  awake s -> no_notice (threads s !! t) ->
  (forall op since ms, x = waiting op since ms false -> mc_step op (mem s) = None) -> awake (set_thread t x s).
Proof.
  intros Ha Hno Hx v op since ms. cbn [threads set_thread set_threads]. rewrite list_lookup_insert_Some.
  
  change (mem (set_thread t x s)) with (mem s).
  intros [(_ & -> & _)|[_ Hv]] Hr; [by destruct Hr; apply (Hx op since ms)|].
  destruct (Ha v op since ms Hv Hr) as (v' & cv & H1 & H2). exists v', cv. split; [|done]. apply set_keeps; eauto.
Qed.

Lemma awake_exec (P : State -> Prop) a s s' evs :
  notifies P -> P s' -> threads_ok s -> awake s -> exec a s = Some (s', evs) -> awake s'.
Proof.
  intros HN HP Ht Ha. destruct a as [ms|t op ms u|t status|t u|t u]; cbn [exec].
  - destruct (0 <=? ms)%Z; intros; by simplify_eq.
  - unfold call. destruct (threads s !! t) as [[]|] eqn:Hx; try done. pose proof (lookup_lt_Some _ _ _ Hx).
    destruct (mc_step op (mem s)) as [[r m]|] eqn:Es.
    + intros E. eapply (awake_finish P t op r m u s); try done. by rewrite Hx.
    + case_match; intros; simplify_eq; [done|]. apply awake_set; [done|by rewrite Hx|]. intros; by simplify_eq.
  - unfold wake. destruct (threads s !! t) as [[]|] eqn:Hx; try done.
    destruct status; [|case_match]; intros; simplify_eq/=; (apply awake_set; [done|by rewrite Hx|done]).
  - unfold relock. destruct (threads s !! t) as [[]|] eqn:Hx; try done. pose proof (lookup_lt_Some _ _ _ Hx).
    destruct (mc_step op (mem s)) as [[r m]|] eqn:Es.
    + intros E. eapply (awake_finish P t op r m u s); try done. by rewrite Hx.
    + destruct status; intros; simplify_eq; (apply awake_set; [done|by rewrite Hx|]); intros; by simplify_eq.
  - destruct (late_notify t u s) as [s1|] eqn:E; [|done]. intros; simplify_eq/=. unfold late_notify in E.
    destruct (threads s !! t) as [[| | |cv w]|] eqn:Hx; try done. intros v op since ms Hv Hr.
    pose proof (notify_sleeper _ _ _ _ _ _ _ _ _ E Hv) as Hv0. apply set_sleeper in Hv0 as [Hne Hv0]; [|done].
    rewrite (proj1 (notify_mem _ _ _ _ _ E)) in Hr. destruct (Ha v op since ms Hv0 Hr) as (v' & cv' & H1 & H2).
    destruct (decide (v' = t)) as [->|Hvt].
    + rewrite Hx in H1. simplify_eq.
      destruct (notify_awake _ _ _ _ _ E (or_introl eq_refl) v op since ms Hv) as [_ ?]. done.
    + exists v', cv'. split; [|done]. eapply notify_keeps; [done|]. cbn. by rewrite list_lookup_insert_ne.
Qed.

(** No wake-up is lost. *)
Lemma reach_awake (P : State -> Prop) m n at_ s tr : notifies P -> reach P (start m n at_) s tr -> awake s.
Proof.
  intros HN. induction 1 as [|s tr a s' evs Hr IH He HP].
  - intros t op since ms H. by apply lookup_replicate_1 in H as [? ?].
  - apply (awake_exec P a s s' evs); try done. by eapply reach_threads_ok.
Qed.

(** A class that notifies inside its critical sections leaves no notification behind. *)
Lemma finish_no_late t op r m u s s' evs :
  mc_after op = false -> (forall v cv w, threads s !! v <> Some (notifying cv w)) ->
  finish t op r m u s = Some (s', evs) -> forall v cv w, threads s' !! v <> Some (notifying cv w).
Proof.
  intros Ha Hno E v cv w Hv. unfold finish in E. rewrite Ha in E.
  assert (forall v cv w, threads (set_thread t outside (set_mem m s)) !! v <> Some (notifying cv w)) as Hno1.
  { intros v' cv' w'. cbn. rewrite list_lookup_insert_Some. intros [(_ & ? & _)|[_ ?]]; [done|by eapply Hno]. }
  destruct (mc_notify op r) as [[cv' w']|]; [|simplify_eq; by eapply Hno1].
  destruct (notify cv' w' u _) as [s1|] eqn:En; simplify_eq. unfold notify in En. destruct w', u as [u|].
  - destruct (threads (set_thread t outside (set_mem m s)) !! u) as [x|] eqn:Hu; [|done].
    destruct (sleeps cv' x) eqn:Hx; [|done]. injection En as <-. cbn in Hv. rewrite list_lookup_insert_Some in Hv.
    destruct Hv as [(_ & Hbad & _)|[_ Hv]]; [|by eapply Hno1]. destruct x as [|? ? ? []| |]; cbn in *; try done. by rewrite Hx in Hbad.
  - case_match; simplify_eq. by eapply Hno1.
  - injection En as <-. cbn in Hv. rewrite list_lookup_fmap_Some in Hv. destruct Hv as (x & Hx & Hs).
    destruct x; cbn in Hx; try case_match; simplify_eq. by eapply Hno1.
  - injection En as <-. cbn in Hv. rewrite list_lookup_fmap_Some in Hv. destruct Hv as (x & Hx & Hs).
    destruct x; cbn in Hx; try case_match; simplify_eq. by eapply Hno1.
Qed.

Lemma reach_no_late P m n at_ s tr :
  (forall op, mc_after op = false) -> reach P (start m n at_) s tr -> forall v cv w, threads s !! v <> Some (notifying cv w).
Proof.
  intros Ha. induction 1 as [|s tr a s' evs Hr IH He HP].
  - intros v cv w H. by apply lookup_replicate_1 in H as [? ?].
  - assert (forall t x, threads s' = <[t := x]> (threads s) -> (forall cv w, x <> notifying cv w) ->
      forall v cv w, threads s' !! v <> Some (notifying cv w)) as Hset.
    { intros t x Hth Hx v cv w. rewrite Hth, list_lookup_insert_Some. intros [(_ & ? & _)|[_ ?]]; [by eapply Hx|by eapply IH]. }
    destruct a as [ms|t op ms u|t status|t u|t u]; cbn [exec] in He.
    + destruct (0 <=? ms)%Z; by simplify_eq.
    + unfold call in He. destruct (threads s !! t) as [[]|]; try done.
      destruct (mc_step op (mem s)) as [[r m']|]; [by eapply finish_no_late|]. case_match; simplify_eq; [done|]. by eapply Hset.
    + unfold wake in He. repeat (case_match; simplify_eq/=); by eapply Hset.
    + unfold relock in He. destruct (threads s !! t) as [[]|]; try done.
      destruct (mc_step op (mem s)) as [[r m']|]; [by eapply finish_no_late|]. destruct status; simplify_eq; by eapply Hset.
    + unfold late_notify in He. destruct (threads s !! t) as [[]|] eqn:Hx; try done. by destruct (IH t cv w).
Qed.

(** ** One notification per thing to wait for *)

Definition countb (p : thread -> bool) (l : list thread) : nat := length (List.filter p l).

Lemma countb_insert p l t x y :
  l !! t = Some x -> countb p (<[t := y]> l) + Nat.b2n (p x) = countb p l + Nat.b2n (p y).
Proof.
  unfold countb. revert t. induction l as [|z l IH]; intros [|t] H; simplify_eq/=.
  - destruct (p x), (p y); simpl; lia.
  - specialize (IH t H). change (list_insert t y l) with (<[t := y]> l). destruct (p z); simpl; lia.
Qed.

(** On its way: notified, or woken, and not yet back. *)
Definition coming (cv : CV) (x : thread) : bool :=
  match x with
  | waiting op _ _ true | woken op _ _ _ => bool_decide (mc_cv op = Some cv)
  | _ => false
  end.

(** [credit cv m]: how many threads that wait on [cv] can go on. *)
Class CreditLaws (credit : CV -> S -> nat) : Prop := {
  cr_ready op cv m : could_wait op -> mc_cv op = Some cv -> mc_step op m = None <-> credit cv m = 0;
  cr_gain op r m m' cv : mc_step op m = Some (r, m') ->
    credit cv m' <= credit cv m + (if decide (mc_notify op r = Some (cv, wake_one)) then 1 else 0);
  cr_use op r m m' cv : could_wait op -> mc_cv op = Some cv -> mc_step op m = Some (r, m') -> credit cv m' < credit cv m;
  cr_one op r cv w : mc_notify op r = Some (cv, w) -> w = wake_one;
  cr_inside op : mc_after op = false }.

Section Credit.
Variable credit : CV -> S -> nat.
Context {HC : CreditLaws credit}.

(** If anybody sleeps on [cv], as many threads are on their way as can go on. *)
Definition paid (s : State) : Prop :=
  (forall t cv w, threads s !! t <> Some (notifying cv w)) /\
  forall cv, existsb (sleeps cv) (threads s) = true -> credit cv (mem s) <= countb (coming cv) (threads s).

Lemma sleeper_exists cv s t x : threads s !! t = Some x -> sleeps cv x = true -> existsb (sleeps cv) (threads s) = true.
Proof. intros Ht Hx. apply existsb_exists. exists x. split; [|done]. apply list_elem_of_In. by apply (list_elem_of_lookup_2 _ t). Qed.

Lemma exists_sleeper cv s : existsb (sleeps cv) (threads s) = true -> exists t x, threads s !! t = Some x /\ sleeps cv x = true.
Proof. intros (x & Hin & Hx)%existsb_exists. apply list_elem_of_In, list_elem_of_lookup in Hin as [t Ht]. eauto. Qed.

(** One thread moves. *)
Lemma paid_set t x y s :
  paid s -> threads s !! t = Some x -> (forall cv w, y <> notifying cv w) ->
  (forall cv, sleeps cv y = true -> sleeps cv x = true \/ credit cv (mem s) = 0) ->
  (forall cv, coming cv x = true -> coming cv y = true \/ credit cv (mem s) = 0) -> paid (set_thread t y s).
Proof.
  intros [Hno Hp] Hx Hy Hs Hc. split.
  - intros u cv w. cbn. rewrite list_lookup_insert_Some. intros [(_ & ? & _)|[_ Hu]]; [by eapply Hy|by eapply Hno].
  - intros cv Hex. cbn [mem set_thread set_threads]. pose proof (countb_insert (coming cv) (threads s) t x y Hx) as Hn.
    change (threads (set_thread t y s)) with (<[t:=y]> (threads s)).
    destruct (decide (credit cv (mem s) = 0)) as [E|E]; [rewrite E; lia|].
    apply exists_sleeper in Hex as (u & z & Hu & Hz). cbn in Hu. rewrite list_lookup_insert_Some in Hu.
    assert (existsb (sleeps cv) (threads s) = true) as Hex.
    { destruct Hu as [(-> & -> & _)|[_ Hu]]; [|by eapply sleeper_exists].
      destruct (Hs cv Hz) as [?|?]; [by eapply sleeper_exists|done]. }
    specialize (Hp cv Hex).
    assert (Nat.b2n (coming cv x) <= Nat.b2n (coming cv y)) as Hle; [|lia].
    destruct (coming cv x) eqn:Ex; [|cbn; lia]. by destruct (Hc cv Ex) as [->|?].
Qed.

Lemma signal_coming cv x : sleeps cv x = true -> coming cv (signal cv x) = true /\ coming cv x = false.
Proof. destruct x as [|op since ms []| |]; cbn; try done. intros H. by rewrite H. Qed.

Lemma signal_other cv cv' x : sleeps cv x = true -> cv' <> cv -> coming cv' (signal cv x) = coming cv' x.
Proof.
  destruct x as [|op since ms []| |]; cbn; try done. intros H Hne. rewrite H. apply bool_decide_eq_true in H. cbn.
  apply bool_decide_eq_false. congruence.
Qed.

(** A notification: one more thread of [cv] is on its way, or none sleeps. *)
Lemma notify_coming cv u s s' :
  notify cv wake_one u s = Some s' ->
  (existsb (sleeps cv) (threads s') = true -> countb (coming cv) (threads s') = countb (coming cv) (threads s) + 1) /\
  (forall cv', cv' <> cv -> countb (coming cv') (threads s') = countb (coming cv') (threads s)) /\
  (forall cv', existsb (sleeps cv') (threads s') = true -> existsb (sleeps cv') (threads s) = true) /\
  (forall t cv w, threads s' !! t = Some (notifying cv w) -> threads s !! t = Some (notifying cv w)).
Proof.
  intros E. pose proof (fun t op since ms => notify_sleeper cv wake_one u s s' t op since ms E) as Hsl.
  assert (forall cv', existsb (sleeps cv') (threads s') = true -> existsb (sleeps cv') (threads s) = true) as Hex.
  { intros cv' (t & x & Ht & Hx)%exists_sleeper. destruct x as [|op since ms []| |]; try done.
    by eapply sleeper_exists; [apply Hsl|]. }
  unfold notify in E. destruct u as [u|].
  - destruct (threads s !! u) as [x|] eqn:Hu; [|done]. destruct (sleeps cv x) eqn:Hx; simplify_eq.
    destruct (signal_coming cv x Hx) as [H1 H2].
    split; [|split; [|split; [done|]]].
    + intros _. pose proof (countb_insert (coming cv) (threads s) u x (signal cv x) Hu) as Hn. rewrite H1, H2 in Hn.
      change (threads (set_thread u (signal cv x) s)) with (<[u := signal cv x]> (threads s)). cbn [Nat.b2n] in Hn. lia.
    + intros cv' Hne. pose proof (countb_insert (coming cv') (threads s) u x (signal cv x) Hu) as Hn.
      rewrite (signal_other cv cv' x Hx Hne) in Hn.
      change (threads (set_thread u (signal cv x) s)) with (<[u := signal cv x]> (threads s)). lia.
    + intros t cv' w. cbn. rewrite list_lookup_insert_Some. intros [(_ & Hbad & _)|[_ ?]]; [|done].
      destruct x as [|op since ms []| |]; try done. cbn in Hbad. by case_match.
  - destruct (existsb (sleeps cv) (threads s)) eqn:Ex; simplify_eq. split; [congruence|done].
Qed.

Lemma paid_finish t op r m u s s' evs x :
  paid s -> threads_ok s -> threads s !! t = Some x ->
  (x = outside \/ exists since ms status, x = woken op since ms status) ->
  mc_step op (mem s) = Some (r, m) -> finish t op r m u s = Some (s', evs) -> paid s'.
Proof using HC.
  intros [Hno Hp] Ht Hx Hfrom Hst E. unfold finish in E. rewrite (cr_inside op) in E.
  set (s1 := set_thread t outside (set_mem m s)) in *.
  assert (forall cv, countb (coming cv) (threads s1) + Nat.b2n (coming cv x) = countb (coming cv) (threads s)) as Hcnt.
  { intros cv. pose proof (countb_insert (coming cv) (threads s) t x outside Hx) as Hn.
    change (threads s1) with (<[t := outside]> (threads s)). cbn [coming Nat.b2n] in Hn. lia. }
  assert (forall cv, existsb (sleeps cv) (threads s1) = true -> existsb (sleeps cv) (threads s) = true) as Hex1.
  { intros cv (v & y & Hv & Hy)%exists_sleeper. unfold s1 in Hv. cbn in Hv. rewrite list_lookup_insert_Some in Hv.
    destruct Hv as [(_ & <- & _)|[_ Hv]]; [done|by eapply sleeper_exists]. }
  assert (forall v cv w, threads s1 !! v <> Some (notifying cv w)) as Hno1.
  { intros v cv w. unfold s1. cbn. rewrite list_lookup_insert_Some. intros [(_ & ? & _)|[_ ?]]; [done|by eapply Hno]. }
  assert (forall cv, existsb (sleeps cv) (threads s1) = true ->
    credit cv m <= countb (coming cv) (threads s1) + (if decide (mc_notify op r = Some (cv, wake_one)) then 1 else 0)) as Hpay.
  { intros cv Hex. specialize (Hp cv (Hex1 cv Hex)). specialize (Hcnt cv). pose proof (cr_gain op r (mem s) m cv Hst) as Hg.
    destruct (coming cv x) eqn:Hcx; cbn [Nat.b2n] in Hcnt; [|lia]. destruct Hfrom as [->|(since & ms & status & ->)]; [done|].
    cbn in Hcx. apply bool_decide_eq_true in Hcx. destruct (threads_ok_lookup s t _ Ht Hx) as [Hw _].
    pose proof (cr_use op r (mem s) m cv Hw Hcx Hst). lia. }
  destruct (mc_notify op r) as [[cv w]|] eqn:En.
  - pose proof (cr_one op r cv w En) as ->. destruct (notify cv wake_one u s1) as [s2|] eqn:Eno; simplify_eq.
    destruct (notify_coming cv u s1 s' Eno) as (H1 & H2 & H3 & H4). split; [intros v cv' w Hv; by eapply Hno1, H4|].
    intros cv' Hex'. rewrite (proj1 (notify_mem _ _ _ _ _ Eno)). change (mem s1) with m. specialize (Hpay cv' (H3 cv' Hex')).
    destruct (decide (cv' = cv)) as [->|Hne]; [rewrite (H1 Hex'); rewrite decide_True in Hpay by done; lia|].
    rewrite (H2 cv' Hne). rewrite decide_False in Hpay; [lia|congruence].
  - injection E as <- <-. split; [done|]. intros cv Hex. specialize (Hpay cv Hex). rewrite decide_False in Hpay by done.
    change (mem s1) with m. lia.
Qed.

Lemma paid_exec a s s' evs : paid s -> threads_ok s -> exec a s = Some (s', evs) -> paid s'.
Proof using HC.
  intros Hp Ht. destruct a as [ms|t op ms u|t status|t u|t u]; cbn [exec].
  - destruct (0 <=? ms)%Z; intros; by simplify_eq.
  - unfold call. destruct (threads s !! t) as [[]|] eqn:Hx; try done.
    destruct (mc_step op (mem s)) as [[r m]|] eqn:Es; [intros E; eapply paid_finish; eauto|].
    case_match eqn:Ew; intros; simplify_eq; [done|]. apply (paid_set t outside); try done.
    intros cv Hs. right. cbn in Hs. apply bool_decide_eq_true in Hs. apply (cr_ready op cv (mem s)); try done.
    split; [congruence|by exists (mem s)].
  - unfold wake. destruct (threads s !! t) as [[|op since ms b| |]|] eqn:Hx; try done.
    destruct status; [|case_match]; intros; simplify_eq/=; (apply (paid_set t (waiting op since ms b)); try done);
      intros cv Hc; left; by destruct b.
  - unfold relock. destruct (threads s !! t) as [[| |op since ms status|]|] eqn:Hx; try done.
    destruct (threads_ok_lookup s t _ Ht Hx) as [Hw _].
    destruct (mc_step op (mem s)) as [[r m]|] eqn:Es; [intros E; eapply paid_finish; eauto 6|].
    assert (forall cv, mc_cv op = Some cv -> credit cv (mem s) = 0) as H0 by (intros cv Hcv; by apply (cr_ready op cv (mem s))).
    destruct status; intros; simplify_eq; (apply (paid_set t (woken op since ms _) _ s Hp Hx); try done);
      intros cv Hc; right; apply H0; cbn in Hc; by apply bool_decide_eq_true in Hc.
  - unfold late_notify. destruct (threads s !! t) as [[| | |cv w]|] eqn:Hx; try done. by destruct (proj1 Hp t cv w).
Qed.

(** No wake-up is lost, with any number of threads. *)
Lemma reach_paid P m n at_ s tr : reach P (start m n at_) s tr -> paid s.
Proof using HC.
  induction 1 as [|s tr a s' evs Hr IH He HP].
  - split.
    + intros t cv w H. by apply lookup_replicate_1 in H as [? ?].
    + intros cv (t & x & Ht & Hx)%exists_sleeper. apply lookup_replicate_1 in Ht as [-> _]. done.
  - eapply paid_exec; [done| |done]. by eapply reach_threads_ok.
Qed.
End Credit.
End Monitor.
Arguments thread : clear implicits.
Arguments State : clear implicits.
Arguments event : clear implicits.
Arguments action : clear implicits.
