(* ===== verification/QueueThreads.v ===== *)
(** * The threads of a message queue (src/hal/win32_message_queue.cpp;
      src/hal/posix_message_queue.cpp is the same class)

    [MessageQueue] has the two directions of a queue and what a call does to them
    once it holds the mutex.  Here any number of threads call one queue: it is a
    [MonitorClass], with the pops waiting on [cv_push_].

    [queue_linearizable]: the calls are those of two bounded lists, in the order of
    their critical sections, and time out only when there is no message.
    [queue_wakeups]: with one waiting thread no wake-up is lost, with two it can be. *)

From S2P Require Import Prelude MessageQueue Monitor.

(** ** The class *)

Inductive direction := dir_tx | dir_rx.

Inductive queue_op :=
| op_push (d : direction) (conn_id : Z) (bytes : str)
| op_pop (d : direction) (conn_id : Z)
| op_pop_next
| op_count (d : direction) (conn_id : Z).

Inductive queue_result :=
| returned (e : QueueError) (m : option QueueMessage)
| counted (n : nat).

#[export] Instance queue_result_eq_dec : EqDecision queue_result.
Proof. solve_decision. Defined.

(** [cv_pop_] is notified and nobody waits on it. *)
Inductive queue_cv := cv_push_ | cv_pop_.

#[export] Instance queue_cv_eq_dec : EqDecision queue_cv.
Proof. solve_decision. Defined.

Definition lane_of (d : direction) (q : MessageQueue) : Lane :=
  match d with dir_tx => tx_ q | dir_rx => rx_ q end.
Definition set_lane (d : direction) (l : Lane) (q : MessageQueue) : MessageQueue :=
  match d with
  | dir_tx => mkQueue (capacity_ q) l (rx_ q)
  | dir_rx => mkQueue (capacity_ q) (tx_ q) l
  end.

(** [tx_push] and [rx_push]: [push_to] never waits. *)
Definition push (d : direction) (conn_id : Z) (bytes : str) (q : MessageQueue) : option (queue_result * MessageQueue) :=
  let '(e, l) := push_to (capacity_ q) (lane_of d q) conn_id bytes in
  Some (returned e None, set_lane d l q).

(** [tx_pop] and [rx_pop]: [pop_from], [None] while the predicate [!q.empty()] of its
    wait is false. *)
Definition pop (d : direction) (conn_id : Z) (q : MessageQueue) : option (queue_result * MessageQueue) :=
  if negb (valid_id conn_id) then Some (returned QueueError_invalid_id None, q)
  else match lane_queue (lane_of d q) conn_id with
       | [] => None
       | msg :: rest =>
           let l := lane_of d q in
           Some (returned QueueError_ok (Some msg),
                 set_lane d (mkLane (set_queue l conn_id rest) (remove_order_entry (order l) conn_id)) q)
       end.

(** [tx_pop_next]: [pop_next_from], with the predicate [!order.empty()]. *)
Definition pop_next (q : MessageQueue) : option (queue_result * MessageQueue) :=
  match order (tx_ q) with
  | [] => None
  | conn_id :: o =>
      match lane_queue (tx_ q) conn_id with
      | [] => Some (returned QueueError_empty None, q)
      | msg :: rest =>
          Some (returned QueueError_ok (Some msg), set_lane dir_tx (mkLane (set_queue (tx_ q) conn_id rest) o) q)
      end
  end.

Definition count (d : direction) (conn_id : Z) (q : MessageQueue) : option (queue_result * MessageQueue) :=
  Some (counted (if negb (valid_id conn_id) then 0 else length (lane_queue (lane_of d q) conn_id)), q).

Definition queue_step (op : queue_op) : MessageQueue -> option (queue_result * MessageQueue) :=
  match op with
  | op_push d c bytes => push d c bytes
  | op_pop d c => pop d c
  | op_pop_next => pop_next
  | op_count d c => count d c
  end.

(** [cv_push_.notify_one()] after a push, [cv_pop_.notify_one()] after a pop, inside the
    critical section. *)
Definition queue_notify (op : queue_op) (r : queue_result) : option (queue_cv * wakes) :=
  match op, r with
  | op_push _ _ _, returned QueueError_ok _ => Some (cv_push_, wake_one)
  | op_pop _ _, returned QueueError_ok _ | op_pop_next, returned QueueError_ok _ => Some (cv_pop_, wake_one)
  | _, _ => None
  end.

#[export] Instance queue_class : MonitorClass MessageQueue queue_op queue_result queue_cv := {
  mc_step := queue_step;
  mc_empty _ := returned QueueError_empty None;
  mc_timeout _ := returned QueueError_timeout None;
  mc_cv op := match op with op_pop _ _ | op_pop_next => Some cv_push_ | _ => None end;
  mc_notify := queue_notify;
  mc_after _ := false }.

(** [n] threads with the queue of [create_platform_message_queue(capacity)]. *)
Definition queue_threads (capacity n : nat) (at_ : Z) : State MessageQueue queue_op queue_cv :=
  Monitor.start (create_message_queue capacity) n at_.

(** ** Specification *)

Definition Lists : Type := list QueueMessage * list QueueMessage.

Definition list_of (d : direction) (L : Lists) : list QueueMessage :=
  match d with dir_tx => fst L | dir_rx => snd L end.
Definition set_list (d : direction) (l : list QueueMessage) (L : Lists) : Lists :=
  match d with dir_tx => (l, snd L) | dir_rx => (fst L, l) end.

(** What a call returns and leaves on the two lists. *)
Definition spec_call (capacity : nat) (op : queue_op) (L : Lists) : queue_result * Lists :=
  match op with
  | op_push d c bytes => let '(e, l) := spec_push capacity (list_of d L) c bytes in (returned e None, set_list d l L)
  | op_pop d c => let '(e, m, l) := spec_pop (list_of d L) c in (returned e m, set_list d l L)
  | op_pop_next => let '(e, m, l) := spec_pop_next (fst L) in (returned e m, set_list dir_tx l L)
  | op_count d c => (counted (if valid_id c then length (filter (fun m => cid m = c) (list_of d L)) else 0), L)
  end.

(** The lists after a call that returned [r]; [None] when they do not allow that.  A
    call that times out finds nothing. *)
Definition spec_event (capacity : nat) (ev : event queue_op queue_result) (L : Lists) : option Lists :=
  let '(r, L') := spec_call capacity (ev_op ev) L in
  if decide (ev_result ev = r) then Some L'
  else if decide (r = returned QueueError_empty None /\ ev_result ev = returned QueueError_timeout None) then Some L
  else None.

Fixpoint spec_replay (capacity : nat) (tr : list (event queue_op queue_result)) (L : Lists) : option Lists :=
  match tr with
  | [] => Some L
  | ev :: tr' => match spec_event capacity ev L with Some L' => spec_replay capacity tr' L' | None => None end
  end.

(** ** The queue is the lists *)

Definition queue_rel (q : MessageQueue) (L : Lists) : Prop :=
  lane_rel (capacity_ q) (tx_ q) (fst L) /\ lane_rel (capacity_ q) (rx_ q) (snd L).

Lemma queue_rel_lane q L d : queue_rel q L -> lane_rel (capacity_ q) (lane_of d q) (list_of d L).
Proof. intros [? ?]. by destruct d. Qed.

Lemma queue_rel_set q L d l l' :
  queue_rel q L -> lane_rel (capacity_ q) l l' -> queue_rel (set_lane d l q) (set_list d l' L).
Proof. intros [? ?] ?. by destruct d. Qed.

Lemma capacity_set d l q : capacity_ (set_lane d l q) = capacity_ q.
Proof. by destruct d. Qed.

Lemma set_list_same d L : set_list d (list_of d L) L = L.
Proof. by destruct d, L. Qed.

(** A critical section does what the specification says; when it cannot be executed
    the call is an empty pop. *)
Lemma queue_step_refines q L op :
  queue_rel q L ->
  match queue_step op q with
  | Some (r, q') => exists L', spec_call (capacity_ q) op L = (r, L') /\ queue_rel q' L' /\ capacity_ q' = capacity_ q
  | None => spec_call (capacity_ q) op L = (returned QueueError_empty None, L)
  end.
Proof.
  intros HR. destruct op as [d c bytes|d c| |d c]; cbn [queue_step spec_call].
  - unfold push. pose proof (push_to_refines _ _ _ c bytes (queue_rel_lane q L d HR)) as H.
    destruct (push_to _ _ _ _) as [e l], (spec_push _ _ _ _) as [e' l']. destruct H as [-> H].
    exists (set_list d l' L). split; [done|]. split; [by apply queue_rel_set|apply capacity_set].
  - unfold pop, spec_pop. pose proof (queue_rel_lane q L d HR) as HL. pose proof HL as (_ & _ & Hq & _).
    destruct (valid_id c) eqn:Hc; cbn [negb]; [|exists L; by rewrite set_list_same].
    destruct (take_first c (list_of d L)) as [[m l']|] eqn:Et.
    + destruct (pop_rel _ _ _ _ _ _ HL Hc Et) as (rest & -> & Hr). exists (set_list d l' L).
      split; [done|]. split; [by apply queue_rel_set|apply capacity_set].
    + apply take_first_None in Et. rewrite Hq, Et by done. by rewrite set_list_same.
  - unfold pop_next. destruct HR as [HL HR2]. pose proof HL as (_ & Ho & Hq & Hids & _). rewrite Ho.
    destruct L as [[|m tx] rx]; cbn [fst snd] in *; [done|]. cbn [fmap list_fmap spec_pop_next].
    inversion Hids as [|? ? Hm HL']; subst.
    assert (take_first (cid m) (m :: tx) = Some (m, tx)) as Et by (simpl; by rewrite Z.eqb_refl).
    destruct (pop_rel _ _ _ _ _ _ HL Hm Et) as (rest & -> & Hr). exists (tx, rx). split; [done|]. split; [|done].
    split; [|done]. rewrite Ho in Hr. cbn in Hr. by rewrite Z.eqb_refl in Hr.
  - exists L. split; [|done]. destruct (queue_rel_lane q L d HR) as (_ & _ & Hq & _).
    destruct (valid_id c) eqn:Hc; cbn [negb]; [by rewrite Hq|done].
Qed.

Lemma queue_replay_refines capacity tr q L q' :
  queue_rel q L -> capacity_ q = capacity -> replay tr q = Some q' ->
  exists L', spec_replay capacity tr L = Some L' /\ queue_rel q' L'.
Proof.
  revert q L. induction tr as [|ev tr IH]; intros q L HR Hc E; [cbn in E; simplify_eq; by exists L|].
  cbn in E. unfold replay_one in E. pose proof (queue_step_refines q L (ev_op ev) HR) as H. cbn [mc_step queue_class] in E.
  cbn [spec_replay]. unfold spec_event. subst capacity. destruct (queue_step (ev_op ev) q) as [[r q1]|].
  - destruct H as (L1 & -> & HR1 & Hc1). destruct (decide (ev_result ev = r)); [|done].
    by apply (IH q1).
  - rewrite H. case_decide as Hr; [|done]. cbn in Hr. destruct (decide _); [by apply (IH q)|].
    rewrite decide_True by naive_solver. by apply (IH q).
Qed.

Lemma create_queue_rel capacity : queue_rel (create_message_queue capacity) ([], []).
Proof. split; apply lane_init_rel. Qed.

(** C12. The queue is linearizable.  However the threads that push and pop interleave,
    wait, are woken, time out or are woken for nothing, the calls return what two
    bounded lists return for the same calls, one after the other in the order of their
    last critical sections, and the queue holds the messages of the lists: no message
    is lost, duplicated or reordered within its connection, a pop takes the oldest
    message of its connection, or of all, and one times out only when there is none
    and its time is over. *)
Theorem queue_linearizable capacity n at_ s tr :
  reach (fun _ => True) (queue_threads capacity n at_) s tr ->
  (exists L, spec_replay (capacity_ (create_message_queue capacity)) tr ([], []) = Some L /\ queue_rel (mem s) L) /\
  forall a s' t op, exec a s = Some (s', [mkEvent t op (returned QueueError_timeout None)]) ->
    queue_step op (mem s) = None /\
    exists since ms, threads s !! t = Some (woken op since ms timeout) /\ (since + ms <= now s)%Z.
Proof.
  intros Hr. pose proof (reach_replay _ _ _ _ Hr) as Hrep. pose proof (reach_threads_ok _ _ _ _ _ _ Hr) as Ht.
  destruct (queue_replay_refines _ tr _ _ _ (create_queue_rel capacity) eq_refl Hrep) as (L & HL & HR).
  split; [by exists L|]. intros a s' t op He. pose proof (exec_replay a s s' _ He) as Hrep1.
  assert (queue_step op (mem s) = None) as Hn.
  { cbn in Hrep1. unfold replay_one in Hrep1. cbn in Hrep1. pose proof (queue_step_refines (mem s) L op HR) as H.
    destruct (queue_step op (mem s)) as [[r q']|]; [|done]. destruct (decide _) as [<-|]; [|done]. exfalso.
    destruct H as (L' & Hsp & _). destruct op as [d c bytes|d c| |d c]; cbn in Hsp; unfold spec_push, spec_pop, spec_pop_next in Hsp;
      repeat (case_match; simplify_eq). }
  split; [done|].
  destruct (returns_unready a s s' t op _ Ht He Hn) as [(ms & u & _ & ? & _)|(since & ms & H1 & H2 & _)]; [done|by exists since, ms].
Qed.

(** ** Wake-ups *)

(** An empty deque stays empty when another one is shortened. *)
Lemma lane_queue_shorter l c c' msg rest o :
  lane_queue l c = msg :: rest -> lane_queue l c' = [] -> lane_queue (mkLane (set_queue l c rest) o) c' = [].
Proof.
  unfold lane_queue, set_queue. cbn [queues]. intros Hc Hc'.
  destruct (decide (Z.to_nat (c' - 1) = Z.to_nat (c - 1))) as [E|E]; [rewrite E in Hc'; congruence|].
  by rewrite list_lookup_insert_ne.
Qed.

(** What a pop waits for is not there. *)
Definition nothing_for (op : queue_op) (q : MessageQueue) : Prop :=
  match op with
  | op_pop d c => valid_id c = true /\ lane_queue (lane_of d q) c = []
  | op_pop_next => order (tx_ q) = []
  | _ => False
  end.

Lemma step_none op q : queue_step op q = None <-> nothing_for op q.
Proof.
  destruct op as [d c bytes|d c| |d c]; cbn [queue_step nothing_for]; unfold push, pop, pop_next, count.
  - by destruct (push_to _ _ _ _).
  - destruct (valid_id c); cbn [negb]; [|naive_solver]. destruct (lane_queue _ _); naive_solver.
  - repeat case_match; naive_solver.
  - done.
Qed.

(** Only a push that succeeds brings a message. *)
Lemma step_quiet op op' q r q' :
  queue_step op q = Some (r, q') -> queue_step op' q = None -> queue_step op' q' <> None ->
  exists d c bytes m, op = op_push d c bytes /\ r = returned QueueError_ok m.
Proof.
  rewrite step_none. intros Hs Hn Hq.
  assert (nothing_for op' q' -> False) as Hq' by (by rewrite <- step_none).
  assert (forall d c msg rest o, lane_queue (lane_of d q) c = msg :: rest ->
    (order (lane_of d q) = [] -> o = []) -> nothing_for op' (set_lane d (mkLane (set_queue (lane_of d q) c rest) o) q)) as Hpop.
  { intros d c msg rest o Hc Ho. destruct op' as [|d' c'| |]; try done; cbn in *.
    - destruct Hn as [Hv Hn]. split; [done|]. destruct d, d'; cbn in *; try done; by eapply lane_queue_shorter.
    - destruct d; cbn in *; auto. }
  destruct op as [d c bytes|d c| |d c]; cbn [queue_step] in Hs.
  - unfold push in Hs. destruct (push_to _ _ c bytes) as [e l] eqn:Ep. simplify_eq.
    destruct (decide (e = QueueError_ok)) as [->|He]; [by exists d, c, bytes, None|]. destruct Hq'.
    assert (l = lane_of d q) as ->. { unfold push_to in Ep. repeat (case_match; simplify_eq); done. }
    assert (set_lane d (lane_of d q) q = q) as -> by (by destruct d, q). done.
  - unfold pop in Hs. destruct (valid_id c); cbn in Hs; [|by simplify_eq]. destruct (lane_queue _ _) eqn:El; [done|]. simplify_eq.
    destruct Hq'. eapply Hpop; [done|]. by intros ->.
  - unfold pop_next in Hs. destruct (order (tx_ q)) as [|c o] eqn:Eo; [done|].
    destruct (lane_queue (tx_ q) c) eqn:El; simplify_eq. destruct Hq'.
    apply (Hpop dir_tx c _ l o El). cbn. by rewrite Eo.
  - unfold count in Hs. by simplify_eq.
Qed.

Lemma queue_notifies : notifies (HM := queue_class) one_waiter.
Proof.
  intros op r q q' op' [Hcv _] Hs Hn Hq. destruct (step_quiet op op' q r q' Hs Hn Hq) as (d & c & bytes & m & -> & ->).
  exists cv_push_, wake_one. split; [by destruct op'|]. split; [done|]. right. by split.
Qed.

(** Two threads wait, for connection 1 and for connection 2; a third pushes for 2. *)
Definition two_waiters : list (action queue_op) :=
  [a_call 0 (op_pop dir_rx 1) 1000 None; a_call 1 (op_pop dir_rx 2) 1000 None;
   a_call 2 (op_push dir_rx 2 (lit "x")) 0 (Some 0); a_wake 0 no_timeout; a_relock 0 None].

(** C32. Wake-ups.  While at most one thread waits in the queue none is lost: a thread
    that sleeps has no message to take; and a waiting pop whose time is over
    returns by two steps of its thread.  With two waiting threads a wake-up can
    be lost: [notify_one] on the one condition variable may wake the thread of another
    connection, which goes back to sleep, and the message lies there while the thread
    it is for sleeps on, to the end of its time, when it takes it after all. *)
Theorem queue_wakeups :
  (forall capacity n at_ s tr t op since ms,
     reach one_waiter (queue_threads capacity n at_) s tr ->
     threads s !! t = Some (waiting op since ms false) -> queue_step op (mem s) = None) /\
  (forall (s : State MessageQueue queue_op queue_cv) t op since ms b,
     threads s !! t = Some (waiting op since ms b) -> (since + ms <= now s)%Z ->
     exists s1 u s2 r, exec (a_wake t timeout) s = Some (s1, []) /\ exec (a_relock t u) s1 = Some (s2, [mkEvent t op r]) /\
       r = match queue_step op (mem s) with Some (r, _) => r | None => returned QueueError_timeout None end) /\
  (exists s, exec_all two_waiters (queue_threads 5 3 0) =
       Some (s, [mkEvent 2 (op_push dir_rx 2 (lit "x")) (returned QueueError_ok None)]) /\
     threads s = [waiting (op_pop dir_rx 1) 0 1000 false; waiting (op_pop dir_rx 2) 0 1000 false; outside] /\
     queue_step (op_pop dir_rx 2) (mem s) <> None /\
     exists s', exec_all [a_time 1000; a_wake 1 timeout; a_relock 1 None] s =
       Some (s', [mkEvent 1 (op_pop dir_rx 2) (returned QueueError_ok (Some (mkMsg 2 (lit "x"))))])).
Proof.
  split_and!.
  - intros capacity n at_ s tr t op since ms Hr Ht.
    pose proof (reach_awake one_waiter _ _ _ _ _ queue_notifies Hr) as Ha.
    destruct (queue_step op (mem s)) eqn:E; [|done].
    destruct (Ha t op since ms Ht) as (u & cv & Hu & _); [cbn; congruence|].
    pose proof (reach_no_late _ _ _ _ _ _ (fun _ => eq_refl) Hr u cv wake_all). done.
  - exact (late_wait_returns (HM := queue_class)).
  - eexists. split; [vm_compute; reflexivity|]. split; [by vm_compute|]. split; [by vm_compute|].
    eexists. by vm_compute.
Qed.

(** ** Witnesses *)

(** A pop of connection 2 waits, is woken for nothing, gets its message; the next one
    times out. *)
Definition wait_schedule : list (action queue_op) :=
  [a_call 0 (op_pop dir_rx 2) 50 None; a_wake 0 no_timeout; a_relock 0 None; a_call 1 (op_push dir_rx 2 (lit "x")) 0 (Some 0);
   a_wake 0 no_timeout; a_relock 0 None; a_call 0 op_pop_next 30 None; a_time 30; a_wake 0 timeout].

Lemma queue_linearizable_witness :
  exists s tr, exec_all wait_schedule (queue_threads 5 2 0) = Some (s, tr) /\
    tr = [mkEvent 1 (op_push dir_rx 2 (lit "x")) (returned QueueError_ok None);
          mkEvent 0 (op_pop dir_rx 2) (returned QueueError_ok (Some (mkMsg 2 (lit "x"))))] /\
    (exists L, spec_replay 5 tr ([], []) = Some L /\ queue_rel (mem s) L) /\
    (exists s', exec (a_relock 0 None) s = Some (s', [mkEvent 0 op_pop_next (returned QueueError_timeout None)])) /\
    exists since ms, threads s !! 0 = Some (woken op_pop_next since ms timeout) /\ (since + ms <= now s)%Z.
Proof.
  destruct (exec_all wait_schedule (queue_threads 5 2 0)) as [[s tr]|] eqn:E; [|by vm_compute in E].
  destruct (queue_linearizable 5 2 0 s tr) as [HL Hto].
  - apply (reach_exec_all (fun _ => True) _ wait_schedule (queue_threads 5 2 0) [] s tr); [done|constructor|exact E].
  - exists s, tr. split; [done|]. split; [vm_compute in E; by injection E as _ <-|]. split; [exact HL|].
    destruct (exec (a_relock 0 None) s) as [[s' evs]|] eqn:Er; [|vm_compute in E; injection E as <- _; by vm_compute in Er].
    assert (evs = [mkEvent 0 op_pop_next (returned QueueError_timeout None)]) as ->.
    { vm_compute in E. injection E as <- _. vm_compute in Er. congruence. }
    split; [by exists s'|]. by apply (Hto (a_relock 0 None) s' 0 op_pop_next).
Defined.

(** One thread waits for connection 2, and has no message. *)
Lemma queue_wakeups_witness :
  exists s, exec (a_call 0 (op_pop dir_rx 2) 50 None) (queue_threads 5 2 0) = Some (s, []) /\
    threads s !! 0 = Some (waiting (op_pop dir_rx 2) 0 50 false) /\ queue_step (op_pop dir_rx 2) (mem s) = None.
Proof.
  destruct (exec (a_call 0 (op_pop dir_rx 2) 50 None) (queue_threads 5 2 0)) as [[s evs]|] eqn:E; [|by vm_compute in E].
  assert (threads s = [waiting (op_pop dir_rx 2) 0 50 false; outside] /\ evs = []) as [Hth ->].
  { vm_compute in E. by injection E as <- <-. }
  exists s. split; [done|]. rewrite Hth. split; [done|].
  apply (proj1 queue_wakeups 5 2 0%Z s [] 0 (op_pop dir_rx 2) 0%Z 50%Z); [|by rewrite Hth].
  apply (reach_exec one_waiter _ (queue_threads 5 2 0) [] (a_call 0 (op_pop dir_rx 2) 50 None) s []); [constructor|exact E|].
  intros t u x y Ht Hu Hx Hy. rewrite Hth in Ht, Hu.
  destruct t as [|[|t]], u as [|[|u]]; cbn in *; simplify_eq; done.
Defined.
