(* ===== verification/ChannelThreads.v ===== *)
(** * The threads of a message channel (src/hal/win32_message_channel.cpp;
      src/hal/posix_message_channel.cpp is the same class)

    The circular buffer of [MessageChannel.PosixChannel] as a [MonitorClass]: senders
    wait on [cvReceive_] for room, receivers on [cvSend_] for a message, any number of
    each.  [channel_linearizable]: the channel is a bounded list,
    and no wake-up is lost, although [notify_one] is used. *)

From S2P Require Import Prelude CLib FixedString Ring Layout MessageChannel Monitor.
Import PosixChannel.

Inductive channel_op :=
| op_send (data : str)
| op_receive
| op_count.

Inductive channel_result :=
| returned (e : MessageChannelError) (msg : option str)
| counted (n : nat).

#[export] Instance channel_result_eq_dec : EqDecision channel_result.
Proof. solve_decision. Defined.

Inductive channel_cv := cvSend_ | cvReceive_.

#[export] Instance channel_cv_eq_dec : EqDecision channel_cv.
Proof. solve_decision. Defined.

(** [send]: [None] while the predicate [count_ < capacity_] of its wait is false. *)
Definition send_section (data : str) (c : Channel) : option (channel_result * Channel) :=
  if MESSAGE_CHANNEL_MAX_DATA <? length data then Some (returned ChannelError_invalid_size None, c)
  else if capacity_ c <=? count_ c then None
  else
    let slot := default MessageFrame_default (buffer_ c !! tail_ c) in
    let slot := mkFrame (if negb (length data =? 0) then memcpy (fr_data slot) 0 data else fr_data slot) (length data) in
    Some (returned ChannelError_ok None,
          mkChannel (capacity_ c) (<[tail_ c := slot]> (buffer_ c)) (head_ c)
            ((tail_ c + 1) mod CHANNEL_DEFAULT_CAPACITY) (S (count_ c))).

(** [receive]: [None] while [count_ != 0U] is false. *)
Definition receive_section (c : Channel) : option (channel_result * Channel) :=
  if count_ c =? 0 then None
  else
    let msg := default MessageFrame_default (buffer_ c !! head_ c) in
    Some (returned ChannelError_ok (Some (frame_bytes msg)),
          mkChannel (capacity_ c) (buffer_ c) ((head_ c + 1) mod CHANNEL_DEFAULT_CAPACITY) (tail_ c) (count_ c - 1)).

Definition count_section (c : Channel) : option (channel_result * Channel) := Some (counted (count_ c), c).

Definition channel_step (op : channel_op) : Channel -> option (channel_result * Channel) :=
  match op with
  | op_send data => send_section data
  | op_receive => receive_section
  | op_count => count_section
  end.

Definition channel_notify (op : channel_op) (r : channel_result) : option (channel_cv * wakes) :=
  match op, r with
  | op_send _, returned ChannelError_ok _ => Some (cvSend_, wake_one)
  | op_receive, returned ChannelError_ok _ => Some (cvReceive_, wake_one)
  | _, _ => None
  end.

#[export] Instance channel_class : MonitorClass Channel channel_op channel_result channel_cv := {
  mc_step := channel_step;
  mc_empty op := returned (match op with op_send _ => ChannelError_full | _ => ChannelError_empty end) None;
  mc_timeout _ := returned ChannelError_timeout None;
  mc_cv op := match op with op_send _ => Some cvReceive_ | op_receive => Some cvSend_ | op_count => None end;
  mc_notify := channel_notify;
  mc_after _ := false }.

(** [n] threads with the channel of [create_platform_message_channel(capacity)]. *)
Definition channel_threads (capacity n : nat) (at_ : Z) : State Channel channel_op channel_cv :=
  Monitor.start (create capacity) n at_.

(** ** Specification *)

Definition spec_call (capacity : nat) (op : channel_op) (l : list str) : channel_result * list str :=
  match op with
  | op_send x => let '(e, l') := spec_send capacity x l in (returned e None, l')
  | op_receive => match l with [] => (returned ChannelError_empty None, []) | x :: l' => (returned ChannelError_ok (Some x), l') end
  | op_count => (counted (length l), l)
  end.

(** The list after a call that returned [r]; [None] when it does not allow that. *)
Definition spec_event (capacity : nat) (ev : event channel_op channel_result) (l : list str) : option (list str) :=
  let '(r, l') := spec_call capacity (ev_op ev) l in
  if decide (ev_result ev = r) then Some l'
  else if decide ((r = returned ChannelError_full None \/ r = returned ChannelError_empty None) /\
                  ev_result ev = returned ChannelError_timeout None) then Some l
  else None.

Fixpoint spec_replay (capacity : nat) (tr : list (event channel_op channel_result)) (l : list str) : option (list str) :=
  match tr with
  | [] => Some l
  | ev :: tr' => match spec_event capacity ev l with Some l' => spec_replay capacity tr' l' | None => None end
  end.

(** A critical section is a call of the sequential class that does not wait. *)
Lemma send_section_eq x c :
  send_section x c =
  if (MESSAGE_CHANNEL_MAX_DATA <? length x) || negb (capacity_ c <=? count_ c)
  then let '(e, c') := ch_send x c in Some (returned e None, c') else None.
Proof.
  unfold send_section. cbn [ch_send posix_channel]. unfold send.
  destruct (MESSAGE_CHANNEL_MAX_DATA <? length x); [done|]. destruct (capacity_ c <=? count_ c); [done|]. cbn.
  by rewrite firstn_all.
Qed.

Lemma channel_step_refines cap c l op :
  channel_rel cap c l ->
  match channel_step op c with
  | Some (r, c') => exists l', spec_call cap op l = (r, l') /\ channel_rel cap c' l'
  | None => spec_call cap op l = (mc_empty op, l)
  end.
Proof.
  intros HR. pose proof HR as (Hcap & _ & Hcnt & _). destruct op as [x| |]; cbn [channel_step spec_call].
  - rewrite send_section_eq. pose proof (send_rel cap c l x HR) as [He Hr]. unfold spec_send in *. rewrite Hcap, Hcnt.
    destruct (MESSAGE_CHANNEL_MAX_DATA <? length x) eqn:Ex; cbn [orb].
    + destruct (ch_send x c) as [e c']. cbn in *. subst e. by exists l.
    + destruct (cap <=? length l) eqn:El; cbn [negb]; [done|]. destruct (ch_send x c) as [e c']. cbn in *. subst e. by exists (l ++ [x]).
  - unfold receive_section. rewrite Hcnt. destruct l as [|x l]; [done|]. cbn [length Nat.eqb].
    pose proof (receive_rel cap c x l MessageFrame_default HR) as (He & Hf & Hr). cbn [ch_receive posix_channel] in *.
    unfold receive in *. rewrite Hcnt in *. cbn [length Nat.eqb fst snd] in *. exists l. split; [|done].
    by rewrite (frame_is_bytes _ _ Hf).
  - exists l. by rewrite Hcnt.
Qed.

Lemma channel_replay_refines cap tr c l c' :
  channel_rel cap c l -> replay tr c = Some c' -> exists l', spec_replay cap tr l = Some l' /\ channel_rel cap c' l'.
Proof.
  revert c l. induction tr as [|ev tr IH]; intros c l HR E; [cbn in E; simplify_eq; by exists l|].
  cbn in E. unfold replay_one in E. pose proof (channel_step_refines cap c l (ev_op ev) HR) as H. cbn [mc_step channel_class] in E.
  cbn [spec_replay]. unfold spec_event. destruct (channel_step (ev_op ev) c) as [[r c1]|].
  - destruct H as (l1 & -> & HR1). destruct (decide (ev_result ev = r)); [|done]. by apply (IH c1).
  - rewrite H. case_decide as Hr; [|done]. destruct (decide (ev_result ev = mc_empty (ev_op ev))); [by apply (IH c)|].
    rewrite decide_True; [by apply (IH c)|]. split; [|by destruct Hr]. destruct (ev_op ev); cbn; auto.
Qed.

(** ** Wake-ups *)

(** What receivers and senders wait for: messages and free slots. *)
Definition channel_credit (cv : channel_cv) (c : Channel) : nat :=
  match cv with cvSend_ => count_ c | cvReceive_ => capacity_ c - count_ c end.

#[export] Instance channel_credit_laws : CreditLaws channel_credit.
Proof.
  split.
  - intros op cv c [_ [m Hm]] Hcv. destruct op as [x| |]; cbn in *; simplify_eq.
    + unfold send_section in *. destruct (MESSAGE_CHANNEL_MAX_DATA <? length x); [done|]. cbn.
      destruct (capacity_ c <=? count_ c) eqn:E; bool_facts; (split; [try done; intros _; lia|try done; intros; lia]).
    + unfold receive_section. destruct (count_ c =? 0) eqn:E; bool_facts; done.
  - intros op r c c' cv Hs. destruct op as [x| |]; cbn in Hs.
    + unfold send_section in Hs. destruct (_ <? _); [simplify_eq; lia|]. destruct (_ <=? _) eqn:E; simplify_eq. bool_facts.
      destruct cv; cbn [channel_credit count_ capacity_]; [rewrite decide_True by done|]; lia.
    + unfold receive_section in Hs. destruct (_ =? _) eqn:E; simplify_eq. bool_facts.
      destruct cv; cbn [channel_credit count_ capacity_]; [|rewrite decide_True by done]; lia.
    + unfold count_section in Hs. simplify_eq. lia.
  - intros op r c c' cv [_ [m Hm]] Hcv Hs. destruct op as [x| |]; cbn in *; simplify_eq.
    + unfold send_section in *. destruct (MESSAGE_CHANNEL_MAX_DATA <? length x); [done|].
      destruct (capacity_ c <=? count_ c) eqn:E; bool_facts; simplify_eq. cbn. lia.
    + unfold receive_section in Hs. destruct (count_ c =? 0) eqn:E; bool_facts; simplify_eq. cbn. lia.
  - intros op r cv w H. destruct op, r as [[]|]; cbn in H; by simplify_eq.
  - done.
Qed.

(** C13. A channel between any number of threads is a bounded list, and no wake-up of it
    is lost.  The calls return what the list returns for them in the order of their
    last critical sections, a call that waits times out only when its time is over and
    there is still no room, or no message; and whenever a receiver sleeps there
    are at least as many receivers notified or awake as messages, and whenever a
    sender sleeps as many senders as free slots, so each of them has a thread on its way
    and none is left lying while everybody sleeps. *)
Theorem channel_linearizable capacity n at_ s tr :
  reach (fun _ => True) (channel_threads capacity n at_) s tr ->
  (exists l, spec_replay (clamp_capacity capacity) tr [] = Some l /\ channel_rel (clamp_capacity capacity) (mem s) l /\
     (existsb (sleeps cvSend_) (threads s) = true -> length l <= countb (coming cvSend_) (threads s)) /\
     (existsb (sleeps cvReceive_) (threads s) = true ->
        clamp_capacity capacity - length l <= countb (coming cvReceive_) (threads s))) /\
  forall a s' t op, exec a s = Some (s', [mkEvent t op (returned ChannelError_timeout None)]) ->
    channel_step op (mem s) = None /\
    exists since ms, threads s !! t = Some (woken op since ms timeout) /\ (since + ms <= now s)%Z.
Proof.
  intros Hr. pose proof (reach_replay _ _ _ _ Hr) as Hrep. pose proof (reach_threads_ok _ _ _ _ _ _ Hr) as Ht.
  destruct (channel_replay_refines _ tr _ _ _ (create_rel capacity) Hrep) as (l & Hl & HR).
  destruct (reach_paid channel_credit _ _ _ _ _ _ Hr) as [_ Hpaid].
  pose proof (Hpaid cvSend_) as H1. pose proof (Hpaid cvReceive_) as H2. cbn [channel_credit] in H1, H2.
  pose proof HR as (Hcap & _ & Hcnt & _). rewrite Hcnt in H1, H2. rewrite Hcap in H2.
  split; [by exists l|]. intros a s' t op He. pose proof (exec_replay a s s' _ He) as Hrep1.
  assert (channel_step op (mem s) = None) as Hn.
  { cbn in Hrep1. unfold replay_one in Hrep1. cbn in Hrep1. pose proof (channel_step_refines _ (mem s) l op HR) as H.
    destruct (channel_step op (mem s)) as [[r q']|]; [|done]. destruct (decide _) as [<-|]; [|done]. exfalso.
    destruct H as (L' & Hsp & _). destruct op as [x| |]; cbn in Hsp; [|by destruct l|done].
    unfold spec_send in Hsp. destruct (_ <? _); [done|]. by destruct (_ <=? _). }
  split; [done|].
  destruct (returns_unready a s s' t op _ Ht He Hn) as [(ms & u & _ & Hbad & _)|(since & ms & Ha & Hb & _)];
    [by destruct op|by exists since, ms].
Qed.

(** ** Witness *)

(** Two receivers wait; one message is sent and wakes the second, a third thread takes
    another one at once. *)
Definition channel_schedule : list (action channel_op) :=
  [a_call 0 op_receive 50 None; a_call 1 op_receive 50 None; a_call 2 (op_send (lit "x")) 0 (Some 1)].

Lemma channel_linearizable_witness :
  exists s tr, exec_all channel_schedule (channel_threads 4 3 0) = Some (s, tr) /\
    tr = [mkEvent 2 (op_send (lit "x")) (returned ChannelError_ok None)] /\
    exists l, spec_replay 4 tr [] = Some l /\ length l = 1 /\ length l <= countb (coming cvSend_) (threads s).
Proof.
  destruct (exec_all channel_schedule (channel_threads 4 3 0)) as [[s tr]|] eqn:E; [|by vm_compute in E].
  destruct (channel_linearizable 4 3 0 s tr) as [(l & Hl & HR & Hs & _) _].
  - apply (reach_exec_all (fun _ => True) _ channel_schedule (channel_threads 4 3 0) [] s tr); [done|constructor|exact E].
  - exists s, tr. split; [done|]. assert (tr = [mkEvent 2 (op_send (lit "x")) (returned ChannelError_ok None)]) as ->.
    { vm_compute in E. by injection E as _ <-. }
    split; [done|]. exists l. split; [exact Hl|]. split; [vm_compute in Hl; by injection Hl as <-|].
    apply Hs. vm_compute in E. injection E as <-. by vm_compute.
Defined.
