(* ===== verification/EventThreads.v ===== *)
(** * The threads of the event flags (src/hal/win32_event_flags.cpp;
      src/hal/posix_event_flags.cpp is the same class)

    The flag word of [MessageChannel.EventFlags] as a [MonitorClass]: any number of
    threads wait for flags on [cv_], and [set] notifies all of them after it has
    unlocked the mutex.  [flags_wakeups]: the calls are linearized, no flag is lost and
    no wake-up either. *)

From S2P Require Import Prelude MessageChannel Monitor.

Inductive flags_op :=
| op_set (flags : Z)
| op_wait (flags : Z) (fClear : bool)
| op_clear (flags : Z)
| op_get.

(** The members: the flag word; every call returns a word, 0 if it returns nothing. *)
Definition set_section (flags flags_ : Z) : option (Z * Z) := Some (0%Z, EventFlags.set flags_ flags).

(** [wait]: [None] while the predicate [matches] is false. *)
Definition wait_section (flags : Z) (fClear : bool) (flags_ : Z) : option (Z * Z) :=
  let matches := negb (Z.land flags_ flags =? 0)%Z in
  if negb matches then None
  else
    let matched := Z.land flags_ flags in
    Some (matched, if fClear then Z.land flags_ (Z.lnot matched) else flags_).

Definition clear_section (flags flags_ : Z) : option (Z * Z) := Some (0%Z, EventFlags.clear flags_ flags).
Definition get_section (flags_ : Z) : option (Z * Z) := Some (EventFlags.get flags_, flags_).

Definition flags_step (op : flags_op) : Z -> option (Z * Z) :=
  match op with
  | op_set flags => set_section flags
  | op_wait flags fClear => wait_section flags fClear
  | op_clear flags => clear_section flags
  | op_get => get_section
  end.

#[export] Instance flags_class : MonitorClass Z flags_op Z unit := {
  mc_step := flags_step;
  mc_empty _ := 0%Z;
  mc_timeout _ := 0%Z;
  mc_cv op := match op with op_wait _ _ => Some tt | _ => None end;
  mc_notify op _ := match op with op_set _ => Some (tt, wake_all) | _ => None end;
  mc_after _ := true }.

(** [n] threads with the flags of [create_platform_event_flags()]. *)
Definition flags_threads (n : nat) (at_ : Z) : State Z flags_op unit := Monitor.start 0%Z n at_.

(** ** What the calls do to a flag *)

(** Flag [i] after a call that returned [r]. *)
Definition flag_after (i : Z) (ev : event flags_op Z) (b : bool) : bool :=
  match ev_op ev with
  | op_set flags => b || Z.testbit flags i
  | op_wait _ fClear => b && negb (fClear && Z.testbit (ev_result ev) i)
  | op_clear flags => b && negb (Z.testbit flags i)
  | op_get => b
  end.

(** What a call may return when flag [i] is [b]. *)
Definition flag_seen (i : Z) (ev : event flags_op Z) (b : bool) : Prop :=
  match ev_op ev with
  | op_wait flags _ => Z.testbit (ev_result ev) i = true -> b = true /\ Z.testbit flags i = true
  | op_get => Z.testbit (ev_result ev) i = b
  | _ => True
  end.

Fixpoint flag_history (i : Z) (tr : list (event flags_op Z)) (b : bool) : Prop :=
  match tr with
  | [] => True
  | ev :: tr' => flag_seen i ev b /\ flag_history i tr' (flag_after i ev b)
  end.

Lemma replay_one_flag i ev f f' :
  (0 <= i)%Z -> replay_one ev f = Some f' ->
  flag_seen i ev (Z.testbit f i) /\ Z.testbit f' i = flag_after i ev (Z.testbit f i).
Proof.
  intros Hi. unfold replay_one, flag_seen, flag_after. destruct ev as [t op r]. cbn [ev_op ev_result mc_step flags_class].
  destruct op as [flags|flags fClear|flags|]; cbn [flags_step].
  - unfold set_section. case_decide; [|done]. intros [= <-]. split; [done|]. apply Z.lor_spec.
  - unfold wait_section. destruct (Z.land f flags =? 0)%Z eqn:E; cbn [negb].
    + case_decide as Hr; [|done]. intros [= <-]. assert (r = 0%Z) as -> by (by destruct Hr). rewrite Z.bits_0.
      split; [done|]. by rewrite andb_false_r, andb_true_r.
    + case_decide as Hr; [|done]. intros [= <-]. subst r. rewrite Z.land_spec. split; [by intros [? ?]%andb_true_iff|].
      destruct fClear; [|by rewrite andb_true_r]. rewrite Z.land_spec, Z.lnot_spec, Z.land_spec by done. done.
  - unfold clear_section. case_decide; [|done]. intros [= <-]. split; [done|]. unfold EventFlags.clear.
    by rewrite Z.land_spec, Z.lnot_spec.
  - unfold get_section. case_decide; [|done]. intros [= <-]. by subst r.
Qed.

Lemma replay_flag i tr f f' :
  (0 <= i)%Z -> replay tr f = Some f' ->
  flag_history i tr (Z.testbit f i) /\ Z.testbit f' i = fold_left (fun b ev => flag_after i ev b) tr (Z.testbit f i).
Proof.
  intros Hi. revert f. induction tr as [|ev tr IH]; intros f E; [by injection E as ->|]. cbn [replay] in E.
  destruct (replay_one ev f) as [f1|] eqn:E1; [|done]. destruct (replay_one_flag i ev f f1 Hi E1) as [Hs Ha].
  destruct (IH f1 E) as [H1 H2]. cbn [flag_history fold_left]. rewrite <- Ha. done.
Qed.

(** Only [set] can satisfy a wait, and it notifies everybody. *)
Lemma flags_notifies (P : State Z flags_op unit -> Prop) : notifies (HM := flags_class) P.
Proof.
  intros op r f f' op' [Hcv _] Hs Hn Hr. destruct op' as [|flags c| |]; try done. exists tt, wake_all.
  split; [done|]. split; [|by left]. destruct op as [g|g c'|g|]; [done|exfalso..].
  all: cbn in *; unfold wait_section, clear_section, get_section in *; apply Hr; clear Hr.
  all: destruct (Z.land f flags =? 0)%Z eqn:E; [|done]; bool_facts.
  - destruct (Z.land f g =? 0)%Z; simplify_eq/=. destruct c'; [|by rewrite E].
    by rewrite <- Z.land_assoc, (Z.land_comm _ flags), Z.land_assoc, E.
  - simplify_eq. unfold EventFlags.clear. by rewrite <- Z.land_assoc, (Z.land_comm _ flags), Z.land_assoc, E.
  - simplify_eq. by rewrite E.
Qed.


(** ** Witness *)

(** Two threads wait for flags 1 and 2; a third has set flag 2 and is about to notify. *)
Definition flags_schedule : list (action flags_op) :=
  [a_call 0 (op_wait 1 true) 50 None; a_call 1 (op_wait 2 true) 50 None; a_call 2 (op_set 2) 0 None].

