(* ===== verification/Timer.v ===== *)
(** * One-shot timers (include/hal/timer_interface.h, src/hal/posix_timer.cpp,
      src/hal/zephyr_timer.cpp; src/hal/win32_timer.cpp is the POSIX code)

    [Module Posix] is the thread-based timer: the model reads the clock through
    an argument [now] and the timer thread's wake-up is the operation [run];
    [TimerThreads] has the threads.
    [Module Zephyr] is the kernel-timer class, of which the platform factory
    hands out one static instance.  [CommandTimer] is what the modem controller
    needs of its timer. *)

From S2P Require Import Prelude.

Inductive TimerError := TimerError_ok | TimerError_already_running | TimerError_not_running.

#[export] Instance TimerError_eq_dec : EqDecision TimerError.
Proof. solve_decision. Defined.

(** Zephyr's clock and scheduler: [k_uptime_get] and [k_sleep]. *)
Class KTime (W : Type) := { k_uptime_get : W -> Z; k_sleep : Z -> W -> W }.

(** A sleep of [ms] takes at least [ms]. *)
Class KTimeLaws (W : Type) `{KTime W} : Prop := {
  sleep_advances ms w : (0 <= ms)%Z -> (k_uptime_get w + ms <= k_uptime_get (k_sleep ms w))%Z }.

Module Posix.
Section Posix.
(** [std::function<void()>]; a null function is [None]. *)
Context {CB : Type}.

(** [thread_] tells whether the member holds a joinable thread; [start_] is
    [None] for the default [time_point]. *)
Record Timer := mkTimer {
  running_ : bool;
  cancelled_ : bool;
  thread_ : bool;
  cb_ : option CB;
  start_ : option Z;
  deadline_ : Z }.

Definition init : Timer := mkTimer false false false None None 0.

Definition start (now timeout_ms : Z) (cb : option CB) (t : Timer) : TimerError * Timer :=
  if running_ t then (TimerError_already_running, t)
  else (TimerError_ok, mkTimer true false true cb (Some now) (now + timeout_ms)).

Definition stop (t : Timer) : TimerError * Timer :=
  if negb (running_ t) then (TimerError_not_running, t)
  else (TimerError_ok, mkTimer false true false (cb_ t) (start_ t) (deadline_ t)).

Definition reset (now timeout_ms : Z) (t : Timer) : TimerError * Timer :=
  if running_ t then
    (TimerError_ok, mkTimer true (cancelled_ t) (thread_ t) (cb_ t) (Some now) (now + timeout_ms))
  else match cb_ t with
       | None => (TimerError_not_running, t)
       | Some _ => (TimerError_ok, mkTimer true false true (cb_ t) (Some now) (now + timeout_ms))
       end.

Definition is_running (t : Timer) : bool := running_ t.

Definition elapsed_ms (now : Z) (t : Timer) : Z :=
  match start_ t with
  | None => 0
  | Some s => u32 (Z.max 0 (now - s))
  end.

(** [run()]: the timer thread woken at [now].  It leaves on cancellation, expires
    when the deadline it waited for is still the current one, and waits again
    otherwise.  The callback to invoke is returned. *)
Definition run (now : Z) (t : Timer) : option CB * Timer :=
  if negb (thread_ t) || cancelled_ t then (None, t)
  else if (deadline_ t <=? now)%Z
  then (cb_ t, mkTimer false (cancelled_ t) false (cb_ t) (start_ t) (deadline_ t))
  else (None, t).

(** One call on the timer, with the callback it invoked. *)
Inductive step : Timer -> option CB -> Timer -> Prop :=
| step_start now ms cb t : step t None (snd (start now ms cb t))
| step_stop t : step t None (snd (stop t))
| step_reset now ms t : step t None (snd (reset now ms t))
| step_run now t : step t (fst (run now t)) (snd (run now t)).

(** The states a timer object can be in. *)
Inductive reachable : Timer -> Prop :=
| reach_init : reachable init
| reach_step t o t' : reachable t -> step t o t' -> reachable t'.

(** Invariant of the thread-based timer: in every reachable state the object
    owns a joinable thread exactly while it is running, and a running timer is
    not cancelled.  Hence [start] and [reset] never assign over a joinable
    [std::thread], which would call [std::terminate]. *)
Theorem timer_thread_invariant t :
  reachable t -> thread_ t = running_ t /\ (running_ t = true -> cancelled_ t = false).
Proof.
  induction 1 as [|t o t' _ [IH1 IH2] Hs]; [done|].
  destruct Hs as [now ms cb t|t|now ms t|now t]; unfold start, stop, reset, run;
    destruct t as [r c th cb0 st dl]; simpl in *; subst; destruct r; simpl; try done;
    try (specialize (IH2 eq_refl); subst c); try done.
  - by destruct cb0.
  - by destruct (dl <=? now)%Z.
Qed.

(** A one-shot timer fires its callback exactly once, at the first wake-up
    at or after its deadline: earlier wake-ups change nothing, the expiry
    returns the callback given to [start], and no later wake-up fires again. *)
Lemma timer_fires_once now ms cb t early at_ late :
  running_ t = false ->
  (early < now + ms)%Z -> (now + ms <= at_)%Z ->
  let t1 := snd (start now ms (Some cb) t) in
  run early t1 = (None, t1) /\
  fst (run at_ t1) = Some cb /\
  running_ (snd (run at_ t1)) = false /\
  run late (snd (run at_ t1)) = (None, snd (run at_ t1)).
Proof.
  intros Hr He Ha. unfold start. rewrite Hr. simpl. unfold run. simpl.
  assert (now + ms <=? early = false)%Z as -> by (apply Z.leb_gt; lia).
  assert (now + ms <=? at_ = true)%Z as -> by (apply Z.leb_le; lia). done.
Qed.

(** A stopped timer never fires: the callback is not invoked after [stop]. *)
Lemma timer_stop_cancels now t : reachable t -> run now (snd (stop t)) = (None, snd (stop t)).
Proof.
  intros Ht. unfold stop, run. destruct (running_ t) eqn:E; simpl; [done|].
  assert (thread_ t = false) as ->; [|done].
  induction Ht as [|t o t' Ht IH Hs]; [done|].
  destruct Hs as [now' ms cb t|t|now' ms t|now' t]; unfold start, stop, reset, run in *;
    destruct t as [r c th cb0 st dl]; simpl in *; destruct r, th, c, cb0; simpl in *; try done;
    try (by apply IH); destruct (dl <=? now')%Z; simpl in *; try done; by apply IH.
Qed.

End Posix.
Arguments Timer : clear implicits.
End Posix.

(** A started timer that expires three milliseconds later. *)
Lemma timer_thread_invariant_witness :
  let t := snd (Posix.run 103 (snd (Posix.start 100 3 (Some tt) Posix.init))) in
  Posix.thread_ t = Posix.running_ t /\ (Posix.running_ t = true -> Posix.cancelled_ t = false).
Proof.
  apply (Posix.timer_thread_invariant (snd (Posix.run 103 (snd (Posix.start 100 3 (Some tt) Posix.init))))).
  eapply Posix.reach_step; [|apply Posix.step_run].
  eapply Posix.reach_step; [|apply Posix.step_start]. constructor.
Defined.

Lemma timer_fires_once_witness :
  let t1 := snd (Posix.start 1000 5000 (Some tt) Posix.init) in
  Posix.run 5999 t1 = (None, t1) /\
  fst (Posix.run 6000 t1) = Some tt /\
  Posix.running_ (snd (Posix.run 6000 t1)) = false /\
  Posix.run 9000 (snd (Posix.run 6000 t1)) = (None, snd (Posix.run 6000 t1)).
Proof.
  apply (Posix.timer_fires_once 1000 5000 tt Posix.init 5999 6000 9000); [reflexivity|lia|lia].
Defined.

Module Zephyr.
Section Zephyr.
Context {CB : Type}.

(** The members of [ZephyrTimer].  [start_ms_] is [-1] before any start; of the
    kernel's timer [k_timer] keeps when it expires, [None] while it is stopped. *)
Record ZTimer := mkZ { running_ : bool; cb_ : option CB; start_ms_ : Z; k_timer : option Z }.

Definition init : ZTimer := mkZ false None (-1) None.

Definition start (now timeout_ms : Z) (cb : option CB) (t : ZTimer) : TimerError * ZTimer :=
  if running_ t then (TimerError_already_running, t)
  else (TimerError_ok, mkZ true cb now (Some (now + timeout_ms)%Z)).

Definition stop (t : ZTimer) : TimerError * ZTimer :=
  if negb (running_ t) then (TimerError_not_running, t)
  else (TimerError_ok, mkZ false (cb_ t) (start_ms_ t) None).

Definition reset (now timeout_ms : Z) (t : ZTimer) : TimerError * ZTimer :=
  match cb_ t with
  | None => (TimerError_not_running, t)
  | Some _ => (TimerError_ok, mkZ true (cb_ t) now (Some (now + timeout_ms)%Z))
  end.

Definition is_running (t : ZTimer) : bool := running_ t.

Definition elapsed_ms (now : Z) (t : ZTimer) : Z :=
  if (start_ms_ t <? 0)%Z then 0 else u32 (Z.max 0 (now - start_ms_ t)).

(** [expiry_fn], with the callback it invokes. *)
Definition expiry_fn (t : ZTimer) : option CB * ZTimer :=
  (cb_ t, mkZ false (cb_ t) (start_ms_ t) None).

(** The kernel runs [expiry_fn] once the time of a started timer is over. *)
Definition run (now : Z) (t : ZTimer) : option CB * ZTimer :=
  match k_timer t with
  | Some d => if (d <=? now)%Z then expiry_fn t else (None, t)
  | None => (None, t)
  end.

(** The timers of the program, by handle.  [create_platform_timer] returns the
    address of one function-local static object. *)
Definition Store : Type := list ZTimer.
Definition handle : Type := nat.

Definition create_platform_timer (s : Store) : handle * Store :=
  match s with
  | [] => (0, [init])
  | _ => (0, s)
  end.

Definition on (h : handle) (f : ZTimer -> TimerError * ZTimer) (s : Store) : Store :=
  match s !! h with
  | Some t => <[h := snd (f t)]> s
  | None => s
  end.

(** The timer calls around one AT command of [ModemController::send_command]. *)
Definition send_command_timer (cmd_timer : handle) (now timeout_ms : Z) (s : Store) : Store :=
  on cmd_timer (start now timeout_ms None) (on cmd_timer stop s).

(** On Zephyr every platform timer is the same object, so the command timer
    of [ModemController] and the state timer of [NetworkLte] alias: once any AT
    command has been sent after the state timer was started, the expiry of the
    timer invokes no callback and the state timeout is lost. *)
Theorem zephyr_state_timeout_lost (on_timer_expired : CB) now1 ms1 now2 ms2 :
  let '(cmd_timer, s0) := create_platform_timer [] in
  let '(st_timer, s1) := create_platform_timer s0 in
  let s2 := on st_timer (start now1 ms1 (Some on_timer_expired)) s1 in
  let s3 := send_command_timer cmd_timer now2 ms2 s2 in
  (fst ∘ expiry_fn) <$> (s2 !! st_timer) = Some (Some on_timer_expired) /\
  (fst ∘ expiry_fn) <$> (s3 !! st_timer) = Some None.
Proof. done. Qed.

End Zephyr.
Arguments ZTimer : clear implicits.
End Zephyr.

(** ** The timer of the modem controller

    [ModemController] makes its timer with [create_platform_timer], starts it with
    a null callback and only asks for the elapsed time. *)

(** The two lambdas handed to the state timer of [NetworkLte]:
    [on_timer_expired()] and the empty one. *)
Inductive TimerCb := cb_on_timer_expired | cb_nothing.

Class CommandTimerType := command_timer : Type.

Class CommandTimer {T : CommandTimerType} := {
  ct_create : command_timer;
  ct_start : Z -> Z -> command_timer -> TimerError * command_timer;
  ct_stop : command_timer -> TimerError * command_timer;
  ct_elapsed_ms : Z -> command_timer -> Z }.

(** A timer restarted at [now] has not run yet. *)
Class CommandTimerLaws `{CommandTimer} : Prop := {
  ct_restarted now ms t : ct_elapsed_ms now (snd (ct_start now ms (snd (ct_stop t)))) = 0%Z }.

#[export] Instance posix_command_timer_type : CommandTimerType := Posix.Timer unit.
#[export] Instance posix_command_timer : CommandTimer := {|
  ct_create := Posix.init;
  ct_start now ms := Posix.start now ms None;
  ct_stop := Posix.stop;
  ct_elapsed_ms := Posix.elapsed_ms |}.

#[export] Instance posix_command_timer_laws : CommandTimerLaws.
Proof.
  split. intros now ms t. cbn. unfold Posix.stop, Posix.start, Posix.elapsed_ms.
  destruct (Posix.running_ t) eqn:Er; cbn [negb snd Posix.running_]; [|rewrite Er]; cbn; by rewrite Z.sub_diag.
Qed.

(** On Zephyr it is the static object, which the state timer is as well. *)
Definition zephyr_command_timer_type : CommandTimerType := Zephyr.ZTimer TimerCb.
Definition zephyr_command_timer : @CommandTimer zephyr_command_timer_type := {|
  ct_create := Zephyr.init;
  ct_start now ms := Zephyr.start now ms None;
  ct_stop := Zephyr.stop;
  ct_elapsed_ms := Zephyr.elapsed_ms |}.

Lemma zephyr_command_timer_laws : @CommandTimerLaws _ zephyr_command_timer.
Proof.
  split. intros now ms t. cbn. unfold Zephyr.stop, Zephyr.start, Zephyr.elapsed_ms.
  destruct (Zephyr.running_ t) eqn:Er; cbn [negb snd Zephyr.running_]; [|rewrite Er]; cbn;
    destruct (now <? 0)%Z; by rewrite ?Z.sub_diag.
Qed.
