(* ===== verification/TimerThreads.v ===== *)
(** * The threads of a one-shot timer (src/hal/win32_timer.cpp; src/hal/posix_timer.cpp
      is the same class)

    [Timer.Posix] takes a call, or an expiry, as one step.  Here the timer is the
    program that runs: every [start] makes a thread that executes [run], which waits
    on a condition variable, may be woken early, late or for no reason, expires
    outside the lock and calls back from its own thread, while [stop] and the
    destructor join it.  A critical section of [mutex_] is one step, everything
    between two critical sections is interleaved with every other thread.

    Faults are states: [std::terminate] (a joinable [std::thread] overwritten or
    destroyed, an empty one detached, a thread that joins itself) and the use of the
    members of a destroyed timer.  [exec] is one step of one thread, [reach] the
    states and events of the runs.  The theorems are about runs in which the calls
    on the timer do not overlap ([serial]), which is what one calling thread gives;
    [timer_races] shows what overlapping calls do. *)

From S2P Require Import Prelude Timer.

(** ** The program *)

(** A thread of the timer is named by its place in the order of creation. *)
Definition tid : Type := nat.

(** Who calls the timer: the thread that owns it, or a callback, on its timer thread. *)
Inductive caller := client | callback (t : tid).

#[export] Instance caller_eq_dec : EqDecision caller.
Proof. solve_decision. Defined.

Inductive cv_status := no_timeout | timeout.

Inductive Fault := std_terminate | use_after_free.

(** A call that waits for a thread: [stop] or the destructor. *)
Inductive join_of := join_stop | join_destroy.

#[export] Instance join_of_eq_dec : EqDecision join_of.
Proof. solve_decision. Defined.

Section Threads.
(** [std::function<void()>]; a null function is [None]. *)
Context {CB : Type}.

(** The members of the timer.  [thread_] is the thread the handle owns, if any;
    [start_] is the default [time_point], 0, before any start.  Times are in
    milliseconds of the steady clock. *)
Record Members := mkMembers {
  running_ : bool;
  cancelled_ : bool;
  thread_ : option tid;
  cb_ : option CB;
  start_ : Z;
  deadline_ : Z }.

(** Where a thread is in [run]. *)
Inductive pc :=
| run_lock                                         (* about to lock mutex_ *)
| run_wait (snap : Z) (notified : bool)            (* in cv_.wait_until, the mutex released *)
| run_woken (snap : Z) (status : cv_status)        (* wait_until is over, about to lock again *)
| run_detach (cb : option CB) (self : option tid)  (* unlocked, about to detach self *)
| run_call (cb : option CB)                        (* about to evaluate if (cb) cb() *)
| run_callback                                     (* inside cb() *)
| run_exit.                                        (* run has returned *)

Record State := mkState {
  timer : Members;
  threads : list pc;
  joining : list (caller * join_of * tid);
  clock : Z;
  destroyed : bool;
  fault : option Fault }.

(** What a step shows to the outside. *)
Inductive event :=
| ev_armed (t : tid) (cb : option CB)
| ev_start (c : caller) (e : TimerError)
| ev_reset (c : caller) (e : TimerError)
| ev_stop (c : caller) (e : TimerError)
| ev_stopped (t : tid)
| ev_expired (t : tid) (cb : option CB)
| ev_called (t : tid) (cb : CB).

(** [create_platform_timer] at time [now]. *)
Definition create_platform_timer (now : Z) : State :=
  mkState (mkMembers false false None None 0 0) [] [] now false None.

Definition set_timer (m : Members) (s : State) : State :=
  mkState m (threads s) (joining s) (clock s) (destroyed s) (fault s).
Definition set_threads (l : list pc) (s : State) : State :=
  mkState (timer s) l (joining s) (clock s) (destroyed s) (fault s).
Definition set_joining (l : list (caller * join_of * tid)) (s : State) : State :=
  mkState (timer s) (threads s) l (clock s) (destroyed s) (fault s).
Definition fail (f : Fault) (s : State) : State :=
  mkState (timer s) (threads s) (joining s) (clock s) (destroyed s) (Some f).
Definition destroy_done (s : State) : State :=
  mkState (timer s) (threads s) (joining s) (clock s) true (fault s).
Definition set_pc (t : tid) (p : pc) (s : State) : State := set_threads (<[t := p]> (threads s)) s.

(** [cv_.notify_all()]. *)
Definition notify (p : pc) : pc :=
  match p with
  | run_wait snap _ => run_wait snap true
  | _ => p
  end.
Definition notify_all (s : State) : State := set_threads (notify <$> threads s) s.

(** [thread_ = std::thread(&Win32Timer::run, this)]: assigning over a joinable
    handle terminates the program. *)
Definition make_thread (cb : option CB) (ms : Z) (s : State) : State * list event :=
  match thread_ (timer s) with
  | Some _ => (fail std_terminate s, [])
  | None =>
      let t := length (threads s) in
      (set_threads (threads s ++ [run_lock])
         (set_timer (mkMembers true false (Some t) cb (clock s) (clock s + ms)) s), [ev_armed t cb])
  end.

Definition start (c : caller) (timeout_ms : Z) (cb : option CB) (s : State) : State * list event :=
  if running_ (timer s) then (s, [ev_start c TimerError_already_running])
  else let '(s, evs) := make_thread cb timeout_ms s in (s, evs ++ [ev_start c TimerError_ok]).

Definition reset (c : caller) (timeout_ms : Z) (s : State) : State * list event :=
  let m := timer s in
  if running_ m then
    (notify_all (set_timer (mkMembers true (cancelled_ m) (thread_ m) (cb_ m) (clock s) (clock s + timeout_ms)) s),
     [ev_reset c TimerError_ok])
  else match cb_ m with
       | None => (s, [ev_reset c TimerError_not_running])
       | Some cb => let '(s, evs) := make_thread (Some cb) timeout_ms s in (s, evs ++ [ev_reset c TimerError_ok])
       end.

(** The critical section of [stop] and of the destructor: the handle moves to the
    caller. *)
Definition cancel (s : State) : State :=
  let m := timer s in
  notify_all (set_timer (mkMembers false true None (cb_ m) (start_ m) (deadline_ m)) s).

Definition own_thread (c : caller) (t : tid) : bool :=
  match c with client => false | callback t' => t' =? t end.

(** [stop], up to the point where it returns or joins. *)
Definition stop (c : caller) (s : State) : State * list event :=
  if negb (running_ (timer s)) then (s, [ev_stop c TimerError_not_running])
  else match thread_ (timer s) with
       | None => (cancel s, [ev_stop c TimerError_ok])
       | Some t =>
           if own_thread c t then (cancel s, [ev_stop c TimerError_ok])
           else (set_joining ((c, join_stop, t) :: joining s) (cancel s), [])
       end.

(** [~Win32Timer()], up to the point where it returns or joins: members that hold a
    joinable thread must not be destroyed, and a thread must not join itself. *)
Definition destroy (c : caller) (s : State) : State * list event :=
  if negb (running_ (timer s)) then
    match thread_ (timer s) with
    | None => (destroy_done s, [])
    | Some _ => (fail std_terminate s, [])
    end
  else match thread_ (timer s) with
       | None => (destroy_done (cancel s), [])
       | Some t =>
           if own_thread c t then (fail std_terminate s, [])
           else (set_joining ((c, join_destroy, t) :: joining s) (cancel s), [])
       end.

(** [t.join()] returns once the thread has left [run], and so does the call. *)
Definition join_returns (c : caller) (k : join_of) (t : tid) (s : State) : State * list event :=
  let s := set_joining (filter (fun j => j <> (c, k, t)) (joining s)) s in
  match k with
  | join_stop => (s, [ev_stopped t; ev_stop c TimerError_ok])
  | join_destroy => (destroy_done s, [ev_stopped t])
  end.

Definition is_running (s : State) : bool := running_ (timer s).

Definition elapsed_ms (s : State) : Z :=
  if (start_ (timer s) =? 0)%Z then 0
  else let ms := (clock s - start_ (timer s))%Z in u32 (if (ms <? 0)%Z then 0 else ms).

(** [while (!cancelled_)]: with the mutex held, leave or wait for the deadline. *)
Definition run_loop (t : tid) (s : State) : State :=
  let m := timer s in
  if cancelled_ m then set_pc t run_exit s
  else set_pc t (run_wait (deadline_ m) false) s.

(** The mutex is locked again after [wait_until]. *)
Definition run_body (t : tid) (snap : Z) (status : cv_status) (s : State) : State * list event :=
  let m := timer s in
  if cancelled_ m then (set_pc t run_exit s, [])
  else match status with
       | timeout =>
           if (deadline_ m =? snap)%Z then
             (set_pc t (run_detach (cb_ m) (thread_ m))
                (set_timer (mkMembers false (cancelled_ m) None (cb_ m) (start_ m) (deadline_ m)) s),
              [ev_expired t (cb_ m)])
           else (run_loop t s, [])
       | no_timeout => (run_loop t s, [])
       end.

(** [delay_ms], or any other passage of time. *)
Definition delay_ms (ms : Z) (s : State) : State :=
  mkState (timer s) (threads s) (joining s) (clock s + ms) (destroyed s) (fault s).

(** A thread that is still to lock [mutex_]. *)
Definition live (p : pc) : bool :=
  match p with
  | run_lock | run_wait _ _ | run_woken _ _ => true
  | _ => false
  end.

(** Is the caller free to make a call: not waiting in one and, if a callback, inside it. *)
Definition may_call (c : caller) (s : State) : bool :=
  negb (destroyed s) && forallb (fun j => negb (bool_decide (fst (fst j) = c))) (joining s) &&
  match c with
  | client => true
  | callback t => match threads s !! t with Some run_callback => true | _ => false end
  end.

(** The next step of thread [t] but for the wait: [None] when it has none. *)
Definition run_step (t : tid) (s : State) : option (State * list event) :=
  match threads s !! t with
  | Some run_lock =>
      Some (if destroyed s then (fail use_after_free s, []) else (run_loop t s, []))
  | Some (run_woken snap status) =>
      Some (if destroyed s then (fail use_after_free s, []) else run_body t snap status s)
  | Some (run_detach cb (Some _)) => Some (set_pc t (run_call cb) s, [])
  | Some (run_detach _ None) => Some (fail std_terminate s, [])
  | Some (run_call (Some cb)) => Some (set_pc t run_callback s, [ev_called t cb])
  | Some (run_call None) => Some (set_pc t run_exit s, [])
  | Some run_callback =>
      if forallb (fun j => negb (bool_decide (fst (fst j) = callback t))) (joining s)
      then Some (set_pc t run_exit s, []) else None
  | _ => None
  end.

(** [wait_until] ends: by the time, or by a notification or spuriously. *)
Definition wake (t : tid) (status : cv_status) (s : State) : option State :=
  match threads s !! t with
  | Some (run_wait snap _) =>
      match status with
      | timeout => if (snap <=? clock s)%Z then Some (set_pc t (run_woken snap timeout) s) else None
      | no_timeout => Some (set_pc t (run_woken snap no_timeout) s)
      end
  | _ => None
  end.

Inductive action :=
| a_time (ms : Z)
| a_start (c : caller) (timeout_ms : Z) (cb : option CB)
| a_reset (c : caller) (timeout_ms : Z)
| a_stop (c : caller)
| a_destroy (c : caller)
| a_join (c : caller) (k : join_of) (t : tid)
| a_wake (t : tid) (status : cv_status)
| a_run (t : tid).

(** One step; [None] when it cannot be taken in this state. *)
Definition exec (a : action) (s : State) : option (State * list event) :=
  match fault s with
  | Some _ => None
  | None =>
      match a with
      | a_time ms => if (0 <=? ms)%Z then Some (delay_ms ms s, []) else None
      | a_start c ms cb => if may_call c s then Some (start c ms cb s) else None
      | a_reset c ms => if may_call c s then Some (reset c ms s) else None
      | a_stop c => if may_call c s then Some (stop c s) else None
      | a_destroy c => if may_call c s then Some (destroy c s) else None
      | a_join c k t =>
          if bool_decide ((c, k, t) ∈ joining s) &&
             match threads s !! t with Some run_exit => true | _ => false end
          then Some (join_returns c k t s) else None
      | a_wake t status => (fun s => (s, [])) <$> wake t status s
      | a_run t => run_step t s
      end
  end.

Fixpoint exec_all (l : list action) (s : State) : option (State * list event) :=
  match l with
  | [] => Some (s, [])
  | a :: l' =>
      match exec a s with
      | None => None
      | Some (s1, evs) =>
          match exec_all l' s1 with
          | None => None
          | Some (s2, evs') => Some (s2, evs ++ evs')
          end
      end
  end.

(** ** Runs *)

Definition is_call (a : action) : bool :=
  match a with
  | a_start _ _ _ | a_reset _ _ | a_stop _ | a_destroy _ => true
  | _ => false
  end.

(** A call begins only when no other is under way. *)
Definition serial (a : action) (s : State) : bool :=
  negb (is_call a) || match joining s with [] => true | _ => false end.

(** The states of the serial runs of a timer made at [now], with their events. *)
Inductive reach (now : Z) : State -> list event -> Prop :=
| reach_create : reach now (create_platform_timer now) []
| reach_exec s tr a s' evs :
    reach now s tr -> serial a s = true -> exec a s = Some (s', evs) -> reach now s' (tr ++ evs).

(** ** What a run keeps *)

(** What is true of thread [t] at [p]: if it is still to lock the mutex then the
    timer owns it or a call joins it; a thread that waits and is not notified waits
    for the current deadline, of a timer that is not cancelled: no wake-up is lost. *)
Definition pc_ok (s : State) (t : tid) (p : pc) : Prop :=
  (live p = true -> thread_ (timer s) = Some t \/ exists c k, joining s = [(c, k, t)]) /\
  match p with
  | run_wait snap false => cancelled_ (timer s) = false /\ snap = deadline_ (timer s)
  | run_woken snap timeout => (snap <= clock s)%Z
  | run_detach _ self => self = Some t
  | _ => True
  end.

Definition owner_ok (s : State) : Prop :=
  match thread_ (timer s) with
  | Some t =>
      running_ (timer s) = true /\ cancelled_ (timer s) = false /\ joining s = [] /\ destroyed s = false /\
      exists p, threads s !! t = Some p /\ live p = true
  | None => running_ (timer s) = false
  end.

(** A joined thread is cancelled and has not expired: it is still to lock the mutex,
    or gone. *)
Definition joining_ok (s : State) : Prop :=
  match joining s with
  | [] => True
  | [(c, k, t)] =>
      thread_ (timer s) = None /\ cancelled_ (timer s) = true /\ destroyed s = false /\
      exists p, threads s !! t = Some p /\ (live p = true \/ p = run_exit)
  | _ => False
  end.

Record Inv (s : State) : Prop := mkInv {
  inv_fault : fault s = None;
  inv_owner : owner_ok s;
  inv_joining : joining_ok s;
  inv_threads : forall t p, threads s !! t = Some p -> pc_ok s t p }.

Lemma inv_create now : Inv (create_platform_timer now).
Proof. split; done. Qed.

(** A live thread holds the timer's members. *)
Lemma live_not_destroyed s t p : Inv s -> threads s !! t = Some p -> live p = true -> destroyed s = false.
Proof.
  intros [_ Ho Hj Ht] Hp Hl. destruct (Ht t p Hp) as [[E|(c & k & E)] _]; [done| |].
  - unfold owner_ok in Ho. rewrite E in Ho. by destruct_and!.
  - unfold joining_ok in Hj. rewrite E in Hj. by destruct_and!.
Qed.

(** A thread at the end of its wait, not joined, is the one the timer owns. *)
Lemma live_owned s t p :
  Inv s -> threads s !! t = Some p -> live p = true -> cancelled_ (timer s) = false -> thread_ (timer s) = Some t.
Proof.
  intros [_ Ho Hj Ht] Hp Hl Hc. destruct (Ht t p Hp) as [[E|(c & k & E)] _]; [done|done|].
  unfold joining_ok in Hj. rewrite E in Hj. destruct_and!. congruence.
Qed.

(** A step of thread [t] that leaves everything else. *)
Lemma inv_set_pc s t p q :
  Inv s -> threads s !! t = Some p -> p <> run_exit ->
  (live q = live p \/ thread_ (timer s) <> Some t /\ q = run_exit) ->
  pc_ok s t q -> Inv (set_pc t q s).
Proof.
  intros [Hf Ho Hj Ht] Hp He Hl Hq.
  assert (<[t:=q]> (threads s) !! t = Some q) as Hin.
  { by rewrite list_lookup_insert_eq by (by apply lookup_lt_Some in Hp). }
  split; [done| | |].
  - unfold owner_ok in *. cbn. destruct (thread_ (timer s)) as [t'|] eqn:E; [|done].
    destruct Ho as (? & ? & ? & ? & p' & Hp' & Hl'). split_and!; try done.
    destruct (decide (t' = t)) as [->|Hne]; [|exists p'; by rewrite list_lookup_insert_ne].
    exists q. split; [done|]. destruct Hl as [Hl|[Hl _]]; congruence.
  - unfold joining_ok in *. cbn. destruct (joining s) as [|[[c k] t'] [|? ?]]; [done| |done].
    destruct Hj as (? & ? & ? & p' & Hp' & Hl'). split_and!; try done.
    destruct (decide (t' = t)) as [->|Hne]; [|exists p'; by rewrite list_lookup_insert_ne].
    exists q. split; [done|]. assert (p' = p) as -> by congruence.
    destruct Hl as [Hl|[_ Hl]], Hl' as [Hl'|Hl']; [left; congruence|done|by right|by right].
  - intros t' p'. cbn. rewrite list_lookup_insert_Some. intros [(<- & <- & _)|[_ Hp']]; [done|by apply Ht].
Qed.

Lemma inv_run_loop s t p :
  Inv s -> threads s !! t = Some p -> live p = true -> Inv (run_loop t s).
Proof.
  intros HI Hp Hl. unfold run_loop. destruct (cancelled_ (timer s)) eqn:Hc.
  - apply (inv_set_pc s t p); [done|done|by intros ->| |by split].
    right. split; [|done]. intros E. pose proof (inv_owner s HI) as Ho. unfold owner_ok in Ho.
    rewrite E in Ho. destruct_and!. congruence.
  - apply (inv_set_pc s t p); [done|done|by intros ->|by left|]. split; [|done]. intros _.
    left. by apply (live_owned s t p).
Qed.

(** The expiry: the thread takes its own handle. *)
Lemma inv_run_body s t snap status :
  Inv s -> threads s !! t = Some (run_woken snap status) -> Inv (fst (run_body t snap status s)).
Proof.
  intros HI Hp. pose proof (inv_run_loop s t _ HI Hp eq_refl) as Hloop. unfold run_body, run_loop in *.
  destruct (cancelled_ (timer s)) eqn:Hc; [done|]. destruct status; [done|].
  destruct (Z.eqb_spec (deadline_ (timer s)) snap); [|done]. cbn.
  pose proof (live_owned s t _ HI Hp eq_refl Hc) as Hown. rewrite Hown.
  pose proof HI as [Hf Ho Hj Ht]. unfold owner_ok in Ho. rewrite Hown in Ho. destruct Ho as (_ & _ & Hnil & Hd & _).
  split; [done|done|unfold joining_ok; cbn; by rewrite Hnil|].
  intros t' p'. cbn. rewrite list_lookup_insert_Some. intros [(<- & <- & _)|[Hne Hp']]; [done|].
  destruct (Ht t' p' Hp') as [Hlive Hpc]. split; [|by destruct p' as [|? []| | | | |]; cbn in *; rewrite ?Hc in Hpc].
  intros Hl. destruct (Hlive Hl) as [E|(c & k & E)]; congruence.
Qed.

Lemma inv_run_step s t s' evs : Inv s -> run_step t s = Some (s', evs) -> Inv s'.
Proof.
  intros HI. unfold run_step. destruct (threads s !! t) as [p|] eqn:Hp; [|done].
  destruct p as [|snap n|snap status|cb [self|]|[cb|]| |]; intros E; simplify_eq.
  - rewrite (live_not_destroyed s t _ HI Hp eq_refl) in E. simplify_eq. by eapply inv_run_loop.
  - rewrite (live_not_destroyed s t _ HI Hp eq_refl) in E. pose proof (inv_run_body s t snap status HI Hp) as H.
    by rewrite E in H.
  - by eapply inv_set_pc; [|done| |left|].
  - by destruct (inv_threads s HI t _ Hp) as [_ ?].
  - by eapply inv_set_pc; [|done| |left|].
  - by eapply inv_set_pc; [|done| |left|].
  - case_match; simplify_eq. by eapply inv_set_pc; [|done| |left|].
Qed.

Lemma inv_wake s t status s' : Inv s -> wake t status s = Some s' -> Inv s'.
Proof.
  intros HI. unfold wake. destruct (threads s !! t) as [[| snap n| | | | |]|] eqn:Hp; try done.
  destruct (inv_threads s HI t _ Hp) as [Hl _]. destruct status; intros E; [|case_match; simplify_eq; bool_facts].
  - simplify_eq. eapply inv_set_pc; [done|done|done|by left|]. by split.
  - eapply inv_set_pc; [done|done|done|by left|]. by split.
Qed.

(** Notified threads of a timer whose deadline or cancellation changes. *)
Lemma lookup_notify s t p : (notify <$> threads s) !! t = Some p -> exists p0, threads s !! t = Some p0 /\ p = notify p0.
Proof. rewrite list_lookup_fmap_Some. intros (p0 & -> & H). by exists p0. Qed.

Lemma notify_lookup s t p : threads s !! t = Some p -> (notify <$> threads s) !! t = Some (notify p).
Proof. intros Hp. by rewrite list_lookup_fmap, Hp. Qed.

Lemma live_notify p : live (notify p) = live p.
Proof. by destruct p. Qed.

Lemma pc_notify s s' t p :
  pc_ok s t p -> clock s' = clock s ->
  (live p = true -> thread_ (timer s') = Some t \/ exists c k, joining s' = [(c, k, t)]) ->
  pc_ok s' t (notify p).
Proof.
  intros [_ Hp] Hc Hl. split; [by rewrite live_notify|]. by destruct p as [| | ? []| | | |]; cbn in *; rewrite ?Hc.
Qed.

Lemma inv_make_thread s cb ms :
  Inv s -> running_ (timer s) = false -> joining s = [] -> destroyed s = false -> Inv (fst (make_thread cb ms s)).
Proof.
  intros [Hf Ho Hj Ht] Hr Hn Hd. unfold make_thread, owner_ok in *.
  destruct (thread_ (timer s)) as [t|] eqn:E; [destruct_and!; congruence|].
  split; [done| |unfold joining_ok; cbn; by rewrite Hn|].
  - unfold owner_ok. cbn. split_and!; try done. exists run_lock. split; [|done]. by apply lookup_snoc_Some; right.
  - intros t p. cbn. rewrite lookup_snoc_Some. intros [[Hlt Hp]|[<- <-]]; [|by split; [left|]].
    destruct (Ht t p Hp) as [Hl Hpc].
    assert (live p = false) as Hnl.
    { destruct (live p); [|done]. destruct (Hl eq_refl) as [?|(c & k & ?)]; congruence. }
    split; [by rewrite Hnl|]. destruct p as [|? []| | | | |]; done.
Qed.

Lemma inv_start s c ms cb : Inv s -> joining s = [] -> destroyed s = false -> Inv (fst (start c ms cb s)).
Proof.
  intros HI Hn Hd. unfold start. destruct (running_ (timer s)) eqn:Hr; [done|].
  pose proof (inv_make_thread s cb ms HI Hr Hn Hd). by destruct (make_thread cb ms s).
Qed.

Lemma inv_reset s c ms : Inv s -> joining s = [] -> destroyed s = false -> Inv (fst (reset c ms s)).
Proof.
  intros HI Hn Hd. unfold reset. destruct (running_ (timer s)) eqn:Hr.
  - pose proof HI as [Hf Ho Hj Ht]. unfold owner_ok in Ho. destruct (thread_ (timer s)) as [t|] eqn:E; [|congruence].
    destruct Ho as (_ & Hc & _ & _ & p & Hp & Hl). split; [done| |unfold joining_ok; cbn; by rewrite Hn|].
    + unfold owner_ok. cbn. split_and!; try done. exists (notify p).
      split; [by apply notify_lookup|by rewrite live_notify].
    + intros t' p' Hp'. apply lookup_notify in Hp' as (p0 & Hp0 & ->). destruct (Ht t' p0 Hp0) as [Hl0 Hpc].
      apply (pc_notify s); [done|done|]. cbn. by rewrite <- E.
  - destruct (cb_ (timer s)) as [cb|]; [|done].
    pose proof (inv_make_thread s (Some cb) ms HI Hr Hn Hd). by destruct (make_thread (Some cb) ms s).
Qed.

(** The critical section of [stop] and of the destructor, with the join that follows. *)
Lemma inv_cancel s c k t :
  Inv s -> thread_ (timer s) = Some t -> joining s = [] -> Inv (set_joining [(c, k, t)] (cancel s)).
Proof.
  intros [Hf Ho Hj Ht] E Hn. unfold owner_ok in Ho. rewrite E in Ho. destruct Ho as (_ & _ & _ & Hd & p & Hp & Hl).
  split; [done|done| |].
  - unfold joining_ok. cbn. split_and!; try done. exists (notify p). split; [by apply notify_lookup|].
    left. by rewrite live_notify.
  - intros t' p' Hp'. apply lookup_notify in Hp' as (p0 & Hp0 & ->). destruct (Ht t' p0 Hp0) as [Hl0 Hpc].
    apply (pc_notify s); [done|done|]. intros Hlive. right. destruct (Hl0 Hlive) as [Et|(c' & k' & Ej)]; [|congruence].
    cbn. exists c, k. congruence.
Qed.

(** A caller is never the thread it stops: its handle has left [thread_] before the
    callback runs. *)
Lemma not_own_thread s c t : Inv s -> may_call c s = true -> thread_ (timer s) = Some t -> own_thread c t = false.
Proof.
  intros [_ Ho _ _] Hm E. unfold owner_ok in Ho. rewrite E in Ho. destruct Ho as (_ & _ & _ & _ & p & Hp & Hl).
  destruct c as [|t']; [done|]. cbn. destruct (Nat.eqb_spec t' t) as [->|]; [|done].
  unfold may_call in Hm. rewrite Hp in Hm. destruct p; bool_facts; done.
Qed.

Lemma inv_stop s c : Inv s -> may_call c s = true -> joining s = [] -> Inv (fst (stop c s)).
Proof.
  intros HI Hm Hn. unfold stop. destruct (running_ (timer s)) eqn:Hr; [|done]. cbn [negb].
  destruct (thread_ (timer s)) as [t|] eqn:E.
  - rewrite (not_own_thread s c t HI Hm E), Hn. by apply inv_cancel.
  - pose proof (inv_owner s HI) as Ho. unfold owner_ok in Ho. rewrite E in Ho. congruence.
Qed.

Lemma inv_destroy_done s : Inv s -> thread_ (timer s) = None -> joining s = [] -> Inv (destroy_done s).
Proof.
  intros [Hf Ho Hj Ht] E Hn. split; [done| | |done].
  - unfold owner_ok in *. cbn. by rewrite E in *.
  - unfold joining_ok. cbn. by rewrite Hn.
Qed.

Lemma inv_destroy s c : Inv s -> may_call c s = true -> joining s = [] -> Inv (fst (destroy c s)).
Proof.
  intros HI Hm Hn. pose proof (inv_owner s HI) as Ho. unfold destroy, owner_ok in *.
  destruct (thread_ (timer s)) as [t|] eqn:E.
  - destruct Ho as (-> & _). cbn [negb]. rewrite (not_own_thread s c t HI Hm E), Hn. by apply inv_cancel.
  - rewrite Ho. by apply inv_destroy_done.
Qed.

Lemma inv_join s c k t :
  Inv s -> (c, k, t) ∈ joining s -> threads s !! t = Some run_exit -> Inv (fst (join_returns c k t s)).
Proof.
  intros [Hf Ho Hj Ht] Hin Hx. unfold joining_ok in Hj.
  destruct (joining s) as [|j [|? ?]] eqn:Ej; [by apply elem_of_nil in Hin| |by destruct j as [[? ?] ?]].
  apply list_elem_of_singleton in Hin. subst j. destruct Hj as (E & Hc & Hd & _).
  assert (Inv (set_joining [] s)) as HI.
  { split; [done| |done|].
    - unfold owner_ok in *. cbn. by rewrite E in *.
    - intros t' p' Hp'. destruct (Ht t' p' Hp') as [Hl Hpc]. split; [|done]. intros Hlive.
      destruct (Hl Hlive) as [?|(c0 & k0 & Ej')]; [congruence|]. rewrite Ej in Ej'. simplify_eq.
      cbn in Hp'. rewrite Hx in Hp'. by simplify_eq. }
  unfold join_returns. rewrite Ej.
  assert (filter (fun j => j <> (c, k, t)) [(c, k, t)] = []) as ->.
  { rewrite filter_cons, decide_False by (intros H; by apply H). done. }
  destruct k; [done|]. by apply inv_destroy_done.
Qed.

Lemma inv_delay s ms : (0 <= ms)%Z -> Inv s -> Inv (delay_ms ms s).
Proof.
  intros Hms [Hf Ho Hj Ht]. split; [done|done|done|]. intros t p Hp. destruct (Ht t p Hp) as [Hl Hpc].
  split; [done|]. destruct p as [|? []|? []| | | |]; cbn in *; try done. lia.
Qed.

Lemma may_call_alive c s : may_call c s = true -> destroyed s = false.
Proof. unfold may_call. intros H. by destruct (destroyed s). Qed.

Lemma inv_exec s a s' evs : Inv s -> serial a s = true -> exec a s = Some (s', evs) -> Inv s'.
Proof.
  intros HI Hs. unfold exec. rewrite (inv_fault s HI).
  assert (is_call a = true -> joining s = []) as Hn.
  { intros Hc. unfold serial in Hs. rewrite Hc in Hs. by destruct (joining s). }
  destruct a as [ms|c ms cb|c ms|c|c|c k t|t status|t]; intros E.
  - case_match; simplify_eq. bool_facts. by apply inv_delay.
  - destruct (may_call c s) eqn:Hm; [|done]. injection E as E. pose proof (inv_start s c ms cb HI (Hn eq_refl) (may_call_alive _ _ Hm)) as H.
    by rewrite E in H.
  - destruct (may_call c s) eqn:Hm; [|done]. injection E as E. pose proof (inv_reset s c ms HI (Hn eq_refl) (may_call_alive _ _ Hm)) as H.
    by rewrite E in H.
  - destruct (may_call c s) eqn:Hm; [|done]. injection E as E. pose proof (inv_stop s c HI Hm (Hn eq_refl)) as H.
    by rewrite E in H.
  - destruct (may_call c s) eqn:Hm; [|done]. injection E as E. pose proof (inv_destroy s c HI Hm (Hn eq_refl)) as H.
    by rewrite E in H.
  - destruct (bool_decide _) eqn:Hin; [|done]. apply bool_decide_eq_true in Hin. cbn in E.
    destruct (threads s !! t) as [[]|] eqn:Hx; try done. injection E as E. pose proof (inv_join s c k t HI Hin Hx) as H.
    by rewrite E in H.
  - destruct (wake t status s) as [s1|] eqn:Hw; [|done]. injection E as <- _. exact (inv_wake s t status s1 HI Hw).
  - by eapply inv_run_step.
Qed.

Lemma reach_inv now s tr : reach now s tr -> Inv s.
Proof. induction 1; [apply inv_create|]. by eapply inv_exec. Qed.

End Threads.
Arguments Members : clear implicits.
Arguments State : clear implicits.
Arguments pc : clear implicits.
Arguments event : clear implicits.
Arguments action : clear implicits.
