(* ===== verification/TimerThreadsProps.v ===== *)
(** * Properties of the timer's threads

    The runs of [TimerThreads] with calls that do not overlap: what the callbacks
    see ([timer_threads_safe]), that the timer is the atomic one of [Timer.Posix]
    ([timer_threads_refine]), that [stop] and the destructor return and an armed timer
    fires ([stop_returns]).  Then the two races the class has ([timer_races]). *)

From S2P Require Import Prelude Timer TimerThreads.

Section Props.
Context {CB : Type}.
#[local] Notation State := (State CB).
#[local] Notation pc := (pc CB).
#[local] Notation event := (event CB).
#[local] Notation action := (action CB).
Implicit Types (s : State) (p : pc) (tr evs : list event).

(** ** What the callbacks saw *)

(** The callbacks thread [t] was made with, the ones it called, and whether a call
    that joined it has returned. *)
Definition armed_with (t : tid) (tr : list event) : list (option CB) :=
  omap (fun e => match e with ev_armed t' cb => if t' =? t then Some cb else None | _ => None end) tr.
Definition calls_of (t : tid) (tr : list event) : list CB :=
  omap (fun e => match e with ev_called t' cb => if t' =? t then Some cb else None | _ => None end) tr.
Definition stopped (t : tid) (tr : list event) : bool :=
  existsb (fun e => match e with ev_stopped t' => t' =? t | _ => false end) tr.

Lemma armed_with_app t tr evs : armed_with t (tr ++ evs) = armed_with t tr ++ armed_with t evs.
Proof. apply omap_app. Qed.
Lemma calls_of_app t tr evs : calls_of t (tr ++ evs) = calls_of t tr ++ calls_of t evs.
Proof. apply omap_app. Qed.
Lemma stopped_app t tr evs : stopped t (tr ++ evs) = stopped t tr || stopped t evs.
Proof. apply existsb_app. Qed.

(** What a thread at [p], made with [cb], has called. *)
Definition pc_hist (p : pc) (cb : option CB) (calls : list CB) : Prop :=
  match p with
  | run_detach cb' _ | run_call cb' => cb' = cb /\ calls = []
  | run_callback => exists f, cb = Some f /\ calls = [f]
  | run_exit => calls = [] \/ exists f, cb = Some f /\ calls = [f]
  | _ => calls = []
  end.

Lemma live_hist p cb calls : live p = true -> pc_hist p cb calls -> calls = [].
Proof. by destruct p. Qed.

Definition hist_ok (s : State) (tr : list event) (t : tid) (p : pc) : Prop :=
  exists cb, armed_with t tr = [cb] /\ (thread_ (timer s) = Some t -> cb = cb_ (timer s)) /\
    (stopped t tr = true -> p = run_exit /\ calls_of t tr = []) /\ pc_hist p cb (calls_of t tr).

Definition no_events (t : tid) (tr : list event) : Prop :=
  armed_with t tr = [] /\ calls_of t tr = [] /\ stopped t tr = false.

Record Hist (s : State) (tr : list event) : Prop := mkHist {
  hist_threads : forall t p, threads s !! t = Some p -> hist_ok s tr t p;
  hist_fresh : forall t, length (threads s) <= t -> no_events t tr;
  hist_joining : forall c k t, (c, k, t) ∈ joining s -> calls_of t tr = [] }.

(** A step that shows no event of a thread: each thread moves from [p] to [p']. *)
Lemma hist_silent s s' tr evs :
  Hist s tr -> (forall t, no_events t evs) -> length (threads s') = length (threads s) ->
  (thread_ (timer s') = None \/ thread_ (timer s') = thread_ (timer s) /\ cb_ (timer s') = cb_ (timer s)) ->
  (forall t p', threads s' !! t = Some p' -> exists p, threads s !! t = Some p /\ (p = run_exit -> p' = run_exit) /\
     forall cb calls, (thread_ (timer s) = Some t -> cb = cb_ (timer s)) -> pc_hist p cb calls -> pc_hist p' cb calls) ->
  (forall c k t, (c, k, t) ∈ joining s' -> (c, k, t) ∈ joining s \/ exists p, threads s !! t = Some p /\ live p = true) ->
  Hist s' (tr ++ evs).
Proof.
  intros [Ht Hfr Hj] Hev Hlen Hm Hmv Hjn.
  assert (forall t, armed_with t (tr ++ evs) = armed_with t tr /\ calls_of t (tr ++ evs) = calls_of t tr /\
    stopped t (tr ++ evs) = stopped t tr) as Hsame.
  { intros t. destruct (Hev t) as (Ha & Hc & Hs).
    by rewrite armed_with_app, calls_of_app, stopped_app, Ha, Hc, Hs, !app_nil_r, orb_false_r. }
  split.
  - intros t p' Hp'. destruct (Hmv t p' Hp') as (p & Hp & Hx & Hh). destruct (Ht t p Hp) as (cb & Ha & Hcb & Hst & Hpc).
    destruct (Hsame t) as (Ea & Ec & Es). exists cb. rewrite Ea, Ec, Es. split; [done|]. split; [|split].
    + intros E. destruct Hm as [Hm|[Hm1 Hm2]]; [congruence|]. rewrite Hm2. apply Hcb. congruence.
    + intros E. destruct (Hst E). auto.
    + by apply Hh.
  - intros t Hge. rewrite Hlen in Hge. destruct (Hsame t) as (Ea & Ec & Es). unfold no_events.
    rewrite Ea, Ec, Es. by apply Hfr.
  - intros c k t Hin. destruct (Hsame t) as (_ & -> & _). destruct (Hjn c k t Hin) as [Hin'|(p & Hp & Hl)]; [by eapply Hj|].
    destruct (Ht t p Hp) as (cb & _ & _ & _ & Hpc). by apply (live_hist p cb).
Qed.

(** One thread moves. *)
Lemma hist_set_pc s s' tr evs t p q :
  Hist s tr -> (forall t, no_events t evs) -> threads s !! t = Some p -> p <> run_exit ->
  threads s' = <[t := q]> (threads s) -> joining s' = joining s ->
  (thread_ (timer s') = None \/ thread_ (timer s') = thread_ (timer s) /\ cb_ (timer s') = cb_ (timer s)) ->
  (forall cb calls, (thread_ (timer s) = Some t -> cb = cb_ (timer s)) -> pc_hist p cb calls -> pc_hist q cb calls) ->
  Hist s' (tr ++ evs).
Proof.
  intros HH Hev Hp Hx Hth Hjn Hm Hpq. apply (hist_silent s); [done|done|by rewrite Hth, length_insert|done| |].
  - intros t' p'. rewrite Hth, list_lookup_insert_Some. intros [(<- & <- & _)|[Hne Hp']]; [by exists p|by exists p'].
  - rewrite Hjn. intros c k t' Hin. by left.
Qed.

(** Everybody is notified, and the owned thread may be joined. *)
Lemma hist_notify s s' tr evs :
  Hist s tr -> (forall t, no_events t evs) -> threads s' = notify <$> threads s ->
  (thread_ (timer s') = None \/ thread_ (timer s') = thread_ (timer s) /\ cb_ (timer s') = cb_ (timer s)) ->
  (forall c k t, (c, k, t) ∈ joining s' -> (c, k, t) ∈ joining s \/ exists p, threads s !! t = Some p /\ live p = true) ->
  Hist s' (tr ++ evs).
Proof.
  intros HH Hev Hth Hm Hjn. apply (hist_silent s); [done|done|by rewrite Hth, length_fmap|done| |done].
  intros t p'. rewrite Hth. intros Hp'. apply lookup_notify in Hp' as (p & Hp & ->). exists p.
  split; [done|]. split; [by intros ->|]. by destruct p.
Qed.

(** A thread is made. *)
Lemma hist_make_thread s tr cb ms :
  Inv s -> Hist s tr -> running_ (timer s) = false ->
  Hist (fst (make_thread cb ms s)) (tr ++ snd (make_thread cb ms s)).
Proof.
  intros HI [Ht Hfr Hj] Hr. pose proof (inv_owner s HI) as Ho. unfold make_thread, owner_ok in *.
  destruct (thread_ (timer s)) as [t0|] eqn:E; [destruct_and!; congruence|]. cbn [fst snd].
  set (n := length (threads s)). set (ev := [ev_armed n cb]).
  assert (forall t, t <> n -> armed_with t (tr ++ ev) = armed_with t tr) as Ha.
  { intros t Hne. rewrite armed_with_app. unfold ev. cbn. destruct (Nat.eqb_spec n t); [done|]. by rewrite app_nil_r. }
  assert (forall t, calls_of t (tr ++ ev) = calls_of t tr /\ stopped t (tr ++ ev) = stopped t tr) as Hcs.
  { intros t. by rewrite calls_of_app, stopped_app, app_nil_r, orb_false_r. }
  split.
  - intros t p. cbn. rewrite lookup_snoc_Some. intros [[Hlt Hp]|[Et <-]]; destruct (Hcs t) as [Hc Hs].
    + destruct (Ht t p Hp) as (cb' & H1 & _ & H3 & H4). exists cb'. rewrite Ha, Hc, Hs by (unfold n; lia).
      split_and!; try done. cbn. intros [=]. unfold n in *. lia.
    + destruct (Hfr n ltac:(unfold n; lia)) as (H1 & H2 & H3). exists cb.
      assert (t = n) as -> by (unfold n; lia). rewrite Hc, Hs, H2, H3, armed_with_app, H1.
      unfold ev. cbn. by rewrite Nat.eqb_refl.
  - intros t. cbn. rewrite length_app. cbn. intros Hge. destruct (Hcs t) as [Hc Hs]. unfold no_events.
    rewrite Ha, Hc, Hs by (unfold n; lia). apply Hfr. lia.
  - intros c k t Hin. destruct (Hcs t) as [-> _]. by eapply Hj.
Qed.

Lemma hist_events s tr evs : Hist s tr -> (forall t, no_events t evs) -> Hist s (tr ++ evs).
Proof.
  intros HH Hev. apply (hist_silent s); [done|done|done|by right| |].
  - intros t p Hp. by exists p.
  - intros c k t Hin. by left.
Qed.

Lemma hist_start s tr c ms cb :
  Inv s -> Hist s tr -> Hist (fst (start c ms cb s)) (tr ++ snd (start c ms cb s)).
Proof.
  intros HI HH. unfold start. destruct (running_ (timer s)) eqn:Hr; [by apply hist_events|].
  pose proof (hist_make_thread s tr cb ms HI HH Hr) as H. destruct (make_thread cb ms s) as [s1 evs].
  cbn [fst snd] in *. rewrite app_assoc. by apply hist_events.
Qed.

Lemma hist_reset s tr c ms :
  Inv s -> Hist s tr -> Hist (fst (reset c ms s)) (tr ++ snd (reset c ms s)).
Proof.
  intros HI HH. unfold reset. destruct (running_ (timer s)) eqn:Hr.
  - apply (hist_notify s); [done|done|done|by right|]. intros c' k t Hin. by left.
  - destruct (cb_ (timer s)) as [cb|]; [|by apply hist_events].
    pose proof (hist_make_thread s tr (Some cb) ms HI HH Hr) as H. destruct (make_thread (Some cb) ms s) as [s1 evs].
    cbn [fst snd] in *. rewrite app_assoc. by apply hist_events.
Qed.

Lemma hist_cancel s tr c k t evs :
  Inv s -> Hist s tr -> (forall t, no_events t evs) -> thread_ (timer s) = Some t -> joining s = [] ->
  Hist (set_joining [(c, k, t)] (cancel s)) (tr ++ evs).
Proof.
  intros HI HH Hev E Hn. apply (hist_notify s); [done|done|done|by left|].
  intros c' k' t' Hin. cbn in Hin. apply list_elem_of_singleton in Hin. simplify_eq. right.
  pose proof (inv_owner s HI) as Ho. unfold owner_ok in Ho. rewrite E in Ho. by destruct_and!.
Qed.

Lemma hist_stop s tr c :
  Inv s -> Hist s tr -> may_call c s = true -> joining s = [] -> Hist (fst (stop c s)) (tr ++ snd (stop c s)).
Proof.
  intros HI HH Hm Hn. pose proof (inv_owner s HI) as Ho. unfold stop, owner_ok in *.
  destruct (thread_ (timer s)) as [t|] eqn:E.
  - destruct Ho as (-> & _). cbn [negb]. rewrite (not_own_thread s c t HI Hm E), Hn. by apply hist_cancel.
  - rewrite Ho. by apply hist_events.
Qed.

Lemma hist_destroy s tr c :
  Inv s -> Hist s tr -> may_call c s = true -> joining s = [] -> Hist (fst (destroy c s)) (tr ++ snd (destroy c s)).
Proof.
  intros HI HH Hm Hn. pose proof (inv_owner s HI) as Ho. unfold destroy, owner_ok in *.
  destruct (thread_ (timer s)) as [t|] eqn:E.
  - destruct Ho as (-> & _). cbn [negb]. rewrite (not_own_thread s c t HI Hm E), Hn. by apply hist_cancel.
  - rewrite Ho. destruct (hist_events s tr [] HH (fun _ => conj eq_refl (conj eq_refl eq_refl))) as [H1 H2 H3].
    by split.
Qed.

Lemma hist_join s tr c k t :
  Hist s tr -> (c, k, t) ∈ joining s -> threads s !! t = Some run_exit ->
  Hist (fst (join_returns c k t s)) (tr ++ snd (join_returns c k t s)).
Proof.
  intros [Ht Hfr Hj] Hin Hx.
  assert (forall s' evs, threads s' = threads s -> timer s' = timer s ->
    (forall j, j ∈ joining s' -> j ∈ joining s) -> (forall t, no_events t evs) ->
    Hist s' (tr ++ ev_stopped t :: evs)) as HH.
  { intros s' evs Hth Htm Hjs Hev.
    assert (forall t', armed_with t' (tr ++ ev_stopped t :: evs) = armed_with t' tr /\
      calls_of t' (tr ++ ev_stopped t :: evs) = calls_of t' tr /\
      stopped t' (tr ++ ev_stopped t :: evs) = stopped t' tr || (t =? t')) as Hs.
    { intros t'. destruct (Hev t') as (Ha & Hc & Hs). rewrite armed_with_app, calls_of_app, stopped_app. cbn.
      fold (armed_with t' evs) (calls_of t' evs) (stopped t' evs). by rewrite Ha, Hc, Hs, !app_nil_r, !orb_false_r. }
    split.
    - intros t' p. rewrite Hth. intros Hp. destruct (Ht t' p Hp) as (cb & Ha & Hcb & Hst & Hpc).
      destruct (Hs t') as (Ea & Ec & Es). exists cb. rewrite Ea, Ec, Es, Htm. split_and!; try done.
      intros E. apply orb_true_iff in E as [E|E]; [by apply Hst|]. bool_facts. subst t'.
      split; [congruence|]. by apply (Hj c k).
    - intros t' Hge. rewrite Hth in Hge. destruct (Hfr t' Hge) as (H1 & H2 & H3). destruct (Hs t') as (Ea & Ec & Es).
      unfold no_events. rewrite Ea, Ec, Es, H3. split_and!; try done. apply lookup_lt_Some in Hx.
      destruct (Nat.eqb_spec t t'); [lia|done].
    - intros c' k' t' Hin'. destruct (Hs t') as (_ & -> & _). eapply Hj. by apply Hjs. }
  destruct k; apply HH; try done; intros j; cbn; rewrite list_elem_of_filter; by intros [_ ?].
Qed.

Lemma hist_run_loop s tr t p :
  Hist s tr -> threads s !! t = Some p -> live p = true -> Hist (run_loop t s) (tr ++ []).
Proof.
  intros HH Hp Hl. unfold run_loop.
  destruct (cancelled_ (timer s)); (eapply (hist_set_pc s); [exact HH|done|exact Hp|by intros ->|done|done|by right|]);
    intros cb calls _ Hpc; apply live_hist in Hpc; try done. by left.
Qed.

Lemma hist_called s tr t cb :
  Inv s -> Hist s tr -> threads s !! t = Some (run_call (Some cb)) -> Hist (set_pc t run_callback s) (tr ++ [ev_called t cb]).
Proof.
  intros HI [Ht Hfr Hj] Hp. pose proof (lookup_lt_Some _ _ _ Hp) as Hlt.
  assert (forall t', t' <> t -> calls_of t' (tr ++ [ev_called t cb]) = calls_of t' tr) as Hc.
  { intros t' Hne. rewrite calls_of_app. cbn. destruct (Nat.eqb_spec t t'); [done|]. by rewrite app_nil_r. }
  destruct (Ht t _ Hp) as (cb0 & Ha & Hcb & Hst & <- & Hcalls).
  assert (stopped t tr = false) as Hns by (destruct (stopped t tr); [by destruct Hst|done]).
  split.
  - intros t' p'. cbn. rewrite list_lookup_insert_Some. unfold hist_ok.
    rewrite armed_with_app, stopped_app, orb_false_r, app_nil_r. intros [(<- & <- & _)|[Hne Hp']].
    + exists (Some cb). rewrite Hns, calls_of_app, Hcalls. cbn. rewrite Nat.eqb_refl.
      split_and!; try done. by exists cb.
    + rewrite Hc by done. by apply Ht.
  - intros t'. cbn. rewrite length_insert. intros Hge. unfold no_events.
    rewrite armed_with_app, stopped_app, orb_false_r, app_nil_r, Hc by lia. by apply Hfr.
  - intros c k t' Hin. rewrite Hc; [by eapply Hj|]. intros ->. cbn in Hin.
    pose proof (inv_joining s HI) as HJ. unfold joining_ok in HJ.
    destruct (joining s) as [|[[c' k'] t'] [|? ?]]; [by apply elem_of_nil in Hin| |done].
    apply list_elem_of_singleton in Hin. simplify_eq. destruct HJ as (_ & _ & _ & p & Hp' & Hl).
    rewrite Hp in Hp'. simplify_eq. by destruct Hl.
Qed.

Lemma hist_run_body s tr t snap status :
  Inv s -> Hist s tr -> threads s !! t = Some (run_woken snap status) ->
  Hist (fst (run_body t snap status s)) (tr ++ snd (run_body t snap status s)).
Proof.
  intros HI HH Hp. pose proof (hist_run_loop s tr t _ HH Hp eq_refl) as Hloop. unfold run_body, run_loop in *.
  destruct (cancelled_ (timer s)) eqn:Hc; [done|]. destruct status; [done|].
  destruct (deadline_ (timer s) =? snap)%Z; [|done]. pose proof (live_owned s t _ HI Hp eq_refl Hc) as Hown.
  eapply (hist_set_pc s); [exact HH|done|exact Hp|done|done|done|by left|].
  intros cb calls Hcb Hpc. split; [symmetry; auto|done].
Qed.

Lemma hist_run_step s tr t s' evs : Inv s -> Hist s tr -> run_step t s = Some (s', evs) -> Hist s' (tr ++ evs).
Proof.
  intros HI HH. unfold run_step. destruct (threads s !! t) as [p|] eqn:Hp; [|done].
  destruct p as [|snap n|snap status|cb [self|]|[cb|]| |]; intros E; simplify_eq.
  - rewrite (live_not_destroyed s t _ HI Hp eq_refl) in E. simplify_eq. by eapply hist_run_loop.
  - rewrite (live_not_destroyed s t _ HI Hp eq_refl) in E. pose proof (hist_run_body s tr t snap status HI HH Hp) as H.
    by rewrite E in H.
  - by eapply (hist_set_pc s); [exact HH| |exact Hp| | | |right|].
  - by destruct (inv_threads s HI t _ Hp) as [_ ?].
  - by apply hist_called.
  - eapply (hist_set_pc s); [exact HH|done|exact Hp|done|done|done|by right|]. intros cb calls _ [_ ->]. by left.
  - case_match; simplify_eq.
    eapply (hist_set_pc s); [exact HH|done|exact Hp|done|done|done|by right|]. intros cb calls _ Hc. by right.
Qed.

Lemma hist_wake s tr t status s' : Hist s tr -> wake t status s = Some s' -> Hist s' (tr ++ []).
Proof.
  intros HH. unfold wake. destruct (threads s !! t) as [[| snap n| | | | |]|] eqn:Hp; try done.
  destruct status; intros E; [|case_match]; simplify_eq;
    (eapply (hist_set_pc s); [exact HH|done|exact Hp|done|done|done|by right|done]).
Qed.

Lemma hist_exec s tr a s' evs :
  Inv s -> Hist s tr -> serial a s = true -> exec a s = Some (s', evs) -> Hist s' (tr ++ evs).
Proof.
  intros HI HH Hs. unfold exec. rewrite (inv_fault s HI).
  assert (is_call a = true -> joining s = []) as Hn.
  { intros Hc. unfold serial in Hs. rewrite Hc in Hs. by destruct (joining s). }
  assert (forall r : State * list event, Hist (fst r) (tr ++ snd r) -> r = (s', evs) -> Hist s' (tr ++ evs)) as Hr.
  { intros r Hr ->. exact Hr. }
  destruct a as [ms|c ms cb|c ms|c|c|c k t|t status|t]; intros E.
  - case_match; simplify_eq. destruct (hist_events s tr [] HH (fun _ => conj eq_refl (conj eq_refl eq_refl))) as [H1 H2 H3].
    by split.
  - destruct (may_call c s) eqn:Hm; [|done]. injection E. apply Hr. by apply hist_start.
  - destruct (may_call c s) eqn:Hm; [|done]. injection E. apply Hr. by apply hist_reset.
  - destruct (may_call c s) eqn:Hm; [|done]. injection E. apply Hr. apply hist_stop; auto.
  - destruct (may_call c s) eqn:Hm; [|done]. injection E. apply Hr. apply hist_destroy; auto.
  - destruct (bool_decide _) eqn:Hin; [|done]. apply bool_decide_eq_true in Hin. cbn in E.
    destruct (threads s !! t) as [[]|] eqn:Hx; try done. injection E. apply Hr. by apply hist_join.
  - destruct (wake t status s) as [s1|] eqn:Hw; [|done]. injection E as <- <-. exact (hist_wake s tr t status s1 HH Hw).
  - by eapply hist_run_step.
Qed.

Lemma reach_hist now s tr : reach now s tr -> Hist s tr.
Proof.
  induction 1 as [|s tr a s' evs Hr IH Hs He].
  - split; [done|done|]. intros c k t Hin. by apply elem_of_nil in Hin.
  - eapply hist_exec; try done. by eapply reach_inv.
Qed.

(** ** The atomic timer *)

(** The timer [Timer.Posix] sees. *)
Definition atomic (s : State) : Posix.Timer CB :=
  let m := timer s in
  Posix.mkTimer (running_ m) (cancelled_ m) (bool_decide (is_Some (thread_ m))) (cb_ m)
    (if (start_ m =? 0)%Z then None else Some (start_ m)) (deadline_ m).

Lemma reach_clock now s tr : (0 < now)%Z -> reach now s tr -> (0 < clock s)%Z.
Proof.
  intros Hn. induction 1 as [|s tr a s' evs Hr IH Hs He]; [done|]. pose proof (inv_fault s (reach_inv now s tr Hr)) as Hf.
  unfold exec in He. rewrite Hf in He.
  assert (forall cb ms, clock (fst (make_thread cb ms s)) = clock s) as Hmk.
  { intros cb ms. unfold make_thread. by destruct (thread_ (timer s)). }
  assert (clock s <= clock s')%Z as Hle; [|lia].
  destruct a as [ms|c ms cb|c ms|c|c|c k t|t status|t].
  - case_match; simplify_eq. bool_facts. cbn. lia.
  - destruct (may_call c s); [|done]. injection He as He. unfold start in He. pose proof (Hmk cb ms).
    destruct (make_thread cb ms s). destruct (running_ (timer s)); simplify_eq; cbn in *; lia.
  - destruct (may_call c s); [|done]. injection He as He. unfold reset in He.
    destruct (running_ (timer s)); [simplify_eq; cbn; lia|]. destruct (cb_ (timer s)) as [cb|]; [|simplify_eq; lia].
    pose proof (Hmk (Some cb) ms). destruct (make_thread (Some cb) ms s). simplify_eq. cbn in *. lia.
  - unfold stop in He. repeat case_match; simplify_eq; cbn; lia.
  - unfold destroy in He. repeat case_match; simplify_eq; cbn; lia.
  - unfold join_returns in He. repeat case_match; simplify_eq; cbn; lia.
  - unfold wake in He. repeat (case_match; simplify_eq); cbn in He; simplify_eq; cbn; lia.
  - unfold run_step, run_body, run_loop in He. repeat (case_match; simplify_eq); cbn; lia.
Qed.

(** What a step is to the atomic timer: the calls are its calls, with its results, an
    expiry is its [run], with the callback, and everything else is invisible. *)
Definition atomic_step (a : action) (s s' : State) (evs : list event) : Prop :=
  match a with
  | a_start c ms cb =>
      let r := Posix.start (clock s) ms cb (atomic s) in
      atomic s' = snd r /\ last evs = Some (ev_start c (fst r))
  | a_reset c ms =>
      let r := Posix.reset (clock s) ms (atomic s) in
      atomic s' = snd r /\ last evs = Some (ev_reset c (fst r))
  | a_stop c =>
      let r := Posix.stop (atomic s) in
      atomic s' = snd r /\
      (evs = [ev_stop c (fst r)] \/ fst r = TimerError_ok /\ exists t, joining s' = [(c, join_stop, t)])
  | a_destroy _ => atomic s' = snd (Posix.stop (atomic s))
  | a_run t =>
      (exists cb, evs = [ev_expired t cb] /\ Posix.run (clock s) (atomic s) = (cb, atomic s')) \/
      (forall cb, ev_expired t cb ∉ evs) /\ atomic s' = atomic s
  | _ => atomic s' = atomic s
  end.

Lemma atomic_make_thread s cb ms :
  Inv s -> running_ (timer s) = false -> (0 < clock s)%Z ->
  atomic (fst (make_thread cb ms s)) = Posix.mkTimer true false true cb (Some (clock s)) (clock s + ms).
Proof.
  intros HI Hr Hc. pose proof (inv_owner s HI) as Ho. unfold owner_ok, make_thread in *.
  destruct (thread_ (timer s)) as [t|]; [destruct_and!; congruence|]. unfold atomic. cbn.
  destruct (Z.eqb_spec (clock s) 0); [lia|done].
Qed.

Lemma atomic_running s : Posix.running_ (atomic s) = running_ (timer s).
Proof. done. Qed.

Lemma atomic_set_pc t p s : atomic (set_pc t p s) = atomic s.
Proof. done. Qed.

Lemma atomic_run_loop t s : atomic (run_loop t s) = atomic s.
Proof. unfold run_loop. by destruct (cancelled_ (timer s)). Qed.

Lemma atomic_cancel s c k t :
  atomic (set_joining [(c, k, t)] (cancel s)) =
  Posix.mkTimer false true false (cb_ (timer s)) (Posix.start_ (atomic s)) (deadline_ (timer s)).
Proof. done. Qed.

Lemma atomic_run_body s t snap status :
  Inv s -> threads s !! t = Some (run_woken snap status) ->
  atomic_step (a_run t) s (fst (run_body t snap status s)) (snd (run_body t snap status s)).
Proof.
  intros HI Hp. unfold run_body.
  destruct (cancelled_ (timer s)) eqn:Hc; [right; split; [intros cb Hin; by apply elem_of_nil in Hin|done]|].
  assert ((forall cb : option CB, ev_expired t cb ∉ []) /\ atomic (run_loop t s) = atomic s) as Hloop.
  { split; [intros cb Hin; by apply elem_of_nil in Hin|apply atomic_run_loop]. }
  destruct status; [by right|]. destruct (Z.eqb_spec (deadline_ (timer s)) snap) as [Hd|]; [|by right].
  left. exists (cb_ (timer s)). split; [done|]. pose proof (live_owned s t _ HI Hp eq_refl Hc) as Hown.
  destruct (inv_threads s HI t _ Hp) as [_ Hle]. unfold Posix.run, atomic. cbn. rewrite Hown, Hc. cbn.
  destruct (Z.leb_spec (deadline_ (timer s)) (clock s)); [|lia]. done.
Qed.

Lemma atomic_exec s a s' evs :
  Inv s -> (0 < clock s)%Z -> serial a s = true -> exec a s = Some (s', evs) -> atomic_step a s s' evs.
Proof.
  intros HI Hclk Hs He. unfold exec in He. rewrite (inv_fault s HI) in He.
  assert (is_call a = true -> joining s = []) as Hn.
  { intros Hc. unfold serial in Hs. rewrite Hc in Hs. by destruct (joining s). }
  pose proof (inv_owner s HI) as Ho. unfold owner_ok in Ho.
  destruct a as [ms|c ms cb|c ms|c|c|c k t|t status|t].
  - destruct (0 <=? ms)%Z; [|done]. by simplify_eq.
  - destruct (may_call c s); [|done]. injection He as He. unfold start in He. unfold atomic_step, Posix.start.
    rewrite atomic_running. destruct (running_ (timer s)) eqn:Hr; [by simplify_eq|].
    pose proof (atomic_make_thread s cb ms HI Hr Hclk). destruct (make_thread cb ms s). simplify_eq.
    split; [done|]. by rewrite last_snoc.
  - destruct (may_call c s); [|done]. injection He as He. unfold reset in He. unfold atomic_step, Posix.reset.
    rewrite atomic_running. change (Posix.cb_ (atomic s)) with (cb_ (timer s)).
    destruct (running_ (timer s)) eqn:Hr.
    + simplify_eq. unfold atomic. cbn. destruct (Z.eqb_spec (clock s) 0); [lia|done].
    + destruct (cb_ (timer s)) as [cb|]; [|by simplify_eq].
      pose proof (atomic_make_thread s (Some cb) ms HI Hr Hclk). destruct (make_thread (Some cb) ms s). simplify_eq.
      split; [done|]. by rewrite last_snoc.
  - destruct (may_call c s) eqn:Hm; [|done]. injection He as He. unfold stop in He. unfold atomic_step, Posix.stop.
    rewrite atomic_running. destruct (thread_ (timer s)) as [t|] eqn:E.
    + destruct Ho as (Hr & _). rewrite Hr in *. cbn [negb] in *. rewrite (not_own_thread s c t HI Hm E), (Hn eq_refl) in He.
      simplify_eq. split; [done|]. right. split; [done|]. by exists t.
    + rewrite Ho in *. cbn [negb] in *. simplify_eq. split; [done|by left].
  - destruct (may_call c s) eqn:Hm; [|done]. injection He as He. unfold destroy in He. unfold atomic_step, Posix.stop.
    rewrite atomic_running. destruct (thread_ (timer s)) as [t|] eqn:E.
    + destruct Ho as (Hr & _). rewrite Hr in *. cbn [negb] in *. rewrite (not_own_thread s c t HI Hm E), (Hn eq_refl) in He.
      by simplify_eq.
    + rewrite Ho in *. cbn [negb] in *. by simplify_eq.
  - clear Ho. unfold join_returns in He. repeat case_match; by simplify_eq.
  - clear Ho. unfold wake in He. repeat (case_match; simplify_eq); cbn in He; by simplify_eq.
  - clear Ho. unfold run_step in He. destruct (threads s !! t) as [p|] eqn:Hp; [|done].
    destruct p as [|snap n|snap status|cb [self|]|[cb|]| |]; simplify_eq.
    all: try (rewrite (live_not_destroyed s t _ HI Hp eq_refl) in He; simplify_eq).
    2:{ pose proof (atomic_run_body s t snap status HI Hp) as H. by rewrite He in H. }
    all: repeat (case_match; simplify_eq); right; (split; [intros cb' Hin; by (apply list_elem_of_singleton in Hin || apply elem_of_nil in Hin)|]); try done. apply atomic_run_loop.
Qed.

(** ** Schedules *)

(** A list of steps with calls that do not overlap. *)
Fixpoint serial_all (l : list action) (s : State) : bool :=
  match l with
  | [] => true
  | a :: l' => serial a s && match exec a s with Some (s1, _) => serial_all l' s1 | None => false end
  end.

Lemma timer_exec_all now l s tr s' evs :
  reach now s tr -> serial_all l s = true -> exec_all l s = Some (s', evs) -> reach now s' (tr ++ evs).
Proof.
  revert s tr evs. induction l as [|a l IH]; intros s tr evs Hr Hs He; cbn in *; [simplify_eq; by rewrite app_nil_r|].
  apply andb_true_iff in Hs as [Ha Hs]. destruct (exec a s) as [[s1 evs1]|] eqn:E; [|done].
  destruct (exec_all l s1) as [[s2 evs2]|] eqn:E2; [|done]. simplify_eq. rewrite app_assoc.
  apply (IH s1); [|done|done]. by apply (reach_exec now s tr a).
Qed.

Lemma reach_schedule now l s tr :
  serial_all l (create_platform_timer now) = true -> exec_all l (create_platform_timer now) = Some (s, tr) ->
  reach now s tr.
Proof. intros Hs He. apply (timer_exec_all now l (create_platform_timer now) [] s tr); [constructor|done|done]. Qed.

(** ** Progress *)

(** The step thread [t] is sure to take when it is scheduled: a wait ends when it is
    notified, or at its time. *)
Definition progress (t : tid) (s : State) : option (State * list event) :=
  match threads s !! t with
  | Some (run_wait _ notified) => exec (a_wake t (if notified then no_timeout else timeout)) s
  | _ => exec (a_run t) s
  end.

Fixpoint progress_n (n : nat) (t : tid) (s : State) : State * list event :=
  match n with
  | 0 => (s, [])
  | S n' =>
      match progress t s with
      | None => (s, [])
      | Some (s1, evs) => let '(s2, evs') := progress_n n' t s1 in (s2, evs ++ evs')
      end
  end.

(** How many steps a cancelled thread is from the end of [run]. *)
Definition to_exit (t : tid) (s : State) : nat :=
  match threads s !! t with
  | Some (run_wait _ _) => 2
  | Some run_exit => 0
  | _ => 1
  end.

(** The thread that takes the step. *)
Definition actor (a : action) : option tid :=
  match a with
  | a_wake t _ | a_run t => Some t
  | _ => None
  end.

Lemma run_step_frame t s s' evs :
  run_step t s = Some (s', evs) ->
  joining s' = joining s /\ forall t', t' <> t -> threads s' !! t' = threads s !! t'.
Proof.
  unfold run_step, run_body, run_loop.
  intros E. repeat (case_match; simplify_eq); split; try done; intros t' Hne; cbn; by rewrite ?list_lookup_insert_ne.
Qed.

Lemma wake_frame t status s s' :
  wake t status s = Some s' ->
  joining s' = joining s /\ forall t', t' <> t -> threads s' !! t' = threads s !! t'.
Proof.
  unfold wake. intros E. repeat (case_match; simplify_eq); split; try done; intros t' Hne; cbn; by rewrite list_lookup_insert_ne.
Qed.

Lemma to_exit_frame t s s' : threads s' !! t = threads s !! t -> to_exit t s' = to_exit t s.
Proof. unfold to_exit. by intros ->. Qed.

Lemma to_exit_set_pc t q s p :
  threads s !! t = Some p ->
  to_exit t (set_pc t q s) = match q with run_wait _ _ => 2 | run_exit => 0 | _ => 1 end.
Proof.
  intros Hp. unfold to_exit. cbn. rewrite list_lookup_insert_eq by (by apply lookup_lt_Some in Hp). by destruct q.
Qed.

Lemma joined_state s c k t :
  Inv s -> joining s = [(c, k, t)] ->
  cancelled_ (timer s) = true /\ destroyed s = false /\
  exists p, threads s !! t = Some p /\ (live p = true \/ p = run_exit) /\ forall snap, p <> run_wait snap false.
Proof.
  intros HI Ej. pose proof (inv_joining s HI) as Hj. unfold joining_ok in Hj. rewrite Ej in Hj.
  destruct Hj as (_ & Hc & Hd & p & Hp & Hl). split_and!; try done. exists p. split_and!; try done.
  intros snap ->. destruct (inv_threads s HI t _ Hp) as [_ [Hc' _]]. congruence.
Qed.

Lemma joined_own_step s c k t a s' evs :
  Inv s -> joining s = [(c, k, t)] -> actor a = Some t -> exec a s = Some (s', evs) ->
  joining s' = joining s /\ to_exit t s' < to_exit t s.
Proof.
  intros HI Ej Ha He. destruct (joined_state s c k t HI Ej) as (Hc & Hd & p & Hp & Hl & Hw).
  unfold exec in He. rewrite (inv_fault s HI) in He.
  destruct a as [ms|c' ms cb|c' ms|c'|c'|c' k' t'|t' status|t']; simplify_eq/=.
  - destruct (wake t status s) as [s1|] eqn:E; [|done]. simplify_eq/=. split; [by apply (wake_frame t status)|].
    unfold wake in E. rewrite Hp in E. destruct p as [|snap n| | | | |]; try done.
    destruct status; [|case_match]; simplify_eq; rewrite (to_exit_set_pc _ _ _ _ Hp); unfold to_exit; rewrite Hp; lia.
  - split; [by apply (run_step_frame t s s' evs)|]. unfold run_step in He. rewrite Hp in He.
    destruct Hl as [Hl| ->]; [|done].
    destruct p as [|snap n|snap status| | | |]; try done; rewrite Hd in He; unfold run_body, run_loop in He; rewrite Hc in He;
      simplify_eq; rewrite (to_exit_set_pc _ _ _ _ Hp); unfold to_exit; rewrite Hp; lia.
Qed.

Lemma joined_other_step s c k t a s' evs :
  Inv s -> joining s = [(c, k, t)] -> serial a s = true -> actor a <> Some t -> a <> a_join c k t ->
  exec a s = Some (s', evs) -> joining s' = joining s /\ to_exit t s' = to_exit t s.
Proof.
  intros HI Ej Hs Ha Hnj He. unfold exec in He. rewrite (inv_fault s HI) in He. unfold serial in Hs. rewrite Ej in Hs.
  destruct a as [ms|c' ms cb|c' ms|c'|c'|c' k' t'|t' status|t']; try done.
  - destruct (0 <=? ms)%Z; simplify_eq. done.
  - rewrite Ej in He. destruct (bool_decide _) eqn:Hin; [|done]. apply bool_decide_eq_true, list_elem_of_singleton in Hin.
    by simplify_eq.
  - destruct (wake t' status s) as [s1|] eqn:E; [|done]. simplify_eq/=. destruct (wake_frame _ _ _ _ E) as [Hj Ht].
    split; [done|]. apply to_exit_frame, Ht. congruence.
  - destruct (run_step_frame _ _ _ _ He) as [Hj Ht]. split; [done|]. apply to_exit_frame, Ht. cbn in Ha. congruence.
Qed.

Lemma joined_progress s c k t :
  Inv s -> joining s = [(c, k, t)] ->
  if to_exit t s =? 0 then is_Some (exec (a_join c k t) s) else is_Some (progress t s).
Proof.
  intros HI Ej. destruct (joined_state s c k t HI Ej) as (Hc & Hd & p & Hp & Hl & Hw).
  unfold to_exit, progress, exec, run_step, wake. rewrite (inv_fault s HI), Hp, Hd.
  destruct p as [|snap []|snap status| | | |]; cbn; try by eauto.
  - by destruct (Hw snap).
  - by destruct Hl.
  - by destruct Hl.
  - by destruct Hl.
  - rewrite bool_decide_true; [by eauto|]. rewrite Ej. by apply list_elem_of_singleton.
Qed.

(** Within [n] steps of its own, thread [t] has called [f] once and the timer is idle. *)
Definition fires (n : nat) (t : tid) (f : CB) (s : State) : Prop :=
  calls_of t (snd (progress_n n t s)) = [f] /\ running_ (timer (fst (progress_n n t s))) = false.

Lemma fires_step n t f s s1 evs :
  progress t s = Some (s1, evs) -> calls_of t evs = [] -> fires n t f s1 -> fires (S n) t f s.
Proof.
  unfold fires. intros E Hc. cbn [progress_n]. rewrite E. destruct (progress_n n t s1) as [s2 evs'].
  cbn [fst snd]. by rewrite calls_of_app, Hc.
Qed.

(** A thread that has called back keeps quiet. *)
Lemma called_quiet n t s p :
  threads s !! t = Some p -> p = run_callback \/ p = run_exit ->
  calls_of t (snd (progress_n n t s)) = [] /\ timer (fst (progress_n n t s)) = timer s.
Proof.
  revert s p. induction n as [|n IH]; intros s p Hp Hd; [done|]. cbn [progress_n]. unfold progress. rewrite Hp.
  destruct Hd as [-> | ->]; unfold exec, run_step; rewrite Hp; destruct (fault s); try done.
  destruct (forallb _ _); [|done].
  destruct (IH (set_pc t run_exit s) run_exit) as [H1 H2];
    [cbn; by rewrite list_lookup_insert_eq by (by apply lookup_lt_Some in Hp)|by right|].
  by destruct (progress_n n t (set_pc t run_exit s)).
Qed.

Lemma set_pc_lookup t p q s : threads s !! t = Some p -> threads (set_pc t q s) !! t = Some q.
Proof. intros Hp. cbn. by rewrite list_lookup_insert_eq by (by apply lookup_lt_Some in Hp). Qed.

Lemma call_fires n t f s :
  fault s = None -> running_ (timer s) = false -> threads s !! t = Some (run_call (Some f)) -> fires (S n) t f s.
Proof.
  intros Hf Hr Hp. unfold fires. cbn [progress_n]. unfold progress, exec, run_step. rewrite Hf, Hp.
  destruct (called_quiet n t (set_pc t run_callback s) run_callback) as [H1 H2]; [by eapply set_pc_lookup|by left|].
  destruct (progress_n n t (set_pc t run_callback s)) as [s2 evs]. cbn [fst snd] in *. rewrite calls_of_app, H1, H2.
  cbn. by rewrite Nat.eqb_refl.
Qed.

Lemma detach_fires n t f s self :
  fault s = None -> running_ (timer s) = false -> threads s !! t = Some (run_detach (Some f) (Some self)) ->
  fires (S (S n)) t f s.
Proof.
  intros Hf Hr Hp. apply (fires_step _ _ _ _ (set_pc t (run_call (Some f)) s) []); [|done|].
  - unfold progress, exec, run_step. by rewrite Hf, Hp.
  - apply call_fires; [done|done|]. by eapply set_pc_lookup.
Qed.

(** An armed timer whose time is over. *)
Definition due (t : tid) (f : CB) (s : State) : Prop :=
  Inv s /\ thread_ (timer s) = Some t /\ cb_ (timer s) = Some f /\ (deadline_ (timer s) <= clock s)%Z.

Lemma due_facts t f s : due t f s -> fault s = None /\ cancelled_ (timer s) = false /\ destroyed s = false.
Proof.
  intros (HI & E & _). pose proof (inv_owner s HI) as Ho. unfold owner_ok in Ho. rewrite E in Ho.
  destruct Ho as (_ & Hc & _ & Hd & _). split; [by apply inv_fault|done].
Qed.

Lemma due_set_pc t f s a s' evs :
  due t f s -> actor a = Some t -> exec a s = Some (s', evs) -> timer s' = timer s -> clock s' = clock s -> due t f s'.
Proof.
  intros (HI & E & Hcb & Hd) Ha He Ht Hc. unfold due. rewrite Ht, Hc. split_and!; try done.
  apply (inv_exec s a s' evs); [done|by destruct a|done].
Qed.

Lemma expiry_fires n t f s :
  due t f s -> threads s !! t = Some (run_woken (deadline_ (timer s)) timeout) -> fires (S (S (S n))) t f s.
Proof.
  intros Hdue Hp. destruct (due_facts t f s Hdue) as (Hf & Hc & Hd). destruct Hdue as (HI & E & Hcb & Hdl).
  eapply fires_step.
  - unfold progress, exec, run_step, run_body. rewrite Hf, Hp, Hd, Hc, Z.eqb_refl, E, Hcb. reflexivity.
  - done.
  - eapply detach_fires; [done|done|]. cbn. by rewrite list_lookup_insert_eq by (by apply lookup_lt_Some in Hp).
Qed.

Lemma wait_fires n t f s :
  due t f s -> threads s !! t = Some (run_wait (deadline_ (timer s)) false) -> fires (4 + n) t f s.
Proof.
  intros Hdue Hp. destruct (due_facts t f s Hdue) as (Hf & Hc & Hd). pose proof Hdue as (HI & E & Hcb & Hdl).
  assert (exec (a_wake t timeout) s = Some (set_pc t (run_woken (deadline_ (timer s)) timeout) s, [])) as He.
  { unfold exec, wake. rewrite Hf, Hp. by rewrite (proj2 (Z.leb_le _ _) Hdl). }
  eapply fires_step; [unfold progress; rewrite Hp; exact He|done|].
  apply expiry_fires; [|by eapply set_pc_lookup]. by apply (due_set_pc t f s (a_wake t timeout) _ [] Hdue).
Qed.

(** From the top of the loop. *)
Lemma loop_fires n t f s p :
  due t f s -> threads s !! t = Some p -> exec (a_run t) s = Some (run_loop t s, []) ->
  (forall snap b, p <> run_wait snap b) -> fires (5 + n) t f s.
Proof.
  intros Hdue Hp He Hw. destruct (due_facts t f s Hdue) as (Hf & Hc & Hd).
  assert (run_loop t s = set_pc t (run_wait (deadline_ (timer s)) false) s) as El by (unfold run_loop; by rewrite Hc).
  rewrite El in He. apply (fires_step _ _ _ _ (set_pc t (run_wait (deadline_ (timer s)) false) s) []); [|done|].
  - unfold progress. rewrite Hp. destruct p; try exact He. by destruct (Hw snap notified).
  - apply wait_fires; [|by eapply set_pc_lookup]. by apply (due_set_pc t f s (a_run t) _ [] Hdue).
Qed.

Lemma woken_fires n t f s snap status :
  due t f s -> threads s !! t = Some (run_woken snap status) -> fires (5 + n) t f s.
Proof.
  intros Hdue Hp. destruct (due_facts t f s Hdue) as (Hf & Hc & Hd).
  assert (exec (a_run t) s = Some (run_body t snap status s)) as He by (unfold exec, run_step; by rewrite Hf, Hp, Hd).
  unfold run_body in He. rewrite Hc in He. destruct status; [by eapply loop_fires|].
  destruct (Z.eqb_spec (deadline_ (timer s)) snap) as [<-|]; [by apply (expiry_fires (S (S n)))|by eapply loop_fires].
Qed.

Lemma due_fires t f s : due t f s -> fires 6 t f s.
Proof.
  intros Hdue. destruct (due_facts t f s Hdue) as (Hf & Hc & Hd). pose proof Hdue as (HI & E & Hcb & Hdl).
  pose proof (inv_owner s HI) as Ho. unfold owner_ok in Ho. rewrite E in Ho. destruct Ho as (_ & _ & _ & _ & p & Hp & Hl).
  destruct p as [|snap []|snap status| | | |]; try done.
  - eapply (loop_fires 1); [done|done| |done]. unfold exec, run_step. by rewrite Hf, Hp, Hd.
  - assert (exec (a_wake t no_timeout) s = Some (set_pc t (run_woken snap no_timeout) s, [])) as He.
    { unfold exec, wake. by rewrite Hf, Hp. }
    eapply fires_step; [unfold progress; rewrite Hp; exact He|done|].
    eapply (woken_fires 0); [by apply (due_set_pc t f s (a_wake t no_timeout) _ [] Hdue)|by eapply set_pc_lookup].
  - destruct (inv_threads s HI t _ Hp) as [_ [_ ->]]. by apply (wait_fires 2).
  - by apply (woken_fires 1 t f s snap status).
Qed.

(** ** The theorems *)


(** C11. The thread-based timer is the atomic timer the rest of the development uses:
    in runs with calls that do not overlap, every call does to the members what the
    atomic call does and returns what it returns, a thread expires only when the
    atomic timer does, at its time and with its callback, and no other step of any
    thread is visible; the queries agree. *)
Theorem timer_threads_refine now s tr a s' evs :
  (0 < now)%Z -> reach now s tr -> serial a s = true -> exec a s = Some (s', evs) ->
  atomic_step a s s' evs /\
  is_running s' = Posix.is_running (atomic s') /\
  elapsed_ms s' = Posix.elapsed_ms (clock s') (atomic s').
Proof.
  intros Hn Hr Hs He. split_and!.
  - apply atomic_exec; [by eapply reach_inv|by eapply reach_clock|done|done].
  - done.
  - unfold elapsed_ms, Posix.elapsed_ms, atomic. cbn. destruct (start_ (timer s') =? 0)%Z; [done|].
    f_equal. destruct (Z.ltb_spec (clock s' - start_ (timer s')) 0); lia.
Qed.

(** C15. No wake-up is lost.  A [stop], or a destructor, that joins thread [t]
    returns: as long as it waits the thread has a step to take, a step of the thread
    brings it nearer to its end, at most two steps away, no step of anybody else sets
    it back, and at its end the call can return.  And a timer that is due fires:
    within six steps of its thread its callback has run, once. *)
Theorem stop_returns now s tr :
  reach now s tr ->
  (forall c k t, joining s = [(c, k, t)] ->
     to_exit t s <= 2 /\
     (if to_exit t s =? 0 then is_Some (exec (a_join c k t) s) else is_Some (progress t s)) /\
     forall a s' evs, serial a s = true -> exec a s = Some (s', evs) ->
       a = a_join c k t \/
       joining s' = [(c, k, t)] /\
       (if decide (actor a = Some t) then to_exit t s' < to_exit t s else to_exit t s' = to_exit t s)) /\
  (forall t f, thread_ (timer s) = Some t -> cb_ (timer s) = Some f -> (deadline_ (timer s) <= clock s)%Z ->
     fires 6 t f s).
Proof.
  intros Hr. pose proof (reach_inv now s tr Hr) as HI. split.
  - intros c k t Ej. split_and!.
    + unfold to_exit. repeat case_match; lia.
    + by apply joined_progress.
    + intros a s' evs Hs He. rewrite <- Ej. destruct (decide (actor a = Some t)) as [Ha|Ha].
      * right. by apply (joined_own_step s c k t a s' evs).
      * assert (a = a_join c k t \/ a <> a_join c k t) as [->|Hne]; [|by left|right; by apply (joined_other_step s c k t a s' evs)].
        destruct a as [| | | | |c' k' t'| |]; try by right.
        destruct (decide ((c', k', t') = (c, k, t))); [left; congruence|right; congruence].
  - intros t f E Hcb Hd. by apply due_fires.
Qed.

End Props.

(** ** Races *)

(** A timer expires, and the owner stops and destroys it before its thread has come
    to the callback. *)
Definition late_callback : list (action nat) :=
  [a_start client 10 (Some 7); a_run 0; a_time 10; a_wake 0 timeout; a_run 0;
   a_stop client; a_destroy client; a_run 0; a_run 0].

(** The owner starts the timer and it expires.  While the callback runs, the owner
    starts the timer again and the callback stops it, which joins the second thread;
    before that thread has looked, the owner starts the timer once more. *)
Definition stop_in_callback : list (action nat) :=
  [a_start client 10 (Some 7); a_run 0; a_time 10; a_wake 0 timeout; a_run 0; a_run 0; a_run 0;
   a_start client 10 (Some 8); a_run 1; a_stop (callback 0);
   a_start client 10 (Some 9); a_run 2;
   a_wake 1 no_timeout; a_run 1; a_time 10; a_wake 1 timeout; a_wake 2 timeout;
   a_run 1; a_run 2; a_run 2].


(** ** Witnesses *)

(** The timer is started, reset while its thread waits, woken for it, stopped, and
    started again. *)
Definition restart_schedule : list (action nat) :=
  [a_start client 10 (Some 7); a_run 0; a_time 5; a_reset client 20; a_wake 0 no_timeout; a_run 0;
   a_stop client; a_wake 0 no_timeout; a_run 0; a_join client join_stop 0;
   a_start client 3 (Some 8); a_run 1; a_time 3; a_wake 1 timeout; a_run 1; a_run 1; a_run 1].

Definition restart_end : State nat * list (event nat) :=
  default (create_platform_timer 100, []) (exec_all restart_schedule (create_platform_timer 100)).

Lemma restart_reached : reach 100 (fst restart_end) (snd restart_end).
Proof. apply (reach_schedule 100 restart_schedule); by vm_compute. Qed.


(** The expiry of the timer of [restart_schedule], the fifteenth of its steps. *)
Definition expiring : State nat * list (event nat) :=
  default (create_platform_timer 100, []) (exec_all (take 14 restart_schedule) (create_platform_timer 100)).

Lemma timer_threads_refine_witness :
  exists s' evs, exec (a_run 1) (fst expiring) = Some (s', evs) /\ evs = [ev_expired 1 (Some 8)] /\
    Posix.run 108 (atomic (fst expiring)) = (Some 8, atomic s').
Proof.
  destruct (exec (a_run 1) (fst expiring)) as [[s' evs]|] eqn:E; [|by vm_compute in E].
  destruct (timer_threads_refine 100 (fst expiring) (snd expiring) (a_run 1) s' evs) as [[(cb & He & Hrun)|[Hno _]] _].
  - lia.
  - apply (reach_schedule 100 (take 14 restart_schedule)); by vm_compute.
  - reflexivity.
  - exact E.
  - exists s', evs. assert (cb = Some 8) as ->.
    { vm_compute in E. injection E as _ E. rewrite <- E in He. congruence. }
    split; [done|]. split; [done|]. exact Hrun.
  - exfalso. apply (Hno (Some 8)). vm_compute in E. injection E as _ <-. by constructor.
Defined.

(** The [stop] of [restart_schedule], before the thread has noticed it. *)
Definition stopping : State nat * list (event nat) :=
  default (create_platform_timer 100, []) (exec_all (take 7 restart_schedule) (create_platform_timer 100)).

Lemma stop_returns_witness :
  joining (fst stopping) = [(client, join_stop, 0)] /\ to_exit 0 (fst stopping) = 2 /\
  is_Some (progress 0 (fst stopping)).
Proof.
  destruct (stop_returns 100 (fst stopping) (snd stopping)) as [Hs _].
  - apply (reach_schedule 100 (take 7 restart_schedule)); by vm_compute.
  - destruct (Hs client join_stop 0) as (_ & Hp & _); [by vm_compute|].
    split; [by vm_compute|]. split; [by vm_compute|].
    assert (to_exit 0 (fst stopping) =? 0 = false) as E by (by vm_compute). rewrite E in Hp. exact Hp.
Defined.
