(* ===== verification/ZephyrQueue.v ===== *)
(** * The Zephyr payload queue (src/hal/zephyr_message_queue.cpp)

    The class keeps one kernel message queue per connection, whose slots hold a
    two-byte length and up to 256 bytes, and one kernel queue of connection
    numbers in arrival order.  The kernel queue is the parameter [KMsgq] of
    [MessageChannel] with its documented behaviour [KMsgqLaws].  A pop with a
    timeout polls: it sleeps a millisecond between two attempts, during which
    other threads may change the queues. *)

From S2P Require Import Prelude CLib FixedString Layout MessageChannel MessageQueue Timer.
Import ZephyrChannel (KMsgq, KMsgqLaws, k_msgq_init, k_msgq_put, k_msgq_get, k_msgq_num_used_get,
  kq_rel, kq_init, kq_put, kq_get_empty, kq_get, kq_used, ENOMSG).

Module ZephyrQueue.

Definition MAX_MSG_SIZE : nat := 256.
Definition SLOT_SIZE : nat := MAX_MSG_SIZE + 2.
Definition MAX_QUEUE_CAPACITY : nat := DEFAULT_CAPACITY.

Section Queue.
Context {Q : Type} {HQ : KMsgq Q}.

(** One direction: [tx_queues_] and [tx_order_queue_], or the [rx_] pair. *)
Record ZLane := mkZLane { zqueues : list Q; zorder : Q }.

Definition create_lane (queue_capacity_ : nat) : ZLane :=
  mkZLane (replicate MAX_CONNECTIONS (k_msgq_init SLOT_SIZE queue_capacity_)) (k_msgq_init 1 queue_capacity_).

(** [queue_capacity_] as the constructor sets it. *)
Definition queue_capacity (capacity : nat) : nat :=
  if (capacity =? 0) || (MAX_QUEUE_CAPACITY <? capacity) then MAX_QUEUE_CAPACITY else capacity.

(** [queues[conn_id - 1]], undefined outside the array. *)
Definition zqueue (l : ZLane) (conn_id : Z) : Outcome Q :=
  if valid_id conn_id
  then match zqueues l !! Z.to_nat (conn_id - 1) with Some q => Done q | None => Undef end
  else Undef.
Definition set_zqueue (l : ZLane) (conn_id : Z) (q : Q) : ZLane :=
  mkZLane (<[Z.to_nat (conn_id - 1) := q]> (zqueues l)) (zorder l).
Definition set_zorder (l : ZLane) (q : Q) : ZLane := mkZLane (zqueues l) q.

Definition bindo {A B} (o : Outcome A) (k : A -> Outcome B) : Outcome B :=
  match o with Done a => k a | Undef => Undef | NoFuel => NoFuel end.
Local Notation "'let!' x := o 'in' k" := (bindo o (fun x => k)) (at level 10, x pattern, o at level 100, k at level 200).

(** [slot] is an uninitialised array, of content [junk], with header and payload
    copied in. *)
Definition fill_slot (junk data : str) : str :=
  memcpy (memcpy junk 0 (le 2 (u16 (Z.of_nat (length data))))) 2 data.

Definition push_to (junk : str) (queue_capacity_ : nat) (l : ZLane) (conn_id : Z) (data : str)
  : Outcome (QueueError * ZLane) :=
  if negb (valid_id conn_id) then Done (QueueError_invalid_id, l)
  else if MAX_MSG_SIZE <? length data then Done (QueueError_full, l)
  else
    let! q := zqueue l conn_id in
    if (queue_capacity_ <=? k_msgq_num_used_get q) || (queue_capacity_ <=? k_msgq_num_used_get (zorder l))
    then Done (QueueError_full, l)
    else
      let '(payload_ret, q) := k_msgq_put (fill_slot junk data) q in
      let l := set_zqueue l conn_id q in
      let '(order_ret, l) :=
        if (payload_ret =? 0)%Z
        then let '(r, o) := k_msgq_put [byte_of conn_id] (zorder l) in (r, set_zorder l o)
        else (payload_ret, l) in
      Done (if (payload_ret =? 0)%Z && (order_ret =? 0)%Z then QueueError_ok else QueueError_full, l).

Definition decode_slot (conn_id : Z) (slot : str) : QueueMessage :=
  let len16 := un_le (take 2 slot) in
  mkMsg conn_id (take (Z.to_nat len16 `min` MAX_MSG_DATA) (drop 2 slot)).

(** The first loop of [remove_order_entry]: what it defers into the array
    [deferred], undefined when the array overflows. *)
Fixpoint drain_order (fuel : nat) (order_queue : Q) (conn_id : Z) (removed : bool) (deferred : list Z)
  : Outcome (list Z * Q) :=
  match fuel with
  | 0 => NoFuel
  | S fuel' =>
      let '((ret, bytes), q) := k_msgq_get order_queue in
      if negb (ret =? 0)%Z then Done (deferred, q)
      else
        let queued_conn_id := un_le bytes in
        if negb removed && (queued_conn_id =? conn_id)%Z then drain_order fuel' q conn_id true deferred
        else if length deferred <? MAX_QUEUE_CAPACITY
             then drain_order fuel' q conn_id removed (deferred ++ [queued_conn_id])
             else Undef
  end.

(** The second loop puts them back, ignoring the results. *)
Definition requeue (order_queue : Q) (deferred : list Z) : Q :=
  foldl (fun q c => snd (k_msgq_put [byte_of c] q)) order_queue deferred.

Definition remove_order_entry (order_queue : Q) (conn_id : Z) : Outcome Q :=
  let! (deferred, q) := drain_order (S (k_msgq_num_used_get order_queue)) order_queue conn_id false [] in
  Done (requeue q deferred).

(** The result of the body of a pop loop: finished, or nothing there. *)
Definition pop_try (l : ZLane) (conn_id : Z) : Outcome (option QueueMessage * ZLane) :=
  let! q := zqueue l conn_id in
  let '((ret, slot), q) := k_msgq_get q in
  let l := set_zqueue l conn_id q in
  if (ret =? 0)%Z then
    let! o := remove_order_entry (zorder l) conn_id in
    Done (Some (decode_slot conn_id slot), set_zorder l o)
  else Done (None, l).

(** [pop_next_from] returns [empty] when the order names an empty queue. *)
Definition pop_next_try (l : ZLane) : Outcome (option (QueueError * option QueueMessage) * ZLane) :=
  let '((order_ret, bytes), o) := k_msgq_get (zorder l) in
  let l := set_zorder l o in
  if (order_ret =? 0)%Z then
    let conn_id := un_le bytes in
    let! q := zqueue l conn_id in
    let '((payload_ret, slot), q) := k_msgq_get q in
    let l := set_zqueue l conn_id q in
    if negb (payload_ret =? 0)%Z then Done (Some (QueueError_empty, None), l)
    else Done (Some (QueueError_ok, Some (decode_slot conn_id slot)), l)
  else Done (None, l).

Section Polling.
Context {W : Type} {HW : KTime W}.
(** What other threads do to the direction while this one sleeps. *)
Variable others : W -> ZLane -> ZLane.

(** [while (true)]: one attempt, then the timeout tests and a sleep. *)
Fixpoint poll {A} (attempt : ZLane -> Outcome (option A * ZLane)) (fuel : nat) (timeout_ms deadline : Z)
  (w : W) (l : ZLane) : Outcome ((QueueError + A) * W * ZLane) :=
  match fuel with
  | 0 => NoFuel
  | S fuel' =>
      let! (r, l) := attempt l in
      match r with
      | Some a => Done (inr a, w, l)
      | None =>
          if (timeout_ms =? 0)%Z then Done (inl QueueError_empty, w, l)
          else if (deadline <=? k_uptime_get w)%Z then Done (inl QueueError_timeout, w, l)
          else poll attempt fuel' timeout_ms deadline (k_sleep 1 w) (others w l)
      end
  end.

Definition pop_from (fuel : nat) (w : W) (l : ZLane) (conn_id timeout_ms : Z)
  : Outcome (QueueError * option QueueMessage * W * ZLane) :=
  if negb (valid_id conn_id) then Done (QueueError_invalid_id, None, w, l)
  else
    let! (r, w, l) := poll (fun l => pop_try l conn_id) fuel timeout_ms (k_uptime_get w + timeout_ms) w l in
    match r with
    | inl e => Done (e, None, w, l)
    | inr m => Done (QueueError_ok, Some m, w, l)
    end.

Definition pop_next_from (fuel : nat) (w : W) (l : ZLane) (timeout_ms : Z)
  : Outcome (QueueError * option QueueMessage * W * ZLane) :=
  let! (r, w, l) := poll pop_next_try fuel timeout_ms (k_uptime_get w + timeout_ms) w l in
  match r with
  | inl e => Done (e, None, w, l)
  | inr (e, m) => Done (e, m, w, l)
  end.

End Polling.

(** [tx_count] and [rx_count]. *)
Definition zcount (l : ZLane) (conn_id : Z) : Outcome nat :=
  if negb (valid_id conn_id) then Done 0
  else let! q := zqueue l conn_id in Done (k_msgq_num_used_get q).

(** ** The object and its methods, with the default [timeout_ms = 0] of their callers *)

Record ZephyrMessageQueue := mkZQueue { queue_capacity_ : nat; ztx : ZLane; zrx : ZLane }.

Definition create_platform_message_queue (capacity : nat) : ZephyrMessageQueue :=
  let cap := queue_capacity capacity in mkZQueue cap (create_lane cap) (create_lane cap).

Section Methods.
Context {W : Type} {HW : KTime W}.
Variable others : W -> ZLane -> ZLane.

Definition tx_push (junk : str) (z : ZephyrMessageQueue) (conn_id : Z) (data : str)
  : Outcome (QueueError * ZephyrMessageQueue) :=
  let! (e, l) := push_to junk (queue_capacity_ z) (ztx z) conn_id data in
  Done (e, mkZQueue (queue_capacity_ z) l (zrx z)).
Definition rx_push (junk : str) (z : ZephyrMessageQueue) (conn_id : Z) (data : str)
  : Outcome (QueueError * ZephyrMessageQueue) :=
  let! (e, l) := push_to junk (queue_capacity_ z) (zrx z) conn_id data in
  Done (e, mkZQueue (queue_capacity_ z) (ztx z) l).
Definition tx_pop (fuel : nat) (w : W) (z : ZephyrMessageQueue) (conn_id timeout_ms : Z)
  : Outcome (QueueError * option QueueMessage * W * ZephyrMessageQueue) :=
  let! (e, m, w, l) := pop_from others fuel w (ztx z) conn_id timeout_ms in
  Done (e, m, w, mkZQueue (queue_capacity_ z) l (zrx z)).
Definition rx_pop (fuel : nat) (w : W) (z : ZephyrMessageQueue) (conn_id timeout_ms : Z)
  : Outcome (QueueError * option QueueMessage * W * ZephyrMessageQueue) :=
  let! (e, m, w, l) := pop_from others fuel w (zrx z) conn_id timeout_ms in
  Done (e, m, w, mkZQueue (queue_capacity_ z) (ztx z) l).
Definition tx_pop_next (fuel : nat) (w : W) (z : ZephyrMessageQueue) (timeout_ms : Z)
  : Outcome (QueueError * option QueueMessage * W * ZephyrMessageQueue) :=
  let! (e, m, w, l) := pop_next_from others fuel w (ztx z) timeout_ms in
  Done (e, m, w, mkZQueue (queue_capacity_ z) l (zrx z)).
Definition tx_count (z : ZephyrMessageQueue) (conn_id : Z) : Outcome nat := zcount (ztx z) conn_id.
Definition rx_count (z : ZephyrMessageQueue) (conn_id : Z) : Outcome nat := zcount (zrx z) conn_id.

End Methods.

(** ** The kernel queues hold the messages of a list *)

Context {HL : KMsgqLaws Q}.

Definition slot_holds (slot data : str) : Prop :=
  Z.to_nat (un_le (take 2 slot)) = length data /\ take (length data) (drop 2 slot) = data /\
  length data <= MAX_MSG_DATA.

Definition order_bytes (ids : list Z) : list str := map (fun c => [byte_of c]) ids.

Definition holds_queue (cap : nat) (q : Q) (msgs : list QueueMessage) : Prop :=
  exists slots, kq_rel SLOT_SIZE cap q slots /\ Forall2 slot_holds slots (data <$> msgs).

Definition zlane_rel (cap : nat) (l : ZLane) (L : list QueueMessage) : Prop :=
  length (zqueues l) = MAX_CONNECTIONS /\
  kq_rel 1 cap (zorder l) (order_bytes (cid <$> L)) /\
  (forall c, valid_id c = true -> exists q, zqueue l c = Done q /\ holds_queue cap q (filter (fun m => cid m = c) L)) /\
  Forall (fun m => valid_id (cid m) = true) L /\
  length L <= cap /\ cap <= MAX_QUEUE_CAPACITY.

Lemma read_id c : valid_id c = true -> un_le [byte_of c] = c.
Proof.
  rewrite valid_id_range. intros Hc. cbn [un_le]. rewrite of_byte_of, Z.mod_small by lia. lia.
Qed.

Lemma fill_slot_holds junk data :
  length junk = SLOT_SIZE -> length data <= MAX_MSG_SIZE ->
  length (fill_slot junk data) = SLOT_SIZE /\ slot_holds (fill_slot junk data) data.
Proof.
  unfold SLOT_SIZE, MAX_MSG_SIZE. intros Hj Hd. unfold fill_slot.
  set (h := le 2 (u16 (Z.of_nat (length data)))). assert (length h = 2) as Hh by apply length_le.
  assert (length (memcpy junk 0 h) = 258) as Hb by (rewrite length_memcpy; lia).
  set (b := memcpy junk 0 h) in *. split; [rewrite length_memcpy; lia|]. split; [|split; [|exact Hd]].
  - rewrite take_memcpy_le by lia. pose proof (take_memcpy_end junk 0 h ltac:(lia)) as E.
    rewrite Hh in E. change (take 2 b = h) in E. rewrite E. unfold h. rewrite un_le_le.
    unfold u16. change (256 ^ Z.of_nat 2)%Z with 65536%Z. change (2 ^ 16)%Z with 65536%Z.
    rewrite !Z.mod_small by (rewrite ?Z.mod_small; lia). apply Nat2Z.id.
  - unfold memcpy. rewrite drop_app_length' by (rewrite length_take; lia). apply take_app_length.
Qed.

Lemma decode_holds slot data c : slot_holds slot data -> decode_slot c slot = mkMsg c data.
Proof.
  intros (H1 & H2 & H3). unfold decode_slot. rewrite H1. f_equal.
  by replace (length data `min` MAX_MSG_DATA) with (length data) by lia.
Qed.

Lemma zqueue_set l c q c' :
  length (zqueues l) = MAX_CONNECTIONS -> valid_id c = true -> valid_id c' = true ->
  zqueue (set_zqueue l c q) c' = if decide (c' = c) then Done q else zqueue l c'.
Proof.
  rewrite !valid_id_range. intros Hl Hc Hc'. unfold zqueue, set_zqueue. cbn [zqueues].
  replace (valid_id c') with true by (symmetry; by apply valid_id_range).
  case_decide as E; subst.
  - rewrite list_lookup_insert_eq; [done|]. rewrite Hl. unfold MAX_CONNECTIONS. lia.
  - rewrite list_lookup_insert_ne; [done|]. lia.
Qed.

Lemma create_lane_rel cap : cap <= MAX_QUEUE_CAPACITY -> zlane_rel cap (create_lane cap) [].
Proof.
  intros Hcap. split; [done|]. split; [apply kq_init|]. split; [|split; [constructor|simpl; lia]].
  intros c Hc. unfold zqueue. rewrite Hc. apply valid_id_range in Hc.
  exists (k_msgq_init SLOT_SIZE cap). split.
  - unfold create_lane. cbn [zqueues]. rewrite lookup_replicate_2; [done|]. unfold MAX_CONNECTIONS. lia.
  - exists []. split; [apply kq_init|constructor].
Qed.

(** *** Push *)

(** The list's push, refusing what does not fit a slot. *)
Definition zspec_push (cap : nat) (L : list QueueMessage) (conn_id : Z) (bytes : str)
  : QueueError * list QueueMessage :=
  if valid_id conn_id && (MAX_MSG_SIZE <? length bytes) then (QueueError_full, L)
  else spec_push cap L conn_id bytes.

Lemma put_ok sz max q l x :
  kq_rel sz max q l -> length x = sz -> length l < max ->
  fst (k_msgq_put x q) = 0%Z /\ kq_rel sz max (snd (k_msgq_put x q)) (l ++ [x]).
Proof.
  intros Hr Hx Hl. pose proof (kq_put _ _ _ _ x Hr Hx) as H.
  replace (max <=? length l) with false in H; [done|]. symmetry. apply Nat.leb_gt. lia.
Qed.

Lemma queue_used cap q L : holds_queue cap q L -> k_msgq_num_used_get q = length L.
Proof.
  intros (slots & Hr & Hf). rewrite (kq_used _ _ _ _ Hr). apply Forall2_length in Hf. by rewrite Hf, length_fmap.
Qed.

Lemma order_used cap q ids : kq_rel 1 cap q (order_bytes ids) -> k_msgq_num_used_get q = length ids.
Proof. intros Hr. rewrite (kq_used _ _ _ _ Hr). apply length_map. Qed.

(** A direction with one queue and the order queue replaced. *)
Lemma replace_rel cap l L L' c q o :
  zlane_rel cap l L -> valid_id c = true ->
  holds_queue cap q (filter (fun m => cid m = c) L') ->
  (forall c', c' <> c -> filter (fun m => cid m = c') L' = filter (fun m => cid m = c') L) ->
  kq_rel 1 cap o (order_bytes (cid <$> L')) ->
  Forall (fun m => valid_id (cid m) = true) L' -> length L' <= cap ->
  zlane_rel cap (set_zorder (set_zqueue l c q) o) L'.
Proof.
  intros (Hlen & _ & Hq & _ & _ & Hcap) Hc Hnew Hother Ho Hids Hl.
  split; [cbn; by rewrite length_insert|]. split; [exact Ho|]. split; [|done].
  intros c' Hc'. change (zqueue (set_zorder ?x ?y) c') with (zqueue x c').
  pose proof (zqueue_set l c q c' Hlen Hc Hc') as E. unfold zqueue in E |- *. cbn [set_zorder zqueues] in *. rewrite E.
  case_decide as Ec; [subst; by exists q|]. rewrite Hother by done. by apply Hq.
Qed.

Lemma zephyr_push_refines junk cap l L c bytes :
  length junk = SLOT_SIZE -> zlane_rel cap l L ->
  let '(e, L') := zspec_push cap L c bytes in
  exists l', push_to junk cap l c bytes = Done (e, l') /\ zlane_rel cap l' L'.
Proof.
  intros Hj Hrel. pose proof Hrel as (Hlen & Hord & Hq & Hids & Hcap & Hmax).
  unfold push_to, zspec_push, spec_push. destruct (valid_id c) eqn:Hc; cbn [negb andb]; [|by exists l].
  destruct (MAX_MSG_SIZE <? length bytes) eqn:Eb; bool_facts; [by exists l|].
  destruct (Hq c Hc) as (q & Eq & Hh). rewrite Eq. cbn [bindo].
  rewrite (queue_used _ _ _ Hh), (order_used _ _ _ Hord), length_fmap.
  assert (length (filter (fun m => cid m = c) L) <= length L) as Hle by apply length_filter.
  destruct (cap <=? length L) eqn:E; bool_facts.
  { rewrite orb_true_r. by exists l. }
  replace (cap <=? length (filter _ L)) with false by (symmetry; apply Nat.leb_gt; lia). cbn [orb].
  destruct (fill_slot_holds junk bytes Hj Eb) as [Hsz Hslot]. destruct Hh as (slots & Hr & Hf).
  pose proof (Forall2_length _ _ _ Hf) as Hsl. rewrite length_fmap in Hsl.
  destruct (put_ok _ _ _ _ (fill_slot junk bytes) Hr Hsz ltac:(lia)) as [E1 Hr1].
  destruct (k_msgq_put (fill_slot junk bytes) q) as [ret q']. cbn [fst snd] in E1, Hr1. subst ret. cbn [Z.eqb].
  destruct (put_ok _ _ _ _ [byte_of c] Hord eq_refl) as [E2 Hr2];
    [unfold order_bytes; rewrite length_map, length_fmap; lia|]. cbn [set_zqueue zorder].
  destruct (k_msgq_put [byte_of c] (zorder l)) as [ret o]. cbn [fst snd] in E2, Hr2. subst ret. cbn [Z.eqb andb].
  eexists. split; [done|]. rewrite firstn_all2 by (unfold MAX_MSG_SIZE, MAX_MSG_DATA in *; lia).
  apply (replace_rel cap l L _ c q' o Hrel Hc).
  - exists (slots ++ [fill_slot junk bytes]). split; [done|]. rewrite filter_app, fmap_app, filter_cons_True by done.
    apply Forall2_app; [done|]. constructor; [exact Hslot|constructor].
  - intros c' Hne. rewrite filter_app, filter_cons_False by (simpl; congruence). by rewrite filter_nil, app_nil_r.
  - rewrite fmap_app. unfold order_bytes in *. by rewrite map_app.
  - apply Forall_app. by repeat constructor.
  - rewrite length_app. simpl. lia.
Qed.

(** *** Removal of an order entry *)

Lemma drain_rel cap c ids : forall fuel q removed deferred,
  kq_rel 1 cap q (order_bytes ids) -> Forall (fun i => valid_id i = true) ids ->
  length ids < fuel -> length deferred + length ids <= MAX_QUEUE_CAPACITY ->
  exists q', drain_order fuel q c removed deferred =
             Done (deferred ++ (if removed then ids else MessageQueue.remove_order_entry ids c), q') /\
             kq_rel 1 cap q' [].
Proof.
  induction ids as [|i ids IH]; intros [|fuel] q removed deferred Hr Hv Hf Hd; cbn [length] in *; try lia.
  - destruct (kq_get_empty _ _ _ Hr) as [E Hr']. cbn [drain_order].
    destruct (k_msgq_get q) as [[ret b] q']. cbn [fst snd] in *. subst ret. cbn [Z.eqb Z.opp negb].
    exists q'. split; [|done]. by destruct removed; rewrite app_nil_r.
  - destruct (kq_get _ _ _ _ _ Hr) as [E Hr']. apply Forall_cons in Hv as [Hi Hv]. cbn [drain_order].
    destruct (k_msgq_get q) as [r q']. cbn [fst snd] in *. subst r. cbn [Z.eqb negb].
    rewrite read_id by done. destruct removed; cbn [negb andb MessageQueue.remove_order_entry].
    + replace (length deferred <? MAX_QUEUE_CAPACITY) with true by (symmetry; apply Nat.ltb_lt; lia).
      destruct (IH fuel q' true (deferred ++ [i]) Hr' Hv ltac:(lia)) as (q2 & E2 & H2);
        [rewrite length_app; simpl; lia|].
      exists q2. split; [|done]. by rewrite E2, <- app_assoc.
    + destruct (i =? c)%Z.
      * destruct (IH fuel q' true deferred Hr' Hv ltac:(lia) ltac:(lia)) as (q2 & E2 & H2). by exists q2.
      * replace (length deferred <? MAX_QUEUE_CAPACITY) with true by (symmetry; apply Nat.ltb_lt; lia).
        destruct (IH fuel q' false (deferred ++ [i]) Hr' Hv ltac:(lia)) as (q2 & E2 & H2);
          [rewrite length_app; simpl; lia|].
        exists q2. split; [|done]. by rewrite E2, <- app_assoc.
Qed.

Lemma requeue_rel cap ids : forall q pre,
  kq_rel 1 cap q (order_bytes pre) -> length pre + length ids <= cap ->
  kq_rel 1 cap (requeue q ids) (order_bytes (pre ++ ids)).
Proof.
  induction ids as [|i ids IH]; intros q pre Hr Hl; [by rewrite app_nil_r|]. cbn [length] in Hl.
  destruct (put_ok _ _ _ _ [byte_of i] Hr eq_refl) as [_ Hr']; [unfold order_bytes; rewrite length_map; lia|].
  change (requeue q (i :: ids)) with (requeue (snd (k_msgq_put [byte_of i] q)) ids).
  replace (pre ++ i :: ids) with ((pre ++ [i]) ++ ids) by (by rewrite <- app_assoc).
  apply IH; [unfold order_bytes in *; by rewrite map_app|rewrite length_app; simpl; lia].
Qed.

Lemma remove_order_entry_length ids c : length (MessageQueue.remove_order_entry ids c) <= length ids.
Proof. induction ids as [|i ids IH]; simpl; [lia|]. destruct (i =? c)%Z; simpl; lia. Qed.

Lemma remove_order_entry_rel cap q ids c :
  kq_rel 1 cap q (order_bytes ids) -> Forall (fun i => valid_id i = true) ids ->
  length ids <= cap -> cap <= MAX_QUEUE_CAPACITY ->
  exists q', remove_order_entry q c = Done q' /\
             kq_rel 1 cap q' (order_bytes (MessageQueue.remove_order_entry ids c)).
Proof.
  intros Hr Hv Hl Hc. unfold remove_order_entry. rewrite (order_used _ _ _ Hr).
  destruct (drain_rel cap c ids (S (length ids)) q false [] Hr Hv) as (q' & -> & H'); [lia|simpl; lia|].
  cbn [bindo app]. eexists. split; [done|].
  apply (requeue_rel cap (MessageQueue.remove_order_entry ids c) q' [] H').
  pose proof (remove_order_entry_length ids c). simpl. lia.
Qed.

(** *** Pop *)

Lemma queue_get cap q m msgs :
  holds_queue cap q (m :: msgs) ->
  exists slot q', k_msgq_get q = ((0%Z, slot), q') /\ slot_holds slot (data m) /\ holds_queue cap q' msgs.
Proof.
  intros (slots & Hr & Hf). cbn in Hf. apply Forall2_cons_inv_r in Hf as (slot & slots' & Hs & Hf & ->).
  destruct (kq_get _ _ _ _ _ Hr) as [E Hr']. destruct (k_msgq_get q) as [r q']. cbn [fst snd] in *. subst r.
  exists slot, q'. split; [done|]. split; [done|]. by exists slots'.
Qed.

Lemma queue_get_empty cap q :
  holds_queue cap q [] ->
  exists slot q', k_msgq_get q = (((- ENOMSG)%Z, slot), q') /\ holds_queue cap q' [].
Proof.
  intros (slots & Hr & Hf). apply Forall2_nil_inv_r in Hf as ->.
  destruct (kq_get_empty _ _ _ Hr) as [E Hr']. destruct (k_msgq_get q) as [[ret slot] q']. cbn [fst snd] in *.
  subst ret. exists slot, q'. split; [done|]. exists []. by split; [|constructor].
Qed.

Lemma zlane_ids cap l L : zlane_rel cap l L -> Forall (fun i => valid_id i = true) (cid <$> L).
Proof. intros (_ & _ & _ & H & _). by apply Forall_fmap. Qed.

Lemma msg_eta m c : cid m = c -> mkMsg c (data m) = m.
Proof. intros <-. by destruct m. Qed.

Lemma same_rel cap l L c q :
  zlane_rel cap l L -> valid_id c = true -> holds_queue cap q (filter (fun m => cid m = c) L) ->
  zlane_rel cap (set_zqueue l c q) L.
Proof.
  intros Hrel Hc Hq. pose proof Hrel as (_ & Ho & _ & Hv & Hl & _).
  exact (replace_rel cap l L L c q (zorder l) Hrel Hc Hq (fun _ _ => eq_refl) Ho Hv Hl).
Qed.

Lemma pop_try_refines cap l L c :
  zlane_rel cap l L -> valid_id c = true ->
  match take_first c L with
  | Some (m, L') => exists l', pop_try l c = Done (Some m, l') /\ zlane_rel cap l' L'
  | None => exists l', pop_try l c = Done (None, l') /\ zlane_rel cap l' L
  end.
Proof.
  intros Hrel Hc. pose proof Hrel as (Hlen & Hord & Hq & Hids & Hcap & Hmax).
  destruct (Hq c Hc) as (q & Eq & Hh). unfold pop_try. rewrite Eq. cbn [bindo].
  destruct (take_first c L) as [[m L']|] eqn:Ht.
  - destruct (take_first_filter _ _ _ _ Ht) as (H1 & H2 & H3 & H4 & H5 & H6). rewrite H1 in Hh.
    destruct (queue_get _ _ _ _ Hh) as (slot & q' & -> & Hs & Hh'). cbn [Z.eqb].
    destruct (remove_order_entry_rel cap (zorder l) (cid <$> L) c Hord (zlane_ids _ _ _ Hrel)) as (o & Eo & Ho);
      [by rewrite length_fmap|done|]. cbn [set_zqueue zorder]. rewrite Eo. cbn [bindo].
    rewrite (decode_holds _ _ _ Hs), (msg_eta _ _ H5). eexists. split; [done|]. rewrite H3 in Ho.
    apply (replace_rel cap l L L' c q' o Hrel Hc Hh'); [|done|by apply H6|lia].
    intros c' Hne. symmetry. by apply H2.
  - apply take_first_None in Ht. rewrite Ht in Hh. destruct (queue_get_empty _ _ Hh) as (slot & q' & -> & Hh').
    cbn. eexists. split; [done|]. apply same_rel; [done|done|by rewrite Ht].
Qed.

Lemma pop_next_try_refines cap l L :
  zlane_rel cap l L ->
  match L with
  | m :: L' => exists l', pop_next_try l = Done (Some (QueueError_ok, Some m), l') /\ zlane_rel cap l' L'
  | [] => exists l', pop_next_try l = Done (None, l') /\ zlane_rel cap l' []
  end.
Proof.
  intros Hrel. pose proof Hrel as (Hlen & Hord & Hq & Hids & Hcap & Hmax).
  unfold pop_next_try. destruct L as [|m L'].
  - destruct (kq_get_empty _ _ _ Hord) as [E Ho]. destruct (k_msgq_get (zorder l)) as [[ret b] o].
    cbn [fst snd] in *. subst ret. cbn [Z.eqb Z.opp ENOMSG]. eexists. split; [done|].
    by split; [|split; [|split]].
  - destruct (kq_get _ _ _ _ _ Hord) as [E Ho]. destruct (k_msgq_get (zorder l)) as [r o].
    cbn [fst snd] in *. subst r. cbn [Z.eqb]. apply Forall_cons in Hids as [Hm Hv]. rewrite read_id by done.
    destruct (Hq (cid m) Hm) as (q & Eq & Hh). change (zqueue (set_zorder l o) ?c) with (zqueue l c).
    unfold zqueue in Eq |- *. cbn [set_zorder zqueues]. rewrite Eq. cbn [bindo].
    rewrite filter_cons_True in Hh by done. destruct (queue_get _ _ _ _ Hh) as (slot & q' & -> & Hs & Hh').
    cbn [Z.eqb negb]. rewrite (decode_holds _ _ _ Hs), (msg_eta _ _ eq_refl). eexists. split; [done|].
    change (zlane_rel cap (set_zorder (set_zqueue l (cid m) q') o) L').
    apply (replace_rel cap l (m :: L') L' (cid m) q' o Hrel Hm Hh'); [|exact Ho|done|cbn in Hcap; lia].
    intros c' Hne. by rewrite filter_cons_False by congruence.
Qed.

(** *** Scripts of calls *)

Section Scripts.
Context {W : Type} {HW : KTime W}.
Variable others : W -> ZLane -> ZLane.
Variable w : W.

(** [None] is an undefined access or a loop that does not end. *)
Definition zlane_step (junk : str) (cap : nat) (l : ZLane) (op : lane_op)
  : option (QueueError * option QueueMessage) * ZLane :=
  match op with
  | LPush c bytes => match push_to junk cap l c bytes with Done (e, l') => (Some (e, None), l') | _ => (None, l) end
  | LPop c => match pop_from others 1 w l c 0 with Done (e, m, _, l') => (Some (e, m), l') | _ => (None, l) end
  | LPopNext => match pop_next_from others 1 w l 0 with Done (e, m, _, l') => (Some (e, m), l') | _ => (None, l) end
  end.

Definition zspec_step (cap : nat) (L : list QueueMessage) (op : lane_op)
  : option (QueueError * option QueueMessage) * list QueueMessage :=
  let '(e, m, L') := match op with
                     | LPush c bytes => let '(e, L') := zspec_push cap L c bytes in (e, None, L')
                     | _ => spec_step cap L op
                     end in (Some (e, m), L').

Lemma zlane_step_refines junk cap l L op :
  length junk = SLOT_SIZE -> zlane_rel cap l L ->
  fst (zlane_step junk cap l op) = fst (zspec_step cap L op) /\
  zlane_rel cap (snd (zlane_step junk cap l op)) (snd (zspec_step cap L op)).
Proof.
  intros Hj Hrel. destruct op as [c bytes|c|]; unfold zspec_step; cbn [zlane_step spec_step].
  - pose proof (zephyr_push_refines junk cap l L c bytes Hj Hrel) as H. destruct (zspec_push cap L c bytes) as [e L'].
    destruct H as (l' & -> & H). split; [reflexivity|exact H].
  - unfold pop_from, spec_pop. destruct (valid_id c) eqn:Hc; cbn [negb]; [|done].
    pose proof (pop_try_refines cap l L c Hrel Hc) as H.
    destruct (take_first c L) as [[m L']|]; destruct H as (l' & E & H); cbn [poll]; rewrite E; done.
  - pose proof (pop_next_try_refines cap l L Hrel) as H. unfold pop_next_from, spec_pop_next.
    destruct L as [|m L']; destruct H as (l' & E & H); cbn [poll]; rewrite E; done.
Qed.

Lemma queue_capacity_le capacity : queue_capacity capacity <= MAX_QUEUE_CAPACITY.
Proof.
  unfold queue_capacity. destruct (capacity =? 0); cbn [orb]; [lia|].
  destruct (MAX_QUEUE_CAPACITY <? capacity) eqn:E; bool_facts; lia.
Qed.

Lemma zephyr_scripts junk capacity ops :
  length junk = SLOT_SIZE ->
  let cap := queue_capacity capacity in
  fst (run_script (zlane_step junk cap) (create_lane cap) ops) = fst (run_script (zspec_step cap) [] ops) /\
  zlane_rel cap (snd (run_script (zlane_step junk cap) (create_lane cap) ops)) (snd (run_script (zspec_step cap) [] ops)).
Proof.
  intros Hj cap. apply (run_script_sim (zlane_rel cap)).
  - intros. by apply zlane_step_refines.
  - apply create_lane_rel, queue_capacity_le.
Qed.

Definition payload_fits (op : lane_op) : Prop :=
  match op with LPush _ bytes => length bytes <= MAX_MSG_SIZE | _ => True end.

(** On payloads that fit, the specification is that of the other platforms. *)
Lemma zspec_posix cap ops : Forall payload_fits ops -> forall L,
  fst (run_script (zspec_step cap) L ops) = Some <$> fst (run_script (spec_step cap) L ops).
Proof.
  induction 1 as [|op ops Hop _ IH]; intros L; [done|]. cbn [run_script].
  assert (zspec_step cap L op = let '(e, m, L') := spec_step cap L op in (Some (e, m), L')) as ->.
  { destruct op as [c bytes|c|]; [|done|done]. unfold zspec_step, zspec_push. simpl in Hop.
    assert (MAX_MSG_SIZE <? length bytes = false) as E by (apply Nat.ltb_ge; lia). by rewrite E, andb_false_r. }
  destruct (spec_step cap L op) as [[e m] L']. specialize (IH L').
  destruct (run_script (zspec_step cap) L' ops), (run_script (spec_step cap) L' ops). cbn in *. by rewrite IH.
Qed.

End Scripts.

(** *** Polling ends *)

Section Termination.
Context {W : Type} {HW : KTime W} {HWL : KTimeLaws W}.
Variable others : W -> ZLane -> ZLane.
Variable cap : nat.
(** The other threads use the queue through its operations only. *)
Hypothesis others_rel : forall w l L, zlane_rel cap l L -> exists L', zlane_rel cap (others w l) L'.

(** A poll of an attempt that is defined on every direction ends when its
    deadline is reached, at the latest. *)
Lemma poll_ends {A} (attempt : ZLane -> Outcome (option A * ZLane)) timeout_ms deadline :
  (forall l L, zlane_rel cap l L -> exists r l' L', attempt l = Done (r, l') /\ zlane_rel cap l' L') ->
  forall fuel w l L, zlane_rel cap l L -> (deadline - k_uptime_get w < Z.of_nat fuel)%Z -> 0 < fuel ->
  exists r w' l' L', poll others attempt fuel timeout_ms deadline w l = Done (r, w', l') /\ zlane_rel cap l' L' /\
    (r = inl QueueError_timeout -> (deadline <= k_uptime_get w')%Z).
Proof using Type HWL others_rel.
  intros Hat fuel. induction fuel as [|fuel IH]; intros w l L Hrel Hf H0; [lia|]. cbn [poll].
  destruct (Hat l L Hrel) as (r & l1 & L1 & -> & Hrel1). cbn [bindo].
  destruct r as [a|]; [by exists (inr a), w, l1, L1|].
  destruct (timeout_ms =? 0)%Z; [by exists (inl QueueError_empty), w, l1, L1|].
  destruct (deadline <=? k_uptime_get w)%Z eqn:E; bool_facts; [by exists (inl QueueError_timeout), w, l1, L1|].
  destruct (others_rel w l1 L1 Hrel1) as [L2 Hrel2].
  pose proof (sleep_advances 1 w ltac:(lia)). apply (IH _ _ L2 Hrel2); lia.
Qed.

Lemma pop_try_defined c l L : valid_id c = true -> zlane_rel cap l L ->
  exists r l' L', pop_try l c = Done (r, l') /\ zlane_rel cap l' L'.
Proof.
  intros Hc Hrel. pose proof (pop_try_refines cap l L c Hrel Hc) as H.
  destruct (take_first c L) as [[m L']|]; destruct H as (l' & E & H); eauto.
Qed.

(** A blocking pop returns: [timeout_ms] attempts and one more are enough, because
    a sleep between two attempts takes a millisecond at least; it reports a
    timeout only when the time is over and leaves the queues consistent, whatever
    the other threads push and pop in between. *)
Lemma pop_from_ends fuel w l L c timeout_ms :
  zlane_rel cap l L -> (0 <= timeout_ms < Z.of_nat fuel)%Z ->
  exists e m w' l' L', pop_from others fuel w l c timeout_ms = Done (e, m, w', l') /\ zlane_rel cap l' L' /\
    (e = QueueError_timeout -> (k_uptime_get w + timeout_ms <= k_uptime_get w')%Z).
Proof using Type HWL others_rel.
  intros Hrel Ht. unfold pop_from. destruct (valid_id c) eqn:Hc; cbn [negb];
    [|by exists QueueError_invalid_id, None, w, l, L].
  destruct (poll_ends (fun l => pop_try l c) timeout_ms (k_uptime_get w + timeout_ms)) with (fuel := fuel) (w := w) (l := l) (L := L)
    as (r & w' & l' & L' & -> & Hrel' & Hto); [intros; by eapply pop_try_defined|done|lia|lia|].
  cbn [bindo]. destruct r as [e|m]; [exists e, None|exists QueueError_ok, (Some m)]; exists w', l', L';
    (split; [done|]); (split; [done|]); [|done]. intros ->. by apply Hto.
Qed.

End Termination.

End Queue.

Arguments ZLane : clear implicits.

(** C21. The Zephyr payload queue refines the same bounded list of messages as the
    POSIX one: over a kernel queue that behaves as documented and whatever the
    uninitialised slot holds, every script of [push], [pop] and [pop_next] calls
    returns the codes and messages of the list, where a payload over 256 bytes is
    refused as [full]; no access leaves the queue or [deferred] arrays.  With
    payloads that fit, the results are those of the POSIX queue of that capacity. *)
Theorem zephyr_queue_refines {Q} `{KMsgqLaws Q} {W} `{KTime W} others (w : W) junk capacity ops :
  length junk = SLOT_SIZE ->
  let cap := queue_capacity capacity in
  let results := fst (run_script (zlane_step (Q := Q) others w junk cap) (create_lane cap) ops) in
  results = fst (run_script (zspec_step cap) [] ops) /\
  (Forall payload_fits ops -> results = Some <$> fst (run_script (lane_step cap) lane_init ops)).
Proof.
  intros Hj cap results. destruct (zephyr_scripts others w junk capacity ops Hj) as [E _]. split; [exact E|].
  intros Hfit. unfold results, cap. rewrite E, zspec_posix by done. f_equal. symmetry.
  apply (run_script_sim (lane_rel (queue_capacity capacity))); [apply lane_step_refines|apply lane_init_rel].
Qed.

(** C40. A blocking pop of the Zephyr queue returns: with a [timeout_ms] at most the
    number of rounds less one, the polling loop ends whatever other threads push
    and pop meanwhile, because the sleep between two attempts takes a millisecond;
    it reports [timeout] only when the time is over, and the queues stay
    consistent. *)
Theorem zephyr_pop_terminates {Q} `{KMsgqLaws Q} {W} `{KTimeLaws W} others cap fuel (w : W) (l : ZLane Q) L c timeout_ms :
  (forall w l L, zlane_rel cap l L -> exists L', zlane_rel cap (others w l) L') ->
  zlane_rel cap l L -> (0 <= timeout_ms < Z.of_nat fuel)%Z ->
  exists e m w' l' L', pop_from others fuel w l c timeout_ms = Done (e, m, w', l') /\ zlane_rel cap l' L' /\
    (e = QueueError_timeout -> (k_uptime_get w + timeout_ms <= k_uptime_get w')%Z).
Proof. intros Ho. by apply pop_from_ends. Qed.

(** ** Witnesses: the kernel queue as a list, the clock as a number *)

#[local] Instance counter_time : KTime Z := {| k_uptime_get w := w; k_sleep ms w := (w + ms)%Z |}.
#[local] Instance counter_time_laws : KTimeLaws Z.
Proof. split. intros. simpl. lia. Qed.

Definition no_others : Z -> ZLane ListMsgq.Q -> ZLane ListMsgq.Q := fun _ l => l.
Definition zeros : str := replicate SLOT_SIZE NUL.

Lemma zephyr_queue_refines_witness :
  fst (run_script (zlane_step no_others 0%Z zeros 2) (create_lane 2)
         [LPush 2 (lit "ab"); LPush 5 (lit "c"); LPush 1 (lit "d"); LPop 5; LPopNext]) =
  [Some (QueueError_ok, None); Some (QueueError_ok, None); Some (QueueError_full, None);
   Some (QueueError_ok, Some (mkMsg 5 (lit "c"))); Some (QueueError_ok, Some (mkMsg 2 (lit "ab")))].
Proof.
  destruct (zephyr_queue_refines no_others 0%Z zeros 2
    [LPush 2 (lit "ab"); LPush 5 (lit "c"); LPush 1 (lit "d"); LPop 5; LPopNext]) as [E _];
    [reflexivity|]. exact E.
Defined.

(** Nobody pushes: seven milliseconds later the pop gives up. *)
Lemma zephyr_pop_terminates_witness :
  exists e m w' l' L', pop_from no_others 8 0%Z (create_lane 5) 3 7 = Done (e, m, w', l') /\ zlane_rel 5 l' L' /\
    (e = QueueError_timeout -> (k_uptime_get 0%Z + 7 <= k_uptime_get w')%Z).
Proof.
  apply (zephyr_pop_terminates no_others 5 8 0%Z (create_lane 5) [] 3 7).
  - intros w l L Hl. by exists L.
  - apply create_lane_rel. unfold MAX_QUEUE_CAPACITY, DEFAULT_CAPACITY. lia.
  - lia.
Defined.

End ZephyrQueue.
