(* ===== verification/ModemController.v ===== *)
(** * The modem controller (include/hal/modem_controller.h, src/modem_controller.cpp)

    The UART driver, the timed mutex and the clock are the
    [Platform] interface: their sources only wrap operating-system calls.  The
    controller is the object on top of it; [Controller] is the interface the
    driver above uses, with the laws this file proves. *)

From S2P Require Import Prelude CLib FixedString StaticVector AtCommand Timer.

(** ** The platform below *)

Inductive UartError :=
| UartError_ok | UartError_timeout | UartError_write_failed | UartError_read_failed
| UartError_port_not_open | UartError_invalid_config.

#[export] Instance UartError_eq_dec : EqDecision UartError.
Proof. solve_decision. Defined.

Record UartConfig := mkUartConfig {
  baud_rate : Z; data_bits : Z; stop_bits : Z; uart_timeout_ms : Z }.
Definition UartConfig_default : UartConfig := mkUartConfig 115200 8 1 1000.

(** [UartInterface], [IoMutex::lock_for]/[unlock], the steady clock and
    [delay_ms], over the state [E] of the outside world. *)
Class Platform (E : Type) := {
  uart_open : str -> UartConfig -> E -> UartError * E;
  uart_close : E -> E;
  uart_is_open : E -> bool;
  uart_write : str -> E -> UartError * E;
  uart_read : nat -> Z -> E -> UartError * str * E;
  lock_for : Z -> E -> bool * E;
  unlock : E -> E;
  now_ms : E -> Z;
  delay_ms : Z -> E -> E }.

(** What the controller relies on of [UartInterface::read]: the bytes fit the
    buffer, and a read of nothing is reported as [timeout], never as [ok] (each
    platform's [read] ends with [if (bytes_read == 0) return UartError::timeout]). *)
Class PlatformLaws (E : Type) `{Platform E} : Prop := {
  read_bounded n t e err bytes e' : uart_read n t e = (err, bytes, e') -> length bytes <= n;
  read_ok_nonempty n t e bytes e' : uart_read n t e = (UartError_ok, bytes, e') -> bytes <> [] }.

(** ** Data *)

Definition MAX_AT_RETRIES : nat := 3.
Definition URC_RX_BUFFER_MAX : nat := N.to_nat 1024.
Definition URC_LINE_MAX : nat := 256.
Definition MAX_URC_LINES : nat := 8.
(** [sizeof(buffer) - 1] of the 512-byte read buffers. *)
Definition READ_SIZE : nat := 511.

Inductive ModemStatus :=
| ModemStatus_ok | ModemStatus_busy | ModemStatus_uart_error | ModemStatus_not_connected
| ModemStatus_at_error | ModemStatus_timeout | ModemStatus_invalid_param.

#[export] Instance ModemStatus_eq_dec : EqDecision ModemStatus.
Proof. solve_decision. Defined.

Definition status_eqb (a b : ModemStatus) : bool := bool_decide (a = b).

(** The controller's members: [uart_] tells whether the handle is non-null, and
    [env] is the world the handle reaches. *)
Record ModemController {T : CommandTimerType} (E : Type) := mkCtl {
  env : E;
  uart_ : bool;
  urc_rx_buffer_ : str;
  cmd_timer_ : command_timer }.
Arguments mkCtl {T E} _ _ _ _.
Arguments env {T E} _.
Arguments uart_ {T E} _.
Arguments urc_rx_buffer_ {T E} _.
Arguments cmd_timer_ {T E} _.

Section Controller.
Context {T : CommandTimerType} {CT : CommandTimer} {E : Type} `{Platform E}.

Notation Ctl := (ModemController E).

Definition set_env (e : E) (m : Ctl) : Ctl := mkCtl e (uart_ m) (urc_rx_buffer_ m) (cmd_timer_ m).
Definition set_urc (b : str) (m : Ctl) : Ctl := mkCtl (env m) (uart_ m) b (cmd_timer_ m).
Definition set_cmd_timer (t : command_timer) (m : Ctl) : Ctl :=
  mkCtl (env m) (uart_ m) (urc_rx_buffer_ m) t.

Definition controller_init (e : E) (has_uart : bool) : Ctl := mkCtl e has_uart [] ct_create.

(** [IoLockGuard lock(io_mutex_); if (!lock) return busy; ...], releasing the
    mutex on every path. *)
Definition with_lock {A} (busy : A) (f : Ctl -> A * Ctl) (m : Ctl) : A * Ctl :=
  let '(owns, e) := lock_for 5000 (env m) in
  let m1 := set_env e m in
  if owns then let '(a, m2) := f m1 in (a, set_env (unlock (env m2)) m2)
  else (busy, m1).

(** ** Connection *)

Definition connect (port : str) (config : UartConfig) : Ctl -> ModemStatus * Ctl :=
  with_lock ModemStatus_busy (fun m =>
    if negb (uart_ m) then (ModemStatus_uart_error, m)
    else let '(err, e) := uart_open port config (env m) in
         (if decide (err = UartError_ok) then ModemStatus_ok else ModemStatus_uart_error, set_env e m)).

Definition disconnect : Ctl -> unit * Ctl :=
  with_lock tt (fun m =>
    if uart_ m && uart_is_open (env m) then (tt, set_env (uart_close (env m)) m) else (tt, m)).

Definition is_open (m : Ctl) : bool := uart_ m && uart_is_open (env m).

Definition is_connected : Ctl -> bool * Ctl :=
  with_lock false (fun m => (is_open m, m)).

(** ** AT commands *)

(** The command line put in [full_cmd[AT_CMD_MAX + 3]]. *)
Definition full_cmd (cmd : str) : str := take (length cmd `min` AT_CMD_MAX) cmd ++ CRLF.

(** Which text is searched for the end of the status line. *)
Definition search_term (st : AtStatus) : str :=
  match st with
  | AtStatus_ok => lit "OK"
  | AtStatus_error => lit "ERROR"
  | _ => lit "BUSY"
  end.

(** What [send_command] appends to the URC buffer once a status is known. *)
Definition after_status (st : AtStatus) (acc : str) : str :=
  match find_sub (search_term st) acc with
  | None => []
  | Some p => match find_sub_from CRLF acc p with
              | None => []
              | Some q => if q + 2 <? length acc then drop (q + 2) acc else []
              end
  end.

(** The read loop of [send_command]; the fuel bounds the reads that return
    nothing, one per millisecond of the deadline. *)
Fixpoint read_loop (fuel : nat) (total_ms : Z) (acc : str) (response : AtResponse) (m : Ctl)
  : (ModemStatus * AtResponse) * Ctl :=
  match fuel with
  | 0 => ((ModemStatus_timeout, response), m)
  | S fuel' =>
      let elapsed := ct_elapsed_ms (now_ms (env m)) (cmd_timer_ m) in
      if (total_ms <=? elapsed)%Z then ((ModemStatus_timeout, response), m)
      else
        let '(err, bytes, e) := uart_read READ_SIZE (total_ms - elapsed) (env m) in
        let m1 := set_env e m in
        match err with
        | UartError_timeout => ((ModemStatus_timeout, response), m1)
        | UartError_ok =>
            match bytes with
            | [] => read_loop fuel' total_ms acc response m1
            | _ =>
                let acc' := fs_cat AT_RESPONSE_MAX acc bytes in
                let response' := parse_response acc' in
                let m2 := set_urc (fs_cat URC_RX_BUFFER_MAX (urc_rx_buffer_ m1)
                                     (after_status (status response') acc')) m1 in
                match status response' with
                | AtStatus_ok => ((ModemStatus_ok, response'), m2)
                | AtStatus_error | AtStatus_busy => ((ModemStatus_at_error, response'), m2)
                | AtStatus_timeout => read_loop fuel' total_ms acc' response' m1
                end
            end
        | _ => ((ModemStatus_uart_error, response), m1)
        end
  end.

Definition send_command (cmd : AtCommand) (response : AtResponse)
  : Ctl -> (ModemStatus * AtResponse) * Ctl :=
  with_lock (ModemStatus_busy, response) (fun m =>
    if negb (is_open m) then ((ModemStatus_not_connected, response), m)
    else
      let '(err, e) := uart_write (full_cmd (command_string cmd)) (env m) in
      let m1 := set_env e m in
      if decide (err = UartError_ok) then
        let total_ms := timeout_ms cmd in
        let t1 := snd (ct_stop (cmd_timer_ m1)) in
        let t2 := snd (ct_start (now_ms (env m1)) total_ms t1) in
        read_loop (S (Z.to_nat total_ms)) total_ms [] response (set_cmd_timer t2 m1)
      else ((ModemStatus_uart_error, response), m1)).

(** [for (attempt = 1; attempt < MAX_AT_RETRIES && status == timeout; ++attempt)]. *)
Fixpoint retry_loop (n : nat) (command : str) (t : Z) (r : (ModemStatus * AtResponse) * Ctl)
  : (ModemStatus * AtResponse) * Ctl :=
  match n with
  | 0 => r
  | S n' =>
      let '((st, response), m) := r in
      if status_eqb st ModemStatus_timeout
      then retry_loop n' command t (send_command (at_command command t) response m)
      else r
  end.

Definition send_raw (command : str) (response : AtResponse) (t : Z) (retry : bool) (m : Ctl)
  : (ModemStatus * AtResponse) * Ctl :=
  let r := send_command (at_command command t) response m in
  if retry && status_eqb (fst (fst r)) ModemStatus_timeout
  then retry_loop (MAX_AT_RETRIES - 1) command t r
  else r.

(** The final read shared by [send_binary] and [send_with_prompt]. *)
Definition read_final (response : AtResponse) (t : Z) (m : Ctl) : (ModemStatus * AtResponse) * Ctl :=
  let '(err, bytes, e) := uart_read READ_SIZE t (env m) in
  let m1 := set_env e m in
  match err with
  | UartError_timeout => ((ModemStatus_timeout, response), m1)
  | UartError_ok =>
      let response' := parse_response bytes in
      ((if decide (status response' = AtStatus_ok) then ModemStatus_ok else ModemStatus_at_error,
        response'), m1)
  | _ => ((ModemStatus_uart_error, response), m1)
  end.

Definition send_binary (bytes : str) (response : AtResponse) (t : Z)
  : Ctl -> (ModemStatus * AtResponse) * Ctl :=
  with_lock (ModemStatus_busy, response) (fun m =>
    if negb (is_open m) then ((ModemStatus_not_connected, response), m)
    else
      let '(err, e) := uart_write bytes (env m) in
      if decide (err = UartError_ok) then read_final response t (set_env e m)
      else ((ModemStatus_uart_error, response), set_env e m)).

Definition PROMPT : ascii := ">"%char.

Definition send_with_prompt (command bytes : str) (response : AtResponse) (t : Z)
  : Ctl -> (ModemStatus * AtResponse) * Ctl :=
  with_lock (ModemStatus_busy, response) (fun m =>
    if negb (is_open m) then ((ModemStatus_not_connected, response), m)
    else
      let '(err, e) := uart_write (full_cmd command) (env m) in
      let m1 := set_env e m in
      if negb (bool_decide (err = UartError_ok)) then ((ModemStatus_uart_error, response), m1)
      else
        let '(err2, prompt, e2) := uart_read READ_SIZE t (env m1) in
        let m2 := set_env e2 m1 in
        match err2 with
        | UartError_timeout => ((ModemStatus_timeout, response), m2)
        | UartError_ok =>
            match find_char PROMPT prompt with
            | None => ((ModemStatus_at_error, response), m2)
            | Some _ =>
                let '(err3, e3) := uart_write bytes (env m2) in
                let m3 := set_env e3 m2 in
                if decide (err3 = UartError_ok) then read_final response t m3
                else ((ModemStatus_uart_error, response), m3)
            end
        | _ => ((ModemStatus_uart_error, response), m2)
        end).

(** ** Unsolicited result codes *)

Definition kPrefixes : list str :=
  lit <$> ["+CREG:"; "+CGREG:"; "+CEREG:"; "+CGEV:"; "%STATEV:"; "%NOTIFYEV:"; "#PSMURC:";
           "+CME ERROR:"; "+CMS ERROR:"; "#CSURV:"; "SRING:"; "RING"; "NO CARRIER"; "BUSY";
           "NO DIALTONE"; "$GPGGA,"; "$GPGSA,"; "$GPGSV,"; "$GPRMC,"]%string.

Definition known_urc (line : str) : bool := existsb (fun p => starts_with p line) kPrefixes.

(** [line_len] with the trailing CR dropped, then the copy into a
    [FixedString<URC_LINE_MAX>]. *)
Definition urc_line (buf : str) (e : nat) : str :=
  let line_len := match e with
                  | 0 => 0
                  | S k => match buf !! k with
                           | Some c => if ch_eqb c CR then k else e
                           | None => e
                           end
                  end in
  fs_set URC_LINE_MAX (take line_len buf).

(** The [while ((end = urc_rx_buffer_.find('\n')) != NPOS)] loop: every round
    shortens the buffer, so its length is enough fuel. *)
Fixpoint urc_loop (fuel : nat) (buf : str) (urcs : list str) : list str * str :=
  match fuel with
  | 0 => (urcs, buf)
  | S fuel' =>
      match find_char LF buf with
      | None => (urcs, buf)
      | Some e =>
          let line := urc_line buf e in
          let urcs' := match line with
                       | [] => urcs
                       | _ => if known_urc line then vec_push MAX_URC_LINES urcs line else urcs
                       end in
          urc_loop fuel' (drop (S e) buf) urcs'
      end
  end.

(** [if (urc_rx_buffer_.size() > 1024) urc_rx_buffer_.erase(0, size - 512)]. *)
Definition trim_urc (buf : str) : str :=
  if N.to_nat 1024 <? length buf then drop (length buf - 512) buf else buf.

Definition poll_urc (t : Z) : Ctl -> list str * Ctl :=
  with_lock [] (fun m =>
    if negb (is_open m) then ([], m)
    else
      let '(err, bytes, e) := uart_read READ_SIZE t (env m) in
      let m1 := set_env e m in
      let parse (buf : str) :=
        let '(urcs, rest) := urc_loop (length buf) buf [] in
        (urcs, set_urc (trim_urc rest) m1) in
      match err with
      | UartError_ok => match bytes with
                        | [] => parse (urc_rx_buffer_ m1)
                        | _ => parse (fs_cat URC_RX_BUFFER_MAX (urc_rx_buffer_ m1) bytes)
                        end
      | UartError_timeout => parse (urc_rx_buffer_ m1)
      | _ => ([], m1)
      end).

Definition ctl_wf (m : Ctl) : Prop := length (urc_rx_buffer_ m) <= URC_RX_BUFFER_MAX.

End Controller.

(** ** The interface to the driver above *)

Class Controller (C : Type) := {
  ctl_send_raw : str -> AtResponse -> Z -> bool -> C -> (ModemStatus * AtResponse) * C;
  ctl_send_with_prompt : str -> str -> AtResponse -> Z -> C -> (ModemStatus * AtResponse) * C;
  ctl_poll_urc : Z -> C -> list str * C;
  ctl_now : C -> Z;
  ctl_delay : Z -> C -> C }.

(** A line [poll_urc] may hand to the driver. *)
Definition urc_ok (line : str) : Prop :=
  line <> [] /\ known_urc line = true /\ length line <= URC_LINE_MAX.

Class ControllerLaws (C : Type) `{Controller C} : Prop := {
  send_raw_ok cmd r t retry c r' c' :
    ctl_send_raw cmd r t retry c = ((ModemStatus_ok, r'), c') -> status r' = AtStatus_ok;
  send_raw_body cmd r t retry c st r' c' :
    ctl_send_raw cmd r t retry c = ((st, r'), c') ->
    length (body r) <= AT_RESPONSE_MAX -> length (body r') <= AT_RESPONSE_MAX;
  poll_urc_lines t c urcs c' :
    ctl_poll_urc t c = (urcs, c') -> length urcs <= MAX_URC_LINES /\ Forall urc_ok urcs }.

#[export] Instance ModemController_Controller {T : CommandTimerType} {CT : CommandTimer} E `{Platform E} : Controller (ModemController E) := {
  ctl_send_raw := send_raw;
  ctl_send_with_prompt := send_with_prompt;
  ctl_poll_urc := poll_urc;
  ctl_now m := now_ms (env m);
  ctl_delay ms m := set_env (delay_ms ms (env m)) m }.

(** ** Reference for the URC parser *)

(** The LF-terminated lines of a buffer and the unterminated rest. *)
Fixpoint lf_split (s : str) : list str * str :=
  match s with
  | [] => ([], [])
  | c :: s' =>
      let '(ls, r) := lf_split s' in
      if ch_eqb c LF then ([] :: ls, r)
      else match ls with
           | [] => ([], c :: r)
           | l :: ls' => ((c :: l) :: ls', r)
           end
  end.

Definition strip_cr (l : str) : str :=
  match last l with
  | Some c => if ch_eqb c CR then take (length l - 1) l else l
  | None => l
  end.

Definition reported (line : str) : bool := negb (str_eqb line []) && known_urc line.

(** The lines a buffer reports, in order. *)
Definition urc_reports (buf : str) : list str :=
  List.filter reported ((fun l => fs_set URC_LINE_MAX (strip_cr l)) <$> fst (lf_split buf)).

(** ** Lemmas *)

Lemma lf_split_find s :
  lf_split s = match find_char LF s with
               | None => ([], s)
               | Some e => (take e s :: fst (lf_split (drop (S e) s)), snd (lf_split (drop (S e) s)))
               end.
Proof.
  induction s as [|c s IH]; [done|]. unfold find_char in *. cbn [lf_split find_if].
  replace (ch_eqb c LF) with (ch_eqb LF c) by apply Ascii.eqb_sym.
  destruct (lf_split s) as [ls r] eqn:E. destruct (ch_eqb LF c).
  - simpl. by rewrite drop_0, E.
  - destruct (find_if (ch_eqb LF) s) as [e|]; cbn [fmap option_fmap option_map]; injection IH as -> ->; done.
Qed.

Lemma urc_line_strip buf e :
  e <= length buf -> urc_line buf e = fs_set URC_LINE_MAX (strip_cr (take e buf)).
Proof.
  intros He. unfold urc_line, strip_cr. f_equal. rewrite last_lookup, length_take, Nat.min_l by lia.
  destruct e as [|k]; [done|]. simpl Nat.pred. rewrite lookup_take_lt by lia.
  destruct (buf !! k) as [c|] eqn:E; [|apply lookup_ge_None in E; lia].
  destruct (ch_eqb c CR); [|done]. rewrite take_take. f_equal. lia.
Qed.

Lemma vec_push_take {T} cap (l : list T) x :
  length l <= cap -> vec_push cap l x = take cap (l ++ [x]).
Proof.
  intros Hl. unfold vec_push. case_goal; bool_facts.
  - rewrite take_ge; [done|]. rewrite length_app. simpl. lia.
  - rewrite take_app_le, take_ge by lia. done.
Qed.

(** The loop computes the reports and leaves the unterminated rest; its fuel is
    enough. *)
Lemma urc_loop_spec fuel buf urcs :
  length buf <= fuel -> length urcs <= MAX_URC_LINES ->
  urc_loop fuel buf urcs = (take MAX_URC_LINES (urcs ++ urc_reports buf), snd (lf_split buf)).
Proof.
  revert buf urcs. induction fuel as [|f IH]; intros buf urcs Hf Hu.
  { destruct buf; [|simpl in Hf; lia]. cbn. by rewrite app_nil_r, take_ge. }
  cbn [urc_loop]. unfold urc_reports. rewrite lf_split_find.
  destruct (find_char LF buf) as [e|] eqn:He; [|cbn; by rewrite app_nil_r, take_ge].
  pose proof (find_char_lt _ _ _ He) as Hlt. cbn [fst snd fmap list_fmap].
  rewrite urc_line_strip by lia. set (line := fs_set URC_LINE_MAX (strip_cr (take e buf))).
  assert (forall us, length us <= MAX_URC_LINES ->
    urc_loop f (drop (S e) buf) us =
    (take MAX_URC_LINES (us ++ urc_reports (drop (S e) buf)), snd (lf_split (drop (S e) buf)))) as IH'.
  { intros us Hus. apply IH; [rewrite length_drop; lia|done]. }
  cbn [List.filter]. fold (urc_reports (drop (S e) buf)).
  unfold reported at 1. destruct line as [|c l] eqn:El; [by apply IH'|]. rewrite <- El.
  assert (str_eqb line [] = false) as -> by (apply bool_decide_eq_false; congruence). simpl.
  destruct (known_urc line); [|by apply IH'].
  rewrite IH' by (by apply length_vec_push). f_equal. rewrite vec_push_take by done.
  by rewrite take_take_app, <- app_assoc.
Qed.

Lemma urc_loop_full_spec buf :
  urc_loop (length buf) buf [] = (take MAX_URC_LINES (urc_reports buf), snd (lf_split buf)).
Proof. by rewrite urc_loop_spec by (simpl; lia). Qed.

Lemma lf_split_rest buf : length (snd (lf_split buf)) <= length buf.
Proof.
  induction buf as [|c s IH]; [done|]. cbn [lf_split]. destruct (lf_split s) as [[|l ls] r]; simpl in *;
    destruct (ch_eqb c LF); simpl; lia.
Qed.

Lemma trim_urc_id buf : length buf <= URC_RX_BUFFER_MAX -> trim_urc buf = buf.
Proof.
  intros Hb. unfold trim_urc. assert (N.to_nat 1024 <? length buf = false) as ->; [|done].
  apply Nat.ltb_ge. exact Hb.
Qed.

Lemma urc_reports_ok buf : Forall urc_ok (urc_reports buf).
Proof.
  apply List.Forall_forall. intros l Hl. apply List.filter_In in Hl as [Hin Hr].
  unfold reported in Hr. bool_facts. apply List.in_map_iff in Hin as (x & <- & _).
  split; [done|]. split; [done|]. apply length_fs_set.
Qed.

Section Facts.
Context {T : CommandTimerType} {CT : CommandTimer} {E : Type} `{Platform E}.
Implicit Type m : ModemController E.

(** Reasoning about a locked method reduces to its body. *)
Lemma with_lock_ind {A} (P : A -> Prop) busy (f : ModemController E -> A * ModemController E) m :
  P busy -> (forall m1, P (fst (f m1))) -> P (fst (with_lock busy f m)).
Proof.
  intros Hb Hf. unfold with_lock. destruct (lock_for 5000 (env m)) as [[] e]; [|done].
  specialize (Hf (set_env e m)). by destruct (f (set_env e m)).
Qed.

(** A result is consistent: success means the reply said [OK], and the body fits. *)
Definition result_ok (r : AtResponse) (res : ModemStatus * AtResponse) : Prop :=
  (fst res = ModemStatus_ok -> status (snd res) = AtStatus_ok) /\
  (length (body r) <= AT_RESPONSE_MAX -> length (body (snd res)) <= AT_RESPONSE_MAX).

Lemma result_ok_fail r st : st <> ModemStatus_ok -> result_ok r (st, r).
Proof. by intros. Qed.

Lemma read_loop_ok fuel total acc r m : result_ok r (fst (read_loop fuel total acc r m)).
Proof.
  revert acc r m. induction fuel as [|f IH]; intros acc r m; [by apply result_ok_fail|].
  cbn [read_loop]. destruct (total <=? _)%Z; [by apply result_ok_fail|].
  destruct (uart_read _ _ _) as [[err bytes] e].
  destruct err; try by apply result_ok_fail.
  destruct bytes as [|c bytes]; [apply IH|]. cbv zeta.
  pose proof (parse_response_body (fs_cat AT_RESPONSE_MAX acc (c :: bytes))) as Hb.
  destruct (status (parse_response _)) eqn:Es; try (split; simpl; [by rewrite ?Es|done]).
  specialize (IH (fs_cat AT_RESPONSE_MAX acc (c :: bytes))
                 (parse_response (fs_cat AT_RESPONSE_MAX acc (c :: bytes))) (set_env e m)) as [H1 H2].
  split; [exact H1|]. intros _. by apply H2.
Qed.

Lemma send_command_ok cmd r m : result_ok r (fst (send_command cmd r m)).
Proof.
  unfold send_command. apply with_lock_ind; [by apply result_ok_fail|]. intros m1.
  destruct (negb (is_open m1)); [by apply result_ok_fail|].
  destruct (uart_write _ _) as [err e]. case_decide; [apply read_loop_ok|by apply result_ok_fail].
Qed.

Lemma result_ok_trans r0 st r res : result_ok r0 (st, r) -> result_ok r res -> result_ok r0 res.
Proof. intros [_ H1] [H2 H3]. split; [done|]. intros Hb. by apply H3, H1. Qed.

Lemma retry_loop_ok n cmd t r0 x : result_ok r0 (fst x) -> result_ok r0 (fst (retry_loop n cmd t x)).
Proof.
  revert x. induction n as [|n IH]; intros [[st r] m] Hx; [done|]. cbn [retry_loop].
  destruct (status_eqb st ModemStatus_timeout); [|done]. apply IH.
  eapply result_ok_trans; [exact Hx|]. apply send_command_ok.
Qed.

Lemma send_raw_result_ok cmd r t retry m : result_ok r (fst (send_raw cmd r t retry m)).
Proof.
  unfold send_raw. pose proof (send_command_ok (at_command cmd t) r m) as Hs. cbv zeta.
  destruct (retry && _); [by apply retry_loop_ok|done].
Qed.

Lemma poll_urc_ok t m : length (fst (poll_urc t m)) <= MAX_URC_LINES /\ Forall urc_ok (fst (poll_urc t m)).
Proof.
  unfold poll_urc. apply (with_lock_ind (fun l => length l <= MAX_URC_LINES /\ Forall urc_ok l)).
  { split; [simpl; lia|constructor]. }
  intros m1. destruct (negb (is_open m1)); [split; [simpl; lia|constructor]|].
  destruct (uart_read _ _ _) as [[err bytes] e]. cbv zeta.
  assert (forall buf, let '(urcs, rest) := urc_loop (length buf) buf [] in
    length (fst (urcs, set_urc (trim_urc rest) (set_env e m1))) <= MAX_URC_LINES /\
    Forall urc_ok (fst (urcs, set_urc (trim_urc rest) (set_env e m1)))) as Hp.
  { intros buf. rewrite urc_loop_full_spec. cbn [fst]. rewrite length_take. split; [lia|].
    apply Forall_take, urc_reports_ok. }
  destruct err; try (split; [simpl; lia|constructor]).
  - destruct bytes as [|c bytes].
    + specialize (Hp (urc_rx_buffer_ (set_env e m1))). by destruct (urc_loop _ _ _).
    + specialize (Hp (fs_cat URC_RX_BUFFER_MAX (urc_rx_buffer_ (set_env e m1)) (c :: bytes))).
      by destruct (urc_loop _ _ _).
  - specialize (Hp (urc_rx_buffer_ (set_env e m1))). by destruct (urc_loop _ _ _).
Qed.

#[export] Instance ModemController_ControllerLaws : ControllerLaws (ModemController E).
Proof.
  split.
  - intros cmd r t retry c r' c' He. pose proof (send_raw_result_ok cmd r t retry c) as [Hs _].
    cbn in He. rewrite He in Hs. by apply Hs.
  - intros cmd r t retry c st r' c' He. pose proof (send_raw_result_ok cmd r t retry c) as [_ Hs].
    cbn in He. by rewrite He in Hs.
  - intros t c urcs c' He. pose proof (poll_urc_ok t c) as Hs. cbn in He. by rewrite He in Hs.
Qed.

End Facts.
