(* ===== verification/Uart.v ===== *)
(** * Serial drivers (include/hal/uart_interface.h, src/hal/posix_uart.cpp,
      src/hal/win32_uart.cpp, src/hal/zephyr_uart.cpp)

    The operating system's calls are parameters, one class per system with the
    documented behaviour of its calls as laws; the drivers are what the sources
    make of them.  [UartDriver] is [UartInterface]; its laws are what the modem
    controller relies on ([PlatformLaws]). *)

From S2P Require Import Prelude CLib Layout FixedString StaticVector AtCommand Timer ModemController.

(** ** The interface *)

Class UartDriver (D : Type) := {
  drv_open : str -> UartConfig -> D -> UartError * D;
  drv_close : D -> D;
  drv_is_open : D -> bool;
  drv_write : str -> D -> Outcome (UartError * D);
  drv_read : nat -> Z -> D -> Outcome (UartError * str * D);
  (** The bytes handed to the line so far. *)
  line_out : D -> str }.

Class UartDriverLaws (D : Type) `{UartDriver D} : Prop := {
  drv_closed d : drv_is_open (drv_close d) = false;
  drv_closed_write s d : drv_is_open d = false -> drv_write s d = Done (UartError_port_not_open, d);
  drv_open_ok port cfg d : fst (drv_open port cfg d) = UartError_ok -> drv_is_open (snd (drv_open port cfg d)) = true;
  drv_open_failed port cfg d :
    fst (drv_open port cfg d) <> UartError_ok -> drv_is_open (snd (drv_open port cfg d)) = false;
  drv_write_ok s d d' : (Z.of_nat (length s) < 2 ^ 32)%Z ->
    drv_write s d = Done (UartError_ok, d') -> line_out d' = line_out d ++ s;
  drv_read_bounded n t d e bytes d' : drv_read n t d = Done (e, bytes, d') -> length bytes <= n;
  drv_read_ok n t d bytes d' : drv_read n t d = Done (UartError_ok, bytes, d') -> bytes <> [];
  drv_read_quiet n t d e bytes d' : drv_read n t d = Done (e, bytes, d') -> line_out d' = line_out d }.

(** [x & ~mask]. *)
Definition without (x mask : Z) : Z := Z.land x (Z.lnot mask).

(** ** POSIX *)

Module PosixUart.

(** Flags of <termios.h> and <fcntl.h>, with their Linux values. *)
Definition O_RDWR : Z := 2.
Definition O_NOCTTY : Z := 256.
Definition O_NONBLOCK : Z := 2048.
Definition CSIZE : Z := 48.
Definition CS5 : Z := 0.
Definition CS6 : Z := 16.
Definition CS7 : Z := 32.
Definition CS8 : Z := 48.
Definition CSTOPB : Z := 64.
Definition CREAD : Z := 128.
Definition PARENB : Z := 256.
Definition CLOCAL : Z := 2048.
Definition CRTSCTS : Z := 2147483648.
Definition ICANON : Z := 2.
Definition ECHO : Z := 8.
Definition ECHOE : Z := 16.
Definition ISIG : Z := 1.
Definition IXON : Z := 1024.
Definition IXOFF : Z := 4096.
Definition IXANY : Z := 2048.
Definition IGNBRK : Z := 1.
Definition BRKINT : Z := 2.
Definition PARMRK : Z := 8.
Definition ISTRIP : Z := 32.
Definition INLCR : Z := 64.
Definition IGNCR : Z := 128.
Definition ICRNL : Z := 256.
Definition OPOST : Z := 1.

(** [struct termios]; a speed is the baud rate its constant stands for. *)
Record termios := mkTermios {
  c_iflag : Z; c_oflag : Z; c_cflag : Z; c_lflag : Z; c_vmin : Z; c_vtime : Z; ispeed : Z; ospeed : Z }.

(** The system calls the driver makes, on the state [E] of the system.  A count
    below zero is a failure; [write] also gives whether [errno] is [EINTR]. *)
Class PosixOs (E : Type) := {
  sys_open : str -> Z -> E -> Z * E;
  sys_close : Z -> E -> E;
  fcntl_getfl : Z -> E -> Z;
  fcntl_setfl : Z -> Z -> E -> E;
  tcgetattr : Z -> E -> Z * termios;
  tcsetattr : Z -> termios -> E -> Z * E;
  tcflush : Z -> E -> E;
  sys_write : Z -> str -> E -> Z * bool * E;
  sys_select : Z -> Z -> Z -> E -> Z * E;
  sys_read : Z -> nat -> E -> Z * str * E;
  (** The bytes the line has accepted, and a bound on the calls still to be
      interrupted or to accept nothing. *)
  os_sent : E -> str;
  os_stalls : E -> nat }.

Class PosixOsLaws (E : Type) `{PosixOs E} : Prop := {
  write_sent fd s e n i e' : sys_write fd s e = (n, i, e') ->
    os_sent e' = os_sent e ++ take (Z.to_nat n) s /\ (n <= Z.of_nat (length s))%Z /\
    os_stalls e' <= os_stalls e /\ ((n = 0 \/ n < 0 /\ i = true)%Z -> os_stalls e' < os_stalls e);
  read_count fd k e n s e' : sys_read fd k e = (n, s, e') ->
    (0 <= n)%Z -> n = Z.of_nat (length s) /\ length s <= k;
  read_sent fd k e : os_sent (snd (sys_read fd k e)) = os_sent e;
  select_sent fd sec usec e : os_sent (snd (sys_select fd sec usec e)) = os_sent e }.

Definition to_baud (baud_rate : Z) : Z :=
  match baud_rate with
  | 9600 => 9600 | 19200 => 19200 | 38400 => 38400 | 57600 => 57600 | 115200 => 115200
  | 230400 => 230400 | 460800 => 460800 | 921600 => 921600
  | _ => 115200
  end%Z.

(** The settings [open] computes. *)
Definition configure (config : UartConfig) (tty : termios) : termios :=
  let baud := to_baud (baud_rate config) in
  let cflag := without (c_cflag tty) CSIZE in
  let cflag := Z.lor cflag (match data_bits config with 5 => CS5 | 6 => CS6 | 7 => CS7 | _ => CS8 end)%Z in
  let cflag := if (stop_bits config =? 2)%Z then Z.lor cflag CSTOPB else without cflag CSTOPB in
  let cflag := without cflag PARENB in
  let cflag := Z.lor cflag (Z.lor CLOCAL CREAD) in
  let cflag := without cflag CRTSCTS in
  let lflag := without (c_lflag tty) (Z.lor (Z.lor (Z.lor ICANON ECHO) ECHOE) ISIG) in
  let iflag := without (c_iflag tty) (Z.lor (Z.lor IXON IXOFF) IXANY) in
  let iflag := without iflag
    (Z.lor (Z.lor (Z.lor (Z.lor (Z.lor (Z.lor IGNBRK BRKINT) PARMRK) ISTRIP) INLCR) IGNCR) ICRNL) in
  let oflag := without (c_oflag tty) OPOST in
  mkTermios iflag oflag cflag lflag 0 (u8 (uart_timeout_ms config / 100)) baud baud.

Section Posix.
Context {E : Type} {HE : PosixOs E}.
(** Bound on the rounds of the write loop. *)
Variable fuel : nat.

Record PosixUart := mkUart { fd_ : Z; os : E }.

Definition init (e : E) : PosixUart := mkUart (-1) e.

Definition do_close (d : PosixUart) : PosixUart :=
  if (0 <=? fd_ d)%Z then mkUart (-1) (sys_close (fd_ d) (os d)) else d.
Definition close : PosixUart -> PosixUart := do_close.
Definition is_open (d : PosixUart) : bool := (0 <=? fd_ d)%Z.

Definition open (port : str) (config : UartConfig) (d : PosixUart) : UartError * PosixUart :=
  let d := if (0 <=? fd_ d)%Z then close d else d in
  let '(fd, e) := sys_open port (Z.lor (Z.lor O_RDWR O_NOCTTY) O_NONBLOCK) (os d) in
  let d := mkUart fd e in
  if (fd <? 0)%Z then (UartError_invalid_config, d)
  else
    let flags := fcntl_getfl fd e in
    let e := fcntl_setfl fd (without flags O_NONBLOCK) e in
    let '(r, tty) := tcgetattr fd e in
    if negb (r =? 0)%Z then (UartError_invalid_config, close (mkUart fd e))
    else
      let '(r, e) := tcsetattr fd (configure config tty) e in
      if negb (r =? 0)%Z then (UartError_invalid_config, close (mkUart fd e))
      else (UartError_ok, mkUart fd (tcflush fd e)).

(** [while (total_written < length)], on what is left to write. *)
Fixpoint write_loop (fuel : nat) (fd : Z) (data : str) (e : E) : Outcome (UartError * E) :=
  match data with
  | [] => Done (UartError_ok, e)
  | _ =>
      match fuel with
      | 0 => NoFuel
      | S fuel' =>
          let '(n, eintr, e) := sys_write fd data e in
          if (n <? 0)%Z
          then if eintr : bool then write_loop fuel' fd data e else Done (UartError_write_failed, e)
          else write_loop fuel' fd (drop (Z.to_nat n) data) e
      end
  end.

Definition write (data : str) (d : PosixUart) : Outcome (UartError * PosixUart) :=
  if (fd_ d <? 0)%Z then Done (UartError_port_not_open, d)
  else match write_loop fuel (fd_ d) data (os d) with
       | Done (r, e) => Done (r, mkUart (fd_ d) e)
       | Undef => Undef
       | NoFuel => NoFuel
       end.

Definition read (buffer_size : nat) (timeout_ms : Z) (d : PosixUart) : UartError * str * PosixUart :=
  if (fd_ d <? 0)%Z then (UartError_port_not_open, [], d)
  else
    let '(ret, e) := sys_select (fd_ d) (timeout_ms / 1000) (timeout_ms mod 1000 * 1000) (os d) in
    if (ret <? 0)%Z then (UartError_read_failed, [], mkUart (fd_ d) e)
    else if (ret =? 0)%Z then (UartError_timeout, [], mkUart (fd_ d) e)
    else
      let '(n, bytes, e) := sys_read (fd_ d) buffer_size e in
      let d := mkUart (fd_ d) e in
      if (n <? 0)%Z then (UartError_read_failed, [], d)
      else if (n =? 0)%Z then (UartError_timeout, [], d)
      else (UartError_ok, bytes, d).

#[global] Instance posix_uart : UartDriver PosixUart := {
  drv_open := open; drv_close := close; drv_is_open := is_open;
  drv_write := write; drv_read n t d := Done (read n t d); line_out d := os_sent (os d) }.

Context {HL : PosixOsLaws E}.

Lemma write_loop_sent fd : forall k data e r e',
  write_loop k fd data e = Done (r, e') -> r = UartError_ok -> os_sent e' = os_sent e ++ data.
Proof using HL.
  induction k as [|k IH]; intros [|c data] e r e'; cbn [write_loop]; try (intros [= <- <-] _; by rewrite app_nil_r).
  destruct (sys_write fd (c :: data) e) as [[n i] e1] eqn:Ew.
  destruct (write_sent _ _ _ _ _ _ Ew) as (Hs & Hn & _ & _).
  destruct (n <? 0)%Z eqn:En; bool_facts.
  - destruct i; [|by intros [= <- <-]]. intros Hk Hr. rewrite (IH _ _ _ _ Hk Hr), Hs.
    replace (Z.to_nat n) with 0 by lia. by rewrite firstn_O, app_nil_r.
  - intros Hk Hr. rewrite (IH _ _ _ _ Hk Hr), Hs, <- app_assoc. by rewrite take_drop.
Qed.

(** Every call of [write] accepts bytes or uses up a stall. *)
Lemma write_loop_ends fd : forall k data e,
  length data + os_stalls e < k -> exists r e', write_loop k fd data e = Done (r, e').
Proof using HL.
  induction k as [|k IH]; intros [|c data] e Hk; cbn [write_loop]; try by eauto.
  { lia. }
  destruct (sys_write fd (c :: data) e) as [[n i] e1] eqn:Ew.
  destruct (write_sent _ _ _ _ _ _ Ew) as (_ & Hn & Hst & Hst').
  destruct (n <? 0)%Z eqn:En; bool_facts.
  - destruct i; [|by eauto]. apply IH. specialize (Hst' ltac:(by right)). cbn [length] in *. lia.
  - apply IH. rewrite length_drop. destruct (decide (n = 0%Z)) as [->|Hne].
    + specialize (Hst' ltac:(by left)). cbn [length] in *. lia.
    + cbn [length] in *. lia.
Qed.

Lemma posix_close_closed d : is_open (close d) = false.
Proof. unfold is_open, close, do_close. by destruct (0 <=? fd_ d)%Z eqn:Eo. Qed.

Lemma posix_open_is_open port cfg d :
  is_open (snd (open port cfg d)) = bool_decide (fst (open port cfg d) = UartError_ok).
Proof.
  unfold open. set (d0 := if (0 <=? fd_ d)%Z then close d else d).
  destruct (sys_open port _ (os d0)) as [fd e]. destruct (fd <? 0)%Z eqn:Ef; bool_facts.
  { unfold is_open. cbn. by apply Z.leb_gt. }
  destruct (tcgetattr fd _) as [r tty]. destruct (r =? 0)%Z; cbn [negb]; [|apply posix_close_closed].
  destruct (tcsetattr fd _ _) as [r' e']. destruct (r' =? 0)%Z; cbn [negb]; [|apply posix_close_closed].
  unfold is_open. cbn. by apply Z.leb_le.
Qed.

Lemma posix_read_cases n t d e bytes d' :
  read n t d = (e, bytes, d') ->
  os_sent (os d') = os_sent (os d) /\ length bytes <= n /\ (e = UartError_ok -> bytes <> []).
Proof using HL.
  unfold read. destruct (fd_ d <? 0)%Z; [intros [= <- <- <-]; simpl; split; [done|split; [lia|done]]|].
  pose proof (select_sent (fd_ d) (t / 1000) (t mod 1000 * 1000) (os d)) as Hs.
  destruct (sys_select _ _ _ _) as [ret e1]. cbn [snd] in Hs.
  destruct (ret <? 0)%Z; [intros [= <- <- <-]; simpl; split; [done|split; [lia|done]]|].
  destruct (ret =? 0)%Z; [intros [= <- <- <-]; simpl; split; [done|split; [lia|done]]|].
  pose proof (read_sent (fd_ d) n e1) as Hr. destruct (sys_read (fd_ d) n e1) as [[k s] e2] eqn:Er. cbn [snd] in Hr.
  destruct (k <? 0)%Z eqn:Ek; bool_facts; [intros [= <- <- <-]; simpl; split; [congruence|split; [lia|done]]|].
  destruct (read_count _ _ _ _ _ _ Er Ek) as [Hk Hn].
  destruct (k =? 0)%Z eqn:E0; bool_facts; intros [= <- <- <-]; simpl; (split; [congruence|split; [lia|]]); [done|].
  intros _ ->. simpl in Hk. lia.
Qed.

#[global] Instance posix_uart_laws : UartDriverLaws PosixUart.
Proof using HL.
  split; cbn [drv_open drv_close drv_is_open drv_write drv_read line_out posix_uart].
  - apply posix_close_closed.
  - unfold is_open, write. intros s d Hd. bool_facts. replace (fd_ d <? 0)%Z with true; [done|].
    symmetry. by apply Z.ltb_lt.
  - intros port cfg d Ho. rewrite posix_open_is_open. by apply bool_decide_eq_true.
  - intros port cfg d Ho. rewrite posix_open_is_open. by apply bool_decide_eq_false.
  - unfold write. intros s d d' _. destruct (fd_ d <? 0)%Z; [done|].
    destruct (write_loop fuel (fd_ d) s (os d)) as [[r e]| |] eqn:Ew; try done. intros [= -> <-].
    exact (write_loop_sent _ _ _ _ _ _ Ew eq_refl).
  - intros n t d e bytes d' [= H]. by apply (posix_read_cases _ _ _ _ _ _ H).
  - intros n t d bytes d' [= H]. by apply (posix_read_cases _ _ _ _ _ _ H).
  - intros n t d e bytes d' [= H]. by apply (posix_read_cases _ _ _ _ _ _ H).
Qed.

End Posix.

Arguments PosixUart : clear implicits.

End PosixUart.

(** ** Win32 *)

Module Win32Uart.

(** The members of [DCB] the driver sets; the others ([dcb_rest]) are kept. *)
Record DCB := mkDCB {
  BaudRate : Z; ByteSize : Z; StopBits : Z; Parity : Z; fBinary : bool; fParity : bool; fOutxCtsFlow : bool;
  fOutxDsrFlow : bool; fDtrControl : Z; fRtsControl : Z; fOutX : bool; fInX : bool; dcb_rest : str }.

Definition ONESTOPBIT : Z := 0.
Definition TWOSTOPBITS : Z := 2.
Definition NOPARITY : Z := 0.
Definition DTR_CONTROL_ENABLE : Z := 1.
Definition RTS_CONTROL_ENABLE : Z := 1.

Record COMMTIMEOUTS := mkTimeouts {
  ReadIntervalTimeout : Z; ReadTotalTimeoutMultiplier : Z; ReadTotalTimeoutConstant : Z;
  WriteTotalTimeoutMultiplier : Z; WriteTotalTimeoutConstant : Z }.

(** A handle is a number; [None] is [INVALID_HANDLE_VALUE]. *)
Class Win32Os (E : Type) := {
  CreateFileA : str -> E -> option Z * E;
  CloseHandle : Z -> E -> E;
  GetCommState : Z -> E -> option DCB;
  SetCommState : Z -> DCB -> E -> bool * E;
  GetCommTimeouts : Z -> E -> option COMMTIMEOUTS;
  SetCommTimeouts : Z -> COMMTIMEOUTS -> E -> bool * E;
  PurgeComm : Z -> E -> E;
  WriteFile : Z -> str -> E -> bool * Z * E;
  ReadFile : Z -> nat -> E -> bool * str * E;
  os_sent : E -> str }.

Class Win32OsLaws (E : Type) `{Win32Os E} : Prop := {
  write_sent h s e ok n e' : WriteFile h s e = (ok, n, e') ->
    os_sent e' = os_sent e ++ take (Z.to_nat n) s;
  read_count h k e ok s e' : ReadFile h k e = (ok, s, e') -> length s <= k /\ os_sent e' = os_sent e;
  timeouts_sent h t e : os_sent (snd (SetCommTimeouts h t e)) = os_sent e }.

(** [static_cast<DWORD>]. *)
Definition DWORD (n : nat) : nat := Z.to_nat (u32 (Z.of_nat n)).

Section Win32.
Context {E : Type} {HE : Win32Os E}.

Record Win32Uart := mkUart { handle_ : option Z; os : E }.

Definition init (e : E) : Win32Uart := mkUart None e.

Definition do_close (d : Win32Uart) : Win32Uart :=
  match handle_ d with Some h => mkUart None (CloseHandle h (os d)) | None => d end.
Definition close : Win32Uart -> Win32Uart := do_close.
Definition is_open (d : Win32Uart) : bool := bool_decide (handle_ d <> None).

Definition configure (config : UartConfig) (dcb : DCB) : DCB :=
  mkDCB (baud_rate config) (data_bits config) (if (stop_bits config =? 2)%Z then TWOSTOPBITS else ONESTOPBIT)
    NOPARITY true false false false DTR_CONTROL_ENABLE RTS_CONTROL_ENABLE false false (dcb_rest dcb).

Definition open (port : str) (config : UartConfig) (d : Win32Uart) : UartError * Win32Uart :=
  let d := match handle_ d with Some _ => close d | None => d end in
  let full_path := lit "\\.\" ++ port in
  let '(handle, e) := CreateFileA full_path (os d) in
  match handle with
  | None => (UartError_invalid_config, mkUart None e)
  | Some h =>
      match GetCommState h e with
      | None => (UartError_invalid_config, close (mkUart (Some h) e))
      | Some dcb =>
          let '(ok, e) := SetCommState h (configure config dcb) e in
          if negb ok then (UartError_invalid_config, close (mkUart (Some h) e))
          else
            let '(ok, e) := SetCommTimeouts h (mkTimeouts 50 0 (uart_timeout_ms config) 0 (uart_timeout_ms config)) e in
            if negb ok then (UartError_invalid_config, close (mkUart (Some h) e))
            else (UartError_ok, mkUart (Some h) (PurgeComm h e))
      end
  end.

Definition write (data : str) (d : Win32Uart) : UartError * Win32Uart :=
  match handle_ d with
  | None => (UartError_port_not_open, d)
  | Some h =>
      let '(ok, bytes_written, e) := WriteFile h (take (DWORD (length data)) data) (os d) in
      let d := mkUart (Some h) e in
      if negb ok then (UartError_write_failed, d)
      else if negb (bytes_written =? Z.of_nat (DWORD (length data)))%Z then (UartError_write_failed, d)
      else (UartError_ok, d)
  end.

Definition read (buffer_size : nat) (timeout_ms : Z) (d : Win32Uart) : UartError * str * Win32Uart :=
  match handle_ d with
  | None => (UartError_port_not_open, [], d)
  | Some h =>
      match GetCommTimeouts h (os d) with
      | None => (UartError_read_failed, [], d)
      | Some t =>
          let e := if negb (ReadTotalTimeoutConstant t =? timeout_ms)%Z
                   then snd (SetCommTimeouts h (mkTimeouts (ReadIntervalTimeout t) (ReadTotalTimeoutMultiplier t) timeout_ms
                                                  (WriteTotalTimeoutMultiplier t) (WriteTotalTimeoutConstant t)) (os d))
                   else os d in
          let '(ok, bytes, e) := ReadFile h (DWORD buffer_size) e in
          let d := mkUart (Some h) e in
          if negb ok then (UartError_read_failed, [], d)
          else if length bytes =? 0 then (UartError_timeout, [], d)
          else (UartError_ok, bytes, d)
      end
  end.

#[global] Instance win32_uart : UartDriver Win32Uart := {
  drv_open := open; drv_close := close; drv_is_open := is_open;
  drv_write s d := Done (write s d); drv_read n t d := Done (read n t d); line_out d := os_sent (os d) }.

Context {HL : Win32OsLaws E}.

Lemma win32_close_closed d : is_open (close d) = false.
Proof. unfold is_open, close, do_close. by destruct (handle_ d) eqn:Eh; rewrite ?Eh. Qed.

Lemma win32_open_is_open port cfg d :
  is_open (snd (open port cfg d)) = bool_decide (fst (open port cfg d) = UartError_ok).
Proof.
  unfold open. set (d0 := match handle_ d with Some _ => close d | None => d end).
  destruct (CreateFileA _ (os d0)) as [[h|] e]; [|done].
  destruct (GetCommState h e) as [dcb|]; [|apply win32_close_closed].
  destruct (SetCommState h _ e) as [[] e1]; cbn [negb]; [|apply win32_close_closed].
  destruct (SetCommTimeouts h _ e1) as [[] e2]; cbn [negb]; [|apply win32_close_closed]. done.
Qed.

Lemma DWORD_small n : (Z.of_nat n < 2 ^ 32)%Z -> DWORD n = n.
Proof. intros Hn. unfold DWORD, u32. rewrite Z.mod_small by lia. lia. Qed.

Lemma DWORD_le n : DWORD n <= n.
Proof. unfold DWORD, u32. pose proof (Z.mod_le (Z.of_nat n) (2 ^ 32)). lia. Qed.

Lemma win32_read_cases n t d e bytes d' :
  read n t d = (e, bytes, d') ->
  os_sent (os d') = os_sent (os d) /\ length bytes <= n /\ (e = UartError_ok -> bytes <> []).
Proof using HL.
  unfold read. destruct (handle_ d) as [h|]; [|intros [= <- <- <-]; simpl; split; [done|split; [lia|done]]].
  destruct (GetCommTimeouts h (os d)) as [tm|]; [|intros [= <- <- <-]; simpl; split; [done|split; [lia|done]]].
  set (e1 := if negb _ then _ else _). assert (os_sent e1 = os_sent (os d)) as He.
  { unfold e1. destruct (negb _); [apply timeouts_sent|done]. }
  destruct (ReadFile h (DWORD n) e1) as [[ok s] e2] eqn:Er.
  destruct (read_count _ _ _ _ _ _ Er) as [Hs Hsent]. pose proof (DWORD_le n).
  destruct ok; cbn [negb]; [|intros [= <- <- <-]; simpl; split; [congruence|split; [lia|done]]].
  destruct (length s =? 0) eqn:E0; bool_facts; intros [= <- <- <-]; simpl; (split; [congruence|split; [lia|]]); [done|].
  by intros _ ->.
Qed.

#[global] Instance win32_uart_laws : UartDriverLaws Win32Uart.
Proof using HL.
  split; cbn [drv_open drv_close drv_is_open drv_write drv_read line_out win32_uart].
  - apply win32_close_closed.
  - unfold is_open, write. intros s d Hd. by destruct (handle_ d).
  - intros port cfg d Ho. rewrite win32_open_is_open. by apply bool_decide_eq_true.
  - intros port cfg d Ho. rewrite win32_open_is_open. by apply bool_decide_eq_false.
  - unfold write. intros s d d' Hs. destruct (handle_ d) as [h|]; [|done]. rewrite DWORD_small, firstn_all by done.
    destruct (WriteFile h s (os d)) as [[ok k] e] eqn:Ew. pose proof (write_sent _ _ _ _ _ _ Ew) as Hw.
    destruct ok; cbn [negb]; [|done]. destruct (k =? Z.of_nat (length s))%Z eqn:Ek; cbn [negb]; [|done].
    bool_facts. subst k. intros [= <-]. by rewrite Nat2Z.id, firstn_all in Hw.
  - intros n t d e bytes d' [= H]. by apply (win32_read_cases _ _ _ _ _ _ H).
  - intros n t d bytes d' [= H]. by apply (win32_read_cases _ _ _ _ _ _ H).
  - intros n t d e bytes d' [= H]. by apply (win32_read_cases _ _ _ _ _ _ H).
Qed.

End Win32.

Arguments Win32Uart : clear implicits.

End Win32Uart.

(** ** Zephyr *)

Module ZephyrUart.

Inductive DataBits := UART_CFG_DATA_BITS_5 | UART_CFG_DATA_BITS_6 | UART_CFG_DATA_BITS_7 | UART_CFG_DATA_BITS_8.
Inductive ZStopBits := UART_CFG_STOP_BITS_1 | UART_CFG_STOP_BITS_2.
Inductive ZParity := UART_CFG_PARITY_NONE.
Inductive FlowCtrl := UART_CFG_FLOW_CTRL_NONE.

Record uart_config := mkUartCfg {
  baudrate : Z; cfg_data_bits : DataBits; cfg_stop_bits : ZStopBits; cfg_parity : ZParity; flow_ctrl : FlowCtrl }.

(** The device API; a device is a number, [None] is the null pointer. *)
Class ZephyrOs (E : Type) := {
  z_time :: KTime E;
  device_get_binding : str -> E -> option Z;
  uart_configure : Z -> uart_config -> E -> Z * E;
  uart_poll_out : Z -> ascii -> E -> E;
  uart_poll_in : Z -> E -> Z * ascii * E;
  os_sent : E -> str }.

Class ZephyrOsLaws (E : Type) `{ZephyrOs E} : Prop := {
  z_time_laws :: KTimeLaws E;
  poll_out_sent dev c e : os_sent (uart_poll_out dev c e) = os_sent e ++ [c];
  poll_in_sent dev e : os_sent (snd (uart_poll_in dev e)) = os_sent e;
  poll_in_time dev e : (k_uptime_get e <= k_uptime_get (snd (uart_poll_in dev e)))%Z;
  sleep_sent ms e : os_sent (k_sleep ms e) = os_sent e }.

Section Zephyr.
Context {E : Type} {HE : ZephyrOs E}.
(** Bound on the rounds of the read loop. *)
Variable fuel : nat.

Record ZephyrUart := mkUart { dev_ : option Z; os : E }.

Definition init (e : E) : ZephyrUart := mkUart None e.

Definition close (d : ZephyrUart) : ZephyrUart := mkUart None (os d).
Definition is_open (d : ZephyrUart) : bool := bool_decide (dev_ d <> None).

Definition configure (config : UartConfig) : uart_config :=
  mkUartCfg (baud_rate config)
    (match data_bits config with
     | 5 => UART_CFG_DATA_BITS_5 | 6 => UART_CFG_DATA_BITS_6 | 7 => UART_CFG_DATA_BITS_7
     | _ => UART_CFG_DATA_BITS_8
     end)%Z
    (if (stop_bits config =? 2)%Z then UART_CFG_STOP_BITS_2 else UART_CFG_STOP_BITS_1)
    UART_CFG_PARITY_NONE UART_CFG_FLOW_CTRL_NONE.

Definition open (port : str) (config : UartConfig) (d : ZephyrUart) : UartError * ZephyrUart :=
  let d := match dev_ d with Some _ => close d | None => d end in
  match device_get_binding port (os d) with
  | None => (UartError_invalid_config, mkUart None (os d))
  | Some dev =>
      let '(r, e) := uart_configure dev (configure config) (os d) in
      if negb (r =? 0)%Z then (UartError_invalid_config, mkUart None e)
      else (UartError_ok, mkUart (Some dev) e)
  end.

Definition write (data : str) (d : ZephyrUart) : UartError * ZephyrUart :=
  match dev_ d with
  | None => (UartError_port_not_open, d)
  | Some dev => (UartError_ok, mkUart (Some dev) (foldl (fun e c => uart_poll_out dev c e) (os d) data))
  end.

(** [while (bytes_read < buffer_size)]: [buffer] is what was read so far. *)
Fixpoint read_loop (fuel : nat) (dev : Z) (buffer_size : nat) (deadline : Z) (buffer : str) (e : E)
  : Outcome (str * E) :=
  if buffer_size <=? length buffer then Done (buffer, e)
  else match fuel with
       | 0 => NoFuel
       | S fuel' =>
           let '(ret, c, e) := uart_poll_in dev e in
           if (ret =? 0)%Z then read_loop fuel' dev buffer_size deadline (buffer ++ [c]) e
           else if (deadline <=? k_uptime_get e)%Z then Done (buffer, e)
           else read_loop fuel' dev buffer_size deadline buffer (k_sleep 1 e)
       end.

Definition read (buffer_size : nat) (timeout_ms : Z) (d : ZephyrUart) : Outcome (UartError * str * ZephyrUart) :=
  match dev_ d with
  | None => Done (UartError_port_not_open, [], d)
  | Some dev =>
      match read_loop fuel dev buffer_size (k_uptime_get (os d) + timeout_ms) [] (os d) with
      | Done (buffer, e) => Done (if length buffer =? 0 then UartError_timeout else UartError_ok, buffer, mkUart (Some dev) e)
      | Undef => Undef
      | NoFuel => NoFuel
      end
  end.

#[global] Instance zephyr_uart : UartDriver ZephyrUart := {
  drv_open := open; drv_close := close; drv_is_open := is_open;
  drv_write s d := Done (write s d); drv_read := read; line_out d := os_sent (os d) }.

Context {HL : ZephyrOsLaws E}.

(** What the loop returns: at most the buffer, and less only at the deadline. *)
Lemma read_loop_result dev n deadline : forall k buffer e s e',
  read_loop k dev n deadline buffer e = Done (s, e') -> length buffer <= n ->
  length s <= n /\ os_sent e' = os_sent e /\ (length s < n -> (deadline <= k_uptime_get e')%Z).
Proof using HL.
  induction k as [|k IH]; intros buffer e s e'; cbn [read_loop];
    (destruct (n <=? length buffer) eqn:En; bool_facts; [intros [= <- <-] ?; split; [done|split; [done|lia]]|]); [done|].
  pose proof (poll_in_sent dev e) as Hs. destruct (uart_poll_in dev e) as [[r c] e1]. cbn [snd] in Hs.
  destruct (r =? 0)%Z.
  - intros Hk _. destruct (IH _ _ _ _ Hk) as (H1 & H2 & H3); [rewrite length_app; simpl; lia|].
    split; [done|]. split; [congruence|done].
  - destruct (deadline <=? k_uptime_get e1)%Z eqn:Ed; bool_facts; [by intros [= <- <-] ?|].
    intros Hk Hb. destruct (IH _ _ _ _ Hk Hb) as (H1 & H2 & H3). split; [done|]. split; [|done].
    by rewrite H2, sleep_sent.
Qed.

(** Every round fills a byte or lets a millisecond pass. *)
Lemma read_loop_ends dev n deadline : forall k buffer e,
  (Z.of_nat (n - length buffer) + Z.max 0 (deadline - k_uptime_get e) < Z.of_nat k)%Z ->
  exists s e', read_loop k dev n deadline buffer e = Done (s, e').
Proof using HL.
  induction k as [|k IH]; intros buffer e Hk; [lia|]. cbn [read_loop].
  destruct (n <=? length buffer) eqn:En; bool_facts; [by eauto|].
  pose proof (poll_in_time dev e) as Ht. destruct (uart_poll_in dev e) as [[r c] e1]. cbn [snd] in Ht.
  destruct (r =? 0)%Z; [apply IH; rewrite length_app; simpl; lia|].
  destruct (deadline <=? k_uptime_get e1)%Z eqn:Ed; bool_facts; [by eauto|].
  apply IH. pose proof (sleep_advances 1 e1 ltac:(lia)). lia.
Qed.

Lemma poll_out_all dev s : forall e, os_sent (foldl (fun e c => uart_poll_out dev c e) e s) = os_sent e ++ s.
Proof using HL.
  induction s as [|c s IH]; intros e; [by rewrite app_nil_r|]. cbn [foldl]. by rewrite IH, poll_out_sent, <- app_assoc.
Qed.

Lemma zephyr_open_is_open port cfg d :
  is_open (snd (open port cfg d)) = bool_decide (fst (open port cfg d) = UartError_ok).
Proof.
  unfold open. set (d0 := match dev_ d with Some _ => close d | None => d end).
  destruct (device_get_binding port (os d0)) as [dev|]; [|done].
  destruct (uart_configure dev _ (os d0)) as [r e]. by destruct (r =? 0)%Z.
Qed.

Lemma zephyr_read_cases n t d e bytes d' :
  read n t d = Done (e, bytes, d') ->
  os_sent (os d') = os_sent (os d) /\ length bytes <= n /\ (e = UartError_ok -> bytes <> []).
Proof using HL.
  unfold read. destruct (dev_ d) as [dev|]; [|intros [= <- <- <-]; simpl; split; [done|split; [lia|done]]].
  destruct (read_loop _ _ _ _ _ _) as [[s e1]| |] eqn:El; try done. intros [= <- <- <-].
  destruct (read_loop_result _ _ _ _ _ _ _ _ El) as (H1 & H2 & _); [simpl; lia|]. split; [done|]. split; [done|].
  destruct (length s =? 0) eqn:E0; bool_facts; [done|]. by intros _ ->.
Qed.

#[global] Instance zephyr_uart_laws : UartDriverLaws ZephyrUart.
Proof using HL.
  split; cbn [drv_open drv_close drv_is_open drv_write drv_read line_out zephyr_uart].
  - done.
  - unfold is_open, write. intros s d Hd. by destruct (dev_ d).
  - intros port cfg d Ho. rewrite zephyr_open_is_open. by apply bool_decide_eq_true.
  - intros port cfg d Ho. rewrite zephyr_open_is_open. by apply bool_decide_eq_false.
  - unfold write. intros s d d' _. destruct (dev_ d) as [dev|]; [|done]. intros [= <-]. apply poll_out_all.
  - intros n t d e bytes d' H. by apply (zephyr_read_cases _ _ _ _ _ _ H).
  - intros n t d bytes d' H. by apply (zephyr_read_cases _ _ _ _ _ _ H).
  - intros n t d e bytes d' H. by apply (zephyr_read_cases _ _ _ _ _ _ H).
Qed.

End Zephyr.

Arguments ZephyrUart : clear implicits.

End ZephyrUart.

(** ** The drivers under the modem controller *)

#[global] Existing Instance ZephyrUart.z_time.

(** The rest of the platform: the timed mutex, the clock and the delay. *)
Class PlatformRest (D : Type) := {
  rest_lock_for : Z -> D -> bool * D;
  rest_unlock : D -> D;
  rest_now_ms : D -> Z;
  rest_delay_ms : Z -> D -> D }.

(** The controller's platform over a driver; a call that does not return is one
    that times out. *)
#[global] Instance driver_platform {D} `{UartDriver D} `{PlatformRest D} : Platform D := {
  uart_open := drv_open; uart_close := drv_close; uart_is_open := drv_is_open;
  uart_write s d := match drv_write s d with Done r => r | _ => (UartError_timeout, d) end;
  uart_read n t d := match drv_read n t d with Done r => r | _ => (UartError_timeout, [], d) end;
  lock_for := rest_lock_for; unlock := rest_unlock; now_ms := rest_now_ms; delay_ms := rest_delay_ms }.

Lemma driver_platform_laws {D} `{UartDriverLaws D} `{PlatformRest D} : PlatformLaws D.
Proof.
  split; cbn [uart_read driver_platform].
  - intros n t e err bytes e'. destruct (drv_read n t e) as [[[r b] d]| |] eqn:Er; intros [= <- <- <-]; simpl; try lia.
    exact (drv_read_bounded _ _ _ _ _ _ Er).
  - intros n t e bytes e'. destruct (drv_read n t e) as [[[r b] d]| |] eqn:Er; intros [= Hr Hb He]; subst; try done.
    exact (drv_read_ok _ _ _ _ _ Er).
Qed.

(** C33. The three serial drivers keep the contract the modem controller relies on:
    a closed port refuses a write and touches nothing, a failed [open] leaves the
    port closed, a write reported as [ok] has put exactly the given bytes on the
    line, a read stays within the buffer, is never [ok] with no bytes and sends
    nothing; so the controller's platform laws hold over each of them. *)
Theorem uart_drivers_meet_contract {E1 E2 E3} `{PosixUart.PosixOsLaws E1} `{Win32Uart.Win32OsLaws E2}
  `{ZephyrUart.ZephyrOsLaws E3} k1 k3
  `{PlatformRest (PosixUart.PosixUart E1)} `{PlatformRest (Win32Uart.Win32Uart E2)} `{PlatformRest (ZephyrUart.ZephyrUart E3)} :
  (UartDriverLaws (PosixUart.PosixUart E1) (H := PosixUart.posix_uart k1) /\
   PlatformLaws (PosixUart.PosixUart E1) (H := driver_platform (H := PosixUart.posix_uart k1))) /\
  (UartDriverLaws (Win32Uart.Win32Uart E2) /\ PlatformLaws (Win32Uart.Win32Uart E2)) /\
  (UartDriverLaws (ZephyrUart.ZephyrUart E3) (H := ZephyrUart.zephyr_uart k3) /\
   PlatformLaws (ZephyrUart.ZephyrUart E3) (H := driver_platform (H := ZephyrUart.zephyr_uart k3))).
Proof.
  pose proof (PosixUart.posix_uart_laws k1 (E := E1)). pose proof (Win32Uart.win32_uart_laws (E := E2)).
  pose proof (ZephyrUart.zephyr_uart_laws k3 (E := E3)).
  split; [|split]; (split; [done|by apply driver_platform_laws]).
Qed.

(** The POSIX write loop returns and delivers: on an open port, with a number of
    rounds above the bytes to write plus the calls that are interrupted or accept
    nothing, it ends, either with every byte on the line in order or with
    [write_failed]. *)
Theorem posix_write_completes {E} `{PosixUart.PosixOsLaws E} fuel data (d : PosixUart.PosixUart E) :
  PosixUart.is_open d = true -> length data + PosixUart.os_stalls (PosixUart.os d) < fuel ->
  exists r d', PosixUart.write fuel data d = Done (r, d') /\ PosixUart.fd_ d' = PosixUart.fd_ d /\
    (r = UartError_ok -> PosixUart.os_sent (PosixUart.os d') = PosixUart.os_sent (PosixUart.os d) ++ data).
Proof.
  unfold PosixUart.is_open, PosixUart.write. intros Ho Hf. bool_facts.
  replace (PosixUart.fd_ d <? 0)%Z with false by (symmetry; by apply Z.ltb_ge).
  destruct (PosixUart.write_loop_ends (PosixUart.fd_ d) fuel data (PosixUart.os d) Hf) as (r & e' & Ew). rewrite Ew.
  exists r, (PosixUart.mkUart (PosixUart.fd_ d) e'). split; [done|]. split; [done|].
  exact (PosixUart.write_loop_sent _ _ _ _ _ _ Ew).
Qed.

(** The Zephyr read always ends, and never early: with rounds for the buffer and
    the timeout, it returns, and unless the whole buffer was filled it returns only
    when [timeout_ms] have passed, even when the reply of the modem was complete
    long before. *)
Theorem zephyr_read_takes_whole_timeout {E} `{ZephyrUart.ZephyrOsLaws E} fuel n timeout_ms (d : ZephyrUart.ZephyrUart E) :
  ZephyrUart.is_open d = true -> (0 <= timeout_ms)%Z -> (Z.of_nat n + timeout_ms < Z.of_nat fuel)%Z ->
  exists e bytes d', ZephyrUart.read fuel n timeout_ms d = Done (e, bytes, d') /\
    (length bytes < n -> (k_uptime_get (ZephyrUart.os d) + timeout_ms <= k_uptime_get (ZephyrUart.os d'))%Z).
Proof.
  unfold ZephyrUart.is_open, ZephyrUart.read. intros Ho Ht Hf. destruct (ZephyrUart.dev_ d) as [dev|]; [|done].
  destruct (ZephyrUart.read_loop_ends dev n (k_uptime_get (ZephyrUart.os d) + timeout_ms) fuel [] (ZephyrUart.os d))
    as (s & e' & Er); [simpl; lia|]. rewrite Er.
  do 3 eexists. split; [done|]. cbn [ZephyrUart.os].
  apply (ZephyrUart.read_loop_result _ _ _ _ _ _ _ _ Er). simpl. lia.
Qed.

(** ** A wire, for examples: bytes to come, bytes sent, a clock *)

Module Wire.

Record Wire := mkWire { wire_in : str; wire_out : str; clock : Z }.

Definition put (s : str) (w : Wire) : Wire := mkWire (wire_in w) (wire_out w ++ s) (clock w).
Definition get (n : nat) (w : Wire) : str * Wire := (take n (wire_in w), mkWire (drop n (wire_in w)) (wire_out w) (clock w)).
Definition raw_tty : PosixUart.termios := PosixUart.mkTermios 0 0 0 0 0 0 0 0.
Definition raw_dcb : Win32Uart.DCB := Win32Uart.mkDCB 0 0 0 0 false false false false 0 0 false false [].

(** At most four bytes go out at a time. *)
#[global] Instance wire_posix : PosixUart.PosixOs Wire := {|
  PosixUart.sys_open _ _ w := (3%Z, w); PosixUart.sys_close _ w := w; PosixUart.fcntl_getfl _ _ := 0%Z;
  PosixUart.fcntl_setfl _ _ w := w; PosixUart.tcgetattr _ _ := (0%Z, raw_tty); PosixUart.tcsetattr _ _ w := (0%Z, w);
  PosixUart.tcflush _ w := w;
  PosixUart.sys_write _ s w := if length s =? 0 then ((-1)%Z, false, w) else (Z.of_nat (length s `min` 4), false, put (take 4 s) w);
  PosixUart.sys_select _ _ _ w := (if length (wire_in w) =? 0 then 0%Z else 1%Z, w);
  PosixUart.sys_read _ n w := let '(s, w') := get n w in (Z.of_nat (length s), s, w');
  PosixUart.os_sent := wire_out; PosixUart.os_stalls _ := 0 |}.

#[global] Instance wire_posix_laws : PosixUart.PosixOsLaws Wire.
Proof.
  split; cbn.
  - intros fd s e n i e'. destruct (length s =? 0) eqn:E0; bool_facts; intros [= <- <- <-]; cbn.
    + rewrite app_nil_r. split; [done|]. split; [lia|]. split; [lia|]. intros [?|[_ ?]]; [lia|done].
    + rewrite Nat2Z.id. split; [|split; [lia|split; [lia|intros [?|[? _]]; lia]]].
      f_equal. destruct (decide (length s <= 4)).
      * rewrite !take_ge by lia. done.
      * f_equal. lia.
  - intros fd k e n s e' [= <- <- <-] _. split; [done|]. rewrite length_take. lia.
  - done.
  - done.
Qed.

#[global] Instance wire_win32 : Win32Uart.Win32Os Wire := {|
  Win32Uart.CreateFileA _ w := (Some 1%Z, w); Win32Uart.CloseHandle _ w := w;
  Win32Uart.GetCommState _ _ := Some raw_dcb; Win32Uart.SetCommState _ _ w := (true, w);
  Win32Uart.GetCommTimeouts _ _ := Some (Win32Uart.mkTimeouts 0 0 0 0 0); Win32Uart.SetCommTimeouts _ _ w := (true, w);
  Win32Uart.PurgeComm _ w := w; Win32Uart.WriteFile _ s w := (true, Z.of_nat (length s), put s w);
  Win32Uart.ReadFile _ n w := let '(s, w') := get n w in (true, s, w'); Win32Uart.os_sent := wire_out |}.

#[global] Instance wire_win32_laws : Win32Uart.Win32OsLaws Wire.
Proof.
  split; cbn; [|intros h k e ok s e' [= <- <- <-]; rewrite length_take; split; [lia|done]|done].
  intros h s e ok n e' [= <- <- <-]. by rewrite Nat2Z.id, firstn_all.
Qed.

#[global] Instance wire_time : KTime Wire := {|
  k_uptime_get := clock; k_sleep ms w := mkWire (wire_in w) (wire_out w) (clock w + ms) |}.

#[global] Instance wire_zephyr : ZephyrUart.ZephyrOs Wire := {|
  ZephyrUart.device_get_binding _ _ := Some 1%Z; ZephyrUart.uart_configure _ _ w := (0%Z, w);
  ZephyrUart.uart_poll_out _ c w := put [c] w;
  ZephyrUart.uart_poll_in _ w := match wire_in w with
                      | [] => ((-1)%Z, NUL, w)
                      | c :: s => (0%Z, c, mkWire s (wire_out w) (clock w))
                      end;
  ZephyrUart.os_sent := wire_out |}.

#[global] Instance wire_zephyr_laws : ZephyrUart.ZephyrOsLaws Wire.
Proof.
  split; cbn; try done; intros dev e; by destruct (wire_in e).
Qed.

#[global] Instance free_rest {D} : PlatformRest D := {|
  rest_lock_for _ d := (true, d); rest_unlock d := d; rest_now_ms _ := 0%Z; rest_delay_ms _ d := d |}.

(** A reply that is there at once is delivered after 300 ms. *)
Lemma zephyr_read_takes_whole_timeout_witness :
  exists e bytes d', ZephyrUart.read 400 64 300 (ZephyrUart.mkUart (Some 1%Z) (mkWire (lit "OK") [] 0)) = Done (e, bytes, d') /\
    (length bytes < 64 -> (0 + 300 <= k_uptime_get (ZephyrUart.os d'))%Z).
Proof.
  exact (zephyr_read_takes_whole_timeout 400 64 300 (ZephyrUart.mkUart (Some 1%Z) (mkWire (lit "OK") [] 0))
    eq_refl ltac:(lia) ltac:(lia)).
Defined.

Lemma posix_write_completes_witness :
  exists r d', PosixUart.write 12 (lit "AT+CFUN=1") (PosixUart.mkUart 3 (mkWire [] [] 0)) = Done (r, d') /\
    PosixUart.fd_ d' = 3%Z /\ (r = UartError_ok -> wire_out (PosixUart.os d') = lit "AT+CFUN=1").
Proof.
  exact (posix_write_completes 12 (lit "AT+CFUN=1") (PosixUart.mkUart 3 (mkWire [] [] 0)) eq_refl (le_S _ _ (le_S _ _ (le_n 10)))).
Defined.

Lemma uart_drivers_meet_contract_witness :
  (UartDriverLaws (PosixUart.PosixUart Wire) (H := PosixUart.posix_uart 9) /\
   PlatformLaws (PosixUart.PosixUart Wire) (H := driver_platform (H := PosixUart.posix_uart 9))) /\
  (UartDriverLaws (Win32Uart.Win32Uart Wire) /\ PlatformLaws (Win32Uart.Win32Uart Wire)) /\
  (UartDriverLaws (ZephyrUart.ZephyrUart Wire) (H := ZephyrUart.zephyr_uart 9) /\
   PlatformLaws (ZephyrUart.ZephyrUart Wire) (H := driver_platform (H := ZephyrUart.zephyr_uart 9))).
Proof. exact (uart_drivers_meet_contract (E1 := Wire) (E2 := Wire) (E3 := Wire) 9 9). Defined.

End Wire.
