(* ===== verification/ControllerProps.v ===== *)
(** * Properties of the modem controller, and a scripted UART to run it on *)

From S2P Require Import Prelude CLib FixedString StaticVector AtCommand Timer ModemController.

(** ** A scripted world: what the witnesses run on

    The modem answers each read with the next chunk of a script; the clock
    advances only when a read times out or by a delay. *)

Module Scripted.

Record World := mkWorld { opened : bool; replies : list str; clock : Z; written : list str }.

Definition read (n : nat) (t : Z) (w : World) : UartError * str * World :=
  match replies w with
  | [] => (UartError_timeout, [], mkWorld (opened w) [] (clock w + t) (written w))
  | r :: rs =>
      match take n r with
      | [] => (UartError_timeout, [], mkWorld (opened w) rs (clock w + t) (written w))
      | c :: b => (UartError_ok, c :: b,
                   mkWorld (opened w) (match drop n r with [] => rs | r' => r' :: rs end)
                           (clock w) (written w))
      end
  end.

#[export] Instance World_Platform : Platform World := {
  uart_open _ _ w := (UartError_ok, mkWorld true (replies w) (clock w) (written w));
  uart_close w := mkWorld false (replies w) (clock w) (written w);
  uart_is_open := opened;
  uart_write b w := (UartError_ok, mkWorld (opened w) (replies w) (clock w) (written w ++ [b]));
  uart_read := read;
  lock_for _ w := (true, w);
  unlock w := w;
  now_ms := clock;
  delay_ms ms w := mkWorld (opened w) (replies w) (clock w + ms) (written w) }.

#[export] Instance World_PlatformLaws : PlatformLaws World.
Proof.
  split.
  - intros n t w err bytes w'. cbn. unfold read. destruct (replies w) as [|r rs].
    { intros [= <- <- <-]. simpl. lia. }
    destruct (take n r) as [|c b] eqn:E; intros [= <- <- <-]; [simpl; lia|].
    apply (f_equal length) in E. rewrite length_take in E. lia.
  - intros n t w bytes w'. cbn. unfold read. destruct (replies w) as [|r rs]; [done|].
    by destruct (take n r); [done|intros [= <- <-]].
Qed.

(** An open port and the chunks the modem is going to send. *)
Definition world (chunks : list str) : ModemController World :=
  controller_init (mkWorld true chunks 0 []) true.

End Scripted.

Section Props.
Context {T : CommandTimerType} {CT : CommandTimer} {HT : CommandTimerLaws} {E : Type} {HP : Platform E} {HL : @PlatformLaws E HP}.
Implicit Type m : ModemController E.

(** ** [send_command] *)

(** The status reported for a parsed reply. *)
Definition reply_result (st : AtStatus) : ModemStatus :=
  match st with AtStatus_ok => ModemStatus_ok | _ => ModemStatus_at_error end.

Lemma parse_response_final raw :
  raw <> [] -> status (parse_response raw) <> AtStatus_timeout.
Proof. intros Hr. rewrite parse_response_ne by done. apply reply_status_not_timeout. Qed.

Lemma read_loop_first fuel total r m bytes e :
  ct_elapsed_ms (now_ms (env m)) (cmd_timer_ m) = 0%Z -> (0 < total)%Z ->
  uart_read READ_SIZE total (env m) = (UartError_ok, bytes, e) ->
  read_loop (S fuel) total [] r m =
  ((reply_result (status (parse_response bytes)), parse_response bytes),
   set_urc (fs_cat URC_RX_BUFFER_MAX (urc_rx_buffer_ m)
              (after_status (status (parse_response bytes)) bytes)) (set_env e m)).
Proof using HL HT.
  intros He Ht Hr. pose proof (read_ok_nonempty _ _ _ _ _ Hr) as Hne.
  pose proof (read_bounded _ _ _ _ _ _ Hr) as Hlen.
  cbn [read_loop]. rewrite He, Z.sub_0_r.
  assert (total <=? 0 = false)%Z as -> by (apply Z.leb_gt; lia). rewrite Hr.
  destruct bytes as [|c b]; [done|].
  assert (fs_cat AT_RESPONSE_MAX [] (c :: b) = c :: b) as ->.
  { apply take_ge. unfold AT_RESPONSE_MAX. unfold READ_SIZE in Hlen. simpl in *. lia. }
  pose proof (parse_response_final (c :: b) Hne).
  by destruct (status (parse_response (c :: b))).
Qed.

Lemma send_command_first cmd r m e1 e2 bytes e3 :
  lock_for 5000 (env m) = (true, e1) -> is_open (set_env e1 m) = true ->
  uart_write (full_cmd (command_string cmd)) e1 = (UartError_ok, e2) ->
  (0 < timeout_ms cmd)%Z ->
  uart_read READ_SIZE (timeout_ms cmd) e2 = (UartError_ok, bytes, e3) ->
  fst (send_command cmd r m) = (reply_result (status (parse_response bytes)), parse_response bytes) /\
  urc_rx_buffer_ (snd (send_command cmd r m)) =
    fs_cat URC_RX_BUFFER_MAX (urc_rx_buffer_ m) (after_status (status (parse_response bytes)) bytes).
Proof using HL HT.
  intros Hl Ho Hw Ht Hr. unfold send_command, with_lock. rewrite Hl, Ho. cbn [negb env set_env].
  rewrite Hw. rewrite decide_True by done. cbv zeta.
  rewrite (read_loop_first _ _ _ _ bytes e3); try done. apply ct_restarted.
Qed.

(** The first chunk the modem sends decides the outcome of [send_command]:
    the reply is parsed after a single read, its status gives [ok] or [at_error],
    the parsed response is returned, and whatever follows the status line is
    queued for [poll_urc]. *)
Theorem send_command_first_chunk_decides cmd r m e1 e2 bytes e3 :
  lock_for 5000 (env m) = (true, e1) -> is_open (set_env e1 m) = true ->
  uart_write (full_cmd (command_string cmd)) e1 = (UartError_ok, e2) ->
  (0 < timeout_ms cmd)%Z ->
  uart_read READ_SIZE (timeout_ms cmd) e2 = (UartError_ok, bytes, e3) ->
  fst (send_command cmd r m) = (reply_result (status (parse_response bytes)), parse_response bytes) /\
  urc_rx_buffer_ (snd (send_command cmd r m)) =
    fs_cat URC_RX_BUFFER_MAX (urc_rx_buffer_ m) (after_status (status (parse_response bytes)) bytes).
Proof using HL HT. apply send_command_first. Qed.

(** A reply that arrives in two pieces fails: when the first read returns
    part of the reply, before any status line, [send_command] returns [at_error]
    at once although the deadline has not passed and the rest of the reply, with
    its [OK], is still to be read. *)
Theorem send_command_split_reply_fails cmd r m e1 e2 bytes e3 :
  lock_for 5000 (env m) = (true, e1) -> is_open (set_env e1 m) = true ->
  uart_write (full_cmd (command_string cmd)) e1 = (UartError_ok, e2) ->
  (0 < timeout_ms cmd)%Z ->
  uart_read READ_SIZE (timeout_ms cmd) e2 = (UartError_ok, bytes, e3) ->
  Forall (fun l => line_status l = None) (sv_lines bytes) ->
  fst (fst (send_command cmd r m)) = ModemStatus_at_error.
Proof using HL HT.
  intros Hl Ho Hw Ht Hr Hp. destruct (send_command_first cmd r m e1 e2 bytes e3 Hl Ho Hw Ht Hr) as [-> _].
  rewrite parse_response_ne by (by eapply read_ok_nonempty). cbn. by rewrite reply_status_none.
Qed.

(** An expired deadline ends the exchange: with a zero timeout the command
    is written and [timeout] returned without reading, the response untouched. *)
Lemma send_command_zero_timeout cmd r m e1 e2 :
  lock_for 5000 (env m) = (true, e1) -> is_open (set_env e1 m) = true ->
  uart_write (full_cmd (command_string cmd)) e1 = (UartError_ok, e2) ->
  timeout_ms cmd = 0%Z ->
  fst (send_command cmd r m) = (ModemStatus_timeout, r) /\
  env (snd (send_command cmd r m)) = unlock e2 /\
  urc_rx_buffer_ (snd (send_command cmd r m)) = urc_rx_buffer_ m.
Proof using HT.
  intros Hl Ho Hw Ht. unfold send_command, with_lock. rewrite Hl, Ho. cbn [negb env set_env].
  rewrite Hw. rewrite decide_True by done. cbv zeta. rewrite Ht. cbn [read_loop].
  cbn [env cmd_timer_ set_cmd_timer set_env]. by rewrite ct_restarted.
Qed.

(** ** [poll_urc] *)

(** C35. [poll_urc] is the reference parser: it appends the chunk to the pending
    bytes (cut at the buffer size), reports the first eight lines, LF-terminated
    with an optional CR and cut at [URC_LINE_MAX], that start with a known
    prefix, and keeps the unterminated rest. *)
Theorem poll_urc_reference t m e1 bytes e2 :
  ctl_wf m ->
  lock_for 5000 (env m) = (true, e1) -> is_open (set_env e1 m) = true ->
  uart_read READ_SIZE t e1 = (UartError_ok, bytes, e2) ->
  let buf := fs_cat URC_RX_BUFFER_MAX (urc_rx_buffer_ m) bytes in
  fst (poll_urc t m) = take MAX_URC_LINES (urc_reports buf) /\
  urc_rx_buffer_ (snd (poll_urc t m)) = snd (lf_split buf).
Proof using HL HT.
  intros Hwf Hl Ho Hr buf. pose proof (read_ok_nonempty _ _ _ _ _ Hr) as Hne.
  unfold poll_urc, with_lock. rewrite Hl, Ho. cbn [negb env set_env]. rewrite Hr. cbv zeta.
  destruct bytes as [|c b]; [done|]. cbn [urc_rx_buffer_ set_env]. fold buf.
  rewrite urc_loop_full_spec. split; [done|]. simpl. apply trim_urc_id.
  etransitivity; [apply lf_split_rest|]. unfold buf. apply length_fs_cat.
Qed.

(** The receive buffer of [poll_urc] can wedge: once it is full and holds no
    line feed, every later poll returns nothing and leaves it as it is, whatever
    the modem sends; the trimming meant to prevent this needs more than 1024
    bytes in a buffer whose capacity is 1024. *)
Theorem poll_urc_wedged t m :
  length (urc_rx_buffer_ m) = URC_RX_BUFFER_MAX ->
  find_char LF (urc_rx_buffer_ m) = None ->
  fst (poll_urc t m) = [] /\ urc_rx_buffer_ (snd (poll_urc t m)) = urc_rx_buffer_ m.
Proof.
  intros Hfull Hlf. unfold poll_urc, with_lock. destruct (lock_for 5000 (env m)) as [[] e]; [|done].
  destruct (negb (is_open (set_env e m))); [done|].
  destruct (uart_read _ _ _) as [[err bytes] e']. cbv zeta. cbn [urc_rx_buffer_ set_env].
  assert (forall b, fs_cat URC_RX_BUFFER_MAX (urc_rx_buffer_ m) b = urc_rx_buffer_ m) as Hcat.
  { intros b. unfold fs_cat. rewrite take_app_le by lia. apply take_ge. lia. }
  assert (urc_loop (length (urc_rx_buffer_ m)) (urc_rx_buffer_ m) [] = ([], urc_rx_buffer_ m)) as Hloop.
  { destruct (length (urc_rx_buffer_ m)); cbn [urc_loop]; [done|]. by rewrite Hlf. }
  destruct err; try done; try (destruct bytes; rewrite ?Hcat); rewrite Hloop; simpl;
    rewrite trim_urc_id by lia; done.
Qed.

(** ** Trailing URCs *)

Lemma find_sub_from_exact (acc : str) p q :
  find_sub CRLF (drop p acc) = Some q -> find_sub_from CRLF acc p = Some (p + q).
Proof. unfold find_sub_from. by intros ->. Qed.

Lemma after_status_ok pre tail :
  find_sub (lit "OK") (pre ++ lit "OK" ++ CRLF ++ tail) = Some (length pre) ->
  after_status AtStatus_ok (pre ++ lit "OK" ++ CRLF ++ tail) = tail.
Proof.
  intros Hf. unfold after_status, search_term. rewrite Hf.
  rewrite (find_sub_from_exact _ _ 2); [|rewrite drop_app_length; reflexivity].
  assert (length pre + 2 + 2 = length (pre ++ lit "OK" ++ CRLF)) as Hn.
  { rewrite !length_app. simpl. lia. }
  rewrite Hn. replace (pre ++ lit "OK" ++ CRLF ++ tail) with ((pre ++ lit "OK" ++ CRLF) ++ tail)
    by (by rewrite <- !app_assoc).
  rewrite drop_app_length. case_goal; [done|]. bool_facts.
  rewrite (length_app _ tail) in *. destruct tail; [done|simpl in *; lia].
Qed.

(** Unsolicited codes that arrive in the same chunk as a successful reply are
    not lost: everything after the [OK] line is appended to the buffer [poll_urc]
    reads, provided the reply before it does not contain the letters OK. *)
Theorem send_command_keeps_trailing_urcs cmd r m e1 e2 pre tail e3 :
  lock_for 5000 (env m) = (true, e1) -> is_open (set_env e1 m) = true ->
  uart_write (full_cmd (command_string cmd)) e1 = (UartError_ok, e2) ->
  (0 < timeout_ms cmd)%Z ->
  uart_read READ_SIZE (timeout_ms cmd) e2 = (UartError_ok, pre ++ lit "OK" ++ CRLF ++ tail, e3) ->
  find_sub (lit "OK") (pre ++ lit "OK" ++ CRLF ++ tail) = Some (length pre) ->
  status (parse_response (pre ++ lit "OK" ++ CRLF ++ tail)) = AtStatus_ok ->
  fst (fst (send_command cmd r m)) = ModemStatus_ok /\
  urc_rx_buffer_ (snd (send_command cmd r m)) = fs_cat URC_RX_BUFFER_MAX (urc_rx_buffer_ m) tail.
Proof using HL HT.
  intros Hl Ho Hw Ht Hr Hf Hs.
  destruct (send_command_first cmd r m e1 e2 _ e3 Hl Ho Hw Ht Hr) as [-> ->].
  rewrite Hs, after_status_ok by done. done.
Qed.

End Props.

(** ** Witnesses on the scripted world *)

Import Scripted.

Definition cereg_cmd : AtCommand := at_command (lit "AT+CEREG?") 5000.
Definition cereg_reply : str := CRLF ++ lit "+CEREG: 4,1" ++ CRLF ++ CRLF ++ lit "OK" ++ CRLF.

Lemma send_command_first_chunk_decides_witness :
  fst (send_command cereg_cmd AtResponse_default (world [cereg_reply])) =
    (ModemStatus_ok, mkResponse AtStatus_ok (lit "+CEREG: 4,1")).
Proof.
  destruct (send_command_first_chunk_decides cereg_cmd AtResponse_default (world [cereg_reply])
    (mkWorld true [cereg_reply] 0 []) (mkWorld true [cereg_reply] 0 [lit "AT+CEREG?" ++ CRLF])
    cereg_reply (mkWorld true [] 0 [lit "AT+CEREG?" ++ CRLF])) as [H _];
    [reflexivity|reflexivity|vm_compute; reflexivity|reflexivity|vm_compute; reflexivity|].
  rewrite H. vm_compute. reflexivity.
Defined.

(** The same reply cut after its first line. *)
Lemma send_command_split_reply_fails_witness :
  fst (fst (send_command cereg_cmd AtResponse_default
     (world [CRLF ++ lit "+CEREG: 4,1" ++ CRLF; CRLF ++ lit "OK" ++ CRLF]))) = ModemStatus_at_error.
Proof.
  apply (send_command_split_reply_fails cereg_cmd AtResponse_default
    (world [CRLF ++ lit "+CEREG: 4,1" ++ CRLF; CRLF ++ lit "OK" ++ CRLF])
    (mkWorld true [CRLF ++ lit "+CEREG: 4,1" ++ CRLF; CRLF ++ lit "OK" ++ CRLF] 0 [])
    (mkWorld true [CRLF ++ lit "+CEREG: 4,1" ++ CRLF; CRLF ++ lit "OK" ++ CRLF] 0
       [lit "AT+CEREG?" ++ CRLF])
    (CRLF ++ lit "+CEREG: 4,1" ++ CRLF)
    (mkWorld true [CRLF ++ lit "OK" ++ CRLF] 0 [lit "AT+CEREG?" ++ CRLF]));
    [reflexivity|reflexivity|vm_compute; reflexivity|reflexivity|vm_compute; reflexivity|].
  vm_compute. repeat constructor.
Defined.

Lemma send_command_zero_timeout_witness :
  fst (send_command (at_command (lit "AT") 0) AtResponse_default (world [cereg_reply])) =
    (ModemStatus_timeout, AtResponse_default).
Proof.
  apply (send_command_zero_timeout (at_command (lit "AT") 0) AtResponse_default (world [cereg_reply])
    (mkWorld true [cereg_reply] 0 []) (mkWorld true [cereg_reply] 0 [lit "AT" ++ CRLF]));
    [reflexivity|reflexivity|vm_compute; reflexivity|reflexivity].
Defined.

Definition urc_chunk : str := lit "+CEREG: 5" ++ CRLF ++ lit "noise" ++ CRLF ++ lit "SRING: 1".

Lemma poll_urc_reference_witness :
  fst (poll_urc 10 (world [urc_chunk])) = [lit "+CEREG: 5"].
Proof.
  destruct (poll_urc_reference 10 (world [urc_chunk]) (mkWorld true [urc_chunk] 0 []) urc_chunk
    (mkWorld true [] 0 [])) as [H _];
    [apply Nat.leb_le; vm_compute; reflexivity|reflexivity|reflexivity|vm_compute; reflexivity|].
  rewrite H. vm_compute. reflexivity.
Defined.

(** A full buffer of spaces, and a modem that sends a complete URC. *)
Lemma poll_urc_wedged_witness :
  fst (poll_urc 10 (set_urc (replicate (N.to_nat 1024) SPACE) (world [lit "RING" ++ CRLF]))) = [].
Proof.
  apply (poll_urc_wedged 10 (set_urc (replicate (N.to_nat 1024) SPACE) (world [lit "RING" ++ CRLF]))).
  - apply length_replicate.
  - vm_compute. reflexivity.
Defined.

Definition ok_then_ring : str := CRLF ++ lit "OK" ++ CRLF ++ lit "RING" ++ CRLF.

Lemma send_command_keeps_trailing_urcs_witness :
  urc_rx_buffer_ (snd (send_command (at_command (lit "AT") 1000) AtResponse_default
    (world [ok_then_ring]))) = lit "RING" ++ CRLF.
Proof.
  destruct (send_command_keeps_trailing_urcs (at_command (lit "AT") 1000) AtResponse_default
    (world [ok_then_ring]) (mkWorld true [ok_then_ring] 0 [])
    (mkWorld true [ok_then_ring] 0 [lit "AT" ++ CRLF]) CRLF (lit "RING" ++ CRLF)
    (mkWorld true [] 0 [lit "AT" ++ CRLF])) as [_ H];
    [reflexivity|reflexivity|vm_compute; reflexivity|reflexivity|vm_compute; reflexivity
    |reflexivity|vm_compute; reflexivity|].
  rewrite H. vm_compute. reflexivity.
Defined.
