(* ===== verification/Xe310Types.v ===== *)
(** * Data of the modem driver (include/modem/xe310.h)

    Enumerations keep the source's constructors.  A response field is converted
    with [static_cast], which accepts any value of the underlying type, so each
    enumeration read from the modem has a further constructor for the values
    without a name.  [FixedString] members are the strings they hold, of the
    capacity stated in the header. *)

From S2P Require Import Prelude CLib FixedString StaticVector.

Definition MODEM_SHORT_STR : nat := 32.
Definition MODEM_MEDIUM_STR : nat := 64.
Definition MODEM_LONG_STR : nat := 128.
Definition MODEM_IP_STR : nat := 48.

(** ** Enumerations *)

Inductive SimDetMode := SimDetMode_gpio | SimDetMode_always.

Definition SimDetMode_val (m : SimDetMode) : Z :=
  match m with SimDetMode_gpio => 0 | SimDetMode_always => 1 end.

Inductive SimStatus :=
| SimStatus_not_inserted | SimStatus_inserted | SimStatus_inserted_and_pin_unlocked
| SimStatus_inserted_and_ready | SimStatus_other (v : Z).

(** [static_cast<SimStatus>(v)]. *)
Definition SimStatus_cast (v : Z) : SimStatus :=
  match u8 v with
  | 0 => SimStatus_not_inserted
  | 1 => SimStatus_inserted
  | 2 => SimStatus_inserted_and_pin_unlocked
  | 3 => SimStatus_inserted_and_ready
  | w => SimStatus_other w
  end%Z.

Definition SimStatus_val (s : SimStatus) : Z :=
  match s with
  | SimStatus_not_inserted => 0 | SimStatus_inserted => 1 | SimStatus_inserted_and_pin_unlocked => 2
  | SimStatus_inserted_and_ready => 3 | SimStatus_other v => v
  end.

Inductive RadioTech :=
| RadioTech_unknown | RadioTech_gsm | RadioTech_lte | RadioTech_cat_m1 | RadioTech_nb_iot
| RadioTech_other (v : Z).

#[export] Instance RadioTech_eq_dec : EqDecision RadioTech.
Proof. solve_decision. Defined.

Definition RadioTech_val (t : RadioTech) : Z :=
  match t with
  | RadioTech_unknown => -1
  | RadioTech_gsm => 0
  | RadioTech_lte => 6
  | RadioTech_cat_m1 => 7
  | RadioTech_nb_iot => 9
  | RadioTech_other v => v
  end.

Definition RadioTech_cast (v : Z) : RadioTech :=
  match i8 v with
  | -1 => RadioTech_unknown
  | 0 => RadioTech_gsm
  | 6 => RadioTech_lte
  | 7 => RadioTech_cat_m1
  | 9 => RadioTech_nb_iot
  | w => RadioTech_other w
  end%Z.

Inductive MruListRat := MruListRat_lte_m | MruListRat_nb_iot | MruListRat_ntn.

Definition MruListRat_val (r : MruListRat) : Z :=
  match r with MruListRat_lte_m => 0 | MruListRat_nb_iot => 2 | MruListRat_ntn => 5 end.

Inductive RegStatus :=
| RegStatus_not_registered | RegStatus_registered_home | RegStatus_searching | RegStatus_denied
| RegStatus_unknown | RegStatus_registered_roaming | RegStatus_sms_only
| RegStatus_sms_only_roaming | RegStatus_emergency | RegStatus_csfb_home | RegStatus_csfb_roaming
| RegStatus_other (v : Z).

#[export] Instance RegStatus_eq_dec : EqDecision RegStatus.
Proof. solve_decision. Defined.

Definition RegStatus_cast (v : Z) : RegStatus :=
  match u8 v with
  | 0 => RegStatus_not_registered
  | 1 => RegStatus_registered_home
  | 2 => RegStatus_searching
  | 3 => RegStatus_denied
  | 4 => RegStatus_unknown
  | 5 => RegStatus_registered_roaming
  | 6 => RegStatus_sms_only
  | 7 => RegStatus_sms_only_roaming
  | 8 => RegStatus_emergency
  | 9 => RegStatus_csfb_home
  | 10 => RegStatus_csfb_roaming
  | w => RegStatus_other w
  end%Z.

Definition RegStatus_val (s : RegStatus) : Z :=
  match s with
  | RegStatus_not_registered => 0 | RegStatus_registered_home => 1 | RegStatus_searching => 2
  | RegStatus_denied => 3 | RegStatus_unknown => 4 | RegStatus_registered_roaming => 5
  | RegStatus_sms_only => 6 | RegStatus_sms_only_roaming => 7 | RegStatus_emergency => 8
  | RegStatus_csfb_home => 9 | RegStatus_csfb_roaming => 10 | RegStatus_other v => v
  end.

Inductive ContextState := ContextState_inactive | ContextState_active.

Inductive PsmMode := PsmMode_disable | PsmMode_enable | PsmMode_other (v : Z).

#[export] Instance PsmMode_eq_dec : EqDecision PsmMode.
Proof. solve_decision. Defined.

Definition PsmMode_val (m : PsmMode) : Z :=
  match m with PsmMode_disable => 0 | PsmMode_enable => 1 | PsmMode_other v => v end.
Definition PsmMode_cast (v : Z) : PsmMode :=
  match u8 v with 0 => PsmMode_disable | 1 => PsmMode_enable | w => PsmMode_other w end%Z.

Inductive PsmVersion :=
| PsmVersion_no_coord | PsmVersion_rel12_no_retain | PsmVersion_rel12_retain | PsmVersion_edrx.

Definition PsmVersion_val (v : PsmVersion) : Z :=
  match v with
  | PsmVersion_no_coord => 1
  | PsmVersion_rel12_no_retain => 2
  | PsmVersion_rel12_retain => 4
  | PsmVersion_edrx => 8
  end.

Inductive GnssFixType :=
| GnssFixType_invalid | GnssFixType_invalid_fix | GnssFixType_fix_2d | GnssFixType_fix_3d
| GnssFixType_other (v : Z).

Definition GnssFixType_val (f : GnssFixType) : Z :=
  match f with
  | GnssFixType_invalid => 0
  | GnssFixType_invalid_fix => 1
  | GnssFixType_fix_2d => 2
  | GnssFixType_fix_3d => 3
  | GnssFixType_other v => v
  end.
Definition GnssFixType_cast (v : Z) : GnssFixType :=
  match u8 v with
  | 0 => GnssFixType_invalid
  | 1 => GnssFixType_invalid_fix
  | 2 => GnssFixType_fix_2d
  | 3 => GnssFixType_fix_3d
  | w => GnssFixType_other w
  end%Z.

(** [pos.fix > GnssFixType::invalid_fix]. *)
Definition has_fix (f : GnssFixType) : bool := (1 <? GnssFixType_val f)%Z.

(** ** Structures *)

Record RegistrationInfo := mkReg {
  lac : str; ci : str; active_time : str; periodic_tau : str; ri_ip_address : str;
  operator_name : str; apn : str; ri_mode : Z; stat : RegStatus; act : RadioTech;
  fHasLocation : bool; cause_type : Z; reject_cause : Z; fHasReject : bool; fHasPsm : bool }.

Definition RegistrationInfo_default : RegistrationInfo :=
  mkReg [] [] [] [] [] [] [] 0 RegStatus_not_registered RadioTech_gsm false 0 0 false false.

Record NetworkInfo := mkNet { context_state : ContextState; ip_address : str }.
Definition NetworkInfo_default : NetworkInfo := mkNet ContextState_inactive [].

Record SignalQuality := mkSig { rssi : Z; sig_ber : Z; rsrq : Z; rsrp : Z }.
Definition SignalQuality_default : SignalQuality := mkSig 99 99 255 255.

Definition rsrp_dbm (s : SignalQuality) : Z := if (rsrp s =? 255)%Z then -999 else -140 + rsrp s.
Definition rsrq_tenth_db (s : SignalQuality) : Z :=
  if (rsrq s =? 255)%Z then -9999 else -195 + rsrq s * 5.

Record CpsmsConfig := mkCpsms {
  cp_mode : PsmMode; req_periodic_rau : str; req_gprs_ready_timer : str;
  req_periodic_tau : str; req_active_time : str }.
Definition CpsmsConfig_default : CpsmsConfig := mkCpsms PsmMode_disable [] [] [] [].

(** Each [fHas]/value pair of [TelitCpsmsConfig] is a flag and a number. *)
Record TelitCpsmsConfig := mkTelitCfg {
  tc_mode : PsmMode;
  tc_fHasPeriodicRau : bool; tc_req_periodic_rau : Z;
  tc_fHasGprsReadyTimer : bool; tc_req_gprs_ready_timer : Z;
  tc_fHasPeriodicTau : bool; tc_req_periodic_tau : Z;
  tc_fHasActiveTime : bool; tc_req_active_time : Z;
  tc_fHasPsmVersion : bool; tc_psm_version : PsmVersion;
  tc_fHasPsmThreshold : bool; tc_psm_threshold : Z }.
Definition TelitCpsmsConfig_default : TelitCpsmsConfig :=
  mkTelitCfg PsmMode_disable false 0 false 0 false 0 false 0 false PsmVersion_rel12_retain false 60.

Record TelitCpsmsStatus := mkTelitStatus {
  ts_status : Z; t3324 : Z; t3412 : Z; ts_psm_version : Z; ts_psm_threshold : Z; ts_mode : PsmMode }.
Definition TelitCpsmsStatus_default : TelitCpsmsStatus := mkTelitStatus 0 0 0 0 0 PsmMode_disable.

Record SoftwarePackageVersion := mkSwPkg {
  package_version : str; modem_version : str; prod_params_version : str; app_version : str }.
Definition SoftwarePackageVersion_default : SoftwarePackageVersion := mkSwPkg [] [] [] [].

Record ModemInfo := mkModemInfo {
  imei_sv : str; iccid : str; imsi : str; model_id : str;
  sw_package_version : SoftwarePackageVersion; telit_id : str; identification : str; imei : str }.
Definition ModemInfo_default : ModemInfo :=
  mkModemInfo [] [] [] [] SoftwarePackageVersion_default [] [] [].

Record Operator := mkOperator {
  long_name : str; short_name : str; numeric : str; op_act : RadioTech }.

Record CsurvCell := mkCsurvCell {
  earfcn : Z; rx_lev : Z; mcc : Z; mnc : Z; cell_id : Z; tac : Z; cell_identity : Z }.

Definition MAX_CELLS : nat := 32.

Record CsurvResult := mkCsurv {
  cells : list CsurvCell; fHasSummary : bool; no_arfcn : Z; no_bcch : Z }.
Definition CsurvResult_default : CsurvResult := mkCsurv [] false 0 0.

Record BandConfig := mkBands {
  gsm_mask : Z; umts_mask : Z; lte_mask : Z; tdscdma_mask : Z; lte_mask_over_64 : Z }.
Definition BandConfig_default : BandConfig := mkBands 0 0 0 0 0.

Record GnssPosition := mkGnss {
  utc : str; latitude : str; longitude : str; hdop : str; altitude : str; fix_ : GnssFixType;
  cog : str; spkm : str; spkn : str; date : str; nsat : Z; hepe : str; vepe : str }.
Definition GnssPosition_default : GnssPosition :=
  mkGnss [] [] [] [] [] GnssFixType_invalid [] [] [] [] 0 [] [].

Definition MAX_OPERATORS : nat := 16.
Definition UDP_MAX_BYTES : nat := N.to_nat 1500.
