(* ===== verification/Xe310.v ===== *)
(** * The modem driver (class xE310: src/xe310.cpp, include/modem/xe310.h)

    Every method is a state transformer over the driver object; the modem
    controller below is any [Controller].  A reference parameter that receives a
    result is passed in and returned.  [snprintf] buffers cut what does not fit. *)

From S2P Require Import Prelude CLib FixedString StaticVector AtCommand ModemController Xe310Types.

(** What the program reads where C++ gives it no value: [stale s] is what a view
    of an expired temporary that held [s] reads, [uninit_tech] the value of an
    uninitialised [RadioTech] local, [undefined_int] the result of converting a
    float outside [int]. *)
Class Residue := { stale : str -> str; uninit_tech : RadioTech; undefined_int : Z }.

Module XE310.

Record xE310 (C : Type) := mkX {
  controller_ : C;
  last_status_ : ModemStatus;
  info : RegistrationInfo;
  psm_status : TelitCpsmsStatus }.
Arguments mkX {C} _ _ _ _.
Arguments controller_ {C} _.
Arguments last_status_ {C} _.
Arguments info {C} _.
Arguments psm_status {C} _.

(** Characters the parsers trim from a token: space, tab and double quote. *)
Definition WSQ : str := [SPACE; TAB; DQUOTE].

Definition quoted (s : str) : str := DQUOTE :: s ++ [DQUOTE].

(** [if (s.size() >= 2 && s.front() == '"' && s.back() == '"') s = s.substr(1, size - 2)]. *)
Definition strip_quotes (s : str) : str :=
  match s, last s with
  | a :: _, Some b =>
      if (2 <=? length s) && ch_eqb a DQUOTE && ch_eqb b DQUOTE then substr 1 (length s - 2) s else s
  | _, _ => s
  end.

(** [response.body.rfind(PREFIX, 0) == 0 ? response.body.substr(PREFIX.size()) : response.body]. *)
Definition drop_prefix (prefix body : str) : str :=
  if starts_with prefix body then drop (length prefix) body else body.

Section Driver.
Context {C : Type} {HC : Controller C} {HR : Residue}.

Notation M A := (ST (xE310 C) A).
Local Open Scope st_scope.

Definition xE310_init (c : C) : xE310 C :=
  mkX c ModemStatus_ok RegistrationInfo_default TelitCpsmsStatus_default.

Definition set_ctl (c : C) (x : xE310 C) : xE310 C := mkX c (last_status_ x) (info x) (psm_status x).

Definition last_status : M ModemStatus := fun x => (last_status_ x, x).

Definition send_raw (command : str) (response : AtResponse) (timeout_ms : Z) (retry : bool)
  : M (ModemStatus * AtResponse) := fun x =>
  let '((st, r), c) := ctl_send_raw command response timeout_ms retry (controller_ x) in
  ((st, r), mkX c st (info x) (psm_status x)).

(** [AtResponse response; send_raw(cmd, response, t)], with the default [retry]. *)
Definition ask (command : str) (timeout_ms : Z) : M (ModemStatus * AtResponse) :=
  send_raw command AtResponse_default timeout_ms true.
Definition send_cmd (command : str) (timeout_ms : Z) : M ModemStatus :=
  do (st, _) <- ask command timeout_ms; st_ret st.

(** Sends a command and, on success, stores what [f] reads from the body. *)
Definition query {A} (command : str) (f : str -> A -> A) (out : A) : M (ModemStatus * A) :=
  do (st, r) <- ask command 5000;
  st_ret (st, if status_eqb st ModemStatus_ok then f (body r) out else out).

(** The same with a parser that may reject the body with [at_error]. *)
Definition query_parse {A} (command : str) (timeout_ms : Z) (f : str -> A -> option A) (out : A)
  : M (ModemStatus * A) :=
  do (st, r) <- ask command timeout_ms;
  st_ret (if status_eqb st ModemStatus_ok
          then match f (body r) out with
               | Some a => (ModemStatus_ok, a)
               | None => (ModemStatus_at_error, out)
               end
          else (st, out)).

(** [auto colon = body.find(':'); ... body.substr(colon + 1)]. *)
Definition after_colon (body : str) : option str :=
  (fun p => drop (S p) body) <$> find_char COLON body.

(** ** General commands *)

Definition set_baudrate (baudrate : Z) : M ModemStatus :=
  send_cmd (snprintf 64 (lit "AT+IPR=" ++ fmt_u baudrate)) 5000.

Definition set_echo (enable : bool) : M ModemStatus :=
  send_cmd (if enable then lit "ATE1" else lit "ATE0") 5000.

Definition at_ok : M ModemStatus := send_cmd (lit "AT") 5000.

Definition request_imei_sv (imei_sv : str) : M (ModemStatus * str) :=
  query (lit "AT+IMEISV") (fun b _ => fs_set MODEM_SHORT_STR b) imei_sv.

Definition request_model_id (model : str) : M (ModemStatus * str) :=
  query (lit "AT#CGMM") (fun b _ => fs_set MODEM_MEDIUM_STR (drop_prefix (lit "#CGMM: ") b)) model.

Definition parse_sw_package (b : str) (ver : SoftwarePackageVersion) : SoftwarePackageVersion :=
  let fields := take 4 (sv_lines b) in
  let pick i old := match fields !! i with Some v => fs_set MODEM_LONG_STR v | None => old end in
  mkSwPkg (pick 0 (package_version ver)) (pick 1 (modem_version ver))
          (pick 2 (prod_params_version ver)) (pick 3 (app_version ver)).

Definition request_sw_package_version (ver : SoftwarePackageVersion)
  : M (ModemStatus * SoftwarePackageVersion) := query (lit "AT#SWPKGV") parse_sw_package ver.

Definition request_telit_id (tid : str) : M (ModemStatus * str) :=
  query (lit "AT#TID") (fun b _ => fs_set MODEM_MEDIUM_STR b) tid.

Definition request_identification (info : str) : M (ModemStatus * str) :=
  query (lit "ATI") (fun b _ => fs_set MODEM_LONG_STR b) info.

Definition get_imei (imei : str) : M (ModemStatus * str) :=
  query (lit "AT+CGSN") (fun b _ => fs_set MODEM_SHORT_STR b) imei.

(** The view [value] outlives the [FixedString] that [substr] returns: its size
    is that of the substring, its characters are whatever is left there. *)
Definition parse_clock (b : str) : str :=
  fs_set MODEM_SHORT_STR
    (if starts_with (lit "+CCLK: ") b then strip_quotes (stale (drop 7 b)) else b).

Definition get_clock (clock : str) : M (ModemStatus * str) :=
  query (lit "AT+CCLK?") (fun b _ => parse_clock b) clock.

(** ** SIM card *)

Definition read_iccid (iccid : str) : M (ModemStatus * str) :=
  query (lit "AT#CCID") (fun b _ => fs_set MODEM_SHORT_STR (drop_prefix (lit "#CCID: ") b)) iccid.

Definition read_imsi (imsi : str) : M (ModemStatus * str) :=
  query (lit "AT+CIMI") (fun b _ => fs_set MODEM_SHORT_STR b) imsi.

Definition set_sim_detection (mode : SimDetMode) : M ModemStatus :=
  send_cmd (snprintf 32 (lit "AT#SIMDET=" ++ fmt_d (SimDetMode_val mode))) 5000.

(** [std::atoi(response.body.c_str() + comma_pos + 1)]. *)
Definition atoi_after_comma (b : str) : option Z :=
  (fun p => atoi (drop (S p) b)) <$> find_char COMMA b.

Definition query_sim_status (st : SimStatus) : M (ModemStatus * SimStatus) :=
  query (lit "AT#QSS?") (fun b old => from_option SimStatus_cast old (atoi_after_comma b)) st.

Definition send_sim_command (command sim_response : str) : M (ModemStatus * str) :=
  query (snprintf 256 (lit "AT+CSIM=" ++ fmt_u (Z.of_nat (length command)) ++ [COMMA]
                       ++ quoted (fmt_sv command)))
        (fun b _ => fs_set AT_RESPONSE_MAX b) sim_response.

(** ** Power saving mode *)

(** [if (!f.empty()) snprintf(..., "\"%s\"", f.c_str())]. *)
Definition opt_quoted (f : str) : str := match f with [] => [] | _ => quoted (cstr f) end.

(** The command is at most 156 characters long, so no piece is cut. *)
Definition psm_command (cfg : CpsmsConfig) : str :=
  let rau := req_periodic_rau cfg in
  let gprs := req_gprs_ready_timer cfg in
  let tau := req_periodic_tau cfg in
  let active := req_active_time cfg in
  lit "AT+CPSMS=" ++ fmt_d (PsmMode_val (cp_mode cfg)) ++
  match rau, gprs, tau, active with
  | [], [], [], [] => []
  | _, _, _, _ => [COMMA] ++ opt_quoted rau ++ [COMMA] ++ opt_quoted gprs ++ [COMMA]
                  ++ opt_quoted tau ++ [COMMA] ++ opt_quoted active
  end.

Definition set_psm (cfg : CpsmsConfig) : M ModemStatus := send_cmd (snprintf 256 (psm_command cfg)) 5000.

Definition parse_psm (b : str) (cfg : CpsmsConfig) : option CpsmsConfig :=
  match after_colon b with
  | None => None
  | Some params =>
      let fields := (fun t => fs_set MODEM_SHORT_STR (strip_left t)) <$> comma_fields 5 params in
      let pick i old := match fields !! i with
                        | Some f => fs_set MODEM_SHORT_STR (strip_quotes f)
                        | None => old
                        end in
      Some (mkCpsms (match fields !! 0 with Some f => PsmMode_cast (atoi f) | None => cp_mode cfg end)
                    (pick 1 (req_periodic_rau cfg)) (pick 2 (req_gprs_ready_timer cfg))
                    (pick 3 (req_periodic_tau cfg)) (pick 4 (req_active_time cfg)))
  end.

Definition get_psm (cfg : CpsmsConfig) : M (ModemStatus * CpsmsConfig) :=
  query_parse (lit "AT+CPSMS?") 5000 parse_psm cfg.

Definition disable_psm : M ModemStatus := send_cmd (lit "AT+CPSMS=0") 5000.

(** The last field that has a value. *)
Definition telit_last (cfg : TelitCpsmsConfig) : nat :=
  if tc_fHasPsmThreshold cfg then 6
  else if tc_fHasPsmVersion cfg then 5
  else if tc_fHasActiveTime cfg then 4
  else if tc_fHasPeriodicTau cfg then 3
  else if tc_fHasGprsReadyTimer cfg then 2
  else if tc_fHasPeriodicRau cfg then 1
  else 0.

Definition append_opt (last field : nat) (has : bool) (val : Z) : str :=
  if field <=? last then COMMA :: (if has then fmt_u val else []) else [].

Definition telit_psm_command (cfg : TelitCpsmsConfig) : str :=
  let last := telit_last cfg in
  lit "AT#CPSMS=" ++ fmt_d (PsmMode_val (tc_mode cfg))
  ++ append_opt last 1 (tc_fHasPeriodicRau cfg) (tc_req_periodic_rau cfg)
  ++ append_opt last 2 (tc_fHasGprsReadyTimer cfg) (tc_req_gprs_ready_timer cfg)
  ++ append_opt last 3 (tc_fHasPeriodicTau cfg) (tc_req_periodic_tau cfg)
  ++ append_opt last 4 (tc_fHasActiveTime cfg) (tc_req_active_time cfg)
  ++ append_opt last 5 (tc_fHasPsmVersion cfg) (PsmVersion_val (tc_psm_version cfg))
  ++ append_opt last 6 (tc_fHasPsmThreshold cfg) (tc_psm_threshold cfg).

Definition set_telit_psm (cfg : TelitCpsmsConfig) : M ModemStatus :=
  send_cmd (snprintf 256 (telit_psm_command cfg)) 5000.

Definition parse_telit_psm (b : str) (st : TelitCpsmsStatus) : option TelitCpsmsStatus :=
  match after_colon b with
  | None => None
  | Some params =>
      let fields := (fun t => to_buf 32 (strip_left t)) <$> comma_fields 6 params in
      let num i conv (old : Z) := match fields !! i with Some f => conv f | None => old end in
      let opt i old := match fields !! i with
                       | Some [] | None => old
                       | Some f => u32 (atol f)
                       end in
      Some (mkTelitStatus (num 0 (fun f => u8 (atoi f)) (ts_status st)) (opt 1 (t3324 st)) (opt 2 (t3412 st))
              (num 3 (fun f => u8 (atoi f)) (ts_psm_version st))
              (num 4 (fun f => u32 (atol f)) (ts_psm_threshold st))
              (match fields !! 5 with Some f => PsmMode_cast (atoi f) | None => ts_mode st end))
  end.

Definition get_telit_psm (st : TelitCpsmsStatus) : M (ModemStatus * TelitCpsmsStatus) :=
  query_parse (lit "AT#CPSMS?") 5000 parse_telit_psm st.

Definition disable_telit_psm : M ModemStatus := send_cmd (lit "AT#CPSMS=0") 5000.

Definition set_psm_urc (enable : bool) : M ModemStatus :=
  send_cmd (if enable then lit "AT#PSMURC=1" else lit "AT#PSMURC=0") 5000.

Definition get_psm_urc (enabled : bool) : M (ModemStatus * bool) :=
  query (lit "AT#PSMURC?")
        (fun b old => match after_colon b with
                      | Some s => negb (atoi s =? 0)%Z
                      | None => old
                      end) enabled.

(** ** Power *)

Definition power_on : M unit := st_ret tt.
Definition power_off : M unit := st_ret tt.

Definition power_radio : M ModemStatus := send_cmd (lit "AT+CFUN=1") 15000.
Definition power_off_radio : M ModemStatus := send_cmd (lit "AT+CFUN=4") 15000.

(** The response object is shared by the two commands. *)
Definition shutdown : M ModemStatus :=
  do (_, r) <- ask (lit "AT+CFUN=4") 15000;
  do (st, _) <- send_raw (lit "AT+CFUN=11") r 15000 true;
  st_ret st.

Definition delay (ms : Z) : M unit := fun x => (tt, set_ctl (ctl_delay ms (controller_ x)) x).

Definition reboot : M ModemStatus :=
  do st <- send_cmd (lit "AT#REBOOT") 5000;
  do_ delay 2000;
  st_ret st.

(** ** Radio technology and bands *)

Definition set_iot_tech (tech : RadioTech) : M ModemStatus :=
  match tech with
  | RadioTech_cat_m1 => send_cmd (snprintf 32 (lit "AT#WS46=" ++ fmt_u 0 ++ [COMMA] ++ fmt_u 0)) 5000
  | RadioTech_nb_iot => send_cmd (snprintf 32 (lit "AT#WS46=" ++ fmt_u 1 ++ [COMMA] ++ fmt_u 0)) 5000
  | _ => st_ret ModemStatus_invalid_param
  end.

(** [tech] and [gsm_priority] keep their values when the body has no colon. *)
Definition parse_iot_tech (b : str) (out : RadioTech * Z) : RadioTech * Z :=
  match after_colon b with
  | None => out
  | Some params =>
      let '(nv, gp) := match find_char COMMA params with
                       | None => (0, 0)%Z
                       | Some c => (u32 (strtoul 10 (to_buf 16 (take c params))),
                                    u32 (strtoul 10 (to_buf 16 (drop (S c) params))))
                       end in
      (match nv with
       | 0 => RadioTech_cat_m1
       | 1 => RadioTech_nb_iot
       | _ => RadioTech_unknown
       end%Z, u8 gp)
  end.

Definition get_iot_tech (out : RadioTech * Z) : M (ModemStatus * (RadioTech * Z)) :=
  query (lit "AT#WS46?") parse_iot_tech out.

Definition bands_command (gsm umts lte tdscdma lte_over_64 : Z) : str :=
  lit "AT#BND=" ++ fmt_u gsm ++ [COMMA] ++ fmt_u umts ++ [COMMA] ++ fmt_u lte ++ [COMMA]
  ++ fmt_u tdscdma ++ [COMMA] ++ fmt_u lte_over_64.

Definition set_bands (gsm umts lte tdscdma lte_over_64 : Z) : M ModemStatus :=
  send_cmd (snprintf 128 (bands_command gsm umts lte tdscdma lte_over_64)) 5000.

Definition set_lte_bands (lte_mask : Z) : M ModemStatus := set_bands 0 0 lte_mask 0 0.

(** [parse_u64]: the whole field must be a number. *)
Definition parse_u64 (s : str) : option Z :=
  match strtoul_end 10 s with
  | (v, Some []) => Some v
  | _ => None
  end.

Definition parse_bands (b : str) (_ : BandConfig) : option BandConfig :=
  match after_colon b with
  | None => None
  | Some params =>
      match (fun t => parse_u64 (to_buf 32 (strip WSQ t))) <$> comma_fields 5 params with
      | [Some g; Some u; Some l; Some t; Some o] => Some (mkBands g u l t o)
      | _ => None
      end
  end.

Definition get_bands (bands : BandConfig) : M (ModemStatus * BandConfig) :=
  query_parse (lit "AT#BND?") 5000 parse_bands bands.

(** ** Notifications and scan tables *)

Definition set_cell_state_urc (enable : bool) : M ModemStatus :=
  send_cmd (if enable then lit "AT%STATEV=1" else lit "AT%STATEV=0") 5000.
Definition set_registration_urc (enable : bool) : M ModemStatus :=
  send_cmd (if enable then lit "AT+CEREG=4" else lit "AT+CEREG=0") 5000.
Definition set_pdp_urc (enable : bool) : M ModemStatus :=
  send_cmd (if enable then lit "AT+CGEREP=1" else lit "AT+CGEREP=0") 5000.
Definition disable_all_notifyev : M ModemStatus :=
  send_cmd (lit "AT%NOTIFYEV=" ++ quoted (lit "ALL") ++ lit ",0") 5000.
Definition set_plmnsearchexh_notify (enable : bool) : M ModemStatus :=
  send_cmd (lit "AT%NOTIFYEV=" ++ quoted (lit "PLMNSEARCHEXH")
            ++ (if enable then lit ",1" else lit ",0")) 5000.

Definition delete_mru_list (rat : MruListRat) : M ModemStatus :=
  send_cmd (snprintf 64 (lit "AT%TRSHCMD=" ++ quoted (lit "BSPFILE") ++ [COMMA]
    ++ quoted (lit "ERASE_LTEPP") ++ [COMMA] ++ quoted (fmt_u (MruListRat_val rat)))) 5000.

(** A command whose arguments are all quoted. *)
Definition setcfg (args : list String.string) : str :=
  lit "AT%SETCFG=" ++ join [COMMA] ((fun a => quoted (lit a)) <$> args).

(** Commands sent one after the other with one response object, up to the first
    that fails. *)
Fixpoint send_until_failure (cmds : list str) (r : AtResponse) : M ModemStatus :=
  match cmds with
  | [] => st_ret ModemStatus_ok
  | c :: cmds' =>
      do (st, r') <- send_raw c r 5000 true;
      if status_eqb st ModemStatus_ok then send_until_failure cmds' r' else st_ret st
  end.

Definition scan_table_commands : list str :=
  setcfg <$> [["SCANTABLE"; "0"; "8"];
              ["SCANTABLE"; "1"; "8"; "0"; "1"; "0"; "0"; "0"; "0"];
              ["SCANTABLE"; "1"; "8"; "1"; "5"; "1"; "0"; "1"; "3"];
              ["SCANTABLE"; "1"; "8"; "2"; "1"; "0"; "4"; "0"; "0"];
              ["SCANTABLE"; "1"; "8"; "3"; "1"; "1"; "4"; "1"; "3"];
              ["SCANTABLE"; "1"; "8"; "11"; "1"; "1"; "6"; "2"; "10"]]%string.

Definition set_scan_tables : M ModemStatus := send_until_failure scan_table_commands AtResponse_default.

Definition select_tables : M ModemStatus :=
  send_until_failure (setcfg <$> [["SCANTABLESELECTOR"; "0"; "8"]; ["SCANTABLESELECTOR"; "1"; "8"]]%string)
                     AtResponse_default.

(** ** Registration *)

(** The fields of a [+CREG]/[+CEREG] reply. *)
Definition reg_fields (params : str) : list str :=
  (fun t => to_buf 32 (strip WSQ t)) <$> comma_fields 8 params.

Definition apply_reg_fields (fields : list str) (i : RegistrationInfo) : RegistrationInfo :=
  let n := length fields in
  let f k := default [] (fields !! k) in
  let located := 4 <=? n in
  mkReg (if located then fs_cstr MODEM_SHORT_STR (f 2) else lac i)
        (if located then fs_cstr MODEM_SHORT_STR (f 3) else ci i)
        (active_time i) (periodic_tau i) (ri_ip_address i) (operator_name i) (apn i)
        (if 2 <=? n then u8 (atoi (f 0)) else ri_mode i)
        (if 2 <=? n then RegStatus_cast (atoi (f 1)) else stat i)
        (if 5 <=? n then RadioTech_cast (atoi (f 4)) else act i)
        (if located then true else fHasLocation i)
        (cause_type i) (reject_cause i) (fHasReject i) (fHasPsm i).

Definition get_registration_status (i : RegistrationInfo) (tech : RadioTech)
  : M (ModemStatus * RegistrationInfo) :=
  query_parse (if decide (tech = RadioTech_gsm) then lit "AT+CREG?" else lit "AT+CEREG?") 5000
    (fun b i => (fun params => apply_reg_fields (reg_fields params) i) <$> after_colon b) i.

Definition network_attach : M ModemStatus := send_cmd (lit "AT+CGATT=1") 30000.
Definition network_detach : M ModemStatus := send_cmd (lit "AT+CGATT=0") 30000.

(** A blank token leaves the zero the array was initialised with. *)
Definition cesq_value (token : str) : Z :=
  match strip [SPACE; TAB] token with
  | [] => 0
  | t => atoi (to_buf 16 t)
  end.

Definition parse_signal (b : str) (sq : SignalQuality) : SignalQuality :=
  match after_colon b with
  | None => sq
  | Some values =>
      match cesq_value <$> comma_fields 6 values with
      | [a; b; _; _; q; p] => mkSig a b q p
      | _ => sq
      end
  end.

Definition get_signal_quality (sq : SignalQuality) : M (ModemStatus * SignalQuality) :=
  query (lit "AT+CESQ") parse_signal sq.

(** ** Operators *)

Definition set_radio_tech (tech : RadioTech) : M ModemStatus :=
  send_cmd (snprintf 64 (lit "AT+COPS=0,,," ++ fmt_d (RadioTech_val tech))) 45000.

Definition set_operator_auto : M ModemStatus := send_cmd (lit "AT+COPS=0") 210000.

Definition set_operator_manual (oper : str) (tech : RadioTech) : M ModemStatus :=
  match oper with
  | [] => set_operator_auto
  | _ => send_cmd (snprintf 128 (lit "AT+COPS=1,2," ++ quoted (fmt_sv oper) ++ [COMMA]
                                 ++ fmt_d (RadioTech_val tech))) 210000
  end.

Definition parse_operator (b : str) (oper : str) : option str :=
  match after_colon b with
  | None => None
  | Some params => Some (match comma_fields 3 params !! 2 with
                         | Some t => fs_set MODEM_MEDIUM_STR (strip WSQ t)
                         | None => oper
                         end)
  end.

Definition get_operator (oper : str) : M (ModemStatus * str) :=
  query_parse (lit "AT+COPS?") 5000 parse_operator oper.

(** How many characters come before [c], or all of them. *)
Definition until (c : ascii) (s : str) : nat := default (length s) (find_char c s).

(** Length of the first field: a quoted field runs to the comma after its
    closing quote. *)
Definition field_length (s : str) : nat :=
  match s with
  | c :: s' =>
      if ch_eqb c DQUOTE then
        let q := until DQUOTE s' in
        let p := 1 + q + (if q <? length s' then 1 else 0) in
        p + until COMMA (drop p s)
      else until COMMA s
  | [] => 0
  end.

Fixpoint skip_blanks (s : str) : str :=
  match s with
  | c :: s' => if ch_eqb c SPACE then skip_blanks s' else s
  | [] => []
  end.

Fixpoint operator_fields (n : nat) (s : str) : list str :=
  match n with
  | 0 => []
  | S n' =>
      match skip_blanks s with
      | [] => []
      | e => let len := field_length e in
             to_buf 64 (strip WSQ (take len e)) ::
             operator_fields n' (match drop len e with
                                 | c :: r => if ch_eqb c COMMA then r else c :: r
                                 | [] => []
                                 end)
      end
  end.

Definition operator_of (fields : list str) : option Operator :=
  match fields with
  | _ :: l :: s :: n :: rest =>
      Some (mkOperator (fs_set MODEM_MEDIUM_STR l) (fs_set MODEM_MEDIUM_STR s) (fs_set MODEM_SHORT_STR n)
              (match rest with a :: _ => RadioTech_cast (atoi a) | [] => RadioTech_gsm end))
  | _ => None
  end.

(** The parenthesised entries of [body]; each round consumes at least two
    characters, so the length of the body is enough fuel. *)
Fixpoint operators_loop (fuel : nat) (b : str) (operators : list Operator) : list Operator :=
  match fuel with
  | 0 => operators
  | S fuel' =>
      match find_char "("%char b with
      | None => operators
      | Some o =>
          match find_char_from ")"%char b o with
          | None => operators
          | Some c =>
              let entry := substr (o + 1) (c - o - 1) b in
              operators_loop fuel' (drop (S c) b)
                (match operator_of (operator_fields 5 entry) with
                 | Some op => vec_push MAX_OPERATORS operators op
                 | None => operators
                 end)
          end
      end
  end.

Definition get_available_operators (operators : list Operator) : M (ModemStatus * list Operator) :=
  query_parse (lit "AT+COPS=?") 210000 (fun b _ => Some (operators_loop (length b) b [])) operators.

(** ** Network scan *)

(** The view starting at [pos] after blanks, up to the next blank. *)
Definition word_at (line : str) (pos : nat) : str :=
  let s := skip_blanks (drop pos line) in take (until SPACE s) s.

Definition extract_value (line : str) (label : str) : str :=
  match find_sub label line with
  | None => []
  | Some p => word_at line (p + length label)
  end.

(** ["Network survey ended (Carrier: N BCCh: M)"]: the two numbers, when both
    labels are there. *)
Definition survey_summary (line : str) : option (Z * Z) :=
  match find_sub (lit "Carrier:") line, find_sub (lit "BCCh:") line with
  | Some c, Some b => Some (atoi (to_buf 16 (word_at line (c + 8))), atoi (to_buf 16 (word_at line (b + 5))))
  | _, _ => None
  end.

Definition csurv_cell (line : str) : CsurvCell :=
  let value label := to_buf 32 (extract_value line (lit label)) in
  mkCsurvCell (atoi (value "earfcn:")) (atoi (value "rxLev:"))
    (u16 (strtoul 16 (value "mcc:"))) (u16 (strtoul 16 (value "mnc:")))
    (u32 (strtoul 16 (value "cellId:"))) (u32 (strtoul 16 (value "tac:")))
    (strtoul 16 (value "cellIdentity:")).

Definition csurv_line (r : CsurvResult) (line : str) : CsurvResult :=
  match line with
  | [] => r
  | _ =>
      if starts_with (lit "Network survey started") line then r
      else if starts_with (lit "Network survey ended") line then
        let '(a, b) := default (no_arfcn r, no_bcch r) (survey_summary line) in
        mkCsurv (cells r) true a b
      else match extract_value line (lit "earfcn:") with
           | [] => r
           | _ => mkCsurv (vec_push MAX_CELLS (cells r) (csurv_cell line)) (fHasSummary r)
                          (no_arfcn r) (no_bcch r)
           end
  end.

Definition csurv_command (start_ch end_ch : Z) : str :=
  if ((start_ch =? 0) && (end_ch =? 0))%Z then lit "AT#CSURV"
  else snprintf 64 (lit "AT#CSURV=" ++ fmt_u start_ch ++ [COMMA] ++ fmt_u end_ch).

Definition scan_networks (result : CsurvResult) (start_ch end_ch : Z) : M (ModemStatus * CsurvResult) :=
  do (st, r) <- ask (lit "AT#CSURVF=2") 5000;
  if negb (status_eqb st ModemStatus_ok) then st_ret (st, result)
  else
    do (st2, r2) <- send_raw (csurv_command start_ch end_ch) r 120000 true;
    st_ret (if status_eqb st2 ModemStatus_ok
            then (ModemStatus_ok, foldl csurv_line CsurvResult_default (sv_lines (body r2)))
            else (st2, result)).

(** ** Packet data contexts *)

Definition set_apn (cid : Z) (apn : str) : M ModemStatus :=
  send_cmd (snprintf 128 (lit "AT+CGDCONT=" ++ fmt_u cid ++ [COMMA] ++ quoted (lit "IP") ++ [COMMA]
                          ++ quoted (fmt_sv apn))) 5000.

(** The APN a [+CGDCONT] line gives for the context, if it is that context's. *)
Definition apn_of_line (cid : Z) (line : str) : option str :=
  match find_sub (lit "+CGDCONT:") line with
  | None => None
  | Some p =>
      let params := drop (p + 9) line in
      match strip WSQ <$> comma_fields (S (length params)) params with
      | f :: fields =>
          if (u8 (atoi (to_buf 8 f)) =? cid)%Z then (f :: fields) !! 2 else None
      | [] => None
      end
  end.

Fixpoint first_apn (cid : Z) (lines : list str) : option str :=
  match lines with
  | [] => None
  | l :: ls => match apn_of_line cid l with
               | Some a => Some a
               | None => first_apn cid ls
               end
  end.

Definition get_apn (cid : Z) (apn : str) : M (ModemStatus * str) :=
  query_parse (lit "AT+CGDCONT?") 5000
    (fun b _ => fs_set MODEM_MEDIUM_STR <$> first_apn cid (sv_lines b)) apn.

Definition activate_pdp (cid : Z) : M ModemStatus :=
  send_cmd (snprintf 32 (lit "AT#SGACT=1," ++ fmt_u cid)) 5000.
Definition deactivate_pdp (cid : Z) : M ModemStatus :=
  send_cmd (snprintf 32 (lit "AT#SGACT=0," ++ fmt_u cid)) 5000.

(** [response.body[pos + 2]]: the character two places after the match. *)
Definition parse_pdp_state (cid : Z) (b : str) : bool :=
  match find_sub (snprintf 8 (fmt_u cid ++ [COMMA])) b with
  | Some p => match b !! (p + 2) with
              | Some c => ch_eqb c "1"%char
              | None => false
              end
  | None => false
  end.

Definition get_pdp_state (cid : Z) (active : bool) : M (ModemStatus * bool) :=
  query (lit "AT#SGACT?") (fun b _ => parse_pdp_state cid b) active.

Definition parse_ip (b old : str) : str :=
  match find_char DQUOTE b, rfind_char DQUOTE b with
  | Some s, Some e => if s <? e then fs_set MODEM_IP_STR (substr (s + 1) (e - s - 1) b) else old
  | _, _ => old
  end.

Definition get_ip_address (cid : Z) (ip_addr : str) : M (ModemStatus * str) :=
  query (snprintf 32 (lit "AT+CGPADDR=" ++ fmt_u cid)) parse_ip ip_addr.

(** The quoted strings of a body, in order; each round consumes two quotes. *)
Fixpoint quoted_values (fuel : nat) (b : str) : list str :=
  match fuel with
  | 0 => []
  | S fuel' =>
      match find_char DQUOTE b with
      | None => []
      | Some s =>
          match find_char_from DQUOTE b (S s) with
          | None => []
          | Some e => substr (s + 1) (e - s - 1) b :: quoted_values fuel' (drop (S e) b)
          end
      end
  end.

(** [ip_addr], [gw_addr], [dns_primary], [dns_secondary]. *)
Definition get_pdp_info (cid : Z) (out : str * str * str * str) : M (ModemStatus * (str * str * str * str)) :=
  query (snprintf 32 (lit "AT+CGCONTRDP=" ++ fmt_u cid))
    (fun b '(ip, gw, dns1, dns2) =>
       let vs := quoted_values (length b) b in
       let pick i old := match vs !! i with Some v => fs_set MODEM_IP_STR v | None => old end in
       (pick 1 ip, pick 2 gw, pick 3 dns1, pick 4 dns2)) out.

(** ** UDP sockets *)

Definition udp_open (conn_id : Z) (host : str) (remote_port local_port : Z) : M ModemStatus :=
  let local_port := if (local_port =? 0)%Z then remote_port else local_port in
  send_cmd (snprintf 256 (lit "AT#SD=" ++ fmt_u conn_id ++ lit ",1," ++ fmt_u remote_port ++ [COMMA]
                          ++ quoted (fmt_sv host) ++ lit ",0," ++ fmt_u local_port ++ lit ",1,0,1")) 5000.

Definition udp_listen (conn_id local_port cid : Z) : M ModemStatus :=
  send_cmd (snprintf 64 (lit "AT#SL=" ++ fmt_u conn_id ++ lit ",1," ++ fmt_u local_port ++ lit ",255,"
                         ++ fmt_u cid)) 5000.

(** The one command that bypasses [send_raw]: [last_status_] keeps its value. *)
Definition udp_send (conn_id : Z) (bytes : str) : M ModemStatus := fun x =>
  let '((st, _), c) :=
    ctl_send_with_prompt
      (snprintf 64 (lit "AT#SSENDEXT=" ++ fmt_u conn_id ++ [COMMA] ++ fmt_u (Z.of_nat (length bytes))))
      bytes AtResponse_default 5000 (controller_ x) in
  (st, set_ctl c x).

Definition parse_udp (b : str) : str :=
  match find_char LF b with
  | Some p => if p + 1 <? length b then take UDP_MAX_BYTES (drop (p + 1) b) else []
  | None => []
  end.

Definition udp_receive (conn_id : Z) (bytes : str) (max_bytes : Z) : M (ModemStatus * str) :=
  query (snprintf 64 (lit "AT#SRECV=" ++ fmt_u conn_id ++ [COMMA] ++ fmt_u max_bytes))
        (fun b _ => parse_udp b) bytes.

Definition udp_close (conn_id : Z) : M ModemStatus :=
  send_cmd (snprintf 32 (lit "AT#SH=" ++ fmt_u conn_id)) 5000.

Definition udp_status (conn_id : Z) (state : Z) : M (ModemStatus * Z) :=
  query (snprintf 32 (lit "AT#SS=" ++ fmt_u conn_id))
        (fun b old => from_option u8 old (atoi_after_comma b)) state.

Definition send_at_command (command response : str) (timeout_ms : Z) : M (ModemStatus * str) :=
  do (st, r) <- ask command timeout_ms;
  st_ret (st, if status_eqb st ModemStatus_ok then fs_set AT_RESPONSE_MAX (body r) else response).

(** ** GNSS *)

Definition is_gnss_powered : M (ModemStatus * bool) :=
  query (lit "AT$GPSP?") (fun b _ => match find_sub (lit "1") b with Some _ => true | None => false end)
        false.

Definition set_gnss_power (enable : bool) : M ModemStatus :=
  do st <- send_cmd (if enable then lit "AT$GPSP=1" else lit "AT$GPSP=0") 5000;
  do_ (if enable then st_ret ModemStatus_ok else power_radio);
  fun x => (st, mkX (controller_ x) st (info x) (psm_status x)).

Definition set_gnss_urc (enable : bool) : M ModemStatus :=
  send_cmd (if enable then lit "AT$GNSSNMEA=1,4" else lit "AT$GNSSNMEA=0,0") 5000.

Definition parse_gnss (b : str) (p : GnssPosition) : option GnssPosition :=
  match after_colon b with
  | None => None
  | Some params =>
      let fields := (fun t => fs_set MODEM_SHORT_STR (strip_left t)) <$> comma_fields 13 params in
      let pick i old := default old (fields !! i) in
      Some (mkGnss (pick 0 (utc p)) (pick 1 (latitude p)) (pick 2 (longitude p)) (pick 3 (hdop p))
              (pick 4 (altitude p))
              (match fields !! 5 with Some f => GnssFixType_cast (atoi f) | None => fix_ p end)
              (pick 6 (cog p)) (pick 7 (spkm p)) (pick 8 (spkn p)) (pick 9 (date p))
              (match fields !! 10 with Some f => u8 (atoi f) | None => nsat p end)
              (pick 11 (hepe p)) (pick 12 (vepe p)))
  end.

Definition get_gnss_position (p : GnssPosition) : M (ModemStatus * GnssPosition) :=
  query_parse (lit "AT$GPSACP") 5000 parse_gnss p.

(** ** Accessors *)

Definition registration_info (x : xE310 C) : RegistrationInfo := info x.

Definition poll_urc (timeout_ms : Z) : M (list str) := fun x =>
  let '(urcs, c) := ctl_poll_urc timeout_ms (controller_ x) in (urcs, set_ctl c x).

End Driver.
End XE310.
