(* ===== verification/Strtof.v ===== *)
(** * [strtof] and float conversions

    The network survey stores signal levels as [float].  A float is a
    [spec_float] at the binary32 format (precision 24, exponents up to 128), and
    [strtof] rounds the decimal or hexadecimal number it reads to nearest, ties
    to even, as glibc does. *)

From Stdlib Require Export SpecFloat.
From S2P Require Import Prelude CLib.

Definition PREC : Z := 24.
Definition EMAX : Z := 128.

(** The digits of a number: accumulated value, how many were read, the rest. *)
Fixpoint scan_digits (base acc : Z) (n : nat) (s : str) : Z * nat * str :=
  match s with
  | c :: s' =>
      match digit_in base c with
      | Some d => scan_digits base (acc * base + d)%Z (S n) s'
      | None => (acc, n, s)
      end
  | [] => (acc, n, [])
  end.

(** Integer part, optional point and fraction: value of all digits, number of
    digits, how many of them follow the point, the rest. *)
Definition scan_mantissa (base : Z) (s : str) : Z * nat * nat * str :=
  let '(v, n, r) := scan_digits base 0 0 s in
  match r with
  | c :: r' =>
      if ch_eqb c "."%char then
        let '(v', n', r'') := scan_digits base v 0 r' in
        if (n + n' =? 0) then (0%Z, 0, 0, s) else (v', n + n', n', r'')
      else (v, n, 0, r)
  | [] => (v, n, 0, [])
  end.

(** An exponent counts only when a digit follows the letter and the sign. *)
Definition scan_exponent (lower upper : ascii) (s : str) : Z :=
  match s with
  | c :: s' =>
      if ch_eqb c lower || ch_eqb c upper then
        let '(neg, r) := read_sign s' in
        let '(v, n, _) := scan_digits 10 0 0 r in
        if n =? 0 then 0%Z else (if neg then - v else v)%Z
      else 0%Z
  | [] => 0%Z
  end.

Definition signed_zero (neg : bool) : spec_float := S754_zero neg.

(** [m * 10^e], rounded once.  A value of at least [10^39] overflows, and one
    below [10^-46] is less than half the smallest subnormal. *)
Definition round_decimal (neg : bool) (m e : Z) (digits : nat) : spec_float :=
  match m with
  | Zpos p =>
      if (39 <? e)%Z then S754_infinity neg
      else if (e + Z.of_nat digits <? -46)%Z then signed_zero neg
      else if (0 <=? e)%Z then binary_normalize PREC EMAX (if neg then - (m * 10 ^ e) else m * 10 ^ e) 0 neg
      else match (10 ^ (- e))%Z with
           | Zpos q => SFdiv PREC EMAX (S754_finite neg p 0) (S754_finite false q 0)
           | _ => S754_nan
           end
  | _ => signed_zero neg
  end.

(** [m * 2^e], rounded once. *)
Definition round_binary (neg : bool) (m e : Z) (digits : nat) : spec_float :=
  match m with
  | Zpos _ =>
      if (128 <? e)%Z then S754_infinity neg
      else if (e + 4 * Z.of_nat digits <? -160)%Z then signed_zero neg
      else binary_normalize PREC EMAX (if neg then - m else m) e neg
  | _ => signed_zero neg
  end.

Definition to_lower (c : ascii) : ascii :=
  let n := nat_of_ascii c in if (65 <=? n) && (n <=? 90) then ascii_of_nat (n + 32) else c.

(** Does a hexadecimal digit follow ["0x"], after an optional point? *)
Definition is_hex_float (s : str) : bool :=
  match s with
  | z :: x :: r =>
      ch_eqb z "0"%char && ch_eqb (to_lower x) "x"%char &&
      (let '(_, n, _, _) := scan_mantissa 16 r in negb (n =? 0))
  | _ => false
  end.

Definition strtof (s : str) : spec_float :=
  let '(neg, r) := read_sign (skip_spaces (cstr s)) in
  let low := to_lower <$> r in
  if starts_with (lit "inf") low then S754_infinity neg
  else if starts_with (lit "nan") low then S754_nan
  else if is_hex_float r then
    let '(m, n, frac, rest) := scan_mantissa 16 (drop 2 r) in
    round_binary neg m (scan_exponent "p"%char "P"%char rest - 4 * Z.of_nat frac) n
  else
    let '(m, n, frac, rest) := scan_mantissa 10 r in
    if n =? 0 then S754_zero false
    else round_decimal neg m (scan_exponent "e"%char "E"%char rest - Z.of_nat frac) n.

(** [static_cast<int>(f)] truncates; [undefined] stands for the result the
    language leaves undefined (not a number, or out of range). *)
Definition float_to_int (undefined : Z) (f : spec_float) : Z :=
  match f with
  | S754_zero _ => 0
  | S754_finite neg m e =>
      let a := if (0 <=? e)%Z then (Zpos m * 2 ^ e)%Z else (Zpos m / 2 ^ (- e))%Z in
      let v := if neg then (- a)%Z else a in
      if ((- 2 ^ 31 <=? v) && (v <? 2 ^ 31))%Z then v else undefined
  | _ => undefined
  end.

(** Levels as the modem prints them. *)
Example strtof_level : strtof (lit "-87.5") = S754_finite true 11468800 (-17).
Proof. vm_compute. reflexivity. Qed.
Example strtof_tenth : strtof (lit "0.1") = S754_finite false 13421773 (-27).
Proof. vm_compute. reflexivity. Qed.
Example float_to_int_level : float_to_int 0 (strtof (lit "-87.9")) = (-87)%Z.
Proof. vm_compute. reflexivity. Qed.
Example strtof_hex : strtof (lit "0x1.8p1") = strtof (lit "3").
Proof. vm_compute. reflexivity. Qed.
