(* ===== verification/Survey.v ===== *)
(** * Network survey (AT#CSURVC: [parse_surv_line] and [xE310::network_survey] of
      src/xe310.cpp, [SurvCell] and [NetworkSurveyResult] of include/modem/xe310.h) *)

From S2P Require Import Prelude CLib FixedString StaticVector AtCommand ModemController.
From S2P Require Import Xe310Types Strtof Xe310.

Inductive SurvCellType := SurvCellType_cell_2g_bcch | SurvCellType_cell_2g_non_bcch | SurvCellType_cell_4g.

Record SurvCell := mkSurvCell {
  sc_type : SurvCellType;
  sc_arfcn : Z; sc_bsic : Z; sc_rx_lev : Z; sc_ber : Z; sc_mcc : Z; sc_mnc : Z; sc_lac : Z;
  sc_cell_id : Z; sc_cell_stat : str; sc_num_arfcn : Z;
  sc_earfcn : Z; sc_tac : Z; sc_phys_cell_id : Z; sc_cell_identity : Z;
  sc_rsrp : spec_float; sc_rsrq : spec_float }.

Definition F0 : spec_float := S754_zero false.

Definition SurvCell_default : SurvCell :=
  mkSurvCell SurvCellType_cell_4g 0 0 0 0 0 0 0 0 [] 0 0 0 0 0 F0 F0.

Record NetworkSurveyResult := mkSurvey {
  sv_cells : list SurvCell; sv_fHasSummary : bool; sv_no_arfcn : Z; sv_no_bcch : Z }.
Definition NetworkSurveyResult_default : NetworkSurveyResult := mkSurvey [] false 0 0.

(** [strtoul(s, nullptr, 0)]: the prefix chooses the base. *)
Definition strtoul0 (s : str) : Z :=
  let '(_, r) := read_sign (skip_spaces (cstr s)) in
  match r with
  | z :: x :: _ =>
      if ch_eqb z "0"%char then
        if ch_eqb x "x"%char || ch_eqb x "X"%char then strtoul 16 s else strtoul 8 s
      else strtoul 10 s
  | _ => strtoul 10 s
  end.

Section Survey.
Context {C : Type} {HC : Controller C} {HR : Residue}.
Local Open Scope st_scope.

Definition parse_surv_line (line : str) : SurvCell :=
  let fields := (fun t => to_buf 64 t) <$> comma_fields 10 line in
  let f i := default [] (fields !! i) in
  let n := length fields in
  if n =? 2 then
    mkSurvCell SurvCellType_cell_2g_non_bcch (atoi (f 0)) 0 (atoi (f 1)) 0 0 0 0 0 [] 0 0 0 0 0 F0 F0
  else if n =? 7 then
    let level := strtof (f 1) in
    mkSurvCell SurvCellType_cell_4g 0 0 (float_to_int undefined_int level) 0
      (u16 (atoi (f 2))) (u16 (atoi (f 3))) 0 0 [] 0
      (atoi (f 0)) (u32 (atoi (f 5))) (u32 (atoi (f 4))) (u64 (atol (f 6))) level F0
  else if 10 <=? n then
    mkSurvCell SurvCellType_cell_2g_bcch (atoi (f 0)) (atoi (f 1)) (atoi (f 2)) (atoi (f 3))
      (u16 (strtoul 16 (f 4))) (u16 (strtoul 16 (f 5))) (u32 (strtoul0 (f 6))) (u32 (strtoul0 (f 7)))
      (fs_set MODEM_SHORT_STR (f 8)) (atoi (f 9)) 0 0 0 0 F0 F0
  else if 9 <=? n then
    mkSurvCell SurvCellType_cell_4g 0 0 (atoi (f 1)) 0
      (u16 (strtoul 16 (f 2))) (u16 (strtoul 16 (f 3))) 0 0 [] 0
      (atoi (f 0)) (u32 (strtoul 16 (f 5))) (u32 (strtoul 16 (f 4))) (strtoul 16 (f 6))
      (strtof (f 7)) (strtof (f 8))
  else SurvCell_default.

Definition survey_line (r : NetworkSurveyResult) (line : str) : NetworkSurveyResult :=
  match line with
  | [] => r
  | _ =>
      if starts_with (lit "Network survey started") line then r
      else if starts_with (lit "Network survey ended") line then
        let '(a, b) := default (sv_no_arfcn r, sv_no_bcch r) (XE310.survey_summary line) in
        mkSurvey (sv_cells r) true a b
      else mkSurvey (vec_push MAX_CELLS (sv_cells r) (parse_surv_line line)) (sv_fHasSummary r)
                    (sv_no_arfcn r) (sv_no_bcch r)
  end.

Definition survey_command (start_ch end_ch : Z) : str :=
  if ((start_ch =? 0) && (end_ch =? 0))%Z then lit "AT#CSURVC"
  else snprintf 64 (lit "AT#CSURVC=" ++ fmt_u start_ch ++ [COMMA] ++ fmt_u end_ch).

Definition network_survey (result : NetworkSurveyResult) (start_ch end_ch : Z)
  : ST (XE310.xE310 C) (ModemStatus * NetworkSurveyResult) :=
  do (st, r) <- XE310.ask (survey_command start_ch end_ch) 120000;
  st_ret (if status_eqb st ModemStatus_ok
          then (ModemStatus_ok, foldl survey_line NetworkSurveyResult_default (sv_lines (body r)))
          else (st, result)).

End Survey.
