(* ===== verification/Xe310Props.v ===== *)
(** * Properties of the modem driver: what a command says and how a reply is read *)

From S2P Require Import Prelude CLib FixedString StaticVector AtCommand Timer ModemController.
From S2P Require Import ControllerProps Xe310Types Xe310.
Import XE310.

(** ** Splitting what was joined *)

Definition plain (set s : str) : Prop := Forall (fun c => mem set c = false) s.

Lemma find_first_not_of_app set p s :
  Forall (fun c => mem set c = true) p -> plain set s -> s <> [] ->
  find_first_not_of set (p ++ s) = Some (length p).
Proof.
  intros Hp Hs Hne. unfold find_first_not_of. induction Hp as [|c p Hc _ IH]; simpl.
  - destruct Hs as [|c s Hc _]; [done|]. simpl. by rewrite Hc.
  - by rewrite Hc, IH.
Qed.

Lemma find_if_app_Some p s t i : find_if p s = Some i -> find_if p (s ++ t) = Some i.
Proof.
  revert i. induction s as [|c s IH]; intros i; [done|]. simpl. destruct (p c); [done|].
  destruct (find_if p s) as [j|]; [|done]. intros [= <-]. by rewrite (IH j).
Qed.

Lemma strip_sandwich set p s q :
  Forall (fun c => mem set c = true) p -> Forall (fun c => mem set c = true) q ->
  plain set s -> s <> [] -> strip set (p ++ s ++ q) = s.
Proof.
  intros Hp Hq Hs Hne. unfold strip.
  assert (find_first_not_of set (p ++ s ++ q) = Some (length p)) as ->.
  { rewrite app_assoc. apply find_if_app_Some. by apply find_first_not_of_app. }
  assert (find_last_not_of set (p ++ s ++ q) = Some (length p + length s - 1)) as ->.
  { unfold find_last_not_of. rewrite !reverse_app.
    pose proof (find_first_not_of_app set (reverse q) (reverse s)) as Hf. unfold find_first_not_of in Hf.
    rewrite (find_if_app_Some _ _ _ (length (reverse q))).
    - simpl. f_equal. rewrite !length_app, length_reverse. destruct s; [done|simpl; lia].
    - apply Hf; [by apply Forall_reverse|by apply Forall_reverse|].
      intros E. apply (f_equal reverse) in E. rewrite reverse_involutive in E. done. }
  unfold substr. rewrite drop_app_length, take_app_le by (destruct s; [done|simpl; lia]).
  apply take_ge. destruct s; [done|simpl; lia].
Qed.

Lemma comma_fields_join n fs :
  length fs <= n -> Forall (fun f => find_char COMMA f = None) fs -> last fs <> Some [] ->
  comma_fields n (join [COMMA] fs) = fs.
Proof.
  revert n. induction fs as [|f fs IH]; intros n Hn Hf Hl; [by destruct n|].
  destruct n as [|n]; [simpl in Hn; lia|]. inversion Hf as [|? ? Hf1 Hf2]; subst.
  destruct fs as [|g fs].
  - cbn [join]. apply comma_fields_last; [by intros ->|done].
  - change (join [COMMA] (f :: g :: fs)) with (f ++ COMMA :: join [COMMA] (g :: fs)).
    rewrite comma_fields_cons by done. f_equal. apply IH; [simpl in *; lia|done|done].
Qed.

Lemma join_cons_head sep c f fs : join sep ((c :: f) :: fs) = c :: join sep (f :: fs).
Proof. by destruct fs. Qed.

(** ** Numbers as fields *)

Lemma plain_decimal set s :
  Forall (fun c => digit_in 10 c = None) set -> decimal s -> plain set s.
Proof.
  intros Hset Hs. apply (decimal_Forall (mem set)); [|done]. intros d Hd. unfold mem.
  induction Hset as [|c set Hc _ IH]; [reflexivity|].
  cbn [existsb]. rewrite (digit_not' c d Hd Hc), IH. reflexivity.
Qed.

Lemma WSQ_not_digit : Forall (fun c => digit_in 10 c = None) WSQ.
Proof. repeat constructor. Qed.

(** A number, with blanks or quotes around it, is read back as its digits. *)
Lemma field_fmt_u p n :
  Forall (fun c => mem WSQ c = true) p -> (0 <= n <= ULONG_MAX)%Z ->
  to_buf 32 (strip WSQ (p ++ fmt_u n)) = fmt_u n.
Proof.
  intros Hp Hn. pose proof (strip_sandwich WSQ p (fmt_u n) []) as Hs. rewrite app_nil_r in Hs.
  rewrite Hs; [|done|constructor|apply plain_decimal; [apply WSQ_not_digit|apply fmt_u_decimal; lia]|apply fmt_u_ne].
  unfold to_buf. rewrite take_ge by (pose proof (fmt_u_length n Hn); lia).
  apply cstr_decimal, fmt_u_decimal. lia.
Qed.

Lemma field_fmt_u_space n :
  (0 <= n <= ULONG_MAX)%Z -> to_buf 32 (strip WSQ (SPACE :: fmt_u n)) = fmt_u n.
Proof. intros Hn. apply (field_fmt_u [SPACE]); [by repeat constructor|done]. Qed.

Lemma field_fmt_u_bare n : (0 <= n <= ULONG_MAX)%Z -> to_buf 32 (strip WSQ (fmt_u n)) = fmt_u n.
Proof. intros Hn. apply (field_fmt_u []); [constructor|done]. Qed.

Lemma fmt_u_comma n : (0 <= n)%Z -> find_char COMMA (fmt_u n) = None.
Proof. intros Hn. by apply fmt_u_find. Qed.

Lemma space_fmt_u_comma n : (0 <= n)%Z -> find_char COMMA (SPACE :: fmt_u n) = None.
Proof.
  intros Hn. unfold find_char. cbn [find_if]. change (ch_eqb COMMA SPACE) with false. cbv iota.
  change (find_if (ch_eqb COMMA) (fmt_u n)) with (find_char COMMA (fmt_u n)). by rewrite fmt_u_comma.
Qed.

(** A text field in quotes. *)
Lemma field_quoted s :
  plain WSQ s -> s <> [] -> length s <= 31 -> Forall (fun c => ch_eqb c NUL = false) s ->
  to_buf 32 (strip WSQ (quoted s)) = s.
Proof.
  intros Hs Hne Hl Hn. unfold quoted.
  pose proof (strip_sandwich WSQ [DQUOTE] s [DQUOTE]) as Hq. simpl in Hq. rewrite Hq; try done.
  - unfold to_buf. rewrite take_ge by lia. by apply cstr_id.
  - by repeat constructor.
  - by repeat constructor.
Qed.

Section Props.
Context {C : Type} {HC : Controller C} {HR : Residue}.
Implicit Type x : xE310 C.

(** What a query returns when the modem answered [OK]. *)
Lemma query_ok {A} cmd (f : str -> A -> A) out x r c' :
  ctl_send_raw cmd AtResponse_default 5000 true (controller_ x) = ((ModemStatus_ok, r), c') ->
  query cmd f out x = ((ModemStatus_ok, f (body r) out), mkX c' ModemStatus_ok (info x) (psm_status x)).
Proof. intros He. unfold query, ask, send_raw, st_bind, st_ret. by rewrite He. Qed.

Lemma query_parse_ok {A} cmd t (f : str -> A -> option A) out x r c' :
  ctl_send_raw cmd AtResponse_default t true (controller_ x) = ((ModemStatus_ok, r), c') ->
  query_parse cmd t f out x =
  (match f (body r) out with Some a => (ModemStatus_ok, a) | None => (ModemStatus_at_error, out) end,
   mkX c' ModemStatus_ok (info x) (psm_status x)).
Proof. intros He. unfold query_parse, ask, send_raw, st_bind, st_ret. by rewrite He. Qed.

(** ** Bands *)

(** The reply a modem gives for a band configuration. *)
Definition bands_reply (g u l t o : Z) : str := lit "#BND: " ++ drop 7 (bands_command g u l t o).

Lemma parse_bands_reply g u l t o old :
  (0 <= g <= ULONG_MAX)%Z -> (0 <= u <= ULONG_MAX)%Z -> (0 <= l <= ULONG_MAX)%Z ->
  (0 <= t <= ULONG_MAX)%Z -> (0 <= o <= ULONG_MAX)%Z ->
  parse_bands (bands_reply g u l t o) old = Some (mkBands g u l t o).
Proof.
  intros Hg Hu Hl Ht Ho. unfold parse_bands, after_colon.
  assert (bands_reply g u l t o =
    lit "#BND:" ++ join [COMMA] [SPACE :: fmt_u g; fmt_u u; fmt_u l; fmt_u t; fmt_u o]) as -> by done.
  assert (forall s, (fun p => drop (S p) (lit "#BND:" ++ s)) <$> find_char COLON (lit "#BND:" ++ s) = Some s)
    as -> by done.
  rewrite comma_fields_join; [|simpl; lia| |].
  - cbn [fmap list_fmap].
    rewrite field_fmt_u_space, !field_fmt_u_bare by done.
    unfold parse_u64. by rewrite !strtoul_end_fmt_u by done.
  - repeat constructor; (apply space_fmt_u_comma || apply fmt_u_comma); lia.
  - simpl. intros [= E]. by apply fmt_u_ne in E.
Qed.

(** Band masks survive the round trip: [set_bands] writes all five 64-bit
    masks in decimal without running into its 128-byte buffer, and when the modem
    reports them back, [get_bands] returns exactly these masks. *)
Theorem bands_roundtrip x old g u l t o c' :
  (0 <= g <= ULONG_MAX)%Z -> (0 <= u <= ULONG_MAX)%Z -> (0 <= l <= ULONG_MAX)%Z ->
  (0 <= t <= ULONG_MAX)%Z -> (0 <= o <= ULONG_MAX)%Z ->
  ctl_send_raw (lit "AT#BND?") AtResponse_default 5000 true (controller_ x) =
    ((ModemStatus_ok, mkResponse AtStatus_ok (bands_reply g u l t o)), c') ->
  fst (get_bands old x) = (ModemStatus_ok, mkBands g u l t o) /\
  fst (set_bands g u l t o x) = fst (send_cmd (bands_command g u l t o) 5000 x).
Proof.
  intros Hg Hu Hl Ht Ho He. split.
  - unfold get_bands. erewrite query_parse_ok by exact He. cbn [fst body]. by rewrite parse_bands_reply.
  - unfold set_bands. do 2 f_equal. apply take_ge. unfold bands_command. rewrite !length_app. simpl.
    pose proof (fmt_u_length g Hg). pose proof (fmt_u_length u Hu). pose proof (fmt_u_length l Hl).
    pose proof (fmt_u_length t Ht). pose proof (fmt_u_length o Ho). lia.
Qed.

(** ** Registration *)

(** The text of a quoted field: not empty, at most 31 characters, free of commas,
    blanks, quotes and NUL. *)
Definition field_text (s : str) : Prop :=
  s <> [] /\ length s <= 31 /\ plain (COMMA :: NUL :: WSQ) s.

Lemma plain_sub set s c : plain set s -> mem set c = true -> Forall (fun d => ch_eqb d c = false) s.
Proof.
  intros Hs Hc. eapply Forall_impl; [exact Hs|]. intros d Hd. apply Ascii.eqb_neq. intros ->. congruence.
Qed.

Lemma field_text_comma s : field_text s -> find_char COMMA (quoted s) = None.
Proof.
  intros (_ & _ & Hp). apply find_if_None. unfold quoted.
  assert (Forall (fun c => ch_eqb COMMA c = false) s) as Hs.
  { pose proof (plain_sub _ _ COMMA Hp eq_refl) as H. eapply Forall_impl; [exact H|].
    intros c Hc. unfold ch_eqb in *. by rewrite Ascii.eqb_sym. }
  constructor; [reflexivity|]. apply Forall_app. split; [done|]. by repeat constructor.
Qed.

Lemma field_text_quoted s : field_text s -> to_buf 32 (strip WSQ (quoted s)) = s.
Proof.
  intros (Hne & Hl & Hp). apply field_quoted; try done.
  - eapply Forall_impl; [exact Hp|]. intros c Hc. cbn [mem existsb] in Hc. do 2 apply orb_false_iff in Hc as [_ Hc]. exact Hc.
  - by apply (plain_sub _ _ NUL Hp).
Qed.

Lemma field_text_fs s : field_text s -> fs_cstr MODEM_SHORT_STR s = s.
Proof.
  intros (Hne & Hl & Hp). unfold fs_cstr. rewrite cstr_id by (by apply (plain_sub _ _ NUL Hp)).
  apply take_ge. unfold MODEM_SHORT_STR. lia.
Qed.

Definition reg_reply (mode st : Z) (tac cell : str) (act : Z) : str :=
  lit "+CEREG:" ++ join [COMMA] [SPACE :: fmt_u mode; fmt_u st; quoted tac; quoted cell; fmt_u act].

Lemma reg_fields_reply mode st tac cell act :
  (0 <= mode < 2 ^ 31)%Z -> (0 <= st < 2 ^ 31)%Z -> (0 <= act < 2 ^ 31)%Z ->
  field_text tac -> field_text cell ->
  reg_fields (join [COMMA] [SPACE :: fmt_u mode; fmt_u st; quoted tac; quoted cell; fmt_u act]) =
  [fmt_u mode; fmt_u st; tac; cell; fmt_u act].
Proof.
  intros Hm Hs Ha Ht Hc. unfold reg_fields.
  assert (forall n, (0 <= n < 2 ^ 31)%Z -> (0 <= n <= ULONG_MAX)%Z) as Hb by (unfold ULONG_MAX; lia).
  rewrite comma_fields_join; [|simpl; lia| |].
  - cbn [fmap list_fmap].
    rewrite field_fmt_u_space, !field_fmt_u_bare by (by apply Hb). by rewrite !field_text_quoted.
  - repeat constructor; first [apply space_fmt_u_comma; lia|apply fmt_u_comma; lia|by apply field_text_comma].
  - simpl. intros [= E]. by apply fmt_u_ne in E.
Qed.

(** [get_registration_status] reads a full [+CEREG] reply correctly: mode,
    status, tracking area, cell and access technology are the values the modem
    printed, the location flag is set and the other members are untouched. *)
Theorem registration_reply_read x i tech mode st tac cell act_ c' :
  (0 <= mode < 2 ^ 31)%Z -> (0 <= st < 2 ^ 31)%Z -> (0 <= act_ < 2 ^ 31)%Z ->
  field_text tac -> field_text cell ->
  ctl_send_raw (if decide (tech = RadioTech_gsm) then lit "AT+CREG?" else lit "AT+CEREG?")
    AtResponse_default 5000 true (controller_ x) =
    ((ModemStatus_ok, mkResponse AtStatus_ok (reg_reply mode st tac cell act_)), c') ->
  fst (get_registration_status i tech x) =
  (ModemStatus_ok,
   mkReg tac cell (active_time i) (periodic_tau i) (ri_ip_address i) (operator_name i) (apn i)
     (u8 mode) (RegStatus_cast st) (RadioTech_cast act_) true
     (cause_type i) (reject_cause i) (fHasReject i) (fHasPsm i)).
Proof.
  intros Hm Hs Ha Ht Hc He. unfold get_registration_status. erewrite query_parse_ok by exact He.
  cbn [fst body]. unfold after_colon.
  assert (forall s, (fun p => drop (S p) (lit "+CEREG:" ++ s)) <$> find_char COLON (lit "+CEREG:" ++ s) = Some s)
    as Hcol by done.
  unfold reg_reply. rewrite Hcol. cbn [fmap option_fmap option_map]. rewrite reg_fields_reply by done.
  unfold apply_reg_fields.
  cbn -[fs_cstr fmt_u u8 RegStatus_cast RadioTech_cast atoi MODEM_SHORT_STR].
  by rewrite !field_text_fs, !atoi_fmt_u by done.
Qed.

(** ** Packet data context state *)

Definition pdp_reply (cid : Z) (state : ascii) : str := lit "#SGACT: " ++ fmt_u cid ++ [COMMA; state].

Lemma fmt_u_one_digit n : (0 <= n < 10)%Z -> fmt_u n = [digit_char n].
Proof. intros Hn. by apply (digit_cases (fun n => fmt_u n = [digit_char n])). Qed.

Lemma pdp_one_digit cid state :
  (0 <= cid < 10)%Z -> parse_pdp_state cid (pdp_reply cid state) = ch_eqb state "1"%char.
Proof.
  intros Hc. unfold parse_pdp_state, pdp_reply. rewrite fmt_u_one_digit by done.
  by apply (digit_cases (fun cid => match find_sub (snprintf 8 ([digit_char cid] ++ [COMMA]))
      (lit "#SGACT: " ++ [digit_char cid] ++ [COMMA; state]) with
    | Some p => match (lit "#SGACT: " ++ [digit_char cid] ++ [COMMA; state]) !! (p + 2) with
                | Some c => ch_eqb c "1"%char | None => false end
    | None => false end = ch_eqb state "1"%char)).
Qed.

(** What is read for a context number of several digits. *)
Definition misread (cid : Z) : bool := ((100 <=? cid) && (cid mod 10 =? 1))%Z.

Definition several_digits_ok (cid : Z) : bool :=
  forallb (fun st => Bool.eqb (parse_pdp_state cid (pdp_reply cid st)) (misread cid)) ["0"%char; "1"%char].

Lemma pdp_several_digits cid : (10 <= cid <= 255)%Z -> several_digits_ok cid = true.
Proof.
  intros Hc. assert (forallb several_digits_ok (Z.of_nat <$> seq 10 246) = true) as Hall
    by (vm_compute; reflexivity).
  rewrite forallb_forall in Hall. apply Hall. apply List.in_map_iff. exists (Z.to_nat cid).
  split; [lia|]. apply in_seq. lia.
Qed.

(** [get_pdp_state] reads the activation flag for the one-digit context
    numbers only: from context 10 on it looks at a wrong character, so that the
    answer does not depend on the flag (an active context 10 to 99 is reported
    inactive, and an inactive context 101 active). *)
Theorem pdp_state_by_digits x old cid state c' :
  (0 <= cid <= 255)%Z -> state = "0"%char \/ state = "1"%char ->
  ctl_send_raw (lit "AT#SGACT?") AtResponse_default 5000 true (controller_ x) =
    ((ModemStatus_ok, mkResponse AtStatus_ok (pdp_reply cid state)), c') ->
  fst (get_pdp_state cid old x) =
  (ModemStatus_ok, if (cid <? 10)%Z then ch_eqb state "1"%char else misread cid).
Proof.
  intros Hc Hst He. unfold get_pdp_state. erewrite query_ok by exact He. cbn [fst body]. f_equal.
  destruct (cid <? 10)%Z eqn:E; bool_facts; [apply pdp_one_digit; lia|].
  assert (several_digits_ok cid = true) as Hw by (apply pdp_several_digits; lia).
  unfold several_digits_ok in Hw. cbn [forallb] in Hw. bool_facts.
  destruct Hst as [-> | ->]; by apply eqb_prop.
Qed.

(** ** Telit power saving command *)

Definition opt_field (has : bool) (v : Z) : str := if has then fmt_u v else [].

Definition telit_fields (cfg : TelitCpsmsConfig) : list str :=
  [opt_field (tc_fHasPeriodicRau cfg) (tc_req_periodic_rau cfg);
   opt_field (tc_fHasGprsReadyTimer cfg) (tc_req_gprs_ready_timer cfg);
   opt_field (tc_fHasPeriodicTau cfg) (tc_req_periodic_tau cfg);
   opt_field (tc_fHasActiveTime cfg) (tc_req_active_time cfg);
   opt_field (tc_fHasPsmVersion cfg) (PsmVersion_val (tc_psm_version cfg));
   opt_field (tc_fHasPsmThreshold cfg) (tc_psm_threshold cfg)].

Definition telit_numbers_ok (cfg : TelitCpsmsConfig) : Prop :=
  Forall (fun v => 0 <= v <= ULONG_MAX)%Z
    [tc_req_periodic_rau cfg; tc_req_gprs_ready_timer cfg; tc_req_periodic_tau cfg;
     tc_req_active_time cfg; tc_psm_threshold cfg].

Lemma opt_field_length has v : (0 <= v <= ULONG_MAX)%Z -> length (opt_field has v) <= 20.
Proof. intros Hv. destruct has; simpl; [by apply fmt_u_length|lia]. Qed.

Lemma telit_command_join cfg :
  telit_psm_command cfg =
  lit "AT#CPSMS=" ++ join [COMMA] (fmt_d (PsmMode_val (tc_mode cfg)) :: take (telit_last cfg) (telit_fields cfg)).
Proof.
  unfold telit_psm_command, telit_fields, telit_last, append_opt, opt_field.
  destruct (tc_fHasPsmThreshold cfg), (tc_fHasPsmVersion cfg), (tc_fHasActiveTime cfg),
    (tc_fHasPeriodicTau cfg), (tc_fHasGprsReadyTimer cfg), (tc_fHasPeriodicRau cfg);
    cbn [Nat.leb take join app]; rewrite <- ?app_assoc; cbn [app]; rewrite ?app_nil_r; reflexivity.
Qed.

Lemma append_opt_length last field has v :
  (0 <= v <= ULONG_MAX)%Z -> length (append_opt last field has v) <= 21.
Proof.
  intros Hv. unfold append_opt. case_goal; [|simpl; lia].
  pose proof (opt_field_length has v Hv). unfold opt_field in *. simpl. lia.
Qed.

Lemma PsmVersion_val_range v : (0 <= PsmVersion_val v <= ULONG_MAX)%Z.
Proof. unfold ULONG_MAX. destruct v; simpl; lia. Qed.

(** The [AT#CPSMS] command lists its parameters by position: after the mode
    come the six optional fields in order, absent ones empty, cut after the last
    present one; for 32-bit values nothing is lost to the 256-byte buffer. *)
Theorem telit_psm_command_positions x cfg :
  telit_numbers_ok cfg -> (0 <= PsmMode_val (tc_mode cfg) <= 255)%Z ->
  set_telit_psm cfg x =
  send_cmd (lit "AT#CPSMS=" ++
            join [COMMA] (fmt_d (PsmMode_val (tc_mode cfg)) :: take (telit_last cfg) (telit_fields cfg))) 5000 x.
Proof.
  intros Hn Hm. unfold set_telit_psm. rewrite <- telit_command_join. f_equal. apply take_ge.
  unfold telit_numbers_ok in Hn. rewrite !Forall_cons in Hn. destruct Hn as (H1 & H2 & H3 & H4 & H5 & _).
  unfold telit_psm_command. rewrite !length_app.
  assert (length (fmt_d (PsmMode_val (tc_mode cfg))) <= 21).
  { unfold fmt_d. case_goal; bool_facts; [lia|]. etransitivity; [apply fmt_u_length; unfold ULONG_MAX; lia|lia]. }
  pose proof (append_opt_length (telit_last cfg) 1 (tc_fHasPeriodicRau cfg) _ H1).
  pose proof (append_opt_length (telit_last cfg) 2 (tc_fHasGprsReadyTimer cfg) _ H2).
  pose proof (append_opt_length (telit_last cfg) 3 (tc_fHasPeriodicTau cfg) _ H3).
  pose proof (append_opt_length (telit_last cfg) 4 (tc_fHasActiveTime cfg) _ H4).
  pose proof (append_opt_length (telit_last cfg) 5 (tc_fHasPsmVersion cfg) _ (PsmVersion_val_range (tc_psm_version cfg))).
  pose proof (append_opt_length (telit_last cfg) 6 (tc_fHasPsmThreshold cfg) _ H5).
  cbn [length lit String.list_ascii_of_string]. lia.
Qed.

(** ** The status of the last command *)

(** Switching the GNSS receiver off also restarts the radio, but the status
    returned and remembered is that of the GNSS command; sending a datagram does
    not touch the remembered status at all. *)
Lemma last_status_kept x conn bytes st r c1 st2 r2 c2 :
  ctl_send_raw (lit "AT$GPSP=0") AtResponse_default 5000 true (controller_ x) = ((st, r), c1) ->
  ctl_send_raw (lit "AT+CFUN=1") AtResponse_default 15000 true c1 = ((st2, r2), c2) ->
  set_gnss_power false x = (st, mkX c2 st (info x) (psm_status x)) /\
  last_status_ (snd (udp_send conn bytes x)) = last_status_ x.
Proof.
  intros H1 H2. split.
  - unfold set_gnss_power, power_radio, send_cmd, ask, send_raw, st_bind, st_ret.
    rewrite H1. cbn [controller_]. by rewrite H2.
  - unfold udp_send. by destruct (ctl_send_with_prompt _ _ _ _ _) as [[? ?] ?].
Qed.

End Props.

(** ** Datagrams, from the wire to the caller *)

(** What the modem sends for [AT#SRECV]: a header line, the datagram, [OK]. *)
Definition udp_wire (header payload : str) : str :=
  CRLF ++ header ++ CRLF ++ payload ++ CRLF ++ CRLF ++ lit "OK" ++ CRLF.

Lemma sv_lines_blank rest : sv_lines (CRLF ++ rest) = [] :: sv_lines rest.
Proof. exact (sv_lines_cons [] rest eq_refl). Qed.

Lemma udp_wire_lines header payload :
  no_crlf header -> no_crlf payload ->
  sv_lines (udp_wire header payload) = [[]; header; payload; []; lit "OK"].
Proof.
  intros Hh Hp. unfold udp_wire. rewrite sv_lines_blank.
  rewrite sv_lines_cons, sv_lines_cons, sv_lines_blank by done.
  assert (sv_lines (lit "OK" ++ CRLF) = [lit "OK"]) as ->; reflexivity.
Qed.

Lemma is_payload_ne l : is_payload l = true -> l <> [].
Proof. unfold is_payload. intros H ->. done. Qed.

Section Datagrams.
Context {E : Type} {HP : Platform E} {HL : @PlatformLaws E HP} {HR : Residue}.
Implicit Type x : xE310 (ModemController E).

Definition recv_command (conn max : Z) : str :=
  snprintf 64 (lit "AT#SRECV=" ++ fmt_u conn ++ [COMMA] ++ fmt_u max).

(** The modem answers the receive command with [wire] in one read. *)
Definition answers (x : xE310 (ModemController E)) (conn max : Z) (wire : str) : Prop :=
  exists e1 e2 e3,
    lock_for 5000 (env (controller_ x)) = (true, e1) /\ is_open (set_env e1 (controller_ x)) = true /\
    uart_write (full_cmd (command_string (at_command (recv_command conn max) 5000))) e1 = (UartError_ok, e2) /\
    uart_read READ_SIZE 5000 e2 = (UartError_ok, wire, e3).

Lemma answers_query x conn max wire old :
  answers x conn max wire -> status (parse_response wire) = AtStatus_ok ->
  fst (udp_receive conn old max x) = (ModemStatus_ok, parse_udp (body (parse_response wire))).
Proof using HL.
  intros (e1 & e2 & e3 & Hl & Ho & Hw & Hr) Hst.
  unfold udp_receive, query, ask, send_raw, st_bind, st_ret. fold (recv_command conn max).
  cbn [ctl_send_raw ModemController_Controller]. unfold ModemController.send_raw.
  pose proof (send_command_first (at_command (recv_command conn max) 5000) AtResponse_default
    (controller_ x) e1 e2 wire e3 Hl Ho Hw eq_refl Hr) as [Hf _].
  rewrite Hst in Hf. cbn [reply_result] in Hf.
  destruct (send_command _ _ _) as [res m]. cbn [fst] in Hf. subst res. cbv beta iota zeta. done.
Qed.

Lemma udp_wire_body header payload :
  no_crlf header -> no_crlf payload -> is_payload header = true ->
  length header + length payload <= 500 ->
  parse_response (udp_wire header payload) =
  mkResponse AtStatus_ok (if is_payload payload then header ++ CRLF ++ payload else header).
Proof.
  intros Hh Hp Hih Hlen. rewrite parse_response_ne by done. rewrite udp_wire_lines by done.
  f_equal. unfold reply_body. cbn [List.filter]. rewrite Hih.
  change (is_payload []) with false. change (is_payload (lit "OK")) with false. cbv iota.
  destruct (is_payload payload); cbn [join]; apply take_ge; rewrite ?length_app; unfold AT_RESPONSE_MAX;
    simpl; lia.
Qed.

Lemma parse_udp_after_header header payload :
  find_char LF header = None -> payload <> [] -> length payload <= UDP_MAX_BYTES ->
  parse_udp (header ++ CRLF ++ payload) = payload.
Proof.
  intros Hh Hne Hl. unfold parse_udp.
  assert (header ++ CRLF ++ payload = (header ++ [CR]) ++ LF :: payload) as Heq
    by (by rewrite <- app_assoc).
  rewrite Heq, find_char_app.
  - assert (length (header ++ [CR]) + 1 <? length ((header ++ [CR]) ++ LF :: payload) = true) as ->.
    { apply Nat.ltb_lt. rewrite !length_app. simpl. destruct payload; [done|simpl; lia]. }
    replace (length (header ++ [CR]) + 1) with (length ((header ++ [CR]) ++ [LF]))
      by (rewrite !length_app; simpl; lia).
    assert ((header ++ [CR]) ++ LF :: payload = ((header ++ [CR]) ++ [LF]) ++ payload) as ->
      by (by rewrite <- (app_assoc _ [LF])).
    rewrite drop_app_length. by apply take_ge.
  - unfold find_char. rewrite find_if_app_None by done. reflexivity.
Qed.

(** A datagram is delivered unchanged, from the bytes on the serial line to
    the caller of [udp_receive]: when the reply fits one read and the datagram
    has no line break and is not itself a status line, the buffer returned is
    exactly the datagram. *)
Theorem udp_receive_delivers x conn max old header payload :
  answers x conn max (udp_wire header payload) ->
  no_crlf header -> no_crlf payload -> is_payload header = true -> is_payload payload = true ->
  find_char LF header = None -> length header + length payload <= 500 ->
  fst (udp_receive conn old max x) = (ModemStatus_ok, payload).
Proof using HL.
  intros Ha Hh Hp Hih Hip Hlf Hlen. erewrite answers_query; [|exact Ha|]; rewrite udp_wire_body by done; [|done].
  rewrite Hip. cbn [body]. rewrite parse_udp_after_header; [done|done|by apply is_payload_ne|].
  unfold UDP_MAX_BYTES. lia.
Qed.

(** A datagram whose text is one of the modem's own status lines ([OK],
    [ERROR], [BUSY], [+CME ERROR:...]) is lost: [udp_receive] reports success
    with an empty buffer. *)
Theorem udp_receive_loses_status_text x conn max old header payload :
  answers x conn max (udp_wire header payload) ->
  no_crlf header -> no_crlf payload -> is_payload header = true -> line_status payload <> None ->
  find_char LF header = None -> length header + length payload <= 500 ->
  fst (udp_receive conn old max x) = (ModemStatus_ok, []).
Proof using HL.
  intros Ha Hh Hp Hih Hip Hlf Hlen. erewrite answers_query; [|exact Ha|]; rewrite udp_wire_body by done; [|done].
  assert (is_payload payload = false) as ->.
  { unfold is_payload. destruct (line_status payload); [by rewrite andb_false_r|done]. }
  cbn [body]. unfold parse_udp. by rewrite Hlf.
Qed.

End Datagrams.

(** ** Witnesses: a modem that answers one command *)

Import Scripted.

(** The wire form of a reply with one line. *)
Definition one_line (l : str) : str := CRLF ++ l ++ CRLF ++ CRLF ++ lit "OK" ++ CRLF.

Definition driver (chunks : list str) : xE310 (ModemController World) := xE310_init (world chunks).

(** The controller after the first command. *)
Definition after_cmd (cmd : str) (t : Z) (c : ModemController World) : ModemController World :=
  snd (ctl_send_raw cmd AtResponse_default t true c).

Lemma bands_roundtrip_witness :
  fst (get_bands BandConfig_default (driver [one_line (bands_reply 0 0 524420 0 ULONG_MAX)])) =
    (ModemStatus_ok, mkBands 0 0 524420 0 ULONG_MAX).
Proof.
  refine (proj1 (bands_roundtrip (driver [one_line (bands_reply 0 0 524420 0 ULONG_MAX)]) BandConfig_default
    0 0 524420 0 ULONG_MAX
    (after_cmd (lit "AT#BND?") 5000 (world [one_line (bands_reply 0 0 524420 0 ULONG_MAX)])) _ _ _ _ _ _));
    [unfold ULONG_MAX; lia..|vm_compute; reflexivity].
Defined.

Lemma registration_reply_read_witness :
  stat (snd (fst (get_registration_status RegistrationInfo_default RadioTech_cat_m1
    (driver [one_line (reg_reply 4 5 (lit "1A2B") (lit "01F3C502") 7)])))) = RegStatus_registered_roaming.
Proof.
  rewrite (registration_reply_read (driver [one_line (reg_reply 4 5 (lit "1A2B") (lit "01F3C502") 7)])
    RegistrationInfo_default RadioTech_cat_m1 4 5 (lit "1A2B") (lit "01F3C502") 7
    (after_cmd (lit "AT+CEREG?") 5000 (world [one_line (reg_reply 4 5 (lit "1A2B") (lit "01F3C502") 7)])));
    [reflexivity|lia|lia|lia| | |vm_compute; reflexivity].
  - split; [done|]. split; [simpl; lia|]. by repeat constructor.
  - split; [done|]. split; [simpl; lia|]. by repeat constructor.
Defined.

(** The active context 12 is reported inactive. *)
Lemma pdp_state_by_digits_witness :
  fst (get_pdp_state 12 true (driver [one_line (pdp_reply 12 "1"%char)])) = (ModemStatus_ok, false).
Proof.
  apply (pdp_state_by_digits (driver [one_line (pdp_reply 12 "1"%char)]) true 12 "1"%char
    (after_cmd (lit "AT#SGACT?") 5000 (world [one_line (pdp_reply 12 "1"%char)])));
    [lia|by right|vm_compute; reflexivity].
Defined.

Definition psm_example : TelitCpsmsConfig :=
  mkTelitCfg PsmMode_enable false 0 false 0 true 3600 true 60 false PsmVersion_rel12_retain false 60.

Lemma telit_psm_command_positions_witness :
  written (env (controller_ (snd (set_telit_psm psm_example (driver []))))) =
    replicate 3 (lit "AT#CPSMS=1,,,3600,60" ++ CRLF).
Proof.
  rewrite (telit_psm_command_positions (driver []) psm_example); [vm_compute; reflexivity| |simpl; lia].
  repeat constructor; unfold ULONG_MAX; simpl; lia.
Defined.

Lemma last_status_kept_witness :
  fst (set_gnss_power false (driver [CRLF ++ lit "ERROR" ++ CRLF; one_line (lit "x")])) = ModemStatus_at_error.
Proof.
  destruct (last_status_kept (driver [CRLF ++ lit "ERROR" ++ CRLF; one_line (lit "x")]) 1 []
    ModemStatus_at_error (mkResponse AtStatus_error [])
    (after_cmd (lit "AT$GPSP=0") 5000 (world [CRLF ++ lit "ERROR" ++ CRLF; one_line (lit "x")]))
    ModemStatus_ok (mkResponse AtStatus_ok (lit "x"))
    (after_cmd (lit "AT+CFUN=1") 15000
      (after_cmd (lit "AT$GPSP=0") 5000 (world [CRLF ++ lit "ERROR" ++ CRLF; one_line (lit "x")])))) as [H _];
    [vm_compute; reflexivity|vm_compute; reflexivity|].
  by rewrite H.
Defined.

Definition srecv_header : str := lit "#SRECV: 1,5".

Lemma answers_scripted wire :
  take READ_SIZE wire = wire -> wire <> [] -> answers (driver [wire]) 1 1500 wire.
Proof.
  intros Ht Hne. exists (mkWorld true [wire] 0 []).
  exists (mkWorld true [wire] 0 [full_cmd (command_string (at_command (recv_command 1 1500) 5000))]).
  exists (mkWorld true [] 0 [full_cmd (command_string (at_command (recv_command 1 1500) 5000))]).
  repeat split. cbn [uart_read World_Platform read replies opened clock written]. rewrite Ht.
  destruct wire as [|c w]; [done|].
  assert (drop READ_SIZE (c :: w) = []) as ->; [|done].
  apply drop_ge. rewrite <- Ht, length_take. lia.
Qed.

Lemma udp_receive_delivers_witness :
  fst (udp_receive 1 [] 1500 (driver [udp_wire srecv_header (lit "hello")])) = (ModemStatus_ok, lit "hello").
Proof.
  apply (udp_receive_delivers (driver [udp_wire srecv_header (lit "hello")]) 1 1500 [] srecv_header (lit "hello"));
    [by apply answers_scripted|reflexivity..|simpl; lia].
Defined.

Lemma udp_receive_loses_status_text_witness :
  fst (udp_receive 1 [] 1500 (driver [udp_wire (lit "#SRECV: 1,2") (lit "OK")])) = (ModemStatus_ok, []).
Proof.
  apply (udp_receive_loses_status_text (driver [udp_wire (lit "#SRECV: 1,2") (lit "OK")]) 1 1500 []
    (lit "#SRECV: 1,2") (lit "OK"));
    [by apply answers_scripted|reflexivity|reflexivity|reflexivity|done|reflexivity|simpl; lia].
Defined.
