(* ===== verification/OperatorProps.v ===== *)
(** * Round trips of the operator list and of the power-saving settings

    What [get_available_operators] and [get_psm] of the driver read when the modem
    prints a list of operators, with or without the lists of supported modes that end
    such a reply, or the settings [set_psm] sent it. *)

From S2P Require Import Prelude CLib FixedString StaticVector AtCommand Timer ModemController.
From S2P Require Import ControllerProps Xe310Types Xe310 Xe310Props.
Import XE310.

(** ** Fields with quotes *)

(** The first and the last character of [s] are not in [set]. *)
Definition edges (set s : str) : Prop :=
  (exists c, head s = Some c /\ mem set c = false) /\ (exists c, last s = Some c /\ mem set c = false).

Lemma first_not_of_edge set p s c :
  Forall (fun c => mem set c = true) p -> head s = Some c -> mem set c = false ->
  find_if (fun c => negb (mem set c)) (p ++ s) = Some (length p).
Proof.
  intros Hp Hh Hc. induction Hp as [|d p Hd _ IH]; simpl.
  - destruct s; simplify_eq/=. by rewrite Hc.
  - by rewrite Hd, IH.
Qed.

Lemma head_app_ne {A} (s t : list A) c : head s = Some c -> head (s ++ t) = Some c.
Proof. by destruct s. Qed.

Lemma strip_edges set p s q :
  Forall (fun c => mem set c = true) p -> Forall (fun c => mem set c = true) q -> edges set s ->
  strip set (p ++ s ++ q) = s.
Proof.
  intros Hp Hq [(c & Hh & Hc) (d & Hl & Hd)]. unfold strip.
  assert (s <> []) as Hne by (by intros ->).
  assert (find_first_not_of set (p ++ s ++ q) = Some (length p)) as ->.
  { by apply (first_not_of_edge set p (s ++ q) c); [|apply head_app_ne|]. }
  assert (find_last_not_of set (p ++ s ++ q) = Some (length p + length s - 1)) as ->.
  { unfold find_last_not_of. rewrite !reverse_app, <- app_assoc, (first_not_of_edge set (reverse q) _ d).
    - simpl. f_equal. rewrite !length_app, length_reverse. destruct s; [done|simpl; lia].
    - by apply Forall_reverse.
    - apply head_app_ne. by rewrite head_reverse.
    - done. }
  unfold substr. rewrite drop_app_length, take_app_le by (destruct s; [done|simpl; lia]).
  apply take_ge. destruct s; [done|simpl; lia].
Qed.

(** The text of a quoted field of at most [n] characters: any text without quotes,
    closing parentheses and NUL that does not begin or end with a blank, or none. *)
Definition PAREN_OPEN : ascii := "("%char.
Definition PAREN_CLOSE : ascii := ")"%char.

Definition quoted_text (n : nat) (s : str) : Prop :=
  length s <= n /\ plain [DQUOTE; PAREN_CLOSE; NUL] s /\ (s = [] \/ edges WSQ s).

Lemma quoted_text_strip s : quoted_text 63 s -> to_buf 64 (strip WSQ (quoted s)) = s.
Proof.
  intros (Hl & Hp & He). unfold to_buf, quoted.
  assert (strip WSQ (DQUOTE :: s ++ [DQUOTE]) = s) as ->.
  { destruct He as [->|He]; [done|]. apply (strip_edges WSQ [DQUOTE] s [DQUOTE]); [by repeat constructor..|done]. }
  rewrite take_ge by lia. apply cstr_id. by apply (plain_sub _ _ NUL Hp).
Qed.

Lemma find_char_plain set s c : plain set s -> mem set c = true -> find_char c s = None.
Proof.
  intros Hs Hc. apply find_if_None. apply (Forall_impl _ _ _ (plain_sub _ _ c Hs Hc)). intros d Hd.
  unfold ch_eqb in *. by rewrite Ascii.eqb_sym.
Qed.

(** ** One entry *)

Lemma until_app c s t : find_char c s = None -> until c (s ++ c :: t) = length s.
Proof. intros H. unfold until. by rewrite find_char_app. Qed.

Lemma until_none c s : find_char c s = None -> until c s = length s.
Proof. intros H. unfold until. by rewrite H. Qed.

Lemma quoted_length s rest : find_char DQUOTE s = None -> field_length (quoted s ++ COMMA :: rest) = length (quoted s).
Proof.
  intros Hq. unfold quoted. cbn [app field_length]. rewrite ch_eqb_refl, <- app_assoc. cbn [app].
  rewrite until_app by done.
  assert (length s <? length (s ++ DQUOTE :: COMMA :: rest) = true) as ->
    by (apply Nat.ltb_lt; rewrite length_app; simpl; lia).
  assert (drop (1 + length s + 1) (DQUOTE :: s ++ DQUOTE :: COMMA :: rest) = COMMA :: rest) as ->.
  { replace (1 + length s + 1) with (S (length s + 1)) by lia. cbn [drop].
    rewrite drop_app_ge by lia. by replace (length s + 1 - length s) with 1 by lia. }
  unfold until. cbn. rewrite length_app. simpl. lia.
Qed.

(** The loop takes a quoted field and the comma after it. *)
Lemma fields_quoted n s rest :
  find_char DQUOTE s = None ->
  operator_fields (S n) (quoted s ++ COMMA :: rest) = to_buf 64 (strip WSQ (quoted s)) :: operator_fields n rest.
Proof.
  intros Hq. cbn [operator_fields].
  assert (skip_blanks (quoted s ++ COMMA :: rest) = quoted s ++ COMMA :: rest) as -> by done.
  assert (exists c t, quoted s ++ COMMA :: rest = c :: t) as (c & t & E) by (unfold quoted; cbn; eauto).
  rewrite E, <- E, quoted_length by done. by rewrite take_app_length, drop_app_length.
Qed.

(** And a number. *)
Lemma number_skip m rest : (0 <= m)%Z -> skip_blanks (fmt_u m ++ rest) = fmt_u m ++ rest.
Proof.
  intros Hm. destruct (fmt_u_head m Hm) as (d & t & Hd & ->). cbn. by rewrite (digit_not' SPACE d Hd eq_refl).
Qed.

Lemma number_length m rest :
  (0 <= m)%Z -> field_length (fmt_u m ++ rest) = until COMMA (fmt_u m ++ rest).
Proof.
  intros Hm. destruct (fmt_u_head m Hm) as (d & t & Hd & ->). cbn [app field_length].
  by rewrite (digit_not' DQUOTE d Hd eq_refl).
Qed.

Lemma field_number m : (0 <= m <= ULONG_MAX)%Z -> to_buf 64 (strip WSQ (fmt_u m)) = fmt_u m.
Proof.
  intros Hm. rewrite mem_false_first;
    [|apply plain_decimal; [apply WSQ_not_digit|apply fmt_u_decimal; lia]|apply fmt_u_ne].
  unfold to_buf. rewrite take_ge by (pose proof (fmt_u_length m Hm); lia). apply cstr_decimal, fmt_u_decimal. lia.
Qed.

Lemma fields_number n m rest :
  (0 <= m <= ULONG_MAX)%Z ->
  operator_fields (S n) (fmt_u m ++ COMMA :: rest) = fmt_u m :: operator_fields n rest.
Proof.
  intros Hm. cbn [operator_fields]. rewrite number_skip by lia.
  destruct (fmt_u m ++ COMMA :: rest) as [|c t] eqn:E; [by destruct (fmt_u m)|].
  rewrite <- E, number_length, until_app by (lia || by apply fmt_u_comma; lia).
  by rewrite take_app_length, drop_app_length, field_number.
Qed.

Lemma fields_last n m : (0 <= m <= ULONG_MAX)%Z -> operator_fields (S n) (fmt_u m) = [fmt_u m].
Proof.
  intros Hm. cbn [operator_fields]. pose proof (number_skip m [] ltac:(lia)) as Hs.
  pose proof (number_length m [] ltac:(lia)) as Hl. rewrite app_nil_r in *. rewrite Hs.
  destruct (fmt_u m) as [|c t] eqn:E; [by destruct (fmt_u_ne m)|]. rewrite <- E in *.
  rewrite Hl, until_none by (apply fmt_u_comma; lia).
  rewrite take_ge by lia. rewrite drop_ge by lia. rewrite field_number by done. by destruct n.
Qed.

(** ** The list *)

(** An operator as the modem prints it: availability, names, number and technology. *)
Record entry := mkEntry { e_stat : Z; e_long : str; e_short : str; e_numeric : str; e_act : Z }.

Definition entry_ok (e : entry) : Prop :=
  (0 <= e_stat e <= ULONG_MAX)%Z /\ (0 <= e_act e < 2 ^ 31)%Z /\
  quoted_text 63 (e_long e) /\ quoted_text 63 (e_short e) /\ quoted_text 32 (e_numeric e).

Definition entry_fields (e : entry) : str :=
  fmt_u (e_stat e) ++ COMMA :: quoted (e_long e) ++ COMMA :: quoted (e_short e) ++ COMMA ::
  quoted (e_numeric e) ++ COMMA :: fmt_u (e_act e).

Definition entry_text (e : entry) : str := PAREN_OPEN :: entry_fields e ++ [PAREN_CLOSE].

Definition entry_operator (e : entry) : Operator :=
  mkOperator (e_long e) (e_short e) (e_numeric e) (RadioTech_cast (e_act e)).

Lemma quoted_text_mono n m s : n <= m -> quoted_text n s -> quoted_text m s.
Proof. intros Hn (? & ? & ?). split; [lia|done]. Qed.

Lemma quoted_text_dquote n s : quoted_text n s -> find_char DQUOTE s = None.
Proof. intros (_ & Hp & _). by apply (find_char_plain _ _ _ Hp). Qed.

Lemma entry_read e : entry_ok e -> operator_of (operator_fields 5 (entry_fields e)) = Some (entry_operator e).
Proof.
  intros (Hs & Ha & Hl & Hsh & Hn). unfold entry_fields.
  assert (0 <= e_act e <= ULONG_MAX)%Z by (unfold ULONG_MAX; lia).
  pose proof (quoted_text_mono 32 63 _ ltac:(lia) Hn) as Hn'.
  rewrite fields_number, !fields_quoted by (done || by eapply quoted_text_dquote).
  rewrite fields_last, !quoted_text_strip by done. cbn [operator_of]. unfold entry_operator, fs_set.
  destruct Hl as [Hl _], Hsh as [Hsh _], Hn as [Hn _].
  rewrite !take_ge by (unfold MODEM_MEDIUM_STR, MODEM_SHORT_STR; lia). by rewrite atoi_fmt_u.
Qed.

Lemma find_char_split c s t : find_char c s = None -> find_char c t = None -> find_char c (s ++ t) = None.
Proof. unfold find_char. intros Hs Ht. rewrite (find_if_app_None _ _ _ Hs). by rewrite Ht. Qed.

Lemma find_char_cons c d s : ch_eqb c d = false -> find_char c s = None -> find_char c (d :: s) = None.
Proof. unfold find_char. intros Hd Hs. cbn. by rewrite Hd, Hs. Qed.

Lemma quoted_no_close n s : quoted_text n s -> find_char PAREN_CLOSE (quoted s) = None.
Proof.
  intros (_ & Hp & _). unfold quoted. apply find_char_cons; [done|]. apply find_char_split; [|done].
  by apply (find_char_plain _ _ _ Hp).
Qed.

Lemma entry_no_close e : entry_ok e -> find_char PAREN_CLOSE (entry_fields e) = None.
Proof.
  intros (Hs & Ha & Hl & Hsh & Hn). unfold entry_fields.
  repeat first [by apply fmt_u_find; [lia|]|by eapply quoted_no_close|apply find_char_split|apply find_char_cons; [done|]].
Qed.

(** One round of the loop, on a body that goes on with a parenthesised entry. *)
Lemma loop_entry fuel pre fields rest ops :
  find_char PAREN_OPEN pre = None -> find_char PAREN_CLOSE fields = None ->
  operators_loop (S fuel) (pre ++ PAREN_OPEN :: fields ++ PAREN_CLOSE :: rest) ops =
  operators_loop fuel rest
    (match operator_of (operator_fields 5 fields) with
     | Some op => vec_push MAX_OPERATORS ops op
     | None => ops
     end).
Proof.
  intros Hpre Hf. cbn [operators_loop]. fold PAREN_OPEN PAREN_CLOSE. rewrite find_char_app by done.
  assert (find_char_from PAREN_CLOSE (pre ++ PAREN_OPEN :: fields ++ PAREN_CLOSE :: rest) (length pre) =
    Some (length pre + S (length fields))) as ->.
  { unfold find_char_from. rewrite drop_app_length.
    assert (find_char PAREN_CLOSE ((PAREN_OPEN :: fields) ++ PAREN_CLOSE :: rest) = Some (length (PAREN_OPEN :: fields))) as E.
    { apply find_char_app. by apply find_char_cons. }
    cbn [app] in E. rewrite E. done. }
  assert (substr (length pre + 1) (length pre + S (length fields) - length pre - 1)
    (pre ++ PAREN_OPEN :: fields ++ PAREN_CLOSE :: rest) = fields) as ->.
  { unfold substr. rewrite drop_app_ge by lia. replace (length pre + 1 - length pre) with 1 by lia. cbn [drop].
    rewrite drop_0. replace (length pre + S (length fields) - length pre - 1) with (length fields) by lia. apply take_app_length. }
  f_equal. rewrite drop_app_ge by lia. replace (S (length pre + S (length fields)) - length pre) with (S (S (length fields))) by lia.
  cbn [drop]. rewrite drop_app_ge by lia. by replace (S (length fields) - length fields) with 1 by lia.
Qed.

Lemma vec_push_room {T} cap (l : list T) x : length l < cap -> vec_push cap l x = l ++ [x].
Proof. intros H. unfold vec_push. by rewrite (proj2 (Nat.ltb_lt _ _) H). Qed.

(** The loop reads the entries one by one. *)
Lemma loop_entries entries fuel pre e tail ops :
  find_char PAREN_OPEN pre = None -> Forall entry_ok (e :: entries) ->
  length ops + length (e :: entries) <= MAX_OPERATORS ->
  operators_loop (length (e :: entries) + fuel) (pre ++ join [COMMA] (entry_text <$> e :: entries) ++ tail) ops =
  operators_loop fuel tail (ops ++ (entry_operator <$> e :: entries)).
Proof.
  revert pre e ops. induction entries as [|e' entries IH]; intros pre e ops Hpre Hok Hlen;
    apply Forall_cons_1 in Hok as [He Hok].
  - cbn [fmap list_fmap join length]. unfold entry_text. cbn [app]. rewrite <- app_assoc.
    cbn [app Nat.add]. rewrite loop_entry by (done || by apply entry_no_close). rewrite entry_read by done.
    rewrite vec_push_room by (cbn in Hlen; lia). done.
  - change (join [COMMA] (entry_text <$> e :: e' :: entries))
      with (entry_text e ++ [COMMA] ++ join [COMMA] (entry_text <$> e' :: entries)).
    unfold entry_text at 1. cbn [app]. rewrite <- !app_assoc. cbn [app].
    change (length (e :: e' :: entries) + fuel) with (S (length (e' :: entries) + fuel)).
    rewrite loop_entry by (done || by apply entry_no_close). rewrite entry_read by done.
    rewrite vec_push_room by (cbn in Hlen; lia).
    etransitivity; [apply (IH [COMMA] e' (ops ++ [entry_operator e])); [done|done|rewrite length_app; cbn in *; lia]|].
    by rewrite <- app_assoc.
Qed.

Lemma loop_rest fuel b ops : find_char PAREN_OPEN b = None -> operators_loop fuel b ops = ops.
Proof. intros H. destruct fuel; [done|]. cbn [operators_loop]. fold PAREN_OPEN. by rewrite H. Qed.

(** The reply to [AT+COPS=?]: the operators, and what follows them. *)
Definition cops_reply (entries : list entry) (tail : str) : str :=
  lit "+COPS: " ++ join [COMMA] (entry_text <$> entries) ++ tail.

(** The supported modes and formats, which the modem adds to the list. *)
Definition modes_tail : str := lit ",,(0,1,2,3,4),(0,1,2)".

(** What the parser takes the list of modes for. *)
Definition modes_operator : Operator := mkOperator (lit "1") (lit "2") (lit "3") (RadioTech_other 4).

Lemma loop_modes fuel ops :
  operators_loop (S (S fuel)) modes_tail ops = vec_push MAX_OPERATORS ops modes_operator.
Proof.
  change modes_tail with (lit ",," ++ PAREN_OPEN :: lit "0,1,2,3,4" ++ PAREN_CLOSE :: (lit ",(0,1,2)")).
  rewrite loop_entry by done.
  change (lit ",(0,1,2)") with ([COMMA] ++ PAREN_OPEN :: lit "0,1,2" ++ PAREN_CLOSE :: []).
  rewrite loop_entry by done. by rewrite loop_rest.
Qed.

Lemma length_entry_text e : 2 <= length (entry_text e).
Proof. unfold entry_text. rewrite length_cons, length_app. simpl. lia. Qed.

Lemma length_join_entries entries tail :
  2 * length entries <= length (join [COMMA] (entry_text <$> entries) ++ tail).
Proof.
  induction entries as [|e [|e' entries] IH]; [simpl; lia| |].
  - cbn [fmap list_fmap join]. rewrite length_app. pose proof (length_entry_text e). cbn [length]. lia.
  - change (join [COMMA] (entry_text <$> e :: e' :: entries))
      with (entry_text e ++ [COMMA] ++ join [COMMA] (entry_text <$> e' :: entries)).
    rewrite <- !app_assoc, !length_app. rewrite length_app in IH. pose proof (length_entry_text e). cbn [length] in *. lia.
Qed.

Lemma operators_read entries tail ops' :
  Forall entry_ok entries -> length entries <= MAX_OPERATORS ->
  (forall fuel, operators_loop (3 + fuel) (match entries with [] => lit "+COPS: " ++ tail | _ => tail end)
     (entry_operator <$> entries) = ops') ->
  operators_loop (length (cops_reply entries tail)) (cops_reply entries tail) [] = ops'.
Proof.
  intros Hok Hlen Hrest. pose proof (length_join_entries entries tail) as Hl.
  assert (exists fuel, length (cops_reply entries tail) = length entries + (3 + fuel)) as [fuel ->].
  { unfold cops_reply. rewrite length_app. exists (length (lit "+COPS: ") + length (join [COMMA] (entry_text <$> entries) ++ tail) - length entries - 3).
    change (length (lit "+COPS: ")) with 7. lia. }
  destruct entries as [|e entries]; [apply Hrest|]. unfold cops_reply. by rewrite loop_entries.
Qed.

Section Lists.
Context {C : Type} {HC : Controller C} {HR : Residue}.
Implicit Type x : xE310 C.


(** ** Power saving *)

(** A timer setting as [set_psm] writes it: a short text without commas, quotes and
    NUL, or none. *)
Definition timer_text (s : str) : Prop := length s <= 30 /\ plain [COMMA; DQUOTE; NUL] s.

(** The settings of a modem that was sent [psm_command]. *)
Definition psm_reply (cfg : CpsmsConfig) : str := lit "+CPSMS: " ++ drop 9 (psm_command cfg).

Lemma timer_text_comma s : timer_text s -> find_char COMMA (opt_quoted s) = None.
Proof.
  intros (_ & Hp). unfold opt_quoted. destruct s as [|c s]; [done|]. set (t := c :: s) in *.
  rewrite cstr_id by (by apply (plain_sub _ _ NUL Hp)). unfold quoted. apply find_char_cons; [done|].
  apply find_char_split; [|done]. by apply (find_char_plain _ _ _ Hp).
Qed.

Lemma opt_quoted_length s : timer_text s -> length (opt_quoted s) <= 32.
Proof.
  intros (Hl & _). unfold opt_quoted. destruct s as [|c s]; [simpl; lia|]. unfold quoted. rewrite length_cons, length_app.
  pose proof (length_cstr (c :: s)). simpl in *. lia.
Qed.

Lemma strip_quotes_quoted t : strip_quotes (quoted t) = t.
Proof.
  assert (last (quoted t) = Some DQUOTE) as Hl by (unfold quoted; rewrite app_comm_cons; apply last_snoc).
  assert (length (quoted t) = length t + 2) as Hq by (unfold quoted; rewrite length_cons, length_app; simpl; lia).
  unfold strip_quotes. destruct (quoted t) as [|a l] eqn:E; [done|]. rewrite Hl, Hq.
  unfold quoted in E. injection E as <- <-. rewrite !ch_eqb_refl, (proj2 (Nat.leb_le 2 (length t + 2))) by lia. cbn [andb].
  unfold substr. cbn [drop]. rewrite drop_0. replace (length t + 2 - 2) with (length t) by lia. apply take_app_length.
Qed.

Lemma timer_text_read s : timer_text s -> fs_set MODEM_SHORT_STR (strip_quotes (fs_set MODEM_SHORT_STR (strip_left (opt_quoted s)))) = s.
Proof.
  intros (Hl & Hp). unfold opt_quoted. destruct s as [|c s]; [done|]. set (t := c :: s) in *.
  rewrite cstr_id by (by apply (plain_sub _ _ NUL Hp)).
  assert (strip_left (quoted t) = quoted t) as -> by done.
  assert (length (quoted t) = length t + 2) as Hq by (unfold quoted; rewrite length_cons, length_app; simpl; lia).
  unfold fs_set, MODEM_SHORT_STR. rewrite (take_ge (quoted t)) by lia.
  rewrite strip_quotes_quoted. by rewrite take_ge by lia.
Qed.

(** The power-saving settings make the round trip: what [set_psm] writes for a
    configuration with an active time, some of the other timers set and some not, fits
    its buffer, and when the modem reports these settings [get_psm] returns the same
    configuration, unset timers included, whatever the argument held before. *)
Theorem psm_roundtrip x old cfg c' :
  cp_mode cfg = PsmMode_disable \/ cp_mode cfg = PsmMode_enable ->
  timer_text (req_periodic_rau cfg) -> timer_text (req_gprs_ready_timer cfg) ->
  timer_text (req_periodic_tau cfg) -> timer_text (req_active_time cfg) -> req_active_time cfg <> [] ->
  ctl_send_raw (lit "AT+CPSMS?") AtResponse_default 5000 true (controller_ x) =
    ((ModemStatus_ok, mkResponse AtStatus_ok (psm_reply cfg)), c') ->
  fst (get_psm old x) = (ModemStatus_ok, cfg) /\
  fst (set_psm cfg x) = fst (send_cmd (psm_command cfg) 5000 x).
Proof.
  intros Hm Hr Hg Ht Ha Hne He.
  assert (psm_command cfg = lit "AT+CPSMS=" ++ join [COMMA] [fmt_d (PsmMode_val (cp_mode cfg));
    opt_quoted (req_periodic_rau cfg); opt_quoted (req_gprs_ready_timer cfg);
    opt_quoted (req_periodic_tau cfg); opt_quoted (req_active_time cfg)]) as Hcmd.
  { unfold psm_command. destruct (req_periodic_rau cfg), (req_gprs_ready_timer cfg), (req_periodic_tau cfg), (req_active_time cfg); done. }
  split.
  - unfold get_psm. erewrite query_parse_ok by exact He. cbn [fst body]. unfold parse_psm, after_colon, psm_reply. rewrite Hcmd.
    set (params := join [COMMA] _).
    assert ((fun p => drop (S p) (lit "+CPSMS: " ++ drop 9 (lit "AT+CPSMS=" ++ params))) <$>
      find_char COLON (lit "+CPSMS: " ++ drop 9 (lit "AT+CPSMS=" ++ params)) = Some (SPACE :: params)) as -> by done.
    unfold params. rewrite <- join_cons_head, comma_fields_join; [|simpl; lia| |].
    + cbn [fmap list_fmap lookup list_lookup]. rewrite !timer_text_read by done.
      do 2 f_equal. destruct cfg as [mode rau gprs tau active]. cbn [cp_mode] in *. f_equal.
      by destruct Hm as [-> | ->].
    + repeat constructor; try by apply timer_text_comma. by destruct Hm as [-> | ->].
    + cbn. by destruct (req_active_time cfg).
  - unfold set_psm. do 2 f_equal. apply take_ge. rewrite Hcmd. pose proof (opt_quoted_length _ Hr).
    pose proof (opt_quoted_length _ Hg). pose proof (opt_quoted_length _ Ht). pose proof (opt_quoted_length _ Ha).
    cbn [join]. rewrite !length_app. change (length (lit "AT+CPSMS=")) with 9. cbn [length].
    assert (length (fmt_d (PsmMode_val (cp_mode cfg))) = 1) as -> by (by destruct Hm as [-> | ->]). lia.
Qed.
End Lists.

(** ** Witnesses *)

Import Scripted.

(** A closing parenthesis inside a name ends the entry: the operator is lost. *)
Example operator_with_parenthesis_lost :
  fst (get_available_operators []
    (driver [one_line (cops_reply [mkEntry 2 (lit "Tele (2)") (lit "T2") (lit "24007") 7] [])])) = (ModemStatus_ok, []).
Proof. vm_compute. reflexivity. Qed.

Definition quoted_textb (n : nat) (s : str) : bool :=
  (length s <=? n) && forallb (fun c => negb (mem [DQUOTE; PAREN_CLOSE; NUL] c)) s &&
  match head s, last s with
  | Some c, Some d => negb (mem WSQ c) && negb (mem WSQ d)
  | _, _ => bool_decide (s = [])
  end.

Lemma quoted_textb_ok n s : quoted_textb n s = true -> quoted_text n s.
Proof.
  unfold quoted_textb. intros H. apply andb_true_iff in H as [H He]. apply andb_true_iff in H as [Hl Hp]. bool_facts.
  split; [done|]. split.
  - apply Forall_forall. intros c Hc. apply forallb_forall with (x := c) in Hp; [by apply negb_true_iff|].
    by apply list_elem_of_In.
  - destruct (head s) as [c|] eqn:Eh, (last s) as [d|] eqn:El; try (left; by apply bool_decide_eq_true in He).
    right. apply andb_true_iff in He as [H1 H2]. apply negb_true_iff in H1, H2. split; eauto.
Qed.

Definition operators_example : list entry :=
  [mkEntry 2 (lit "Vodafone P, (PT") (lit "Vodafone") (lit "26801") 7; mkEntry 1 (lit "NOS") [] (lit "26803") 9].

Definition operators_script : list str := [one_line (cops_reply operators_example modes_tail)].


Definition psm_settings : CpsmsConfig := mkCpsms PsmMode_enable [] [] (lit "00100001") (lit "00000010").

Lemma psm_roundtrip_witness :
  fst (get_psm CpsmsConfig_default (driver [one_line (psm_reply psm_settings)])) = (ModemStatus_ok, psm_settings).
Proof.
  apply (psm_roundtrip (driver [one_line (psm_reply psm_settings)]) CpsmsConfig_default psm_settings
    (after_cmd (lit "AT+CPSMS?") 5000 (world [one_line (psm_reply psm_settings)])));
    [by right|split; [cbn; lia|by repeat constructor]..|done|vm_compute; reflexivity].
Defined.
