(* ===== verification/Trace.v ===== *)
(** * States, events, actions and the trace ring buffer
      (include/modem/network_lte.h; [push_trace]/[pop_trace] of src/network_lte.cpp) *)

From S2P Require Import Prelude Ring.

Inductive NetworkLteState :=
| State_none | State_rebooting | State_switched_off | State_off_mode | State_sleep_mode
| State_setup_mode | State_idle_mode | State_network_detached | State_network_attaching
| State_pdp_context_closed | State_pdp_context_opening | State_data_ready
| State_transparent_mode | State_modem_fota | State_gnss_fix_mode | State_done.

#[export] Instance NetworkLteState_eq_dec : EqDecision NetworkLteState.
Proof. solve_decision. Defined.

Inductive NetworkLteEvent :=
| Event_none | Event_psm_enter | Event_psm_exit | Event_network_detached | Event_network_attached
| Event_context_opened | Event_context_closed | Event_context_rejected | Event_data_available
| Event_gps_available | Event_attach_started | Event_pdp_opening | Event_timeout
| Event_network_error | Event_attach_error | Event_context_error | Event_at_command_no_response.

#[export] Instance NetworkLteEvent_eq_dec : EqDecision NetworkLteEvent.
Proof. solve_decision. Defined.

Inductive ModemAction :=
| Action_none | Action_reboot | Action_factory_reset | Action_check_responsiveness | Action_power_on
| Action_power_off | Action_turn_on_radio | Action_switch_off_radio | Action_enter_sleep
| Action_wake_up | Action_setup_radio | Action_query_network_status | Action_query_pdp_context
| Action_attach_network | Action_open_pdp_context | Action_send_data | Action_read_data
| Action_data_complete | Action_enter_transparent_mode | Action_leave_transparent_mode
| Action_enter_gnss_fix | Action_leave_gnss_fix.

#[export] Instance ModemAction_eq_dec : EqDecision ModemAction.
Proof. solve_decision. Defined.

Inductive NetworkTraceKind :=
| Trace_state_change | Trace_event_set | Trace_action_set | Trace_error.

Record NetworkTraceEntry := mkEntry {
  kind : NetworkTraceKind; previous_state : NetworkLteState; current_state : NetworkLteState;
  te_event : NetworkLteEvent; te_action : ModemAction }.
Definition NetworkTraceEntry_default : NetworkTraceEntry :=
  mkEntry Trace_state_change State_none State_none Event_none Action_none.

Definition is_error_event (e : NetworkLteEvent) : bool :=
  match e with
  | Event_network_error | Event_attach_error | Event_context_error
  | Event_at_command_no_response => true
  | _ => false
  end.

(** ** The ring buffer *)

Definition TRACE_CAPACITY : nat := 10.

Record Trace := mkTrace {
  trace_buffer_ : list NetworkTraceEntry; trace_head_ : nat; trace_count_ : nat }.

Definition Trace_init : Trace := mkTrace (replicate TRACE_CAPACITY NetworkTraceEntry_default) 0 0.

Definition push_trace (entry : NetworkTraceEntry) (t : Trace) : Trace :=
  if trace_count_ t <? TRACE_CAPACITY then
    let write_index := (trace_head_ t + trace_count_ t) mod TRACE_CAPACITY in
    mkTrace (<[write_index := entry]> (trace_buffer_ t)) (trace_head_ t) (S (trace_count_ t))
  else
    let write_index := trace_head_ t in
    mkTrace (<[write_index := entry]> (trace_buffer_ t)) ((trace_head_ t + 1) mod TRACE_CAPACITY)
            (trace_count_ t).

(** [waited] is the trace once [wait_for_data] has the lock again: what other
    threads pushed meanwhile, or the trace itself when the time is over. *)
Definition pop_trace (waited : Trace -> Trace) (t : Trace) : option NetworkTraceEntry * Trace :=
  let t := if trace_count_ t =? 0 then waited t else t in
  if trace_count_ t =? 0 then (None, t)
  else (trace_buffer_ t !! trace_head_ t,
        mkTrace (trace_buffer_ t) ((trace_head_ t + 1) mod TRACE_CAPACITY) (trace_count_ t - 1)).

(** ** Specification: the last ten entries, oldest first *)

Definition trace_rel (t : Trace) (l : list NetworkTraceEntry) : Prop :=
  trace_count_ t = length l /\ ring_rel TRACE_CAPACITY (trace_head_ t) (trace_buffer_ t) l.

Definition spec_push_trace (e : NetworkTraceEntry) (l : list NetworkTraceEntry) : list NetworkTraceEntry :=
  drop (length l + 1 - TRACE_CAPACITY) (l ++ [e]).

Inductive trace_op := TPush (e : NetworkTraceEntry) | TPop.

(** One call by a single thread, with what a pop returns. *)
Definition trace_step (t : Trace) (op : trace_op) : option NetworkTraceEntry * Trace :=
  match op with
  | TPush e => (None, push_trace e t)
  | TPop => pop_trace id t
  end.

Definition trace_spec (l : list NetworkTraceEntry) (op : trace_op)
  : option NetworkTraceEntry * list NetworkTraceEntry :=
  match op with
  | TPush e => (None, spec_push_trace e l)
  | TPop => (head l, tail l)
  end.

Lemma trace_init_rel : trace_rel Trace_init [].
Proof. split; [done|]. apply ring_rel_nil. unfold TRACE_CAPACITY. lia. Qed.

Lemma push_trace_rel e t l : trace_rel t l -> trace_rel (push_trace e t) (spec_push_trace e l).
Proof.
  intros [Hc Hr]. unfold push_trace, spec_push_trace, trace_rel. rewrite Hc.
  pose proof Hr as (_ & _ & Hl & _).
  destruct (length l <? TRACE_CAPACITY) eqn:El; bool_facts; cbn [trace_buffer_ trace_head_ trace_count_].
  - replace (length l + 1 - TRACE_CAPACITY) with 0 by lia. rewrite drop_0, length_app.
    split; [simpl; lia|by apply ring_push].
  - destruct l as [|y l]; [unfold TRACE_CAPACITY in *; simpl in *; lia|].
    replace (length (y :: l) + 1 - TRACE_CAPACITY) with 1 by lia.
    change (drop 1 ((y :: l) ++ [e])) with (l ++ [e]). rewrite length_app. split; [simpl; lia|]. apply (ring_overwrite _ _ _ y); [done|lia].
Qed.

Lemma pop_trace_rel t l :
  trace_rel t l -> fst (pop_trace id t) = head l /\ trace_rel (snd (pop_trace id t)) (tail l).
Proof.
  intros [Hc Hr]. unfold pop_trace.
  assert ((if trace_count_ t =? 0 then id t else t) = t) as -> by (by destruct (trace_count_ t =? 0)).
  rewrite Hc. destruct l as [|x l]; cbn [length Nat.eqb head tail fst snd]; [done|].
  destruct (ring_pop _ _ _ _ _ Hr) as [Hx Hp]. split; [done|]. split; [simpl; lia|done].
Qed.

Lemma trace_step_rel t l op :
  trace_rel t l ->
  fst (trace_step t op) = fst (trace_spec l op) /\ trace_rel (snd (trace_step t op)) (snd (trace_spec l op)).
Proof. intros Hr. destruct op as [e|]; [split; [done|by apply push_trace_rel]|by apply pop_trace_rel]. Qed.

(** The trace ring buffer is a bounded queue that drops its oldest entry:
    for every script of pushes and pops, the pops return what they would on a
    list cut to its last ten entries. *)
Theorem trace_buffer_refines (ops : list trace_op) :
  fst (run_script trace_step Trace_init ops) = fst (run_script trace_spec [] ops) /\
  trace_rel (snd (run_script trace_step Trace_init ops)) (snd (run_script trace_spec [] ops)).
Proof. apply (run_script_sim trace_rel); [apply trace_step_rel|apply trace_init_rel]. Qed.
