(* ===== verification/TraceMutex.v ===== *)
(** * Blocking reads of the trace (include/hal/trace_mutex.h, [pop_trace] of
      src/network_lte.cpp)

    [TraceMutex] is a mutex with a condition variable.  A wait releases the mutex,
    so the trace may be another one when it returns: the kernel's or the library's
    wait is a parameter that takes and gives both the world [W], which holds the
    clock, and the trace.  Both versions of [wait_for_data] meet one contract,
    [WaitLaws], and the blocking [pop_trace] is proved against it. *)

From S2P Require Import Prelude Ring Trace.

(** ** [wait_for_data] *)

(** Zephyr: [k_uptime_get] and [k_condvar_wait] with a time in milliseconds. *)
Class KCondvar (W : Type) := {
  kc_uptime_get : W -> Z;
  k_condvar_wait : Z -> W -> Trace -> W * Trace }.

(** The standard library: the clock of [wait_for] and
    [std::condition_variable::wait_until]. *)
Inductive cv_status := cv_no_timeout | cv_timeout.
Class StdCondvar (W : Type) := {
  steady_now : W -> Z;
  wait_until : Z -> W -> Trace -> cv_status * W * Trace }.

Module ZephyrMutex.
Section Wait.
Context {W : Type} {HC : KCondvar W}.

(** [while (count == 0U)]. *)
Fixpoint wait_loop (fuel : nat) (deadline : Z) (w : W) (t : Trace) : Outcome (bool * W * Trace) :=
  match fuel with
  | 0 => NoFuel
  | S fuel' =>
      if negb (trace_count_ t =? 0) then Done (true, w, t)
      else
        let remaining := (deadline - kc_uptime_get w)%Z in
        if (remaining <=? 0)%Z then Done (false, w, t)
        else let '(w, t) := k_condvar_wait remaining w t in wait_loop fuel' deadline w t
  end.

Definition wait_for_data (fuel : nat) (timeout_ms : Z) (w : W) (t : Trace) : Outcome (bool * W * Trace) :=
  if 0 <? trace_count_ t then Done (true, w, t)
  else if (timeout_ms =? 0)%Z then Done (false, w, t)
  else
    let deadline := (kc_uptime_get w + timeout_ms)%Z in
    wait_loop fuel deadline w t.

End Wait.
End ZephyrMutex.

Module StdMutex.
Section Wait.
Context {W : Type} {HC : StdCondvar W}.

(** [cv_.wait_for(lk, rel_time, has_data)] is [wait_until] with a predicate:
    [while (!pred()) if (wait_until(lk, abs_time) == timeout) return pred()]. *)
Fixpoint wait_until_pred (fuel : nat) (abs_time : Z) (w : W) (t : Trace) : Outcome (bool * W * Trace) :=
  match fuel with
  | 0 => NoFuel
  | S fuel' =>
      if 0 <? trace_count_ t then Done (true, w, t)
      else
        let '(status, w, t) := wait_until abs_time w t in
        match status with
        | cv_timeout => Done (0 <? trace_count_ t, w, t)
        | cv_no_timeout => wait_until_pred fuel' abs_time w t
        end
  end.

Definition wait_for_data (fuel : nat) (timeout_ms : Z) (w : W) (t : Trace) : Outcome (bool * W * Trace) :=
  if (timeout_ms =? 0)%Z then Done (0 <? trace_count_ t, w, t)
  else wait_until_pred fuel (steady_now w + timeout_ms) w t.

End Wait.
End StdMutex.

(** ** What waiting promises *)

(** [clock] is the platform's clock; [wakeups w] bounds how often the waiting
    thread is still woken before its time is over, by a signal or spuriously. *)
Class WaitLaws (W : Type) (clock : W -> Z) (wakeups : W -> nat)
  (wait_for_data : nat -> Z -> W -> Trace -> Outcome (bool * W * Trace)) : Prop := {
  waits fuel timeout_ms w t l :
    trace_rel t l -> (0 <= timeout_ms)%Z -> wakeups w + 1 < fuel ->
    exists ok w' t' l', wait_for_data fuel timeout_ms w t = Done (ok, w', t') /\
      trace_rel t' l' /\ ok = negb (length l' =? 0) /\
      (l <> [] -> w' = w /\ t' = t) /\
      (ok = false -> (clock w + timeout_ms <= clock w')%Z) }.

(** Other threads use the trace through its operations; a wait of [ms] ends after
    [ms], or earlier by using up a wake-up. *)
Class KCondvarLaws (W : Type) {HC : KCondvar W} := {
  k_wakeups : W -> nat;
  k_wait_trace ms w t l : trace_rel t l -> exists l', trace_rel (snd (k_condvar_wait ms w t)) l';
  k_wait_time ms w t : (0 < ms)%Z ->
    let w' := fst (k_condvar_wait ms w t) in
    (kc_uptime_get w + ms <= kc_uptime_get w')%Z \/ k_wakeups w' < k_wakeups w }.

Class StdCondvarLaws (W : Type) {HC : StdCondvar W} := {
  std_wakeups : W -> nat;
  std_wait_trace abs w t l : trace_rel t l -> exists l', trace_rel (snd (wait_until abs w t)) l';
  std_wait_time abs w t :
    let '(status, w', _) := wait_until abs w t in
    match status with
    | cv_timeout => (abs <= steady_now w')%Z
    | cv_no_timeout => std_wakeups w' < std_wakeups w
    end }.

Lemma trace_count_pos t l : trace_rel t l -> (0 <? trace_count_ t) = negb (length l =? 0).
Proof. intros [-> _]. by destruct (length l). Qed.

Lemma negb_length_nil {A} (l : list A) : l <> [] -> negb (length l =? 0) = true.
Proof. by destruct l. Qed.

Lemma pop_trace_id t :
  pop_trace id t =
  if trace_count_ t =? 0 then (None, t)
  else (trace_buffer_ t !! trace_head_ t,
        mkTrace (trace_buffer_ t) ((trace_head_ t + 1) mod TRACE_CAPACITY) (trace_count_ t - 1)).
Proof. unfold pop_trace, id. by destruct (trace_count_ t =? 0) eqn:E; rewrite ?E. Qed.

Lemma trace_rel_inj t l l' : trace_rel t l -> trace_rel t l' -> l = l'.
Proof.
  intros [Hc (_ & _ & _ & Hr)] [Hc' (_ & _ & _ & Hr')]. apply (list_eq_same_length l l' (length l)); [congruence|congruence|].
  intros i x y _ Hx Hy. apply Hr in Hx. apply Hr' in Hy. congruence.
Qed.

Section Zephyr.
Context {W : Type} {HC : KCondvar W} {HL : KCondvarLaws W}.

Lemma zephyr_loop_ends deadline fuel w t l :
  trace_rel t l -> (k_wakeups w + 1 < fuel \/ (deadline <= kc_uptime_get w)%Z /\ 0 < fuel) ->
  exists ok w' t' l', ZephyrMutex.wait_loop fuel deadline w t = Done (ok, w', t') /\
    trace_rel t' l' /\ ok = negb (length l' =? 0) /\ (ok = false -> (deadline <= kc_uptime_get w')%Z).
Proof.
  revert w t l. induction fuel as [|fuel IH]; intros w t l Hr Hf; [lia|]. cbn [ZephyrMutex.wait_loop].
  pose proof Hr as [Hc _]. rewrite Hc.
  destruct (length l =? 0) eqn:El; cbn [negb].
  2:{ exists true, w, t, l. by rewrite El. }
  destruct (deadline - kc_uptime_get w <=? 0)%Z eqn:Er; bool_facts.
  { exists false, w, t, l. split_and!; try done; [by rewrite El|lia]. }
  pose proof (k_wait_time _ w t Er) as Ht.
  destruct (k_wait_trace (deadline - kc_uptime_get w)%Z w t l Hr) as [l' Hl'].
  destruct (k_condvar_wait _ w t) as [w' t']. cbv zeta in Ht. cbn [fst snd] in *. apply (IH w' t' l' Hl'). lia.
Qed.

#[export] Instance zephyr_wait_laws : WaitLaws W kc_uptime_get k_wakeups ZephyrMutex.wait_for_data.
Proof.
  split. intros fuel timeout_ms w t l Hr Ht Hf. unfold ZephyrMutex.wait_for_data. rewrite (trace_count_pos t l Hr).
  destruct (negb (length l =? 0)) eqn:El; [by exists true, w, t, l|].
  destruct (Z.eqb_spec timeout_ms 0).
  { exists false, w, t, l. split_and!; [done|done|done|done|lia]. }
  destruct (zephyr_loop_ends (kc_uptime_get w + timeout_ms)%Z fuel w t l Hr ltac:(lia)) as (ok & w' & t' & l' & -> & H1 & H2 & H3).
  exists ok, w', t', l'. split_and!; try done; intros Hn; by rewrite (negb_length_nil _ Hn) in El.
Qed.
End Zephyr.

Section Std.
Context {W : Type} {HC : StdCondvar W} {HL : StdCondvarLaws W}.

Lemma std_loop_ends abs fuel w t l :
  trace_rel t l -> std_wakeups w + 1 < fuel ->
  exists ok w' t' l', StdMutex.wait_until_pred fuel abs w t = Done (ok, w', t') /\
    trace_rel t' l' /\ ok = negb (length l' =? 0) /\ (l <> [] -> w' = w /\ t' = t) /\
    (ok = false -> (abs <= steady_now w')%Z).
Proof.
  revert w t l. induction fuel as [|fuel IH]; intros w t l Hr Hf; [lia|]. cbn [StdMutex.wait_until_pred].
  rewrite (trace_count_pos t l Hr). destruct (negb (length l =? 0)) eqn:El; [by exists true, w, t, l|].
  pose proof (std_wait_time abs w t) as Ht. destruct (std_wait_trace abs w t l Hr) as [l' Hl'].
  destruct (wait_until abs w t) as [[status w'] t']. cbn [snd] in Hl'. destruct status.
  - destruct (IH w' t' l' Hl' ltac:(lia)) as (ok & w2 & t2 & l2 & -> & H1 & H2 & _ & H3).
    exists ok, w2, t2, l2. split_and!; try done; intros Hn; by rewrite (negb_length_nil _ Hn) in El.
  - exists (0 <? trace_count_ t'), w', t', l'. rewrite (trace_count_pos t' l' Hl').
    split_and!; try done; intros Hn; by rewrite (negb_length_nil _ Hn) in El.
Qed.

#[export] Instance std_wait_laws : WaitLaws W steady_now std_wakeups StdMutex.wait_for_data.
Proof.
  split. intros fuel timeout_ms w t l Hr Ht Hf. unfold StdMutex.wait_for_data.
  destruct (Z.eqb_spec timeout_ms 0).
  - exists (0 <? trace_count_ t), w, t, l. rewrite (trace_count_pos t l Hr). split_and!; [done|done|done|done|lia].
  - by apply std_loop_ends.
Qed.
End Std.

(** ** The blocking [pop_trace] *)

Section Pop.
Context {W : Type} {clock : W -> Z} {wakeups : W -> nat}.
Variable wait_for_data : nat -> Z -> W -> Trace -> Outcome (bool * W * Trace).

Definition pop_trace_blocking (fuel : nat) (timeout_ms : Z) (w : W) (t : Trace)
  : Outcome (option NetworkTraceEntry * W * Trace) :=
  match wait_for_data fuel timeout_ms w t with
  | Done (false, w, t) => Done (None, w, t)
  | Done (true, w, t) =>
      match trace_buffer_ t !! trace_head_ t with
      | Some entry => Done (Some entry, w, mkTrace (trace_buffer_ t) ((trace_head_ t + 1) mod TRACE_CAPACITY) (trace_count_ t - 1))
      | None => Undef
      end
  | Undef => Undef
  | NoFuel => NoFuel
  end.

Context {HL : WaitLaws W clock wakeups wait_for_data}.

(** The trace the entry is taken from: the one at the call when it has entries, the
    one the wait leaves otherwise. *)
Lemma pop_blocking_ends fuel timeout_ms w t l :
  trace_rel t l -> (0 <= timeout_ms)%Z -> wakeups w + 1 < fuel ->
  exists w' t' l', pop_trace_blocking fuel timeout_ms w t = Done (head l', w', t') /\ trace_rel t' (tail l') /\
    (l <> [] -> w' = w /\ l' = l) /\
    (head l' = None -> (clock w + timeout_ms <= clock w')%Z) /\
    (exists waited, pop_trace waited t = (head l', t')).
Proof using HL.
  intros Hr Ht Hf. destruct (waits fuel timeout_ms w t l Hr Ht Hf) as (ok & w' & t' & l' & E & Hr' & Hok & Hn & Hto).
  unfold pop_trace_blocking. rewrite E.
  destruct (pop_trace_rel t' l' Hr') as [Hh Htl].
  exists w', (snd (pop_trace id t')), l'.
  assert (pop_trace id t' = (head l', snd (pop_trace id t'))) as Hp by (rewrite <- Hh; apply surjective_pairing).
  assert (l <> [] -> l' = l) as Hll.
  { intros Hne. destruct (Hn Hne) as [_ ->]. by apply (trace_rel_inj t). }
  split_and!; try done.
  - pose proof Hr' as [Hc Hring]. rewrite pop_trace_id, Hc. subst ok.
    destruct l' as [|x l'']; cbn [length Nat.eqb negb head fst snd]; [done|].
    by destruct (ring_pop _ _ _ _ _ Hring) as [-> _].
  - intros Hne. split; [by apply Hn|by apply Hll].
  - intros He. apply Hto. subst ok. by destruct l'.
  - exists (fun _ => t'). rewrite <- Hp, pop_trace_id. unfold pop_trace. pose proof Hr as [Hc _]. rewrite Hc.
    destruct l as [|x l0]; cbn [length Nat.eqb]; [done|].
    destruct (Hn ltac:(done)) as [_ ->]. by rewrite Hc.
Qed.
End Pop.

(** What one read of a trace that holds [l] does, with what the platform's wait
    does in between: it returns, takes the oldest entry of the trace it finds, at
    once if there is one, and comes back empty-handed only when the trace is empty
    and the time is over. *)
Definition read_ok {W} (clock : W -> Z) (timeout_ms : Z) (w : W) (l : list NetworkTraceEntry)
    (r : Outcome (option NetworkTraceEntry * W * Trace)) : Prop :=
  exists w' t' l', r = Done (head l', w', t') /\ trace_rel t' (tail l') /\
    (l <> [] -> w' = w /\ l' = l) /\
    (head l' = None -> (clock w + timeout_ms <= clock w')%Z).

(** A blocking read of the trace returns on both platforms: whatever other threads
    push and pop while the reader waits and however often it is woken, if only
    finitely often, [pop_trace] ends; it takes the oldest entry of the trace, at once
    when there is one, never reads an entry of an empty trace, and reports none only
    when at least [timeout_ms] have passed. *)
Theorem trace_read_returns {W V} `{KCondvarLaws W} `{StdCondvarLaws V} fuel timeout_ms (w : W) (v : V) t l :
  trace_rel t l -> (0 <= timeout_ms)%Z -> k_wakeups w + 1 < fuel -> std_wakeups v + 1 < fuel ->
  read_ok kc_uptime_get timeout_ms w l (pop_trace_blocking ZephyrMutex.wait_for_data fuel timeout_ms w t) /\
  read_ok steady_now timeout_ms v l (pop_trace_blocking StdMutex.wait_for_data fuel timeout_ms v t).
Proof.
  intros Hr Ht Hw Hv. split.
  - destruct (pop_blocking_ends (clock := kc_uptime_get) ZephyrMutex.wait_for_data fuel timeout_ms w t l Hr Ht Hw)
      as (w' & t' & l' & ? & ? & ? & ? & _). by exists w', t', l'.
  - destruct (pop_blocking_ends (clock := steady_now) StdMutex.wait_for_data fuel timeout_ms v t l Hr Ht Hv)
      as (w' & t' & l' & ? & ? & ? & ? & _). by exists w', t', l'.
Qed.

(** ** Witness *)

(** A clock with the times at which another thread pushes an entry. *)
Definition Schedule := (Z * list Z)%type.

Definition sched_wait (ms : Z) (w : Schedule) (t : Trace) : bool * Schedule * Trace :=
  match snd w with
  | at_ :: rest =>
      if (at_ <? fst w + ms)%Z then (true, (Z.max (fst w) at_, rest), push_trace NetworkTraceEntry_default t)
      else (false, ((fst w + ms)%Z, snd w), t)
  | [] => (false, ((fst w + ms)%Z, []), t)
  end.

#[local] Instance sched_condvar : KCondvar Schedule :=
  {| kc_uptime_get := fst; k_condvar_wait ms w t := let '(_, w, t) := sched_wait ms w t in (w, t) |}.
#[local] Instance sched_std : StdCondvar Schedule :=
  {| steady_now := fst;
     wait_until abs w t := let '(woken, w, t) := sched_wait (Z.max 0 (abs - fst w)) w t in
                           (if woken then cv_no_timeout else cv_timeout, w, t) |}.

Lemma sched_wait_trace ms w t l : trace_rel t l -> exists l', trace_rel (snd (sched_wait ms w t)) l'.
Proof.
  intros Hr. unfold sched_wait. destruct (snd w); [by exists l|]. case_goal; [|by exists l].
  exists (spec_push_trace NetworkTraceEntry_default l). by apply push_trace_rel.
Qed.

Lemma sched_wait_time ms w t :
  let '(woken, w', _) := sched_wait ms w t in
  if woken then length (snd w') < length (snd w) else fst w' = (fst w + ms)%Z.
Proof. unfold sched_wait. destruct (snd w) eqn:E; [done|]. destruct (z <? fst w + ms)%Z; [simpl; lia|done]. Qed.

#[local] Instance sched_condvar_laws : KCondvarLaws Schedule.
Proof.
  refine {| k_wakeups w := length (snd w) |}.
  - intros ms w t l Hr. destruct (sched_wait_trace ms w t l Hr) as [l' Hl']. exists l'. cbn.
    by destruct (sched_wait ms w t) as [[? ?] ?].
  - intros ms w t Hms. pose proof (sched_wait_time ms w t) as Ht. cbn.
    destruct (sched_wait ms w t) as [[woken w'] t']. cbn. destruct woken; [by right|left]. simpl in *. lia.
Defined.
#[local] Instance sched_std_laws : StdCondvarLaws Schedule.
Proof.
  refine {| std_wakeups w := length (snd w) |}.
  - intros abs w t l Hr. destruct (sched_wait_trace (Z.max 0 (abs - fst w)) w t l Hr) as [l' Hl']. exists l'. cbn.
    by destruct (sched_wait _ w t) as [[? ?] ?].
  - intros abs w t. pose proof (sched_wait_time (Z.max 0 (abs - fst w)) w t) as Ht. cbn.
    destruct (sched_wait _ w t) as [[woken w'] t']. destruct woken; [done|]. simpl in *. lia.
Defined.

(** An entry is pushed at time 130 of a wait from 100 to 150. *)
Lemma trace_read_returns_witness :
  read_ok fst 50 (100, [130%Z])%Z []
    (pop_trace_blocking ZephyrMutex.wait_for_data 3 50 (100, [130%Z])%Z Trace_init) /\
  read_ok fst 50 (100, [170%Z])%Z []
    (pop_trace_blocking StdMutex.wait_for_data 3 50 (100, [170%Z])%Z Trace_init) /\
  pop_trace_blocking ZephyrMutex.wait_for_data 3 50 (100, [130%Z])%Z Trace_init =
    Done (Some NetworkTraceEntry_default, (130%Z, []), mkTrace (trace_buffer_ Trace_init) 1 0) /\
  pop_trace_blocking StdMutex.wait_for_data 3 50 (100, [170%Z])%Z Trace_init =
    Done (None, (150, [170])%Z, Trace_init).
Proof.
  destruct (trace_read_returns (W := Schedule) (V := Schedule) 3 50 (100, [130%Z])%Z (100, [170%Z])%Z Trace_init [])
    as [H1 H2]; [apply trace_init_rel|lia|simpl; lia|simpl; lia|].
  split; [exact H1|]. split; [exact H2|]. by split.
Defined.
