(* ===== verification/Hal.v ===== *)
(** * The platform objects of the state machine (include/hal/timer_interface.h,
      include/hal/message_queue_interface.h and their factories)

    [NetworkLte] holds a state timer, perhaps a second timer, and a payload queue,
    all made by the platform's factories and used through abstract classes.
    [HalTimer] and [HalQueue] are the methods the state machine calls, and
    [HalTimerLaws] and [HalQueueLaws] what it relies on.  The POSIX objects, of
    which the Win32 ones are copies, are the instances found by default; those of
    Zephyr are in [ZephyrHal]. *)

From S2P Require Import Prelude MessageQueue Timer.

(** [timer_obj] is a timer object and [hal_timer] what a member of type
    [PlatformTimer*] designates: the object itself where the factory makes a new
    one for each caller, nothing more than an address where it hands out a static
    object. *)
Class HalTypes := { timer_obj : Type; hal_timer : Type; hal_queue : Type }.

(** ** Timers *)

Class HalTimer {T : HalTypes} := {
  create_platform_timer : hal_timer;
  timer_start : Z -> Z -> option TimerCb -> timer_obj -> TimerError * timer_obj;
  timer_stop : timer_obj -> TimerError * timer_obj;
  timer_reset : Z -> Z -> timer_obj -> TimerError * timer_obj;
  timer_is_running : timer_obj -> bool;
  timer_elapsed_ms : Z -> timer_obj -> Z;
  (** The timer's thread or the kernel gets to run. *)
  timer_run : Z -> timer_obj -> option TimerCb * timer_obj }.

Class HalTimerLaws {T : HalTypes} {HM : HalTimer} := {
  timer_ok : timer_obj -> Prop;
  member_timer_ok : hal_timer -> Prop;
  law_timer_create : member_timer_ok create_platform_timer;
  law_timer_start now ms cb t : timer_ok t -> timer_ok (snd (timer_start now ms cb t));
  law_timer_stop t : timer_ok t -> timer_ok (snd (timer_stop t));
  law_timer_reset now ms t : timer_ok t -> timer_ok (snd (timer_reset now ms t));
  law_timer_run now t : timer_ok t -> timer_ok (snd (timer_run now t));
  law_timer_elapsed now t : (0 <= timer_elapsed_ms now t < 2 ^ 32)%Z }.

(** ** Payload queues *)

Class HalQueue {T : HalTypes} := {
  (** [create_platform_message_queue()]. *)
  mq_create : hal_queue;
  mq_tx_push : hal_queue -> Z -> str -> QueueError * hal_queue;
  mq_tx_pop_next : hal_queue -> QueueError * option QueueMessage * hal_queue;
  mq_rx_push : hal_queue -> Z -> str -> QueueError * hal_queue;
  mq_rx_pop : hal_queue -> Z -> QueueError * option QueueMessage * hal_queue;
  (** How many messages wait for transmission. *)
  mq_tx_pending : hal_queue -> nat }.

(** The queue stands for a list of messages to send and a list of messages
    received.  A payload of at most 256 bytes is queued as the bounded list of
    [mq_capacity] messages queues it; a longer one may be refused or cut.  Taking
    out is exact. *)
Class HalQueueLaws {T : HalTypes} {HQ : HalQueue} := {
  mq_capacity : nat;
  mq_rel : hal_queue -> list QueueMessage -> list QueueMessage -> Prop;
  law_mq_create : mq_rel mq_create [] [];
  law_tx_push q tx rx c bytes : mq_rel q tx rx -> length bytes <= MAX_MSG_DATA ->
    fst (mq_tx_push q c bytes) = fst (spec_push mq_capacity tx c bytes) /\
    mq_rel (snd (mq_tx_push q c bytes)) (snd (spec_push mq_capacity tx c bytes)) rx;
  law_tx_push_any q tx rx c bytes : mq_rel q tx rx -> exists tx', mq_rel (snd (mq_tx_push q c bytes)) tx' rx;
  law_tx_pop_next q tx rx : mq_rel q tx rx ->
    fst (mq_tx_pop_next q) = fst (spec_pop_next tx) /\ mq_rel (snd (mq_tx_pop_next q)) (snd (spec_pop_next tx)) rx;
  law_rx_push q tx rx c bytes : mq_rel q tx rx -> length bytes <= MAX_MSG_DATA ->
    fst (mq_rx_push q c bytes) = fst (spec_push mq_capacity rx c bytes) /\
    mq_rel (snd (mq_rx_push q c bytes)) tx (snd (spec_push mq_capacity rx c bytes));
  law_rx_push_any q tx rx c bytes : mq_rel q tx rx -> exists rx', mq_rel (snd (mq_rx_push q c bytes)) tx rx';
  law_rx_pop q tx rx c : mq_rel q tx rx ->
    fst (mq_rx_pop q c) = fst (spec_pop rx c) /\ mq_rel (snd (mq_rx_pop q c)) tx (snd (spec_pop rx c));
  law_tx_pending q tx rx : mq_rel q tx rx -> mq_tx_pending q = length tx }.

(** ** POSIX *)

#[export] Instance posix_hal : HalTypes | 100 :=
  {| timer_obj := Posix.Timer TimerCb; hal_timer := Posix.Timer TimerCb; hal_queue := MessageQueue |}.

#[export] Instance posix_timer : HalTimer (T := posix_hal) | 100 := {|
  create_platform_timer := Posix.init;
  timer_start := Posix.start; timer_stop := Posix.stop; timer_reset := Posix.reset;
  timer_is_running := Posix.is_running; timer_elapsed_ms := Posix.elapsed_ms; timer_run := Posix.run |}.

#[export] Instance posix_queue : HalQueue (T := posix_hal) | 100 := {|
  mq_create := create_message_queue DEFAULT_CAPACITY;
  mq_tx_push := tx_push; mq_tx_pop_next := tx_pop_next; mq_rx_push := rx_push; mq_rx_pop := rx_pop;
  mq_tx_pending q := length (order (tx_ q)) |}.

(** The invariant of the thread-based timer, see [Posix.timer_thread_invariant]. *)
Definition posix_timer_ok {CB} (t : Posix.Timer CB) : Prop :=
  Posix.thread_ t = Posix.running_ t /\ (Posix.running_ t = true -> Posix.cancelled_ t = false).

Lemma posix_ok_start {CB} now ms cb (t : Posix.Timer CB) :
  posix_timer_ok t -> posix_timer_ok (snd (Posix.start now ms cb t)).
Proof. intros Ht. unfold Posix.start. by destruct (Posix.running_ t) eqn:E. Qed.

Lemma posix_ok_stop {CB} (t : Posix.Timer CB) : posix_timer_ok t -> posix_timer_ok (snd (Posix.stop t)).
Proof. intros Ht. unfold Posix.stop. by destruct (negb (Posix.running_ t)). Qed.

Lemma posix_ok_reset {CB} now ms (t : Posix.Timer CB) :
  posix_timer_ok t -> posix_timer_ok (snd (Posix.reset now ms t)).
Proof.
  intros [H1 H2]. unfold Posix.reset. destruct (Posix.running_ t) eqn:E.
  - split; simpl; [congruence|]. intros _. by apply H2.
  - destruct (Posix.cb_ t) eqn:Ec; [done|]. split; simpl; congruence.
Qed.

Lemma posix_ok_run {CB} now (t : Posix.Timer CB) : posix_timer_ok t -> posix_timer_ok (snd (Posix.run now t)).
Proof.
  intros Ht. unfold Posix.run. destruct (negb (Posix.thread_ t) || Posix.cancelled_ t); [done|].
  by destruct (Posix.deadline_ t <=? now)%Z.
Qed.

Lemma posix_elapsed_range {CB} now (t : Posix.Timer CB) : (0 <= Posix.elapsed_ms now t < 2 ^ 32)%Z.
Proof.
  unfold Posix.elapsed_ms. destruct (Posix.start_ t); [|lia]. unfold u32. apply Z.mod_pos_bound. lia.
Qed.

#[export] Instance posix_timer_laws : HalTimerLaws (T := posix_hal) | 100 := {|
  timer_ok := posix_timer_ok (CB := TimerCb) : @timer_obj posix_hal -> Prop;
  member_timer_ok := posix_timer_ok (CB := TimerCb) : @hal_timer posix_hal -> Prop;
  law_timer_create := conj eq_refl (fun _ => eq_refl);
  law_timer_start := posix_ok_start (CB := TimerCb);
  law_timer_stop := posix_ok_stop (CB := TimerCb);
  law_timer_reset := posix_ok_reset (CB := TimerCb);
  law_timer_run := posix_ok_run (CB := TimerCb);
  law_timer_elapsed := posix_elapsed_range (CB := TimerCb) |}.

(** Both lanes hold their lists. *)
Definition posix_queue_rel (q : MessageQueue) (tx rx : list QueueMessage) : Prop :=
  capacity_ q = DEFAULT_CAPACITY /\
  lane_rel (capacity_ q) (tx_ q) tx /\ lane_rel (capacity_ q) (rx_ q) rx.

Lemma posix_tx_push q tx rx c bytes : posix_queue_rel q tx rx ->
  fst (tx_push q c bytes) = fst (spec_push DEFAULT_CAPACITY tx c bytes) /\
  posix_queue_rel (snd (tx_push q c bytes)) (snd (spec_push DEFAULT_CAPACITY tx c bytes)) rx.
Proof.
  intros (Hc & Ht & Hr). pose proof (push_to_refines _ _ _ c bytes Ht) as H. unfold tx_push. rewrite <- Hc.
  destruct (push_to _ _ _ _), (spec_push _ _ _ _). destruct H as [-> H].
  split; [done|]. split; [exact Hc|]. by split.
Qed.

Lemma posix_rx_push q tx rx c bytes : posix_queue_rel q tx rx ->
  fst (rx_push q c bytes) = fst (spec_push DEFAULT_CAPACITY rx c bytes) /\
  posix_queue_rel (snd (rx_push q c bytes)) tx (snd (spec_push DEFAULT_CAPACITY rx c bytes)).
Proof.
  intros (Hc & Ht & Hr). pose proof (push_to_refines _ _ _ c bytes Hr) as H. unfold rx_push. rewrite <- Hc.
  destruct (push_to _ _ _ _), (spec_push _ _ _ _). destruct H as [-> H].
  split; [done|]. split; [exact Hc|]. by split.
Qed.

Lemma posix_tx_pop_next q tx rx : posix_queue_rel q tx rx ->
  fst (tx_pop_next q) = fst (spec_pop_next tx) /\ posix_queue_rel (snd (tx_pop_next q)) (snd (spec_pop_next tx)) rx.
Proof.
  intros (Hc & Ht & Hr). pose proof (pop_next_refines _ _ _ Ht) as H. unfold tx_pop_next.
  destruct (pop_next_from _ _ _) as [[e m] l], (spec_pop_next tx) as [[e' m'] l'].
  destruct H as (-> & -> & H). split; [done|]. split; [exact Hc|]. by split.
Qed.

Lemma posix_rx_pop q tx rx c : posix_queue_rel q tx rx ->
  fst (rx_pop q c) = fst (spec_pop rx c) /\ posix_queue_rel (snd (rx_pop q c)) tx (snd (spec_pop rx c)).
Proof.
  intros (Hc & Ht & Hr). pose proof (pop_from_refines _ _ _ c Hr) as H. unfold rx_pop.
  destruct (pop_from _ _ _ _) as [[e m] l], (spec_pop rx c) as [[e' m'] l'].
  destruct H as (-> & -> & H). split; [done|]. split; [exact Hc|]. by split.
Qed.

Lemma posix_tx_pending q tx rx : posix_queue_rel q tx rx -> length (order (tx_ q)) = length tx.
Proof. intros (_ & (_ & -> & _) & _). apply length_fmap. Qed.

#[export] Instance posix_queue_laws : HalQueueLaws (T := posix_hal) | 100 := {|
  mq_capacity := DEFAULT_CAPACITY;
  mq_rel := posix_queue_rel : @hal_queue posix_hal -> _ -> _ -> Prop;
  law_mq_create := conj eq_refl (conj (lane_init_rel _) (lane_init_rel _));
  law_tx_push q tx rx c bytes H _ := posix_tx_push q tx rx c bytes H;
  law_tx_push_any q tx rx c bytes H := ex_intro (fun tx' => posix_queue_rel _ tx' rx) _ (proj2 (posix_tx_push q tx rx c bytes H));
  law_tx_pop_next := posix_tx_pop_next;
  law_rx_push q tx rx c bytes H _ := posix_rx_push q tx rx c bytes H;
  law_rx_push_any q tx rx c bytes H := ex_intro (fun rx' => posix_queue_rel _ tx rx') _ (proj2 (posix_rx_push q tx rx c bytes H));
  law_rx_pop := posix_rx_pop;
  law_tx_pending := posix_tx_pending |}.
