(* ===== verification/NetworkTypes.v ===== *)
(** * Data of the network state machine (include/modem/network_lte.h,
      include/modem/network_lte_config.h, [StateTimers] of include/modem/i_radio_lte.h) *)

From S2P Require Import Prelude CLib FixedString StaticVector MessageQueue Timer Hal Xe310Types.
From S2P Require Import Xe310 Survey Trace.

(** ** Servers *)

Definition MAX_SERVER_CONNECTIONS : nat := 5.

Inductive ServerState :=
| Server_unknown | Server_disconnected | Server_connected | Server_suspended | Server_pending_data
| Server_listening | Server_incoming_connection | Server_dns_resolving | Server_connecting
| Server_other (v : Z).

#[export] Instance ServerState_eq_dec : EqDecision ServerState.
Proof. solve_decision. Defined.

(** [static_cast<ServerState>(v)], an [int8_t]. *)
Definition ServerState_cast (v : Z) : ServerState :=
  match i8 v with
  | -1 => Server_unknown
  | 0 => Server_disconnected
  | 1 => Server_connected
  | 2 => Server_suspended
  | 3 => Server_pending_data
  | 4 => Server_listening
  | 5 => Server_incoming_connection
  | 6 => Server_dns_resolving
  | 7 => Server_connecting
  | w => Server_other w
  end%Z.

Record ServerInfo := mkServer {
  si_conn_id : Z; si_state : ServerState; protocol : str; address : str; port : Z; fHasData : bool }.

Definition ServerInfo_default : ServerInfo := mkServer 0 Server_disconnected [] [] 0 false.

Definition server_set_state (st : ServerState) (s : ServerInfo) : ServerInfo :=
  mkServer (si_conn_id s) st (protocol s) (address s) (port s) (fHasData s).

(** ** Configuration *)

Record NetworkLteConfig := mkConfig {
  cfg_cid : Z; attach_timeout_sec : Z; pdp_timeout_sec : Z; data_ready_timeout_sec : Z;
  transparent_timeout_sec : Z; gps_timeout_sec : Z; max_network_attempts : Z;
  max_attach_retries : Z; max_pdp_retries : Z;
  default_lte_bands : Z; default_iot_tech : RadioTech; default_apn : str;
  fallback_lte_bands : Z; fallback_iot_tech : RadioTech; fallback_apn : str;
  plmn : str; fPsmEnable : bool; fCfunSleep : bool; psm_t3412 : Z; psm_t3324 : Z; cfg_conn_id : Z }.

(** [B3_8_20_BAND_MASK]. *)
Definition B3_8_20_BAND_MASK : Z := 524420.

Definition NetworkLteConfig_default : NetworkLteConfig :=
  mkConfig 1 120 15 30 300 120 2 2 2
    B3_8_20_BAND_MASK RadioTech_cat_m1 (lit "connect.cxn")
    B3_8_20_BAND_MASK RadioTech_cat_m1 (lit "connect.cxn")
    (lit "26801") true true 3600 60 1.

(** ** Time counters *)

Record StateTimers := mkTimers {
  network_attaching_ms : Z; pdp_context_opening_ms : Z; data_ready_ms : Z; transparent_mode_ms : Z;
  gnss_fix_mode_ms : Z; sleep_mode_ms : Z; off_mode_ms : Z }.
Definition StateTimers_default : StateTimers := mkTimers 0 0 0 0 0 0 0.

(** ** The object

    Members the sources never write after construction are kept apart: the
    accessors return their initial values for ever. *)

Record Unwritten := mkUnwritten {
  modemInfo : ModemInfo; simStatus : SimStatus; radioTech : RadioTech; regStatus : RegStatus;
  psmMode : PsmMode; cpsmsConfig : CpsmsConfig; telitCpsmsConfig : TelitCpsmsConfig;
  telitCpsmsStatus : TelitCpsmsStatus; networkSurveyResult : NetworkSurveyResult;
  operatorList : list Operator; modem_event_ : NetworkLteEvent; fNewConfig : bool }.
Definition Unwritten_default : Unwritten :=
  mkUnwritten ModemInfo_default SimStatus_not_inserted RadioTech_lte RegStatus_not_registered
    PsmMode_disable CpsmsConfig_default TelitCpsmsConfig_default TelitCpsmsStatus_default
    NetworkSurveyResult_default [] Event_none false.

(** [trace_] groups the three members of the ring buffer; [on_data_received_]
    tells whether the callback is set, and [received_] lists its invocations. *)
Record NetworkLte {T : HalTypes} (C : Type) := mkLte {
  modem_ : XE310.xE310 C;
  regInfo : RegistrationInfo;
  networkInfo : NetworkInfo;
  signalQuality : SignalQuality;
  modemClock : str;
  csurvResult : CsurvResult;
  gnssPosition : GnssPosition;
  serverInfo : list ServerInfo;
  lteConfig : NetworkLteConfig;
  state_ : NetworkLteState;
  prev_state_ : NetworkLteState;
  event_ : NetworkLteEvent;
  modem_action_ : ModemAction;
  nNetworkAttempts : Z;
  nAttachRetries : Z;
  nPdpRetries : Z;
  timer_ : option hal_timer;
  message_queue_ : option hal_queue;
  last_data_conn_id_ : Z;
  stateTimers_ : StateTimers;
  fColdBoot : bool;
  fWarmBoot : bool;
  fChangeBands : bool;
  fChangeRAT : bool;
  st_timer : hal_timer;
  trace_ : Trace;
  on_data_received_ : bool;
  received_ : list (Z * str * Z);
  unwritten_ : Unwritten }.
Arguments mkLte {T C} _ _ _ _ _ _ _ _ _ _ _ _ _ _ _ _ _ _ _ _ _ _ _ _ _ _ _ _ _.
Arguments modem_ {T C} _.
Arguments regInfo {T C} _.
Arguments networkInfo {T C} _.
Arguments signalQuality {T C} _.
Arguments modemClock {T C} _.
Arguments csurvResult {T C} _.
Arguments gnssPosition {T C} _.
Arguments serverInfo {T C} _.
Arguments lteConfig {T C} _.
Arguments state_ {T C} _.
Arguments prev_state_ {T C} _.
Arguments event_ {T C} _.
Arguments modem_action_ {T C} _.
Arguments nNetworkAttempts {T C} _.
Arguments nAttachRetries {T C} _.
Arguments nPdpRetries {T C} _.
Arguments timer_ {T C} _.
Arguments message_queue_ {T C} _.
Arguments last_data_conn_id_ {T C} _.
Arguments stateTimers_ {T C} _.
Arguments fColdBoot {T C} _.
Arguments fWarmBoot {T C} _.
Arguments fChangeBands {T C} _.
Arguments fChangeRAT {T C} _.
Arguments st_timer {T C} _.
Arguments trace_ {T C} _.
Arguments on_data_received_ {T C} _.
Arguments received_ {T C} _.
Arguments unwritten_ {T C} _.

(** One setter per member. *)

Definition set_modem {T : HalTypes} {C} (x : XE310.xE310 C) (s : NetworkLte C) : NetworkLte C :=
  mkLte x (regInfo s) (networkInfo s) (signalQuality s) (modemClock s) (csurvResult s)
  (gnssPosition s) (serverInfo s) (lteConfig s) (state_ s) (prev_state_ s) (event_ s)
  (modem_action_ s) (nNetworkAttempts s) (nAttachRetries s) (nPdpRetries s) (timer_ s)
  (message_queue_ s) (last_data_conn_id_ s) (stateTimers_ s) (fColdBoot s) (fWarmBoot s)
  (fChangeBands s) (fChangeRAT s) (st_timer s) (trace_ s) (on_data_received_ s) (received_ s)
  (unwritten_ s).
Definition set_regInfo {T : HalTypes} {C} (x : RegistrationInfo) (s : NetworkLte C) : NetworkLte C :=
  mkLte (modem_ s) x (networkInfo s) (signalQuality s) (modemClock s) (csurvResult s)
  (gnssPosition s) (serverInfo s) (lteConfig s) (state_ s) (prev_state_ s) (event_ s)
  (modem_action_ s) (nNetworkAttempts s) (nAttachRetries s) (nPdpRetries s) (timer_ s)
  (message_queue_ s) (last_data_conn_id_ s) (stateTimers_ s) (fColdBoot s) (fWarmBoot s)
  (fChangeBands s) (fChangeRAT s) (st_timer s) (trace_ s) (on_data_received_ s) (received_ s)
  (unwritten_ s).
Definition set_networkInfo {T : HalTypes} {C} (x : NetworkInfo) (s : NetworkLte C) : NetworkLte C :=
  mkLte (modem_ s) (regInfo s) x (signalQuality s) (modemClock s) (csurvResult s)
  (gnssPosition s) (serverInfo s) (lteConfig s) (state_ s) (prev_state_ s) (event_ s)
  (modem_action_ s) (nNetworkAttempts s) (nAttachRetries s) (nPdpRetries s) (timer_ s)
  (message_queue_ s) (last_data_conn_id_ s) (stateTimers_ s) (fColdBoot s) (fWarmBoot s)
  (fChangeBands s) (fChangeRAT s) (st_timer s) (trace_ s) (on_data_received_ s) (received_ s)
  (unwritten_ s).
Definition set_signalQuality {T : HalTypes} {C} (x : SignalQuality) (s : NetworkLte C) : NetworkLte C :=
  mkLte (modem_ s) (regInfo s) (networkInfo s) x (modemClock s) (csurvResult s) (gnssPosition s)
  (serverInfo s) (lteConfig s) (state_ s) (prev_state_ s) (event_ s) (modem_action_ s)
  (nNetworkAttempts s) (nAttachRetries s) (nPdpRetries s) (timer_ s) (message_queue_ s)
  (last_data_conn_id_ s) (stateTimers_ s) (fColdBoot s) (fWarmBoot s) (fChangeBands s)
  (fChangeRAT s) (st_timer s) (trace_ s) (on_data_received_ s) (received_ s) (unwritten_ s).
Definition set_modemClock {T : HalTypes} {C} (x : str) (s : NetworkLte C) : NetworkLte C :=
  mkLte (modem_ s) (regInfo s) (networkInfo s) (signalQuality s) x (csurvResult s)
  (gnssPosition s) (serverInfo s) (lteConfig s) (state_ s) (prev_state_ s) (event_ s)
  (modem_action_ s) (nNetworkAttempts s) (nAttachRetries s) (nPdpRetries s) (timer_ s)
  (message_queue_ s) (last_data_conn_id_ s) (stateTimers_ s) (fColdBoot s) (fWarmBoot s)
  (fChangeBands s) (fChangeRAT s) (st_timer s) (trace_ s) (on_data_received_ s) (received_ s)
  (unwritten_ s).
Definition set_csurvResult {T : HalTypes} {C} (x : CsurvResult) (s : NetworkLte C) : NetworkLte C :=
  mkLte (modem_ s) (regInfo s) (networkInfo s) (signalQuality s) (modemClock s) x
  (gnssPosition s) (serverInfo s) (lteConfig s) (state_ s) (prev_state_ s) (event_ s)
  (modem_action_ s) (nNetworkAttempts s) (nAttachRetries s) (nPdpRetries s) (timer_ s)
  (message_queue_ s) (last_data_conn_id_ s) (stateTimers_ s) (fColdBoot s) (fWarmBoot s)
  (fChangeBands s) (fChangeRAT s) (st_timer s) (trace_ s) (on_data_received_ s) (received_ s)
  (unwritten_ s).
Definition set_gnssPosition {T : HalTypes} {C} (x : GnssPosition) (s : NetworkLte C) : NetworkLte C :=
  mkLte (modem_ s) (regInfo s) (networkInfo s) (signalQuality s) (modemClock s) (csurvResult s) x
  (serverInfo s) (lteConfig s) (state_ s) (prev_state_ s) (event_ s) (modem_action_ s)
  (nNetworkAttempts s) (nAttachRetries s) (nPdpRetries s) (timer_ s) (message_queue_ s)
  (last_data_conn_id_ s) (stateTimers_ s) (fColdBoot s) (fWarmBoot s) (fChangeBands s)
  (fChangeRAT s) (st_timer s) (trace_ s) (on_data_received_ s) (received_ s) (unwritten_ s).
Definition set_serverInfo {T : HalTypes} {C} (x : list ServerInfo) (s : NetworkLte C) : NetworkLte C :=
  mkLte (modem_ s) (regInfo s) (networkInfo s) (signalQuality s) (modemClock s) (csurvResult s)
  (gnssPosition s) x (lteConfig s) (state_ s) (prev_state_ s) (event_ s) (modem_action_ s)
  (nNetworkAttempts s) (nAttachRetries s) (nPdpRetries s) (timer_ s) (message_queue_ s)
  (last_data_conn_id_ s) (stateTimers_ s) (fColdBoot s) (fWarmBoot s) (fChangeBands s)
  (fChangeRAT s) (st_timer s) (trace_ s) (on_data_received_ s) (received_ s) (unwritten_ s).
Definition set_lteConfig {T : HalTypes} {C} (x : NetworkLteConfig) (s : NetworkLte C) : NetworkLte C :=
  mkLte (modem_ s) (regInfo s) (networkInfo s) (signalQuality s) (modemClock s) (csurvResult s)
  (gnssPosition s) (serverInfo s) x (state_ s) (prev_state_ s) (event_ s) (modem_action_ s)
  (nNetworkAttempts s) (nAttachRetries s) (nPdpRetries s) (timer_ s) (message_queue_ s)
  (last_data_conn_id_ s) (stateTimers_ s) (fColdBoot s) (fWarmBoot s) (fChangeBands s)
  (fChangeRAT s) (st_timer s) (trace_ s) (on_data_received_ s) (received_ s) (unwritten_ s).
Definition set_state {T : HalTypes} {C} (x : NetworkLteState) (s : NetworkLte C) : NetworkLte C :=
  mkLte (modem_ s) (regInfo s) (networkInfo s) (signalQuality s) (modemClock s) (csurvResult s)
  (gnssPosition s) (serverInfo s) (lteConfig s) x (prev_state_ s) (event_ s) (modem_action_ s)
  (nNetworkAttempts s) (nAttachRetries s) (nPdpRetries s) (timer_ s) (message_queue_ s)
  (last_data_conn_id_ s) (stateTimers_ s) (fColdBoot s) (fWarmBoot s) (fChangeBands s)
  (fChangeRAT s) (st_timer s) (trace_ s) (on_data_received_ s) (received_ s) (unwritten_ s).
Definition set_prev_state {T : HalTypes} {C} (x : NetworkLteState) (s : NetworkLte C) : NetworkLte C :=
  mkLte (modem_ s) (regInfo s) (networkInfo s) (signalQuality s) (modemClock s) (csurvResult s)
  (gnssPosition s) (serverInfo s) (lteConfig s) (state_ s) x (event_ s) (modem_action_ s)
  (nNetworkAttempts s) (nAttachRetries s) (nPdpRetries s) (timer_ s) (message_queue_ s)
  (last_data_conn_id_ s) (stateTimers_ s) (fColdBoot s) (fWarmBoot s) (fChangeBands s)
  (fChangeRAT s) (st_timer s) (trace_ s) (on_data_received_ s) (received_ s) (unwritten_ s).
Definition set_event {T : HalTypes} {C} (x : NetworkLteEvent) (s : NetworkLte C) : NetworkLte C :=
  mkLte (modem_ s) (regInfo s) (networkInfo s) (signalQuality s) (modemClock s) (csurvResult s)
  (gnssPosition s) (serverInfo s) (lteConfig s) (state_ s) (prev_state_ s) x (modem_action_ s)
  (nNetworkAttempts s) (nAttachRetries s) (nPdpRetries s) (timer_ s) (message_queue_ s)
  (last_data_conn_id_ s) (stateTimers_ s) (fColdBoot s) (fWarmBoot s) (fChangeBands s)
  (fChangeRAT s) (st_timer s) (trace_ s) (on_data_received_ s) (received_ s) (unwritten_ s).
Definition set_modem_action {T : HalTypes} {C} (x : ModemAction) (s : NetworkLte C) : NetworkLte C :=
  mkLte (modem_ s) (regInfo s) (networkInfo s) (signalQuality s) (modemClock s) (csurvResult s)
  (gnssPosition s) (serverInfo s) (lteConfig s) (state_ s) (prev_state_ s) (event_ s) x
  (nNetworkAttempts s) (nAttachRetries s) (nPdpRetries s) (timer_ s) (message_queue_ s)
  (last_data_conn_id_ s) (stateTimers_ s) (fColdBoot s) (fWarmBoot s) (fChangeBands s)
  (fChangeRAT s) (st_timer s) (trace_ s) (on_data_received_ s) (received_ s) (unwritten_ s).
Definition set_nNetworkAttempts {T : HalTypes} {C} (x : Z) (s : NetworkLte C) : NetworkLte C :=
  mkLte (modem_ s) (regInfo s) (networkInfo s) (signalQuality s) (modemClock s) (csurvResult s)
  (gnssPosition s) (serverInfo s) (lteConfig s) (state_ s) (prev_state_ s) (event_ s)
  (modem_action_ s) x (nAttachRetries s) (nPdpRetries s) (timer_ s) (message_queue_ s)
  (last_data_conn_id_ s) (stateTimers_ s) (fColdBoot s) (fWarmBoot s) (fChangeBands s)
  (fChangeRAT s) (st_timer s) (trace_ s) (on_data_received_ s) (received_ s) (unwritten_ s).
Definition set_nAttachRetries {T : HalTypes} {C} (x : Z) (s : NetworkLte C) : NetworkLte C :=
  mkLte (modem_ s) (regInfo s) (networkInfo s) (signalQuality s) (modemClock s) (csurvResult s)
  (gnssPosition s) (serverInfo s) (lteConfig s) (state_ s) (prev_state_ s) (event_ s)
  (modem_action_ s) (nNetworkAttempts s) x (nPdpRetries s) (timer_ s) (message_queue_ s)
  (last_data_conn_id_ s) (stateTimers_ s) (fColdBoot s) (fWarmBoot s) (fChangeBands s)
  (fChangeRAT s) (st_timer s) (trace_ s) (on_data_received_ s) (received_ s) (unwritten_ s).
Definition set_nPdpRetries {T : HalTypes} {C} (x : Z) (s : NetworkLte C) : NetworkLte C :=
  mkLte (modem_ s) (regInfo s) (networkInfo s) (signalQuality s) (modemClock s) (csurvResult s)
  (gnssPosition s) (serverInfo s) (lteConfig s) (state_ s) (prev_state_ s) (event_ s)
  (modem_action_ s) (nNetworkAttempts s) (nAttachRetries s) x (timer_ s) (message_queue_ s)
  (last_data_conn_id_ s) (stateTimers_ s) (fColdBoot s) (fWarmBoot s) (fChangeBands s)
  (fChangeRAT s) (st_timer s) (trace_ s) (on_data_received_ s) (received_ s) (unwritten_ s).
Definition set_timer {T : HalTypes} {C} (x : option hal_timer) (s : NetworkLte C) : NetworkLte C :=
  mkLte (modem_ s) (regInfo s) (networkInfo s) (signalQuality s) (modemClock s) (csurvResult s)
  (gnssPosition s) (serverInfo s) (lteConfig s) (state_ s) (prev_state_ s) (event_ s)
  (modem_action_ s) (nNetworkAttempts s) (nAttachRetries s) (nPdpRetries s) x (message_queue_ s)
  (last_data_conn_id_ s) (stateTimers_ s) (fColdBoot s) (fWarmBoot s) (fChangeBands s)
  (fChangeRAT s) (st_timer s) (trace_ s) (on_data_received_ s) (received_ s) (unwritten_ s).
Definition set_message_queue {T : HalTypes} {C} (x : option hal_queue) (s : NetworkLte C) : NetworkLte C :=
  mkLte (modem_ s) (regInfo s) (networkInfo s) (signalQuality s) (modemClock s) (csurvResult s)
  (gnssPosition s) (serverInfo s) (lteConfig s) (state_ s) (prev_state_ s) (event_ s)
  (modem_action_ s) (nNetworkAttempts s) (nAttachRetries s) (nPdpRetries s) (timer_ s) x
  (last_data_conn_id_ s) (stateTimers_ s) (fColdBoot s) (fWarmBoot s) (fChangeBands s)
  (fChangeRAT s) (st_timer s) (trace_ s) (on_data_received_ s) (received_ s) (unwritten_ s).
Definition set_last_data_conn_id {T : HalTypes} {C} (x : Z) (s : NetworkLte C) : NetworkLte C :=
  mkLte (modem_ s) (regInfo s) (networkInfo s) (signalQuality s) (modemClock s) (csurvResult s)
  (gnssPosition s) (serverInfo s) (lteConfig s) (state_ s) (prev_state_ s) (event_ s)
  (modem_action_ s) (nNetworkAttempts s) (nAttachRetries s) (nPdpRetries s) (timer_ s)
  (message_queue_ s) x (stateTimers_ s) (fColdBoot s) (fWarmBoot s) (fChangeBands s)
  (fChangeRAT s) (st_timer s) (trace_ s) (on_data_received_ s) (received_ s) (unwritten_ s).
Definition set_stateTimers {T : HalTypes} {C} (x : StateTimers) (s : NetworkLte C) : NetworkLte C :=
  mkLte (modem_ s) (regInfo s) (networkInfo s) (signalQuality s) (modemClock s) (csurvResult s)
  (gnssPosition s) (serverInfo s) (lteConfig s) (state_ s) (prev_state_ s) (event_ s)
  (modem_action_ s) (nNetworkAttempts s) (nAttachRetries s) (nPdpRetries s) (timer_ s)
  (message_queue_ s) (last_data_conn_id_ s) x (fColdBoot s) (fWarmBoot s) (fChangeBands s)
  (fChangeRAT s) (st_timer s) (trace_ s) (on_data_received_ s) (received_ s) (unwritten_ s).
Definition set_fColdBoot {T : HalTypes} {C} (x : bool) (s : NetworkLte C) : NetworkLte C :=
  mkLte (modem_ s) (regInfo s) (networkInfo s) (signalQuality s) (modemClock s) (csurvResult s)
  (gnssPosition s) (serverInfo s) (lteConfig s) (state_ s) (prev_state_ s) (event_ s)
  (modem_action_ s) (nNetworkAttempts s) (nAttachRetries s) (nPdpRetries s) (timer_ s)
  (message_queue_ s) (last_data_conn_id_ s) (stateTimers_ s) x (fWarmBoot s) (fChangeBands s)
  (fChangeRAT s) (st_timer s) (trace_ s) (on_data_received_ s) (received_ s) (unwritten_ s).
Definition set_fWarmBoot {T : HalTypes} {C} (x : bool) (s : NetworkLte C) : NetworkLte C :=
  mkLte (modem_ s) (regInfo s) (networkInfo s) (signalQuality s) (modemClock s) (csurvResult s)
  (gnssPosition s) (serverInfo s) (lteConfig s) (state_ s) (prev_state_ s) (event_ s)
  (modem_action_ s) (nNetworkAttempts s) (nAttachRetries s) (nPdpRetries s) (timer_ s)
  (message_queue_ s) (last_data_conn_id_ s) (stateTimers_ s) (fColdBoot s) x (fChangeBands s)
  (fChangeRAT s) (st_timer s) (trace_ s) (on_data_received_ s) (received_ s) (unwritten_ s).
Definition set_fChangeBands {T : HalTypes} {C} (x : bool) (s : NetworkLte C) : NetworkLte C :=
  mkLte (modem_ s) (regInfo s) (networkInfo s) (signalQuality s) (modemClock s) (csurvResult s)
  (gnssPosition s) (serverInfo s) (lteConfig s) (state_ s) (prev_state_ s) (event_ s)
  (modem_action_ s) (nNetworkAttempts s) (nAttachRetries s) (nPdpRetries s) (timer_ s)
  (message_queue_ s) (last_data_conn_id_ s) (stateTimers_ s) (fColdBoot s) (fWarmBoot s) x
  (fChangeRAT s) (st_timer s) (trace_ s) (on_data_received_ s) (received_ s) (unwritten_ s).
Definition set_fChangeRAT {T : HalTypes} {C} (x : bool) (s : NetworkLte C) : NetworkLte C :=
  mkLte (modem_ s) (regInfo s) (networkInfo s) (signalQuality s) (modemClock s) (csurvResult s)
  (gnssPosition s) (serverInfo s) (lteConfig s) (state_ s) (prev_state_ s) (event_ s)
  (modem_action_ s) (nNetworkAttempts s) (nAttachRetries s) (nPdpRetries s) (timer_ s)
  (message_queue_ s) (last_data_conn_id_ s) (stateTimers_ s) (fColdBoot s) (fWarmBoot s)
  (fChangeBands s) x (st_timer s) (trace_ s) (on_data_received_ s) (received_ s) (unwritten_ s).
Definition set_st_timer {T : HalTypes} {C} (x : hal_timer) (s : NetworkLte C) : NetworkLte C :=
  mkLte (modem_ s) (regInfo s) (networkInfo s) (signalQuality s) (modemClock s) (csurvResult s)
  (gnssPosition s) (serverInfo s) (lteConfig s) (state_ s) (prev_state_ s) (event_ s)
  (modem_action_ s) (nNetworkAttempts s) (nAttachRetries s) (nPdpRetries s) (timer_ s)
  (message_queue_ s) (last_data_conn_id_ s) (stateTimers_ s) (fColdBoot s) (fWarmBoot s)
  (fChangeBands s) (fChangeRAT s) x (trace_ s) (on_data_received_ s) (received_ s) (unwritten_ s).
Definition set_trace {T : HalTypes} {C} (x : Trace) (s : NetworkLte C) : NetworkLte C :=
  mkLte (modem_ s) (regInfo s) (networkInfo s) (signalQuality s) (modemClock s) (csurvResult s)
  (gnssPosition s) (serverInfo s) (lteConfig s) (state_ s) (prev_state_ s) (event_ s)
  (modem_action_ s) (nNetworkAttempts s) (nAttachRetries s) (nPdpRetries s) (timer_ s)
  (message_queue_ s) (last_data_conn_id_ s) (stateTimers_ s) (fColdBoot s) (fWarmBoot s)
  (fChangeBands s) (fChangeRAT s) (st_timer s) x (on_data_received_ s) (received_ s)
  (unwritten_ s).
Definition set_received {T : HalTypes} {C} (x : list (Z * str * Z)) (s : NetworkLte C) : NetworkLte C :=
  mkLte (modem_ s) (regInfo s) (networkInfo s) (signalQuality s) (modemClock s) (csurvResult s)
  (gnssPosition s) (serverInfo s) (lteConfig s) (state_ s) (prev_state_ s) (event_ s)
  (modem_action_ s) (nNetworkAttempts s) (nAttachRetries s) (nPdpRetries s) (timer_ s)
  (message_queue_ s) (last_data_conn_id_ s) (stateTimers_ s) (fColdBoot s) (fWarmBoot s)
  (fChangeBands s) (fChangeRAT s) (st_timer s) (trace_ s) (on_data_received_ s) x (unwritten_ s).

(** The constructor of the class. *)
Definition NetworkLte_init {T : HalTypes} {HM : HalTimer} {HQ : HalQueue} {C} (modem : XE310.xE310 C)
  (config : NetworkLteConfig) (callback : bool) (timer : option hal_timer) : NetworkLte C :=
  mkLte modem RegistrationInfo_default NetworkInfo_default SignalQuality_default [] CsurvResult_default
    GnssPosition_default (replicate MAX_SERVER_CONNECTIONS ServerInfo_default) config
    State_switched_off State_none Event_none Action_none 0 0 0 timer
    (Some mq_create) 0 StateTimers_default
    false true false false create_platform_timer Trace_init callback [] Unwritten_default.

(** ** Where the timer objects are

    The member [st_timer] and the member [timer_] designate timer objects; a method
    called through one of them reads and changes the object. *)

Class TimerAccess {T : HalTypes} (C : Type) := {
  st_timer_obj : NetworkLte C -> timer_obj;
  put_st_timer : timer_obj -> NetworkLte C -> NetworkLte C;
  user_timer_obj : NetworkLte C -> option timer_obj;
  put_user_timer : timer_obj -> NetworkLte C -> NetworkLte C }.

(** An update reaches the member's object or, through the modem, an object the
    modem's controller shares; nothing else changes. *)
Class TimerAccessLaws {T : HalTypes} {HM : HalTimer} {HTL : HalTimerLaws} (C : Type) {HA : TimerAccess C} : Prop := {
  law_st_obj s : member_timer_ok (st_timer s) -> timer_ok (st_timer_obj s);
  law_put_st t s :
    exists x t1, put_st_timer t s = set_modem x (set_st_timer t1 s) /\ (timer_ok t -> member_timer_ok t1);
  law_user_obj s : from_option member_timer_ok True (timer_ s) -> from_option timer_ok True (user_timer_obj s);
  law_put_user t s :
    exists x t2, put_user_timer t s = set_modem x (set_timer t2 s) /\
      (timer_ok t -> from_option member_timer_ok True t2);
  law_access_queue t o s :
    st_timer_obj (set_message_queue o s) = st_timer_obj s /\ user_timer_obj (set_message_queue o s) = user_timer_obj s /\
    put_st_timer t (set_message_queue o s) = set_message_queue o (put_st_timer t s) /\
    put_user_timer t (set_message_queue o s) = set_message_queue o (put_user_timer t s) }.

(** On POSIX the members own their objects. *)
#[export] Instance posix_access C : TimerAccess (T := posix_hal) C | 100 := {|
  st_timer_obj s := st_timer s;
  put_st_timer t s := set_st_timer (T := posix_hal) t s;
  user_timer_obj s := timer_ s;
  put_user_timer t s := set_timer (T := posix_hal) (Some t) s |}.

#[export] Instance posix_access_laws C : TimerAccessLaws (T := posix_hal) C | 100.
Proof.
  split; try done.
  - intros t s. exists (modem_ s), t. by destruct s.
  - intros t s. exists (modem_ s), (Some t). by destruct s.
Qed.
