(* ===== verification/Typed.v ===== *)
(** * Values of their C++ types

    Integers are [Z] and strings are lists in the model; these predicates say that
    a value is one the member's C++ type can hold: integers within their width,
    enumerators that fit the underlying type, strings within their capacity.  The
    lemmas show it of everything the driver's parsers produce, whatever the text. *)

From S2P Require Import Prelude CLib FixedString StaticVector ModemController Xe310Types Xe310 NetworkTypes.

(** ** Scalars *)

Definition int32 (z : Z) : Prop := (- 2 ^ 31 <= z < 2 ^ 31)%Z.

(** An enumerator stored in a byte. *)
Definition byte_enum {E} (val : E -> Z) (cast : Z -> E) (e : E) : Prop := (0 <= val e < 256)%Z /\ cast (val e) = e.

(** [RadioTech] is stored in an [int8_t]. *)
Definition tech_ok (t : RadioTech) : Prop := (- 128 <= RadioTech_val t < 128)%Z /\ RadioTech_cast (RadioTech_val t) = t.

Lemma u_range w z : (0 <= w)%Z -> (0 <= z mod 2 ^ w < 2 ^ w)%Z.
Proof. intros Hw. apply Z.mod_pos_bound. by apply Z.pow_pos_nonneg. Qed.

Lemma u8_range z : (0 <= u8 z < 256)%Z.
Proof. by apply (u_range 8). Qed.
Lemma u16_range z : (0 <= u16 z < 2 ^ 16)%Z.
Proof. by apply u_range. Qed.
Lemma u32_range z : (0 <= u32 z < 2 ^ 32)%Z.
Proof. by apply u_range. Qed.
Lemma u64_range z : (0 <= u64 z < 2 ^ 64)%Z.
Proof. by apply u_range. Qed.
Lemma i8_range z : (- 128 <= i8 z < 128)%Z.
Proof. unfold i8. pose proof (u_range 8 (z + 2 ^ 7)). lia. Qed.
Lemma i32_range z : int32 (i32 z).
Proof. unfold int32, i32. pose proof (u_range 32 (z + 2 ^ 31)). lia. Qed.
Lemma atoi_range s : int32 (atoi s).
Proof. apply i32_range. Qed.
Lemma strtoul_range base s : (0 <= strtoul base s < 2 ^ 64)%Z.
Proof.
  unfold strtoul, strtoul_end. destruct (read_number base s) as [[[neg v] rest]|]; [|simpl; lia]. cbn [fst].
  destruct (ULONG_MAX <? v)%Z; [unfold ULONG_MAX; lia|apply u64_range].
Qed.

Lemma u8_small z : (0 <= z < 256)%Z -> u8 z = z.
Proof. apply Z.mod_small. Qed.
Lemma i8_small z : (- 128 <= z < 128)%Z -> i8 z = z.
Proof. intros H. unfold i8. rewrite Z.mod_small; lia. Qed.

(** Goes through the numbers a cast looks for. *)
Ltac cast_cases :=
  repeat match goal with
  | |- context [match ?x with Z0 => _ | Zpos _ => _ | Zneg _ => _ end] => is_var x; destruct x
  | |- context [match ?x with xI _ => _ | xO _ => _ | xH => _ end] => is_var x; destruct x
  end; reflexivity.

(** A cast keeps a number without a name as it is, so casting the stored number
    again gives the same enumerator. *)
Lemma byte_cast_ok {E} (val : E -> Z) (cast : Z -> E) z :
  val (cast z) = u8 z -> cast (u8 z) = cast z -> byte_enum val cast (cast z).
Proof. intros Hv Hc. split; rewrite Hv; [apply u8_range|exact Hc]. Qed.

Ltac byte_cast cast z :=
  apply byte_cast_ok; unfold cast;
  [generalize (u8 z); intros v; cast_cases | by rewrite (u8_small (u8 z)) by apply u8_range].

Lemma RegStatus_cast_ok z : byte_enum RegStatus_val RegStatus_cast (RegStatus_cast z).
Proof. byte_cast RegStatus_cast z. Qed.
Lemma GnssFixType_cast_ok z : byte_enum GnssFixType_val GnssFixType_cast (GnssFixType_cast z).
Proof. byte_cast GnssFixType_cast z. Qed.

Lemma RadioTech_cast_ok z : tech_ok (RadioTech_cast z).
Proof.
  assert (RadioTech_val (RadioTech_cast z) = i8 z) as Hv.
  { unfold RadioTech_cast. generalize (i8 z). intros v. cast_cases. }
  unfold tech_ok. rewrite Hv. split; [apply i8_range|].
  unfold RadioTech_cast. by rewrite (i8_small (i8 z)) by apply i8_range.
Qed.

(** ** Structures *)

Definition registration_info_ok (r : RegistrationInfo) : Prop :=
  length (lac r) <= MODEM_SHORT_STR /\ length (ci r) <= MODEM_SHORT_STR /\ length (active_time r) <= MODEM_SHORT_STR /\
  length (periodic_tau r) <= MODEM_SHORT_STR /\ length (ri_ip_address r) <= MODEM_IP_STR /\
  length (operator_name r) <= MODEM_MEDIUM_STR /\ length (apn r) <= MODEM_MEDIUM_STR /\ (0 <= ri_mode r < 256)%Z /\
  byte_enum RegStatus_val RegStatus_cast (stat r) /\ tech_ok (act r) /\
  (0 <= cause_type r < 256)%Z /\ (0 <= reject_cause r < 256)%Z.

Definition signal_quality_ok (s : SignalQuality) : Prop :=
  int32 (rssi s) /\ int32 (sig_ber s) /\ int32 (rsrq s) /\ int32 (rsrp s).

Definition network_info_ok (n : NetworkInfo) : Prop := length (ip_address n) <= MODEM_IP_STR.

Definition cpsms_config_ok (c : CpsmsConfig) : Prop :=
  byte_enum PsmMode_val PsmMode_cast (cp_mode c) /\ length (req_periodic_rau c) <= MODEM_SHORT_STR /\
  length (req_gprs_ready_timer c) <= MODEM_SHORT_STR /\ length (req_periodic_tau c) <= MODEM_SHORT_STR /\
  length (req_active_time c) <= MODEM_SHORT_STR.

Definition telit_cpsms_config_ok (c : TelitCpsmsConfig) : Prop :=
  byte_enum PsmMode_val PsmMode_cast (tc_mode c) /\ (0 <= tc_req_periodic_rau c < 2 ^ 32)%Z /\
  (0 <= tc_req_gprs_ready_timer c < 2 ^ 32)%Z /\ (0 <= tc_req_periodic_tau c < 2 ^ 32)%Z /\
  (0 <= tc_req_active_time c < 2 ^ 32)%Z /\ (0 <= tc_psm_threshold c < 2 ^ 32)%Z.

Definition telit_cpsms_status_ok (s : TelitCpsmsStatus) : Prop :=
  (0 <= ts_status s < 256)%Z /\ (0 <= t3324 s < 2 ^ 32)%Z /\ (0 <= t3412 s < 2 ^ 32)%Z /\
  (0 <= ts_psm_version s < 256)%Z /\ (0 <= ts_psm_threshold s < 2 ^ 32)%Z /\
  byte_enum PsmMode_val PsmMode_cast (ts_mode s).

Definition state_timers_ok (t : StateTimers) : Prop :=
  (0 <= network_attaching_ms t < 2 ^ 32)%Z /\ (0 <= pdp_context_opening_ms t < 2 ^ 32)%Z /\
  (0 <= data_ready_ms t < 2 ^ 32)%Z /\ (0 <= transparent_mode_ms t < 2 ^ 32)%Z /\
  (0 <= gnss_fix_mode_ms t < 2 ^ 32)%Z /\ (0 <= sleep_mode_ms t < 2 ^ 32)%Z /\ (0 <= off_mode_ms t < 2 ^ 32)%Z.

Definition gnss_position_ok (p : GnssPosition) : Prop :=
  Forall (fun s : str => length s <= MODEM_SHORT_STR)
    [utc p; latitude p; longitude p; hdop p; altitude p; cog p; spkm p; spkn p; date p; hepe p; vepe p] /\
  byte_enum GnssFixType_val GnssFixType_cast (fix_ p) /\ (0 <= nsat p < 256)%Z.

Definition csurv_cell_ok (c : CsurvCell) : Prop :=
  int32 (earfcn c) /\ int32 (rx_lev c) /\ (0 <= mcc c < 2 ^ 16)%Z /\ (0 <= mnc c < 2 ^ 16)%Z /\
  (0 <= cell_id c < 2 ^ 32)%Z /\ (0 <= tac c < 2 ^ 32)%Z /\ (0 <= cell_identity c < 2 ^ 64)%Z.

Definition csurv_ok (r : CsurvResult) : Prop :=
  length (cells r) <= MAX_CELLS /\ Forall csurv_cell_ok (cells r) /\ int32 (no_arfcn r) /\ int32 (no_bcch r).

(** The strings of a server; its number and its port come from the caller. *)
Definition server_ok (sv : ServerInfo) : Prop :=
  length (protocol sv) <= MODEM_SHORT_STR /\ length (address sv) <= MODEM_IP_STR.

Definition config_ok (c : NetworkLteConfig) : Prop :=
  (0 <= cfg_cid c < 256)%Z /\ (0 <= attach_timeout_sec c < 256)%Z /\ (0 <= pdp_timeout_sec c < 256)%Z /\
  (0 <= data_ready_timeout_sec c < 256)%Z /\ (0 <= transparent_timeout_sec c < 2 ^ 16)%Z /\
  (0 <= gps_timeout_sec c < 2 ^ 16)%Z /\ (0 <= max_network_attempts c < 256)%Z /\
  (0 <= max_attach_retries c < 256)%Z /\ (0 <= max_pdp_retries c < 256)%Z /\
  (0 <= default_lte_bands c < 2 ^ 64)%Z /\ tech_ok (default_iot_tech c) /\
  length (default_apn c) <= MODEM_MEDIUM_STR /\ (0 <= fallback_lte_bands c < 2 ^ 64)%Z /\
  tech_ok (fallback_iot_tech c) /\ length (fallback_apn c) <= MODEM_MEDIUM_STR /\
  length (plmn c) <= MODEM_SHORT_STR /\ (0 <= psm_t3412 c < 2 ^ 32)%Z /\ (0 <= psm_t3324 c < 2 ^ 32)%Z /\
  (0 <= cfg_conn_id c < 256)%Z.

(** ** What the parsers produce *)

Lemma cesq_value_range t : int32 (XE310.cesq_value t).
Proof. unfold XE310.cesq_value. destruct (strip [SPACE; TAB] t); [unfold int32; lia|apply atoi_range]. Qed.

Lemma parse_signal_ok b sq : signal_quality_ok sq -> signal_quality_ok (XE310.parse_signal b sq).
Proof.
  intros H. unfold XE310.parse_signal. destruct (XE310.after_colon b) as [v|]; [|exact H].
  assert (Forall int32 (XE310.cesq_value <$> comma_fields 6 v)) as Hf.
  { apply Forall_fmap, Forall_forall. intros t _. apply cesq_value_range. }
  destruct (XE310.cesq_value <$> comma_fields 6 v) as [|a [|b' [|c [|d [|q [|p []]]]]]]; try exact H.
  rewrite !Forall_cons in Hf. destruct_and! Hf. by split_and!.
Qed.

Lemma apply_reg_fields_ok fields r : registration_info_ok r -> registration_info_ok (XE310.apply_reg_fields fields r).
Proof.
  unfold registration_info_ok, XE310.apply_reg_fields. intros H. destruct_and! H.
  cbn [lac ci active_time periodic_tau ri_ip_address operator_name apn ri_mode stat act cause_type reject_cause].
  split_and!; try done; case_goal; try done;
    apply length_fs_cstr || apply u8_range || apply RegStatus_cast_ok || apply RadioTech_cast_ok.
Qed.

Lemma parse_gnss_ok b p p' : gnss_position_ok p -> XE310.parse_gnss b p = Some p' -> gnss_position_ok p'.
Proof.
  unfold gnss_position_ok, XE310.parse_gnss. intros (Hs & Hf & Hn). destruct (XE310.after_colon b) as [params|]; [|done].
  set (fields := _ <$> comma_fields 13 params).
  assert (forall i old, length old <= MODEM_SHORT_STR -> length (default old (fields !! i)) <= MODEM_SHORT_STR) as Hpick.
  { intros i old Ho. unfold fields. rewrite list_lookup_fmap.
    destruct (comma_fields 13 params !! i); [apply length_fs_set|exact Ho]. }
  intros [= <-]. rewrite !Forall_cons in Hs. destruct_and! Hs. rewrite !Forall_cons.
  cbn [utc latitude longitude hdop altitude fix_ cog spkm spkn date nsat hepe vepe].
  split_and!; try (apply Hpick; done); try apply Forall_nil_2; destruct (fields !! _);
    done || lia || apply GnssFixType_cast_ok || apply u8_range.
Qed.

Lemma csurv_cell_line_ok line : csurv_cell_ok (XE310.csurv_cell line).
Proof. split_and!; apply atoi_range || apply u16_range || apply u32_range || apply strtoul_range. Qed.

Lemma survey_summary_ok line a b : XE310.survey_summary line = Some (a, b) -> int32 a /\ int32 b.
Proof.
  unfold XE310.survey_summary. destruct (find_sub _ line); [|done]. destruct (find_sub _ line); [|done].
  intros [= <- <-]. split; apply atoi_range.
Qed.

Lemma csurv_line_ok r line : csurv_ok r -> csurv_ok (XE310.csurv_line r line).
Proof.
  intros (Hl & Hc & Ha & Hb). unfold XE310.csurv_line. destruct line as [|c line]; [done|].
  case_goal; [done|]. case_goal.
  - pose proof (survey_summary_ok (c :: line)) as Hs. destruct (XE310.survey_summary (c :: line)) as [[a b]|]; [|done].
    destruct (Hs _ _ eq_refl). by split_and!.
  - case_goal; [done|]. split_and!; try done; cbn [cells].
    + by apply length_vec_push.
    + unfold vec_push. case_goal; [|done]. apply Forall_app_2; [done|]. apply Forall_singleton, csurv_cell_line_ok.
Qed.
