(* ===== verification/NetworkLte.v ===== *)
(** * The LTE network state machine (src/network_lte.cpp)

    Operations that always return are state transformers [ST]; those that may
    index [serverInfo] out of range or loop for ever are in the outcome monad
    [NL].  Time passes inside the modem calls: after each of them [tick] lets the
    timer threads run, so a state timeout can be posted at any command. *)

From S2P Require Import Prelude CLib FixedString StaticVector AtCommand MessageQueue Timer Hal.
From S2P Require Import ModemController Xe310Types Xe310 Survey Trace NetworkTypes.

(** ** Updates of [RegistrationInfo] members *)

Definition reg_set_operator (o : str) (r : RegistrationInfo) : RegistrationInfo :=
  mkReg (lac r) (ci r) (active_time r) (periodic_tau r) (ri_ip_address r) o (apn r) (ri_mode r) (stat r)
        (act r) (fHasLocation r) (cause_type r) (reject_cause r) (fHasReject r) (fHasPsm r).
Definition reg_set_apn (a : str) (r : RegistrationInfo) : RegistrationInfo :=
  mkReg (lac r) (ci r) (active_time r) (periodic_tau r) (ri_ip_address r) (operator_name r) a (ri_mode r)
        (stat r) (act r) (fHasLocation r) (cause_type r) (reject_cause r) (fHasReject r) (fHasPsm r).

Definition UINT32_MAX : Z := 2 ^ 32 - 1.

(** A guarded statement. *)
Definition st_when {S} (b : bool) (m : ST S unit) : ST S unit := if b then m else st_ret tt.

Definition state_eqb (a b : NetworkLteState) : bool := bool_decide (a = b).

Section StateMachine.
Context {T : HalTypes} {HM : HalTimer} {HQ : HalQueue}.
Context {C : Type} {HC : Controller C} {HA : TimerAccess C} {HR : Residue}.

Notation L := (@NetworkLte T C).

Definition upd (f : L -> L) : ST L unit := fun s => (tt, f s).
Definition gets {A} (f : L -> A) : ST L A := fun s => (f s, s).
Definition lift {A} (m : ST L A) : NL L A := fun s => Done (m s).

(** ** Events, actions and their trace *)

Definition add_trace (k : NetworkTraceKind) (p c : NetworkLteState) (e : NetworkLteEvent) (a : ModemAction)
  (s : L) : L := set_trace (push_trace (mkEntry k p c e a) (trace_ s)) s.

Definition log_state (s : L) : L :=
  add_trace Trace_state_change (prev_state_ s) (state_ s) Event_none Action_none s.
Definition log_event (s : L) : L := add_trace Trace_event_set State_none State_none (event_ s) Action_none s.
Definition log_action (s : L) : L :=
  add_trace Trace_action_set State_none State_none Event_none (modem_action_ s) s.

Definition on_event (e : NetworkLteEvent) (s : L) : L :=
  let s1 := log_event (set_event e s) in
  if is_error_event e then add_trace Trace_error State_none State_none e Action_none s1 else s1.

Definition get_event : ST L NetworkLteEvent := fun s => (event_ s, set_event Event_none s).

Definition call_action (a : ModemAction) (s : L) : L := log_action (set_modem_action a s).

Definition get_action : ST L ModemAction := fun s => (modem_action_ s, set_modem_action Action_none s).

(** ** Time *)

Definition now (s : L) : Z := ctl_now (XE310.controller_ (modem_ s)).

Definition on_timer_expired (s : L) : L := on_event Event_timeout s.

Definition run_cb (cb : option TimerCb) (s : L) : L :=
  match cb with
  | Some cb_on_timer_expired => on_timer_expired s
  | _ => s
  end.

(** The timers get to run. *)
Definition tick (s : L) : L :=
  let '(cb, t) := timer_run (now s) (st_timer_obj s) in
  let s1 := run_cb cb (put_st_timer t s) in
  match user_timer_obj s1 with
  | None => s1
  | Some tm => let '(cb', t') := timer_run (now s1) tm in run_cb cb' (put_user_timer t' s1)
  end.

(** A call on the modem object. *)
Definition modem {A} (m : ST (XE310.xE310 C) A) : ST L A := fun s =>
  let '(a, x) := m (modem_ s) in (a, tick (set_modem x s)).

(** A call whose status is not looked at. *)
Definition modem_do {A} (m : ST (XE310.xE310 C) A) : ST L unit := fun s => (tt, snd (modem m s)).

Definition start_st_timer (ms : Z) (cb : TimerCb) (s : L) : L :=
  put_st_timer (snd (timer_start (now s) ms (Some cb) (st_timer_obj s))) s.
Definition stop_st_timer (s : L) : L := put_st_timer (snd (timer_stop (st_timer_obj s))) s.

(** The user timer ([start_timer] and the like of the public interface). *)
Definition start_timer (ms : Z) : ST L TimerError := fun s =>
  match user_timer_obj s with
  | None => (TimerError_not_running, s)
  | Some t => let '(e, t') := timer_start (now s) ms (Some cb_on_timer_expired) t in
              (e, put_user_timer t' s)
  end.
Definition stop_timer : ST L TimerError := fun s =>
  match user_timer_obj s with
  | None => (TimerError_not_running, s)
  | Some t => let '(e, t') := timer_stop t in (e, put_user_timer t' s)
  end.
Definition reset_timer (ms : Z) : ST L TimerError := fun s =>
  match user_timer_obj s with
  | None => (TimerError_not_running, s)
  | Some t => let '(e, t') := timer_reset (now s) ms t in (e, put_user_timer t' s)
  end.
Definition is_timer_running (s : L) : bool :=
  match user_timer_obj s with None => false | Some t => timer_is_running t end.
Definition timer_elapsed_seconds (s : L) : Z :=
  match user_timer_obj s with None => 0 | Some t => timer_elapsed_ms (now s) t / 1000 end.

Definition check_status_response (st : ModemStatus) : ST L bool := fun s =>
  match st with
  | ModemStatus_ok => (true, s)
  | ModemStatus_timeout => (false, on_event Event_at_command_no_response s)
  | _ => (false, s)
  end.

(** ** Servers *)

(** [while (i < MAX_SERVER_CONNECTIONS) serverInfo[i++].state = disconnected]. *)
Definition disconnect_servers (s : L) : L :=
  set_serverInfo (server_set_state Server_disconnected <$> serverInfo s) s.

(** [serverInfo[conn_id - 1]], undefined outside the array. *)
Definition server_index (conn_id : Z) : option nat :=
  if ((1 <=? conn_id) && (conn_id <=? 5))%Z then Some (Z.to_nat (conn_id - 1)) else None.
Definition get_server (conn_id : Z) : NL L ServerInfo := fun s =>
  match server_index conn_id with
  | Some i => match serverInfo s !! i with
              | Some v => Done (v, s)
              | None => Undef
              end
  | None => Undef
  end.
Definition upd_server (conn_id : Z) (f : ServerInfo -> ServerInfo) : NL L unit := fun s =>
  match server_index conn_id with
  | Some i => Done (tt, set_serverInfo (alter f i (serverInfo s)) s)
  | None => Undef
  end.

(** ** [change_state] *)

Definition add_timer (st : NetworkLteState) (ms : Z) (t : StateTimers) : StateTimers :=
  match t with
  | mkTimers a p d tr g sl o =>
      match st with
      | State_network_attaching => mkTimers (u32 (a + ms)) p d tr g sl o
      | State_pdp_context_opening => mkTimers a (u32 (p + ms)) d tr g sl o
      | State_data_ready => mkTimers a p (u32 (d + ms)) tr g sl o
      | State_transparent_mode => mkTimers a p d (u32 (tr + ms)) g sl o
      | State_gnss_fix_mode => mkTimers a p d tr (u32 (g + ms)) sl o
      | State_sleep_mode => mkTimers a p d tr g (u32 (sl + ms)) o
      | State_off_mode => mkTimers a p d tr g sl (u32 (o + ms))
      | _ => t
      end
  end.

Definition timed_state (st : NetworkLteState) : bool :=
  match st with
  | State_network_attaching | State_pdp_context_opening | State_data_ready | State_transparent_mode
  | State_gnss_fix_mode | State_sleep_mode | State_off_mode => true
  | _ => false
  end.

(** The first switch: leaving [prev_state_]. *)
Definition leave_state (prev : NetworkLteState) (s : L) : L :=
  if timed_state prev then
    let elapsed := timer_elapsed_ms (now s) (st_timer_obj s) in
    stop_st_timer (set_stateTimers (add_timer prev elapsed (stateTimers_ s)) s)
  else s.

Local Open Scope st_scope.

(** What entering [data_ready] reads from the modem. *)
Definition refresh_info : ST L unit :=
  do clk <- gets modemClock;
  do (_, clk') <- modem (XE310.get_clock clk);
  do_ upd (set_modemClock clk');
  do sq <- gets signalQuality;
  do (_, sq') <- modem (XE310.get_signal_quality sq);
  do_ upd (set_signalQuality sq');
  do r <- gets regInfo;
  do (_, o) <- modem (XE310.get_operator (operator_name r));
  do_ upd (fun s => set_regInfo (reg_set_operator o (regInfo s)) s);
  do cfg <- gets lteConfig;
  do r <- gets regInfo;
  do (_, a) <- modem (XE310.get_apn (cfg_cid cfg) (apn r));
  do_ upd (fun s => set_regInfo (reg_set_apn a (regInfo s)) s);
  modem_do (XE310.get_telit_psm TelitCpsmsStatus_default).

Definition start_data_ready_timer (s : L) : L :=
  let sec := data_ready_timeout_sec (lteConfig s) in
  if (0 <? sec)%Z then start_st_timer (sec * 1000) cb_on_timer_expired s
  else start_st_timer UINT32_MAX cb_nothing s.

(** The second switch: timers of the new state. *)
Definition enter_state (st : NetworkLteState) : ST L unit :=
  match st with
  | State_network_attaching =>
      upd (fun s => start_st_timer (attach_timeout_sec (lteConfig s) * 1000) cb_on_timer_expired s)
  | State_pdp_context_opening =>
      upd (fun s => start_st_timer (pdp_timeout_sec (lteConfig s) * 1000) cb_on_timer_expired s)
  | State_data_ready => do_ refresh_info; upd start_data_ready_timer
  | State_transparent_mode =>
      upd (fun s => start_st_timer (transparent_timeout_sec (lteConfig s) * 1000) cb_on_timer_expired s)
  | State_sleep_mode | State_off_mode => upd (start_st_timer UINT32_MAX cb_nothing)
  | State_gnss_fix_mode =>
      upd (fun s => start_st_timer (gps_timeout_sec (lteConfig s) * 1000) cb_on_timer_expired s)
  | _ => st_ret tt
  end.

(** The third switch: resets and follow-up actions. *)
Definition reset_for_state (st : NetworkLteState) (s : L) : L :=
  match st with
  | State_network_detached =>
      call_action Action_attach_network (disconnect_servers (set_networkInfo NetworkInfo_default s))
  | State_pdp_context_closed =>
      call_action Action_open_pdp_context
        (disconnect_servers (set_networkInfo (mkNet (context_state (networkInfo s)) []) s))
  | _ => s
  end.

Definition change_state (new_state : NetworkLteState) : ST L unit := fun s =>
  if state_eqb new_state (state_ s) then (tt, s)
  else
    let prev := state_ s in
    (do_ upd (fun s => leave_state prev (log_state (set_state new_state (set_prev_state prev s))));
     do_ enter_state new_state;
     upd (reset_for_state new_state)) s.

(** ** Unsolicited result codes *)

(** [trim_sv]. *)
Definition trim_sv (s : str) : str := strip [SPACE; TAB; CR] s.

Definition is_uint_sv (s : str) : bool :=
  match s with
  | [] => false
  | _ => forallb (fun c => match digit_in 10 c with Some _ => true | None => false end) s
  end.

(** The registration status of a [+CREG]/[+CEREG] code, [-1] when there is none:
    the first field, or the second when both are small numbers. *)
Definition creg_stat (payload : str) : Z :=
  match trim_sv <$> csv_fields 8 payload with
  | f0 :: rest =>
      if is_uint_sv f0 then
        match rest with
        | f1 :: _ =>
            if is_uint_sv f1 then
              let first := atoi f0 in
              let second := atoi f1 in
              if ((0 <=? first) && (first <=? 5) && (0 <=? second) && (second <=? 10))%Z
              then second else first
            else atoi f0
        | [] => atoi f0
        end
      else (-1)%Z
  | [] => (-1)%Z
  end.

(** The branches [%STATEV:] and [NO CARRIER] of the source only log. *)
Definition handle_urc (urc : str) (s : L) : L :=
  if starts_with (lit "+CREG:") urc || starts_with (lit "+CEREG:") urc then
    match find_char COLON urc with
    | None => s
    | Some colon =>
        let stat := creg_stat (drop (S colon) urc) in
        if ((stat =? 1) || (stat =? 5))%Z
        then set_nAttachRetries 0 (call_action Action_query_pdp_context s)
        else s
    end
  else if starts_with (lit "+CGEV:") urc then
    let ev := strip_left (drop 6 urc) in
    if starts_with (lit "NW_DEACT") ev || starts_with (lit "ME DEACT") ev
    then on_event Event_context_closed s
    else if starts_with (lit "NW_DETACH") ev || starts_with (lit "ME_DETACH") ev
            || starts_with (lit "ME DETACH") ev
    then on_event Event_network_detached s
    else if starts_with (lit "REJECT") ev then on_event Event_context_rejected s
    else s
  else if starts_with (lit "%STATEV:") urc then s
  else if starts_with (lit "#PSMURC:") urc then on_event Event_psm_enter s
  else if starts_with (lit "%NOTIFYEV:" ++ XE310.quoted (lit "PLMNSEARCHEXH")) urc
  then on_event Event_network_detached s
  else if starts_with (lit "SRING:") urc then
    let body := drop 6 urc in
    match find_first_not_of [SPACE] body with
    | Some p => on_event Event_data_available (set_last_data_conn_id (u8 (atoi (drop p body))) s)
    | None => s
    end
  else if starts_with (lit "$GPGSA,") urc then on_event Event_gps_available s
  else s.

(** ** Actions, one definition per case of [execute_actions] *)

Definition act_reboot : ST L unit :=
  do st <- modem XE310.reboot;
  do ok <- check_status_response st;
  st_when ok (do_ change_state State_rebooting; upd (call_action Action_power_on)).

Definition act_power_on : ST L unit :=
  do_ modem_do (XE310.set_baudrate 115200);
  do_ modem_do (XE310.set_echo false);
  do st <- modem XE310.at_ok;
  if negb (status_eqb st ModemStatus_ok) then change_state State_switched_off
  else
    do_ modem_do (XE310.set_echo false);
    do_ change_state State_idle_mode;
    do_ upd (call_action Action_setup_radio);
    do_ upd (set_fColdBoot true);
    upd (set_nNetworkAttempts 0).

Definition act_turn_on_radio : ST L unit :=
  do_ change_state State_idle_mode;
  upd (call_action Action_setup_radio).

Definition act_switch_off_radio : ST L unit :=
  do cfg <- gets lteConfig;
  st_when (fCfunSleep cfg)
    (do_ modem_do XE310.power_off_radio;
     do_ modem_do XE310.shutdown;
     change_state State_off_mode).

Definition act_wake_up : ST L unit :=
  do prev <- gets prev_state_;
  if state_eqb prev State_data_ready then
    do_ change_state State_data_ready;
    upd (call_action Action_query_network_status)
  else
    do_ upd (set_fWarmBoot true);
    do_ change_state State_idle_mode;
    upd (call_action Action_setup_radio).

(** Turns the notifications of normal operation on. *)
Definition enable_urcs : ST L unit :=
  do_ modem_do (XE310.set_psm_urc true);
  do_ modem_do (XE310.set_cell_state_urc true);
  do_ modem_do (XE310.set_registration_urc true);
  do_ modem_do (XE310.set_pdp_urc true);
  modem_do (XE310.set_plmnsearchexh_notify true).

(** The bands half and the technology half of the reconfiguration; they tell
    whether the modem accepted the change, so that a reboot is needed. *)
Definition apply_bands : ST L bool :=
  do change <- gets fChangeBands;
  if change : bool then
    do_ upd (set_fChangeBands false);
    do n <- gets nAttachRetries;
    do cfg <- gets lteConfig;
    do st <- modem (XE310.set_lte_bands
                      (if (n =? 0)%Z then default_lte_bands cfg else fallback_lte_bands cfg));
    st_ret (status_eqb st ModemStatus_ok)
  else st_ret false.
Definition apply_tech : ST L bool :=
  do change <- gets fChangeRAT;
  if change : bool then
    do_ upd (set_fChangeRAT false);
    do n <- gets nAttachRetries;
    do cfg <- gets lteConfig;
    do st <- modem (XE310.set_iot_tech
                      (if (n =? 0)%Z then default_iot_tech cfg else fallback_iot_tech cfg));
    st_ret (status_eqb st ModemStatus_ok)
  else st_ret false.

Definition boot_psm_config (cfg : NetworkLteConfig) : TelitCpsmsConfig :=
  mkTelitCfg PsmMode_enable false 0 false 0 true (psm_t3412 cfg) true (psm_t3324 cfg) false
             PsmVersion_rel12_retain false 60.

Definition act_setup_radio : ST L unit :=
  do s <- gets id;
  if fChangeBands s || fChangeRAT s then
    do r1 <- apply_bands;
    do r2 <- apply_tech;
    st_when (r1 || r2) (upd (call_action Action_reboot))
  else
    do_ st_when (fWarmBoot s || fColdBoot s)
      (do_ upd (fun s => set_fColdBoot false (set_fWarmBoot false s));
       do_ (if negb (fPsmEnable (lteConfig s)) then modem_do XE310.disable_telit_psm
            else modem_do (XE310.set_telit_psm (boot_psm_config (lteConfig s))));
       enable_urcs);
    do_ change_state State_idle_mode;
    upd (call_action Action_query_network_status).

Definition act_query_network_status : ST L unit :=
  do r <- gets regInfo;
  do (st, r') <- modem (XE310.get_registration_status r RadioTech_cat_m1);
  do_ upd (set_regInfo r');
  do ok <- check_status_response st;
  if negb ok then st_ret tt
  else match stat r' with
       | RegStatus_denied | RegStatus_not_registered | RegStatus_searching =>
           change_state State_network_detached
       | RegStatus_registered_home | RegStatus_registered_roaming =>
           upd (call_action Action_query_pdp_context)
       | RegStatus_unknown => change_state State_network_detached
       | _ => st_ret tt
       end.

(** One attach attempt with the given access point, technology and bands.  The
    result tells whether it was carried out; otherwise the radio is set up again
    first. *)
Definition attach_with (want_apn : str) (want_tech : RadioTech) (want_bands : Z) : ST L bool :=
  do cfg <- gets lteConfig;
  do r <- gets regInfo;
  do (st, a) <- modem (XE310.get_apn (cfg_cid cfg) (apn r));
  do_ upd (fun s => set_regInfo (reg_set_apn a (regInfo s)) s);
  do_ st_when (status_eqb st ModemStatus_ok && negb (str_eqb a want_apn))
        (modem_do (XE310.set_apn (cfg_cid cfg) want_apn));
  do (st, (tech, _)) <- modem (XE310.get_iot_tech (uninit_tech, 0%Z));
  do_ st_when (status_eqb st ModemStatus_ok && negb (bool_decide (tech = want_tech)))
        (upd (set_fChangeRAT true));
  do (st, bands) <- modem (XE310.get_bands BandConfig_default);
  do_ st_when (status_eqb st ModemStatus_ok && negb (lte_mask bands =? want_bands)%Z)
        (upd (set_fChangeBands true));
  do s <- gets id;
  if fChangeRAT s || fChangeBands s then
    do_ upd (call_action Action_setup_radio);
    st_ret false
  else
    do_ change_state State_network_attaching;
    do_ modem_do XE310.power_radio;
    st_ret true.

Definition count_attempt : ST L unit :=
  upd (fun s => set_nAttachRetries (u8 (nAttachRetries s + 1)) s).

Definition act_attach_network : ST L unit :=
  do_ modem_do XE310.power_off_radio;
  do n <- gets nAttachRetries;
  do cfg <- gets lteConfig;
  if (n =? 0)%Z then
    do done_ <- attach_with (default_apn cfg) (default_iot_tech cfg) (default_lte_bands cfg);
    st_when done_ count_attempt
  else if (n <? max_attach_retries cfg)%Z then
    do done_ <- attach_with (fallback_apn cfg) (fallback_iot_tech cfg) (fallback_lte_bands cfg);
    st_when done_ count_attempt
  else
    do_ upd (on_event Event_attach_error);
    count_attempt.

Definition act_query_pdp_context : ST L unit :=
  do cfg <- gets lteConfig;
  do (st, active) <- modem (XE310.get_pdp_state (cfg_cid cfg) false);
  if negb (status_eqb st ModemStatus_ok) then st_ret tt
  else if negb active then
    do_ change_state State_pdp_context_closed;
    upd (call_action Action_open_pdp_context)
  else
    do net <- gets networkInfo;
    do (st, ip) <- modem (XE310.get_ip_address (cfg_cid cfg) (ip_address net));
    do_ upd (fun s => set_networkInfo (mkNet (context_state (networkInfo s)) ip) s);
    if status_eqb st ModemStatus_ok then change_state State_data_ready else st_ret tt.

Definition act_open_pdp_context : ST L unit :=
  do cfg <- gets lteConfig;
  do st <- modem (XE310.activate_pdp (cfg_cid cfg));
  if status_eqb st ModemStatus_ok then change_state State_data_ready else st_ret tt.

(** The body of the [send_data] loop for one queued message. *)
Definition send_one (m : QueueMessage) : ST L unit := fun s =>
  match server_index (cid m) with
  | None => (tt, s)
  | Some i =>
      match serverInfo s !! i with
      | None => (tt, s)
      | Some sv =>
          if negb (bool_decide (si_state sv = Server_connected)) then (tt, s)
          else if str_eqb (protocol sv) (lit "UDP") then modem_do (XE310.udp_send (cid m) (data m)) s
          else (tt, s)
      end
  end.

(** [while (message_queue_->tx_pop_next(msg) == QueueError::ok)]: every round takes
    one message out, so the number of queued messages bounds the rounds. *)
Fixpoint send_loop (fuel : nat) : ST L unit := fun s =>
  match fuel, message_queue_ s with
  | S fuel', Some q =>
      match mq_tx_pop_next q with
      | (QueueError_ok, Some m, q') =>
          (do_ send_one m; send_loop fuel') (set_message_queue (Some q') s)
      | (_, _, q') => (tt, set_message_queue (Some q') s)
      end
  | _, _ => (tt, s)
  end.

Definition act_send_data : ST L unit := fun s =>
  if negb (state_eqb (state_ s) State_data_ready) then (tt, s)
  else match message_queue_ s with
       | None => (tt, s)
       | Some q => send_loop (S (mq_tx_pending q)) s
       end.

(** The received payload is only logged. *)
Definition act_read_data : ST L unit :=
  do cfg <- gets lteConfig;
  modem_do (XE310.udp_receive (cfg_conn_id cfg) [] 1500).

(** Turns every notification off. *)
Definition disable_urcs : ST L unit :=
  do_ modem_do (XE310.set_psm_urc false);
  do_ modem_do (XE310.set_cell_state_urc false);
  do_ modem_do (XE310.set_registration_urc false);
  modem_do (XE310.set_pdp_urc false).

Definition act_enter_transparent_mode : ST L unit :=
  do_ change_state State_transparent_mode;
  do_ disable_urcs;
  modem_do XE310.disable_all_notifyev.

Definition act_leave_transparent_mode : ST L unit :=
  do_ enable_urcs;
  do_ change_state State_idle_mode;
  upd (call_action Action_query_network_status).

Definition act_enter_gnss_fix : ST L unit :=
  do_ disable_urcs;
  do_ modem_do XE310.power_off_radio;
  do (_, powered) <- modem XE310.is_gnss_powered;
  do ok <- (if powered : bool then st_ret true
            else do st <- modem (XE310.set_gnss_power true); st_ret (status_eqb st ModemStatus_ok));
  if ok : bool then
    do_ change_state State_gnss_fix_mode;
    modem_do (XE310.set_gnss_urc true)
  else upd (call_action Action_leave_gnss_fix).

Definition act_leave_gnss_fix : ST L unit :=
  do_ modem_do (XE310.set_gnss_power false);
  do_ modem_do (XE310.set_gnss_urc false);
  do_ change_state State_idle_mode;
  upd (call_action Action_query_network_status).

Local Open Scope nl_scope.

(** [while (true)]: asks for a sign of life every two seconds.  The source sets no
    limit; [fuel] bounds the attempts of the model. *)
Fixpoint act_check_responsiveness (fuel : nat) : NL L unit :=
  match fuel with
  | 0 => nl_nofuel
  | S fuel' =>
      let* st := lift (modem XE310.at_ok) in
      if status_eqb st ModemStatus_ok then
        lift (change_state State_idle_mode) ;;;
        nl_modify (call_action Action_query_network_status)
      else
        lift (modem_do (XE310.delay 2000)) ;;;
        act_check_responsiveness fuel'
  end.

Definition run_action (fuel : nat) (a : ModemAction) : NL L unit :=
  match a with
  | Action_reboot => lift act_reboot
  | Action_check_responsiveness => act_check_responsiveness fuel
  | Action_power_on => lift act_power_on
  | Action_power_off => lift (change_state State_switched_off)
  | Action_turn_on_radio => lift act_turn_on_radio
  | Action_switch_off_radio => lift act_switch_off_radio
  | Action_enter_sleep => nl_modify (call_action Action_switch_off_radio)
  | Action_wake_up => lift act_wake_up
  | Action_setup_radio => lift act_setup_radio
  | Action_query_network_status => lift act_query_network_status
  | Action_attach_network => lift act_attach_network
  | Action_query_pdp_context => lift act_query_pdp_context
  | Action_open_pdp_context => lift act_open_pdp_context
  | Action_send_data => lift act_send_data
  | Action_read_data => lift act_read_data
  | Action_enter_transparent_mode => lift act_enter_transparent_mode
  | Action_leave_transparent_mode => lift act_leave_transparent_mode
  | Action_enter_gnss_fix => lift act_enter_gnss_fix
  | Action_leave_gnss_fix => lift act_leave_gnss_fix
  | Action_none | Action_factory_reset | Action_data_complete => nl_ret tt
  end.

Definition execute_actions (fuel : nat) : NL L unit :=
  let* a := lift get_action in run_action fuel a.

(** ** [loop] *)

Definition receive_data : ST L unit := fun s =>
  let conn := if (0 <? last_data_conn_id_ s)%Z then last_data_conn_id_ s else cfg_conn_id (lteConfig s) in
  let '((st, buf), s1) := modem (XE310.udp_receive conn [] 1500) s in
  if status_eqb st ModemStatus_ok && negb (str_eqb buf []) then
    let s2 := match message_queue_ s1 with
              | Some q => set_message_queue (Some (snd (mq_rx_push q conn buf))) s1
              | None => s1
              end in
    (tt, if on_data_received_ s2
         then set_received (received_ s2 ++ [(conn, buf, u16 (Z.of_nat (length buf)))]) s2
         else s2)
  else (tt, s1).

Definition read_fix : ST L unit :=
  (do (_, pos) <- modem (XE310.get_gnss_position GnssPosition_default);
   st_when (has_fix (fix_ pos))
     (do_ upd (set_gnssPosition pos); upd (call_action Action_leave_gnss_fix)))%st.

(** The switch on the dequeued event. *)
Definition process_event (e : NetworkLteEvent) : ST L unit := fun s =>
  match e with
  | Event_psm_enter => change_state State_sleep_mode s
  | Event_psm_exit =>
      change_state (if state_eqb (prev_state_ s) State_data_ready then State_data_ready else State_idle_mode) s
  | Event_network_detached =>
      let s1 := disconnect_servers s in
      match state_ s1 with
      | State_switched_off | State_off_mode | State_sleep_mode => (tt, s1)
      | _ => change_state State_network_detached s1
      end
  | Event_network_attached => change_state State_pdp_context_closed s
  | Event_context_closed => change_state State_network_detached (disconnect_servers s)
  | Event_context_opened => change_state State_data_ready s
  | Event_data_available => receive_data s
  | Event_gps_available => read_fix s
  | Event_timeout =>
      if state_eqb (state_ s) State_data_ready && (data_ready_timeout_sec (lteConfig s) =? 0)%Z then (tt, s)
      else
        change_state State_done
          (call_action (match state_ s with
                        | State_data_ready => Action_enter_sleep
                        | State_transparent_mode => Action_leave_transparent_mode
                        | State_gnss_fix_mode => Action_leave_gnss_fix
                        | _ => Action_attach_network
                        end) s)
  | Event_attach_error => (tt, call_action Action_enter_sleep s)
  | Event_at_command_no_response => (tt, call_action Action_check_responsiveness s)
  | _ => (tt, s)
  end.

(** Everything [loop] does before the actions. *)
Definition poll_events : ST L unit := fun s =>
  let s1 := if state_eqb (state_ s) State_transparent_mode then s
            else let '(urcs, s') := modem (XE310.poll_urc 10) s in
                 foldl (fun s u => handle_urc u s) s' urcs in
  let s2 := if status_eqb (XE310.last_status_ (modem_ s1)) ModemStatus_timeout
            then on_event Event_at_command_no_response s1 else s1 in
  let '(e, s3) := get_event s2 in
  process_event e s3.

Definition loop (fuel : nat) (target_state : NetworkLteState) : NL L NetworkLteState :=
  lift poll_events ;;;
  let* st := nl_gets state_ in
  if state_eqb st target_state && negb (state_eqb target_state State_none) then nl_ret st
  else execute_actions fuel ;;; nl_gets state_.

(** ** [go_to_state] *)

Definition up_target (t : NetworkLteState) : bool :=
  match t with State_data_ready | State_transparent_mode => true | _ => false end.

(** The action [go_to_state] asks for before each [loop]. *)
Definition request_action (st target : NetworkLteState) : option ModemAction :=
  match st with
  | State_switched_off =>
      if up_target target || state_eqb target State_gnss_fix_mode then Some Action_power_on else None
  | State_off_mode =>
      if up_target target || state_eqb target State_gnss_fix_mode then Some Action_turn_on_radio else None
  | State_sleep_mode => if up_target target then Some Action_wake_up else None
  | State_transparent_mode | State_gnss_fix_mode =>
      if state_eqb target State_data_ready || state_eqb target State_idle_mode
      then Some Action_leave_transparent_mode else None
  | _ =>
      if state_eqb target State_transparent_mode then Some Action_enter_transparent_mode
      else if state_eqb target State_gnss_fix_mode then Some Action_enter_gnss_fix else None
  end.

(** [while (state_ != target_state)], with [n] bounding the rounds. *)
Fixpoint go_to_state (n fuel : nat) (target : NetworkLteState) : NL L bool :=
  match n with
  | 0 => nl_nofuel
  | S n' =>
      let* st := nl_gets state_ in
      if state_eqb st target then nl_ret true
      else match st with
           | State_done | State_modem_fota => nl_ret false
           | _ =>
               nl_modify (fun s => from_option (fun a => call_action a s) s (request_action st target)) ;;;
               loop fuel target ;;;
               let* e := nl_gets event_ in
               match e with
               | Event_network_error | Event_attach_error | Event_context_error => nl_ret false
               | _ => go_to_state n' fuel target
               end
           end
  end.

(** ** Public operations *)

Definition refresh_clock : ST L ModemStatus :=
  (do clk <- gets modemClock;
   do (st, clk') <- modem (XE310.get_clock clk);
   do_ upd (set_modemClock clk');
   st_ret st)%st.

Definition set_config (cfg : NetworkLteConfig) : ST L unit := upd (set_lteConfig cfg).

Definition scan_networks (start_ch end_ch : Z) : ST L bool :=
  (do r <- gets csurvResult;
   do (st, r') <- modem (XE310.scan_networks r start_ch end_ch);
   do_ upd (set_csurvResult r');
   st_ret (status_eqb st ModemStatus_ok))%st.

Definition network_connect (n fuel : nat) : NL L bool :=
  let* warm := nl_gets fWarmBoot in
  (if warm : bool then lift (modem_do XE310.network_detach) else nl_ret tt) ;;;
  let* st := nl_gets state_ in
  match st with
  | State_gnss_fix_mode | State_transparent_mode | State_modem_fota | State_done => nl_ret false
  | State_data_ready => nl_ret true
  | _ =>
      go_to_state n fuel State_data_ready ;;;
      let* st := nl_gets state_ in
      nl_ret (state_eqb st State_data_ready)
  end.

Definition network_disconnect : ST L bool :=
  (do st <- modem XE310.network_detach;
   do_ (if status_eqb st ModemStatus_ok then change_state State_network_detached else st_ret tt);
   st_ret true)%st.

Definition new_connection (conn_id : Z) (proto ip port_ : str) : NL L unit :=
  upd_server conn_id (fun sv =>
    mkServer (si_conn_id sv) Server_disconnected (fs_set MODEM_SHORT_STR proto) (fs_set MODEM_IP_STR ip)
             (u16 (atoi (to_buf 8 port_))) (fHasData sv)).

(** The part of [server_connect] after the state checks. *)
Definition open_server (conn_id : Z) (proto ip : str) (port_ : Z) : NL L bool :=
  if str_eqb proto (lit "UDP") then
    let* st := lift (modem (XE310.udp_open conn_id ip port_ 0)) in
    if negb (status_eqb st ModemStatus_ok) then
      lift (modem_do (XE310.udp_close conn_id)) ;;; nl_ret false
    else
      upd_server conn_id (fun sv =>
        mkServer (si_conn_id sv) Server_connected (fs_set MODEM_SHORT_STR proto) (fs_set MODEM_IP_STR ip)
                 port_ (fHasData sv)) ;;;
      nl_ret true
  else nl_ret false.

Definition server_connect (conn_id : Z) (proto ip : str) (port_ : Z) : NL L bool :=
  let* st := nl_gets state_ in
  if negb (state_eqb st State_data_ready) then nl_ret false
  else
    let* (_, conn_state) := lift (modem (XE310.udp_status conn_id 0)) in
    upd_server conn_id (server_set_state (ServerState_cast conn_state)) ;;;
    let* sv := get_server conn_id in
    match si_state sv with
    | Server_connected => nl_ret true
    | Server_suspended =>
        let* st := lift (modem (XE310.udp_close conn_id)) in
        if negb (status_eqb st ModemStatus_ok) then nl_ret false
        else upd_server conn_id (server_set_state Server_connected) ;;; open_server conn_id proto ip port_
    | Server_dns_resolving | Server_connecting => nl_ret false
    | _ => open_server conn_id proto ip port_
    end.

Definition server_disconnect (conn_id : Z) : NL L bool :=
  let* sv := get_server conn_id in
  if negb (bool_decide (si_state sv = Server_connected)) then nl_ret false
  else if str_eqb (protocol sv) (lit "UDP") then
    let* st := lift (modem (XE310.udp_close conn_id)) in
    if negb (status_eqb st ModemStatus_ok) then nl_ret false
    else upd_server conn_id (server_set_state Server_disconnected) ;;; nl_ret true
  else nl_ret false.

Definition tx_write (conn_id : Z) (bytes : str) : ST L QueueError := fun s =>
  match message_queue_ s with
  | None => (QueueError_invalid_id, s)
  | Some q => let '(e, q') := mq_tx_push q conn_id bytes in (e, set_message_queue (Some q') s)
  end.

Definition rx_read (conn_id : Z) : ST L (QueueError * option QueueMessage) := fun s =>
  match message_queue_ s with
  | None => ((QueueError_invalid_id, None), s)
  | Some q => let '(e, m, q') := mq_rx_pop q conn_id in ((e, m), set_message_queue (Some q') s)
  end.

(** ** Forced power saving *)

Definition registered (st : RegStatus) : bool :=
  match st with RegStatus_registered_home | RegStatus_registered_roaming => true | _ => false end.

(** The operator loop of [force_psm]: true as soon as one grants PSM timers. *)
Fixpoint try_operators (ops : list Operator) : ST L bool :=
  match ops with
  | [] => st_ret false
  | op :: ops' =>
      (do_ modem_do (XE310.set_operator_manual (numeric op) (op_act op));
       do (_, reg) <- modem (XE310.get_registration_status RegistrationInfo_default RadioTech_unknown);
       if negb (registered (stat reg)) then try_operators ops'
       else
         do (st, psm) <- modem (XE310.get_telit_psm TelitCpsmsStatus_default);
         if negb (status_eqb st ModemStatus_ok) then try_operators ops'
         else if bool_decide (ts_mode psm = PsmMode_disable) then try_operators ops'
         else if ((t3412 psm =? 0) && (t3324 psm =? 0))%Z then try_operators ops'
         else st_ret true)%st
  end.

Definition force_psm : ST L bool := fun s =>
  if negb (state_eqb (state_ s) State_data_ready) then (false, s)
  else
    (do_ upd stop_st_timer;
     do_ disable_urcs;
     do_ modem_do XE310.disable_all_notifyev;
     do (_, ops) <- modem (XE310.get_available_operators []);
     do attached <- try_operators ops;
     do_ change_state (if attached : bool then State_data_ready else State_idle_mode);
     do_ upd start_data_ready_timer;
     do_ enable_urcs;
     st_ret attached)%st s.

(** ** Modes *)

Definition asleep (st : NetworkLteState) : bool :=
  match st with State_sleep_mode | State_off_mode | State_switched_off => true | _ => false end.

Definition enter_sleep (n fuel : nat) : NL L bool :=
  let* st := nl_gets state_ in
  if asleep st then nl_ret true
  else
    go_to_state n fuel State_sleep_mode ;;;
    let* st := nl_gets state_ in nl_ret (asleep st).

Definition enter_transparent_mode (n fuel : nat) : NL L bool :=
  let* st := nl_gets state_ in
  (if state_eqb st State_transparent_mode then nl_ret true
   else go_to_state n fuel State_transparent_mode) ;;;
  let* st := nl_gets state_ in nl_ret (state_eqb st State_transparent_mode).

Definition exit_transparent_mode (n fuel : nat) : NL L bool :=
  let* st := nl_gets state_ in
  if negb (state_eqb st State_transparent_mode) then nl_ret false
  else
    go_to_state n fuel State_idle_mode ;;;
    let* st := nl_gets state_ in nl_ret (negb (state_eqb st State_transparent_mode)).

Definition leave_transparent_mode (fuel : nat) : NL L bool :=
  let* st := nl_gets state_ in
  if negb (state_eqb st State_transparent_mode) then nl_ret false
  else
    nl_modify (call_action Action_leave_transparent_mode) ;;;
    execute_actions fuel ;;;
    let* st := nl_gets state_ in nl_ret (negb (state_eqb st State_transparent_mode)).

Definition send_at_command (command response : str) (timeout_ms : Z) : ST L (bool * str) := fun s =>
  if negb (state_eqb (state_ s) State_transparent_mode)
  then ((false, lit "ERROR: Not in transparent mode"), s)
  else
    let '((st, r), s1) := modem (XE310.send_at_command command response timeout_ms) s in
    (match st with
     | ModemStatus_timeout => (false, lit "ERROR: Timeout")
     | ModemStatus_busy => (false, lit "ERROR: Busy")
     | ModemStatus_ok => (true, r)
     | _ => (false, lit "ERROR: Failed to send AT command")
     end, s1).

Definition update_modem (n fuel : nat) : NL L bool :=
  let* st := nl_gets state_ in
  (if state_eqb st State_modem_fota then nl_ret true else go_to_state n fuel State_modem_fota) ;;;
  let* st := nl_gets state_ in
  if negb (state_eqb st State_modem_fota) then nl_ret false
  else
    nl_modify (set_fColdBoot true) ;;;
    go_to_state n fuel State_setup_mode ;;;
    nl_ret true.

(** [while (state_ == gnss_fix_mode) loop();]. *)
Fixpoint wait_for_fix (n fuel : nat) : NL L unit :=
  match n with
  | 0 => nl_nofuel
  | S n' =>
      let* st := nl_gets state_ in
      if state_eqb st State_gnss_fix_mode then loop fuel State_none ;;; wait_for_fix n' fuel
      else nl_ret tt
  end.

Definition acquire_gnss_position (n fuel : nat) (pos : GnssPosition) : NL L (bool * GnssPosition) :=
  let* st := nl_gets state_ in
  (if state_eqb st State_gnss_fix_mode then nl_ret true else go_to_state n fuel State_gnss_fix_mode) ;;;
  let* st := nl_gets state_ in
  if negb (state_eqb st State_gnss_fix_mode) then nl_ret (false, pos)
  else
    wait_for_fix n fuel ;;;
    let* p := nl_gets gnssPosition in
    nl_ret (if has_fix (fix_ p) then (true, p) else (false, pos)).

End StateMachine.
