(* ===== verification/NetworkInv.v ===== *)
(** * The invariant of the network state machine

    [lte_wf_with] collects what every operation keeps: array and buffer sizes,
    members that hold values of their C++ types, sane timers, consistent queues and
    trace, and the states the machine can be in; the configuration satisfies
    whatever the callers of [set_config] guarantee.  The lemmas are per primitive;
    the actions follow by the automation of [NetworkSafety]. *)

From S2P Require Import Prelude CLib FixedString StaticVector AtCommand MessageQueue Timer Hal.
From S2P Require Import ModemController Xe310Types Xe310 Survey Trace NetworkTypes Typed NetworkLte.

(** ** Components of the invariant *)

Definition queue_ok {T : HalTypes} {HQ : HalQueue} {HQL : HalQueueLaws} (q : hal_queue) : Prop :=
  exists tx rx, mq_rel q tx rx.

(** The states some transition of the sources leads to. *)
Definition live_state (st : NetworkLteState) : bool :=
  match st with
  | State_none | State_setup_mode | State_pdp_context_opening | State_modem_fota => false
  | _ => true
  end.

Definition opt_ok {A} (P : A -> Prop) (o : option A) : Prop := from_option P True o.

Record lte_wf_with {T : HalTypes} {HM : HalTimer} {HTL : HalTimerLaws} {HQ : HalQueue} {HQL : HalQueueLaws} {C}
  (K : NetworkLteConfig -> Prop) (s : NetworkLte C) : Prop := {
  wf_server_count : length (serverInfo s) = MAX_SERVER_CONNECTIONS;
  wf_servers : Forall server_ok (serverInfo s);
  wf_st_timer : member_timer_ok (st_timer s);
  wf_user_timer : opt_ok member_timer_ok (timer_ s);
  wf_trace : exists l, trace_rel (trace_ s) l;
  wf_queue : opt_ok queue_ok (message_queue_ s);
  wf_state : live_state (state_ s) = true;
  wf_retries : (0 <= nAttachRetries s < 256)%Z;
  wf_timers : state_timers_ok (stateTimers_ s);
  wf_reg : registration_info_ok (regInfo s);
  wf_clock : length (modemClock s) <= MODEM_SHORT_STR;
  wf_net : network_info_ok (networkInfo s);
  wf_signal : signal_quality_ok (signalQuality s);
  wf_gnss : gnss_position_ok (gnssPosition s);
  wf_csurv : csurv_ok (csurvResult s);
  wf_unwritten : unwritten_ s = Unwritten_default;
  wf_config : K (lteConfig s) }.

Notation lte_wf := (lte_wf_with (fun _ => True)).

Lemma add_timer_ok st ms t : state_timers_ok t -> state_timers_ok (add_timer st ms t).
Proof.
  unfold state_timers_ok. intros H. destruct_and! H. destruct t, st; cbn in *; split_and!; done || lia || apply u32_range.
Qed.

(** ** Primitives *)

Section Primitives.
Context {T : HalTypes} {HM : HalTimer} {HTL : HalTimerLaws} {HQ : HalQueue} {HQL : HalQueueLaws}.
Context {C : Type} {HC : Controller C} {HA : TimerAccess C} {HAL : TimerAccessLaws C} {HR : Residue}.
Context {K : NetworkLteConfig -> Prop}.
Notation L := (@NetworkLte T C).
Notation wf := (lte_wf_with (C := C) K).
Implicit Type s : L.

(** One member changes, to a value with the property the invariant asks for. *)
Ltac wf_set := intros; match goal with H : wf _ |- _ => destruct H end; by split.

Lemma wf_add_trace k p c e a s : wf s -> wf (add_trace k p c e a s).
Proof.
  intros [? ? ? ? [l Hl]]. split; try done. exists (spec_push_trace (mkEntry k p c e a) l). by apply push_trace_rel.
Qed.

Lemma wf_set_modem x s : wf s -> wf (set_modem x s).
Proof. wf_set. Qed.
Lemma wf_set_event e s : wf s -> wf (set_event e s).
Proof. wf_set. Qed.
Lemma wf_set_action a s : wf s -> wf (set_modem_action a s).
Proof. wf_set. Qed.
#[local] Hint Resolve wf_add_trace wf_set_modem wf_set_event wf_set_action : core.

Lemma wf_on_event e s : wf s -> wf (on_event e s).
Proof. intros H. unfold on_event, log_event. destruct (is_error_event e); eauto. Qed.

Lemma wf_call_action a s : wf s -> wf (call_action a s).
Proof. intros H. unfold call_action, log_action. eauto. Qed.

Lemma wf_set_st_timer t s : member_timer_ok t -> wf s -> wf (set_st_timer t s).
Proof. wf_set. Qed.
Lemma wf_set_timer t s : opt_ok member_timer_ok t -> wf s -> wf (set_timer t s).
Proof. wf_set. Qed.
Lemma wf_set_regInfo r s : registration_info_ok r -> wf s -> wf (set_regInfo r s).
Proof. wf_set. Qed.
Lemma wf_set_modemClock c s : length c <= MODEM_SHORT_STR -> wf s -> wf (set_modemClock c s).
Proof. wf_set. Qed.
Lemma wf_set_networkInfo n s : network_info_ok n -> wf s -> wf (set_networkInfo n s).
Proof. wf_set. Qed.
Lemma wf_set_signalQuality q s : signal_quality_ok q -> wf s -> wf (set_signalQuality q s).
Proof. wf_set. Qed.
Lemma wf_set_gnssPosition p s : gnss_position_ok p -> wf s -> wf (set_gnssPosition p s).
Proof. wf_set. Qed.
Lemma wf_set_csurvResult r s : csurv_ok r -> wf s -> wf (set_csurvResult r s).
Proof. wf_set. Qed.
Lemma wf_set_lteConfig c s : K c -> wf s -> wf (set_lteConfig c s).
Proof. wf_set. Qed.
Lemma wf_set_nAttachRetries n s : (0 <= n < 256)%Z -> wf s -> wf (set_nAttachRetries n s).
Proof. wf_set. Qed.
Lemma wf_set_message_queue q s : opt_ok queue_ok q -> wf s -> wf (set_message_queue q s).
Proof. wf_set. Qed.
Lemma wf_set_serverInfo l s :
  length l = MAX_SERVER_CONNECTIONS -> Forall server_ok l -> wf s -> wf (set_serverInfo l s).
Proof. wf_set. Qed.
Lemma wf_set_stateTimers t s : state_timers_ok t -> wf s -> wf (set_stateTimers t s).
Proof. wf_set. Qed.
Lemma wf_set_states st p s : live_state st = true -> wf s -> wf (set_state st (set_prev_state p s)).
Proof. wf_set. Qed.
(** Members the invariant does not mention. *)
Lemma wf_set_nNetworkAttempts x s : wf s -> wf (set_nNetworkAttempts x s).
Proof. wf_set. Qed.
Lemma wf_set_last_data_conn_id x s : wf s -> wf (set_last_data_conn_id x s).
Proof. wf_set. Qed.
Lemma wf_set_fColdBoot x s : wf s -> wf (set_fColdBoot x s).
Proof. wf_set. Qed.
Lemma wf_set_fWarmBoot x s : wf s -> wf (set_fWarmBoot x s).
Proof. wf_set. Qed.
Lemma wf_set_fChangeBands x s : wf s -> wf (set_fChangeBands x s).
Proof. wf_set. Qed.
Lemma wf_set_fChangeRAT x s : wf s -> wf (set_fChangeRAT x s).
Proof. wf_set. Qed.
Lemma wf_set_received x s : wf s -> wf (set_received x s).
Proof. wf_set. Qed.

Lemma wf_disconnect_servers s : wf s -> wf (disconnect_servers s).
Proof.
  intros H. apply wf_set_serverInfo; [|apply Forall_fmap|exact H].
  - rewrite length_fmap. apply H.
  - eapply Forall_impl; [apply H|]. by intros [].
Qed.

(** Whatever object a timer member designates. *)
Lemma wf_put_st_timer t s : timer_ok t -> wf s -> wf (put_st_timer t s).
Proof using HAL.
  intros Ht H. destruct (law_put_st t s) as (x & t1 & -> & Hok). apply wf_set_modem, wf_set_st_timer; auto.
Qed.
Lemma wf_put_user_timer t s : timer_ok t -> wf s -> wf (put_user_timer t s).
Proof using HAL.
  intros Ht H. destruct (law_put_user t s) as (x & t1 & -> & Hok). apply wf_set_modem, wf_set_timer; [by apply Hok|done].
Qed.
Lemma wf_st_timer_obj s : wf s -> timer_ok (st_timer_obj s).
Proof using HAL. intros H. apply law_st_obj, (wf_st_timer K s H). Qed.
Lemma wf_user_timer_obj s t : wf s -> user_timer_obj s = Some t -> timer_ok t.
Proof using HAL. intros H E. pose proof (law_user_obj s (wf_user_timer K s H)) as Hu. by rewrite E in Hu. Qed.

Lemma wf_start_st_timer ms cb s : wf s -> wf (start_st_timer ms cb s).
Proof using HAL. intros H. apply wf_put_st_timer; [|exact H]. by apply law_timer_start, wf_st_timer_obj. Qed.

Lemma wf_stop_st_timer s : wf s -> wf (stop_st_timer s).
Proof using HAL. intros H. apply wf_put_st_timer; [|exact H]. by apply law_timer_stop, wf_st_timer_obj. Qed.

Lemma wf_leave_state p s : wf s -> wf (leave_state p s).
Proof using HAL.
  intros H. unfold leave_state. destruct (timed_state p); [|exact H].
  apply wf_stop_st_timer, wf_set_stateTimers; [|exact H]. apply add_timer_ok. apply H.
Qed.

Lemma wf_reset_for_state st s : wf s -> wf (reset_for_state st s).
Proof.
  intros H. unfold reset_for_state. destruct st; try exact H;
    apply wf_call_action, wf_disconnect_servers, wf_set_networkInfo; try exact H; unfold network_info_ok; simpl; lia.
Qed.

Lemma wf_start_data_ready_timer s : wf s -> wf (start_data_ready_timer s).
Proof using HAL. intros H. unfold start_data_ready_timer. case_goal; by apply wf_start_st_timer. Qed.

Lemma wf_run_cb cb s : wf s -> wf (run_cb cb s).
Proof. intros H. destruct cb as [[]|]; try exact H. by apply wf_on_event. Qed.

Lemma wf_tick s : wf s -> wf (tick s).
Proof using HAL.
  intros H. unfold tick. pose proof (law_timer_run (now s) (st_timer_obj s) (wf_st_timer_obj s H)) as Hrun.
  destruct (timer_run (now s) (st_timer_obj s)) as [cb t]. set (s1 := run_cb cb (put_st_timer t s)).
  assert (wf s1) as H1 by (by apply wf_run_cb, wf_put_st_timer).
  destruct (user_timer_obj s1) as [tm|] eqn:E; [|exact H1].
  pose proof (law_timer_run (now s1) tm (wf_user_timer_obj s1 tm H1 E)) as Hrun2.
  destruct (timer_run (now s1) tm) as [cb' t']. by apply wf_run_cb, wf_put_user_timer.
Qed.

Lemma wf_handle_urc u s : wf s -> wf (handle_urc u s).
Proof.
  intros H. unfold handle_urc.
  repeat first [ exact H | apply wf_on_event | apply wf_call_action
               | apply wf_set_nAttachRetries; [lia|] | apply wf_set_last_data_conn_id | case_goal ].
Qed.

Lemma wf_handle_urcs us s : wf s -> wf (foldl (fun s u => handle_urc u s) s us).
Proof. revert s. induction us as [|u us IH]; intros s H; [exact H|]. simpl. apply IH. by apply wf_handle_urc. Qed.

(** ** Computations *)

Lemma keeps_upd (f : L -> L) : (forall s, wf s -> wf (f s)) -> st_keeps wf (upd f).
Proof. intros Hf s Hs. split; [by apply Hf|done]. Qed.

Lemma ok_gets {A} (f : L -> A) P : (forall s, wf s -> P (f s)) -> st_ok wf (gets f) P.
Proof. intros Hf s Hs. split; [exact Hs|]. by apply Hf. Qed.

Lemma keeps_gets_st {A} (f : L -> A) : st_keeps wf (gets f).
Proof. by apply ok_gets. Qed.

(** A modem call keeps the invariant; its result has the property its method
    guarantees in every driver state. *)
Lemma ok_modem {A} (m : ST (XE310.xE310 C) A) P : (forall x, P (fst (m x))) -> st_ok wf (modem m) P.
Proof using HAL.
  intros Hm s Hs. unfold modem. specialize (Hm (modem_ s)). destruct (m (modem_ s)) as [a x].
  split; [|exact Hm]. by apply wf_tick, wf_set_modem.
Qed.

Lemma keeps_modem {A} (m : ST (XE310.xE310 C) A) : st_keeps wf (modem m).
Proof using HAL. by apply ok_modem. Qed.

Lemma keeps_modem_do {A} (m : ST (XE310.xE310 C) A) : st_keeps wf (modem_do m).
Proof using HAL. intros s Hs. split; [|done]. by apply keeps_modem. Qed.

Lemma keeps_check_status st : st_keeps wf (check_status_response st).
Proof. intros s Hs. split; [|done]. destruct st; try exact Hs. by apply wf_on_event. Qed.

Lemma keeps_st_when b (m : ST L unit) : st_keeps wf m -> st_keeps wf (st_when b m).
Proof. destruct b; [done|]. intros _. apply st_keeps_ret. Qed.

(** ** What the driver's methods return *)

Lemma query_result {A} cmd (f : str -> A -> A) out x (P : A -> Prop) :
  P out -> (forall b, P (f b out)) -> P (snd (fst (XE310.query (C:=C) cmd f out x))).
Proof.
  intros Ho Hf. unfold XE310.query, st_bind, st_ret. destruct (XE310.ask cmd 5000 x) as [[st r] x'].
  simpl. by destruct (status_eqb st ModemStatus_ok).
Qed.

Lemma query_parse_result {A} cmd t (f : str -> A -> option A) out x (P : A -> Prop) :
  P out -> (forall b a, f b out = Some a -> P a) -> P (snd (fst (XE310.query_parse (C:=C) cmd t f out x))).
Proof.
  intros Ho Hf. unfold XE310.query_parse, st_bind, st_ret. destruct (XE310.ask cmd t x) as [[st r] x'].
  simpl. destruct (status_eqb st ModemStatus_ok); [|done]. destruct (f (body r) out) as [a|] eqn:E; [|done].
  by eapply Hf.
Qed.

Lemma get_clock_result clk x :
  length clk <= MODEM_SHORT_STR -> length (snd (fst (XE310.get_clock (C:=C) clk x))) <= MODEM_SHORT_STR.
Proof.
  intros Hc. unfold XE310.get_clock. apply (query_result _ _ _ _ (fun c => length c <= MODEM_SHORT_STR)); [done|].
  intros b. apply length_fs_set.
Qed.

Lemma get_operator_result o x :
  length o <= MODEM_MEDIUM_STR -> length (snd (fst (XE310.get_operator (C:=C) o x))) <= MODEM_MEDIUM_STR.
Proof.
  intros Hc. apply (query_parse_result _ _ _ _ _ (fun c => length c <= MODEM_MEDIUM_STR)); [done|].
  intros b a. unfold XE310.parse_operator. destruct (XE310.after_colon b); [|done].
  intros Ha. apply (inj Some) in Ha. rewrite <- Ha. case_goal; [apply length_fs_set|done].
Qed.

Lemma get_apn_result cid a x :
  length a <= MODEM_MEDIUM_STR -> length (snd (fst (XE310.get_apn (C:=C) cid a x))) <= MODEM_MEDIUM_STR.
Proof.
  intros Hc. apply (query_parse_result _ _ _ _ _ (fun c => length c <= MODEM_MEDIUM_STR)); [done|].
  intros b a'. destruct (XE310.first_apn cid (sv_lines b)); [|done].
  intros Ha. apply (inj Some) in Ha. rewrite <- Ha. apply length_fs_set.
Qed.

Lemma get_ip_result cid ip x :
  length ip <= MODEM_IP_STR -> length (snd (fst (XE310.get_ip_address (C:=C) cid ip x))) <= MODEM_IP_STR.
Proof.
  intros Hc. apply (query_result _ _ _ _ (fun c => length c <= MODEM_IP_STR)); [done|].
  intros b. unfold XE310.parse_ip. repeat case_goal; try done. apply length_fs_set.
Qed.

Lemma get_signal_result q x :
  signal_quality_ok q -> signal_quality_ok (snd (fst (XE310.get_signal_quality (C:=C) q x))).
Proof. intros Hq. apply (query_result _ _ _ _ signal_quality_ok); [done|]. intros b. by apply parse_signal_ok. Qed.

Lemma get_registration_result r tech x :
  registration_info_ok r -> registration_info_ok (snd (fst (XE310.get_registration_status (C:=C) r tech x))).
Proof.
  intros Hr. apply (query_parse_result _ _ _ _ _ registration_info_ok); [done|]. intros b a.
  destruct (XE310.after_colon b); [|done]. intros [= <-]. by apply apply_reg_fields_ok.
Qed.

Lemma get_gnss_result p x :
  gnss_position_ok p -> gnss_position_ok (snd (fst (XE310.get_gnss_position (C:=C) p x))).
Proof.
  intros Hp. apply (query_parse_result _ _ _ _ _ gnss_position_ok); [done|]. intros b a. by apply parse_gnss_ok.
Qed.

Lemma scan_networks_result r a b x :
  csurv_ok r -> csurv_ok (snd (fst (XE310.scan_networks (C:=C) r a b x))).
Proof.
  intros Hr. assert (forall lines r, csurv_ok r -> csurv_ok (foldl XE310.csurv_line r lines)) as Hl.
  { induction lines as [|l lines IH]; intros r' H'; [done|]. by apply IH, csurv_line_ok. }
  unfold XE310.scan_networks, st_bind, st_ret. destruct (XE310.ask _ _ _) as [[st res] x1].
  destruct (negb (status_eqb st ModemStatus_ok)); [done|]. destruct (XE310.send_raw _ _ _ _ _) as [[st2 r2] x2].
  destruct (status_eqb st2 ModemStatus_ok); [|done]. apply Hl. repeat split; simpl; try lia; constructor.
Qed.

End Primitives.

Arguments wf_server_count {_ _ _ _ _ _ _ _} _.
Arguments wf_servers {_ _ _ _ _ _ _ _} _.
Arguments wf_st_timer {_ _ _ _ _ _ _ _} _.
Arguments wf_user_timer {_ _ _ _ _ _ _ _} _.
Arguments wf_trace {_ _ _ _ _ _ _ _} _.
Arguments wf_queue {_ _ _ _ _ _ _ _} _.
Arguments wf_state {_ _ _ _ _ _ _ _} _.
Arguments wf_retries {_ _ _ _ _ _ _ _} _.
Arguments wf_timers {_ _ _ _ _ _ _ _} _.
Arguments wf_reg {_ _ _ _ _ _ _ _} _.
Arguments wf_clock {_ _ _ _ _ _ _ _} _.
Arguments wf_net {_ _ _ _ _ _ _ _} _.
Arguments wf_signal {_ _ _ _ _ _ _ _} _.
Arguments wf_gnss {_ _ _ _ _ _ _ _} _.
Arguments wf_csurv {_ _ _ _ _ _ _ _} _.
Arguments wf_unwritten {_ _ _ _ _ _ _ _} _.
Arguments wf_config {_ _ _ _ _ _ _ _} _.
