(* ===== verification/NetworkSafety.v ===== *)
(** * Safety of the network state machine: every operation keeps the invariant *)

From S2P Require Import Prelude CLib FixedString StaticVector AtCommand MessageQueue Timer Hal.
From S2P Require Import ModemController ControllerProps Xe310Types Xe310 Survey Trace.
From S2P Require Import NetworkTypes Typed NetworkLte NetworkInv.

#[export] Hint Resolve wf_on_event wf_call_action wf_start_st_timer wf_stop_st_timer wf_leave_state
  wf_reset_for_state wf_start_data_ready_timer wf_disconnect_servers wf_handle_urcs wf_set_nNetworkAttempts
  wf_set_fColdBoot wf_set_fWarmBoot wf_set_fChangeBands wf_set_fChangeRAT : nlte.
#[export] Hint Resolve keeps_modem keeps_modem_do keeps_check_status keeps_gets_st st_keeps_ret : nlte.

(** An update that keeps the invariant: by a lemma, or because no member of the
    invariant changes. *)
Ltac wf_update := apply keeps_upd; intros ? ?; solve [eauto 3 with nlte | assumption].

(** Follows the structure of a state transformer. *)
Ltac st_auto :=
  repeat lazymatch goal with
  | |- st_keeps _ (st_bind _ _) => apply st_keeps_bind; [|intros ?]
  | |- st_keeps _ (upd _) => wf_update
  | |- st_keeps _ (st_when _ _) => apply keeps_st_when
  | |- st_keeps _ (let '(_, _) := ?p in _) => destruct p
  | |- st_keeps _ (if ?b then _ else _) => destruct b
  | |- st_keeps _ (match ?x with _ => _ end) => destruct x
  | |- st_keeps _ _ => solve [eauto 2 with nlte]
  end.

Section Safety.
Context {T : HalTypes} {HM : HalTimer} {HTL : HalTimerLaws} {HQ : HalQueue} {HQL : HalQueueLaws}.
Context {C : Type} {HC : Controller C} {HA : TimerAccess C} {HAL : TimerAccessLaws C} {HR : Residue}.
Context {K : NetworkLteConfig -> Prop}.
Notation L := (@NetworkLte T C).
Notation wf := (lte_wf_with (C := C) K).
Implicit Type s : L.

(** Reading a member, passing it to a modem method and going on with the result. *)
Lemma keeps_fetch {A B R} (f : L -> A) (m : A -> ST (XE310.xE310 C) (ModemStatus * B))
  (k : A -> ModemStatus * B -> ST L R) (P : A -> Prop) (Q : B -> Prop) :
  (forall s, wf s -> P (f s)) -> (forall a x, P a -> Q (snd (fst (m a x)))) ->
  (forall a p, P a -> Q (snd p) -> st_keeps wf (k a p)) ->
  st_keeps wf (st_bind (gets f) (fun a => st_bind (modem (m a)) (k a))).
Proof using HAL.
  intros Hf Hm Hk. eapply st_ok_bind; [apply (ok_gets f P); exact Hf|]. intros a Ha.
  eapply st_ok_bind; [apply (ok_modem (m a) (fun p => Q (snd p))); intros x; by apply Hm|].
  intros p Hp. by apply Hk.
Qed.

Lemma wf_set_operator o s :
  length o <= MODEM_MEDIUM_STR -> wf s -> wf (set_regInfo (reg_set_operator o (regInfo s)) s).
Proof. intros Ho H. apply wf_set_regInfo; [|exact H]. pose proof (wf_reg H) as Hr. by destruct_and! Hr; split_and!. Qed.

Lemma wf_set_apn a s :
  length a <= MODEM_MEDIUM_STR -> wf s -> wf (set_regInfo (reg_set_apn a (regInfo s)) s).
Proof. intros Ho H. apply wf_set_regInfo; [|exact H]. pose proof (wf_reg H) as Hr. by destruct_and! Hr; split_and!. Qed.

Lemma keeps_refresh_info : st_keeps wf refresh_info.
Proof using HAL.
  unfold refresh_info.
  apply (keeps_fetch modemClock (fun c => XE310.get_clock c) _
    (fun c => length c <= MODEM_SHORT_STR) (fun c => length c <= MODEM_SHORT_STR));
    [intros s Hs; apply (wf_clock Hs)|intros; by apply get_clock_result|]. intros clk [st clk'] _ Hclk. simpl in Hclk.
  apply st_keeps_bind; [apply keeps_upd; intros; by apply wf_set_modemClock|intros _].
  apply (keeps_fetch signalQuality (fun q => XE310.get_signal_quality q) _ signal_quality_ok signal_quality_ok);
    [intros s Hs; apply (wf_signal Hs)|intros; by apply get_signal_result|]. intros sq [? sq'] _ Hsq. simpl in Hsq.
  apply st_keeps_bind; [apply keeps_upd; intros; by apply wf_set_signalQuality|intros _].
  apply (keeps_fetch regInfo (fun r => XE310.get_operator (operator_name r)) _
    registration_info_ok (fun o => length o <= MODEM_MEDIUM_STR));
    [intros s Hs; apply (wf_reg Hs)|intros r x Hr; by apply get_operator_result, Hr|]. intros r [? o] _ Ho. simpl in Ho.
  apply st_keeps_bind; [apply keeps_upd; intros; by apply wf_set_operator|intros _].
  apply st_keeps_bind; [apply keeps_gets_st|intros cfg].
  apply (keeps_fetch regInfo (fun r => XE310.get_apn (cfg_cid cfg) (apn r)) _
    registration_info_ok (fun o => length o <= MODEM_MEDIUM_STR));
    [intros s Hs; apply (wf_reg Hs)|intros r' x Hr'; apply get_apn_result, Hr'|]. intros r' [? a] _ Ha. simpl in Ha.
  apply st_keeps_bind; [apply keeps_upd; intros; by apply wf_set_apn|intros _].
  apply keeps_modem_do.
Qed.

Lemma keeps_enter_state st : st_keeps wf (enter_state st).
Proof using HAL. unfold enter_state. destruct st; st_auto. apply keeps_refresh_info. Qed.

Lemma keeps_change_state st : live_state st = true -> st_keeps wf (change_state st).
Proof using HAL.
  intros Hl s Hs. unfold change_state. destruct (state_eqb st (state_ s)); [done|].
  set (m := st_bind _ _). assert (st_keeps wf m) as Hm; [|by apply Hm].
  apply st_keeps_bind.
  { apply keeps_upd. intros s' Hs'. apply wf_leave_state, wf_add_trace. by apply wf_set_states. }
  intros _. apply st_keeps_bind; [apply keeps_enter_state|intros _]. wf_update.
Qed.

Local Hint Extern 2 (st_keeps _ (change_state _)) => apply keeps_change_state; reflexivity : nlte.

(** ** Actions *)

Lemma keeps_enable_urcs : st_keeps wf enable_urcs.
Proof using HAL. unfold enable_urcs. st_auto. Qed.
Lemma keeps_disable_urcs : st_keeps wf disable_urcs.
Proof using HAL. unfold disable_urcs. st_auto. Qed.
Lemma keeps_apply_bands : st_keeps wf apply_bands.
Proof using HAL. unfold apply_bands. st_auto. Qed.
Lemma keeps_apply_tech : st_keeps wf apply_tech.
Proof using HAL. unfold apply_tech. st_auto. Qed.

Local Hint Resolve keeps_enable_urcs keeps_disable_urcs keeps_apply_bands keeps_apply_tech : nlte.

Lemma keeps_query_network_status : st_keeps wf act_query_network_status.
Proof using HAL.
  unfold act_query_network_status.
  apply (keeps_fetch regInfo (fun r => XE310.get_registration_status r RadioTech_cat_m1) _
    registration_info_ok registration_info_ok);
    [intros s Hs; apply (wf_reg Hs)|intros; by apply get_registration_result|]. intros r [st r'] _ Hr. simpl in Hr.
  apply st_keeps_bind; [apply keeps_upd; intros; by apply wf_set_regInfo|intros _]. st_auto.
Qed.

Lemma keeps_attach_with a t b : st_keeps wf (attach_with a t b).
Proof using HAL.
  unfold attach_with. apply st_keeps_bind; [apply keeps_gets_st|intros cfg].
  apply (keeps_fetch regInfo (fun r => XE310.get_apn (cfg_cid cfg) (apn r)) _
    registration_info_ok (fun o => length o <= MODEM_MEDIUM_STR));
    [intros s Hs; apply (wf_reg Hs)|intros r' x Hr'; apply get_apn_result, Hr'|]. intros r [st a'] _ Ha. simpl in Ha.
  apply st_keeps_bind; [apply keeps_upd; intros; by apply wf_set_apn|intros _]. st_auto.
Qed.

Lemma keeps_count_attempt : st_keeps wf count_attempt.
Proof. apply keeps_upd. intros s Hs. apply wf_set_nAttachRetries; [apply u8_range|exact Hs]. Qed.

Local Hint Resolve keeps_attach_with keeps_count_attempt : nlte.

Lemma keeps_attach_network : st_keeps wf act_attach_network.
Proof using HAL. unfold act_attach_network. st_auto. Qed.

Lemma keeps_query_pdp : st_keeps wf act_query_pdp_context.
Proof using HAL.
  unfold act_query_pdp_context. apply st_keeps_bind; [apply keeps_gets_st|intros cfg].
  apply st_keeps_bind; [apply keeps_modem|intros [st active]].
  destruct (negb (status_eqb st ModemStatus_ok)); [apply st_keeps_ret|].
  destruct (negb active); [st_auto|].
  apply (keeps_fetch networkInfo (fun net => XE310.get_ip_address (cfg_cid cfg) (ip_address net)) _
    (fun net => length (ip_address net) <= MODEM_IP_STR) (fun ip => length ip <= MODEM_IP_STR));
    [intros s Hs; apply (wf_net Hs)|intros; by apply get_ip_result|]. intros net [st' ip] _ Hip. simpl in Hip.
  apply st_keeps_bind; [apply keeps_upd; intros; by apply wf_set_networkInfo|intros _]. st_auto.
Qed.

Lemma keeps_send_one m : st_keeps wf (send_one m).
Proof using HAL.
  intros s Hs. split; [|done]. unfold send_one.
  repeat case_goal; try exact Hs. by apply keeps_modem_do.
Qed.

Lemma wf_queue_of s q : wf s -> message_queue_ s = Some q -> queue_ok q.
Proof. intros Hs Eq. pose proof (wf_queue Hs) as Hq. by rewrite Eq in Hq. Qed.

Lemma queue_ok_tx_pop q : queue_ok q -> queue_ok (snd (mq_tx_pop_next q)).
Proof. intros (tx & rx & H). destruct (law_tx_pop_next q tx rx H) as [_ H']. eexists _, _. exact H'. Qed.

Lemma keeps_send_loop n : st_keeps wf (send_loop n).
Proof using HAL.
  induction n as [|n IH]; intros s Hs; [done|]. split; [|done]. cbn [send_loop].
  destruct (message_queue_ s) as [q|] eqn:Eq; [|exact Hs].
  pose proof (queue_ok_tx_pop q (wf_queue_of s q Hs Eq)) as Hq. destruct (mq_tx_pop_next q) as [[e m] q']. simpl in Hq.
  assert (wf (set_message_queue (Some q') s)) as Hs' by (by apply wf_set_message_queue).
  destruct e, m; try exact Hs'. apply (st_keeps_bind wf); [apply keeps_send_one|intros; exact IH|exact Hs'].
Qed.

Lemma keeps_send_data : st_keeps wf act_send_data.
Proof using HAL.
  intros s Hs. split; [|done]. unfold act_send_data. repeat case_goal; try exact Hs. by apply keeps_send_loop.
Qed.

Lemma keeps_receive_data : st_keeps wf receive_data.
Proof using HAL.
  intros s Hs. split; [|done]. unfold receive_data. set (conn := if (0 <? _)%Z then _ else _).
  pose proof (keeps_modem (XE310.udp_receive conn [] 1500) s Hs) as [H1 _].
  destruct (modem (XE310.udp_receive conn [] 1500) s) as [[st buf] s1]. simpl in H1.
  destruct (status_eqb st ModemStatus_ok && negb (str_eqb buf [])); [|exact H1].
  cbv zeta. set (s2 := match message_queue_ s1 with Some q => _ | None => s1 end).
  assert (wf s2) as H2.
  { unfold s2. destruct (message_queue_ s1) as [q|] eqn:Eq; [|exact H1]. apply wf_set_message_queue; [|exact H1].
    destruct (wf_queue_of s1 q H1 Eq) as (tx & rx & Hq). destruct (law_rx_push_any q tx rx conn buf Hq) as [rx' H'].
    by eexists _, _. }
  destruct (on_data_received_ s2); [by apply wf_set_received|exact H2].
Qed.

Lemma keeps_read_fix : st_keeps wf read_fix.
Proof using HAL.
  unfold read_fix. eapply st_ok_bind.
  { apply (ok_modem (XE310.get_gnss_position GnssPosition_default) (fun p => gnss_position_ok (snd p))).
    intros x. apply get_gnss_result. split; [|by split; vm_compute].
    repeat (apply Forall_cons_2; [simpl; lia|]). apply Forall_nil_2. }
  intros [st pos] Hp. apply keeps_st_when.
  apply st_keeps_bind; [apply keeps_upd; intros; by apply wf_set_gnssPosition|intros _]. st_auto.
Qed.

Lemma keeps_process_event e : st_keeps wf (process_event e).
Proof using HAL.
  intros s Hs. split; [|done]. unfold process_event.
  destruct e; try exact Hs; try (by apply keeps_change_state);
    try (by apply wf_call_action).
  - destruct (state_eqb (prev_state_ s) State_data_ready); by apply keeps_change_state.
  - pose proof (wf_disconnect_servers s Hs) as H1. cbv zeta.
    destruct (state_ (disconnect_servers s)); try exact H1; by apply keeps_change_state.
  - apply keeps_change_state; [done|]. by apply wf_disconnect_servers.
  - by apply keeps_receive_data.
  - by apply keeps_read_fix.
  - case_goal; [exact Hs|]. apply keeps_change_state; [done|]. by apply wf_call_action.
Qed.

Lemma keeps_poll_events : st_keeps wf poll_events.
Proof using HAL.
  intros s Hs. split; [|done]. unfold poll_events.
  set (s1 := if state_eqb (state_ s) State_transparent_mode then s else _).
  assert (wf s1) as H1.
  { unfold s1. destruct (state_eqb (state_ s) State_transparent_mode); [exact Hs|].
    pose proof (keeps_modem (XE310.poll_urc 10) s Hs) as [Hm _].
    destruct (modem (XE310.poll_urc 10) s) as [urcs s']. by apply wf_handle_urcs. }
  cbv zeta. set (s2 := if status_eqb _ ModemStatus_timeout then _ else s1).
  assert (wf s2) as H2 by (unfold s2; case_goal; [by apply wf_on_event|exact H1]).
  unfold get_event. by apply keeps_process_event, wf_set_event.
Qed.

(** ** Outcome computations *)

Lemma keeps_lift {A} (m : ST L A) : st_keeps wf m -> keeps wf (lift m).
Proof. intros Hm s Hs. unfold lift. destruct (Hm s Hs) as [H _]. by destruct (m s). Qed.

Lemma keeps_check_responsiveness n : keeps wf (act_check_responsiveness n).
Proof using HAL.
  induction n as [|n IH]; [apply keeps_nofuel|]. cbn [act_check_responsiveness].
  apply keeps_bind; [apply keeps_lift, keeps_modem|intros st].
  destruct (status_eqb st ModemStatus_ok).
  - apply keeps_bind; [by apply keeps_lift, keeps_change_state|intros _].
    apply keeps_modify. intros s. apply wf_call_action.
  - apply keeps_bind; [apply keeps_lift, keeps_modem_do|intros _]. exact IH.
Qed.

Lemma keeps_run_action fuel a : keeps wf (run_action fuel a).
Proof using HAL.
  destruct a; cbn [run_action];
    first [ apply keeps_ret | apply keeps_check_responsiveness
          | apply keeps_modify; intros s; apply wf_call_action
          | apply keeps_lift; first [ apply keeps_query_network_status | apply keeps_attach_network
              | apply keeps_query_pdp | apply keeps_send_data | by apply keeps_change_state
              | unfold act_reboot, act_power_on, act_turn_on_radio, act_switch_off_radio, act_wake_up,
                  act_setup_radio, act_open_pdp_context, act_read_data, act_enter_transparent_mode,
                  act_leave_transparent_mode, act_enter_gnss_fix, act_leave_gnss_fix; st_auto ] ].
Qed.

Lemma keeps_execute_actions fuel : keeps wf (execute_actions fuel).
Proof using HAL.
  apply keeps_bind; [|intros a; apply keeps_run_action]. apply keeps_lift. intros s Hs. split; [by apply wf_set_action|done].
Qed.

Lemma keeps_loop fuel target : keeps wf (loop fuel target).
Proof using HAL.
  apply keeps_bind; [apply keeps_lift, keeps_poll_events|intros _].
  apply keeps_bind; [apply keeps_gets|intros st]. case_goal; [apply keeps_ret|].
  apply keeps_bind; [apply keeps_execute_actions|intros _]. apply keeps_gets.
Qed.

Lemma keeps_go_to_state n fuel target : keeps wf (go_to_state n fuel target).
Proof using HAL.
  induction n as [|n IH]; [apply keeps_nofuel|]. cbn [go_to_state].
  apply keeps_bind; [apply keeps_gets|intros st]. destruct (state_eqb st target); [apply keeps_ret|].
  assert (forall st, keeps wf (nl_bind (nl_modify (fun s : L =>
    from_option (fun a => call_action a s) s (request_action st target)))
    (fun _ => nl_bind (loop fuel target) (fun _ => nl_bind (nl_gets event_) (fun e =>
      match e with
      | Event_network_error | Event_attach_error | Event_context_error => nl_ret false
      | _ => go_to_state n fuel target
      end))))) as Hround.
  { intros st'. apply keeps_bind.
    { apply keeps_modify. intros s Hs. destruct (request_action st' target); [|exact Hs]. by apply wf_call_action. }
    intros _. apply keeps_bind; [apply keeps_loop|intros _].
    apply keeps_bind; [apply keeps_gets|intros e]. destruct e; first [apply keeps_ret|exact IH]. }
  destruct st; first [apply keeps_ret|apply Hround].
Qed.

End Safety.
