(* ===== verification/NetworkApi.v ===== *)
(** * The public interface of the network state machine: safety of every sequence of calls *)

From S2P Require Import Prelude CLib FixedString StaticVector AtCommand MessageQueue Timer Hal.
From S2P Require Import ModemController ControllerProps Xe310Types Xe310 Survey Trace.
From S2P Require Import NetworkTypes Typed NetworkLte NetworkInv NetworkSafety.

(** ** Frames: what a modem call can change *)

Section Frames.
Context {T : HalTypes} {HM : HalTimer} {HTL : HalTimerLaws} {HQ : HalQueue}.
Context {C : Type} {HC : Controller C} {HA : TimerAccess C} {HAL : TimerAccessLaws C} {HR : Residue}.
Notation L := (@NetworkLte T C).
Implicit Type s : L.

(** A state that differs in the modem, the timers, the event and the trace only. *)
Definition called (s s' : L) : Prop :=
  exists x tr e t2 t1, s' = set_trace tr (set_event e (set_timer t2 (set_st_timer t1 (set_modem x s)))).

Lemma called_refl s : called s s.
Proof. exists (modem_ s), (trace_ s), (event_ s), (timer_ s), (st_timer s). by destruct s. Qed.

Lemma called_trans s1 s2 s3 : called s1 s2 -> called s2 s3 -> called s1 s3.
Proof.
  intros (x & tr & e & t2 & t1 & ->) (x' & tr' & e' & t2' & t1' & ->). exists x', tr', e', t2', t1'.
  by destruct s1.
Qed.

Lemma called_set_modem x s : called s (set_modem x s).
Proof. exists x, (trace_ s), (event_ s), (timer_ s), (st_timer s). by destruct s. Qed.

Lemma called_run_cb cb s : called s (run_cb cb s).
Proof.
  destruct cb as [[]|]; try apply called_refl.
  exists (modem_ s), (trace_ (on_timer_expired s)), Event_timeout, (timer_ s), (st_timer s). by destruct s.
Qed.

Lemma called_put_st_timer t s : called s (put_st_timer t s).
Proof using HTL HM HAL.
  destruct (law_put_st t s) as (x & t1 & -> & _). exists x, (trace_ s), (event_ s), (timer_ s), t1. by destruct s.
Qed.

Lemma called_put_user_timer t s : called s (put_user_timer t s).
Proof using HTL HM HAL.
  destruct (law_put_user t s) as (x & t2 & -> & _). exists x, (trace_ s), (event_ s), t2, (st_timer s). by destruct s.
Qed.

Lemma called_tick s : called s (tick s).
Proof using HTL HAL.
  unfold tick. destruct (timer_run (now s) (st_timer_obj s)) as [cb t]. set (s1 := run_cb cb (put_st_timer t s)).
  assert (called s s1) as H1 by (eapply called_trans; [apply called_put_st_timer|apply called_run_cb]).
  destruct (user_timer_obj s1) as [tm|]; [|exact H1]. destruct (timer_run (now s1) tm) as [cb' t'].
  eapply called_trans; [exact H1|]. eapply called_trans; [apply called_put_user_timer|apply called_run_cb].
Qed.

Lemma called_modem {A} (m : ST (XE310.xE310 C) A) s : called s (snd (modem m s)).
Proof using HTL HAL.
  unfold modem. destruct (m (modem_ s)) as [a x]. eapply called_trans; [apply called_set_modem|apply called_tick].
Qed.

Lemma called_modem_do {A} (m : ST (XE310.xE310 C) A) s : called s (snd (modem_do m s)).
Proof using HTL HAL. apply called_modem. Qed.

Lemma modem_result {A} (m : ST (XE310.xE310 C) A) s : fst (modem m s) = fst (m (modem_ s)).
Proof. unfold modem. by destruct (m (modem_ s)). Qed.

(** The members a modem call leaves alone. *)
Lemma called_frame s s' :
  called s s' ->
  state_ s' = state_ s /\ prev_state_ s' = prev_state_ s /\ serverInfo s' = serverInfo s /\
  lteConfig s' = lteConfig s /\ nAttachRetries s' = nAttachRetries s /\
  message_queue_ s' = message_queue_ s /\ modem_action_ s' = modem_action_ s /\
  regInfo s' = regInfo s /\ networkInfo s' = networkInfo s /\ stateTimers_ s' = stateTimers_ s /\
  on_data_received_ s' = on_data_received_ s /\ received_ s' = received_ s.
Proof. by intros (x & tr & e & t2 & t1 & ->). Qed.

Lemma called_state s s' : called s s' -> state_ s' = state_ s.
Proof. intros H. by apply called_frame in H as [H _]. Qed.

End Frames.

(** ** The interface *)

Inductive Call :=
| Call_loop (target : NetworkLteState)
| Call_execute_actions
| Call_on_event (e : NetworkLteEvent)
| Call_call_action (a : ModemAction)
| Call_go_to_state (target : NetworkLteState)
| Call_network_connect
| Call_network_disconnect
| Call_new_connection (conn_id : Z) (proto ip port_ : str)
| Call_server_connect (conn_id : Z) (proto ip : str) (port_ : Z)
| Call_server_disconnect (conn_id : Z)
| Call_tx_write (conn_id : Z) (bytes : str)
| Call_rx_read (conn_id : Z)
| Call_force_psm
| Call_enter_sleep
| Call_enter_transparent_mode
| Call_exit_transparent_mode
| Call_leave_transparent_mode
| Call_send_at_command (command response : str) (timeout_ms : Z)
| Call_update_modem
| Call_acquire_gnss_position
| Call_scan_networks (start_ch end_ch : Z)
| Call_refresh_clock
| Call_set_config (cfg : NetworkLteConfig)
| Call_set_attach_retries (n : Z)
| Call_start_timer (ms : Z)
| Call_stop_timer
| Call_reset_timer (ms : Z)
| Call_pop_trace.

(** The arguments the callers must respect: connection numbers inside the server
    array and an 8-bit counter. *)
Definition call_ok (c : Call) : bool :=
  match c with
  | Call_new_connection id _ _ _ | Call_server_connect id _ _ _ | Call_server_disconnect id => valid_id id
  | Call_set_attach_retries n => ((0 <=? n) && (n <? 256))%Z
  | _ => true
  end.

(** The configurations handed over have a given property. *)
Definition call_config (K : NetworkLteConfig -> Prop) (c : Call) : Prop :=
  match c with Call_set_config cfg => K cfg | _ => True end.

Lemma call_config_any c : call_config (fun _ => True) c.
Proof. by destruct c. Qed.

Section Api.
Context {T : HalTypes} {HM : HalTimer} {HTL : HalTimerLaws} {HQ : HalQueue} {HQL : HalQueueLaws}.
Context {C : Type} {HC : Controller C} {HA : TimerAccess C} {HAL : TimerAccessLaws C} {HR : Residue}.
Context {K : NetworkLteConfig -> Prop}.
Notation L := (@NetworkLte T C).
Notation wf := (lte_wf_with (C := C) K).
Implicit Type s : L.
Local Open Scope nl_scope.

Definition run_call (n fuel : nat) (c : Call) : NL L unit :=
  match c with
  | Call_loop t => loop fuel t ;;; nl_ret tt
  | Call_execute_actions => execute_actions fuel
  | Call_on_event e => nl_modify (on_event e)
  | Call_call_action a => nl_modify (call_action a)
  | Call_go_to_state t => go_to_state n fuel t ;;; nl_ret tt
  | Call_network_connect => network_connect n fuel ;;; nl_ret tt
  | Call_network_disconnect => lift network_disconnect ;;; nl_ret tt
  | Call_new_connection id p ip port_ => new_connection id p ip port_
  | Call_server_connect id p ip port_ => server_connect id p ip port_ ;;; nl_ret tt
  | Call_server_disconnect id => server_disconnect id ;;; nl_ret tt
  | Call_tx_write id b => lift (tx_write id b) ;;; nl_ret tt
  | Call_rx_read id => lift (rx_read id) ;;; nl_ret tt
  | Call_force_psm => lift force_psm ;;; nl_ret tt
  | Call_enter_sleep => enter_sleep n fuel ;;; nl_ret tt
  | Call_enter_transparent_mode => enter_transparent_mode n fuel ;;; nl_ret tt
  | Call_exit_transparent_mode => exit_transparent_mode n fuel ;;; nl_ret tt
  | Call_leave_transparent_mode => leave_transparent_mode fuel ;;; nl_ret tt
  | Call_send_at_command c r t => lift (send_at_command c r t) ;;; nl_ret tt
  | Call_update_modem => update_modem n fuel ;;; nl_ret tt
  | Call_acquire_gnss_position => acquire_gnss_position n fuel GnssPosition_default ;;; nl_ret tt
  | Call_scan_networks a b => lift (scan_networks a b) ;;; nl_ret tt
  | Call_refresh_clock => lift refresh_clock ;;; nl_ret tt
  | Call_set_config cfg => lift (set_config cfg)
  | Call_set_attach_retries k => nl_modify (set_nAttachRetries k)
  | Call_start_timer ms => lift (start_timer ms) ;;; nl_ret tt
  | Call_stop_timer => lift stop_timer ;;; nl_ret tt
  | Call_reset_timer ms => lift (reset_timer ms) ;;; nl_ret tt
  | Call_pop_trace => nl_modify (fun s => set_trace (snd (pop_trace id (trace_ s))) s)
  end.

Definition run_calls (n fuel : nat) : list Call -> NL L unit := nl_for (run_call n fuel).

(** ** Each call keeps the invariant *)

Lemma keeps_get_server id : valid_id id = true -> keeps wf (get_server id).
Proof.
  intros Hid s Hs. unfold get_server, server_index. apply valid_id_range in Hid.
  assert ((1 <=? id) && (id <=? 5) = true)%Z as -> by (apply andb_true_iff; lia).
  destruct (serverInfo s !! Z.to_nat (id - 1)) as [v|] eqn:E; [exact Hs|].
  apply lookup_ge_None in E. rewrite (wf_server_count Hs) in E. unfold MAX_SERVER_CONNECTIONS in E. lia.
Qed.

Lemma keeps_upd_server id f :
  (forall sv, server_ok sv -> server_ok (f sv)) -> valid_id id = true -> keeps wf (upd_server id f).
Proof.
  intros Hf Hid s Hs. unfold upd_server, server_index. apply valid_id_range in Hid.
  assert ((1 <=? id) && (id <=? 5) = true)%Z as -> by (apply andb_true_iff; lia).
  apply wf_set_serverInfo; [| |exact Hs].
  - rewrite length_alter. apply Hs.
  - apply Forall_alter; [apply Hs|]. intros sv _. apply Hf.
Qed.

Ltac nl_auto :=
  repeat lazymatch goal with
  | |- keeps _ (nl_bind _ _) => apply keeps_bind; [|intros ?]
  | |- keeps _ (nl_ret _) => apply keeps_ret
  | |- keeps _ (nl_gets _) => apply keeps_gets
  | |- keeps _ (lift (modem _)) => apply keeps_lift, keeps_modem
  | |- keeps _ (lift (modem_do _)) => apply keeps_lift, keeps_modem_do
  | |- keeps _ (upd_server _ _) =>
      apply keeps_upd_server; [intros sv [? ?]; split; done || apply length_fs_set|done]
  | |- keeps _ (get_server _) => by apply keeps_get_server
  | |- keeps _ (go_to_state _ _ _) => apply keeps_go_to_state
  | |- keeps _ (loop _ _) => apply keeps_loop
  | |- keeps _ (execute_actions _) => apply keeps_execute_actions
  | |- keeps _ (let '(_, _) := ?p in _) => destruct p
  | |- keeps _ (if ?b then _ else _) => destruct b
  | |- keeps _ (match ?x with _ => _ end) => destruct x
  end.

Lemma keeps_open_server id p ip port_ : valid_id id = true -> keeps wf (open_server id p ip port_).
Proof using HAL. intros Hid. unfold open_server. nl_auto. Qed.

Lemma keeps_server_connect id p ip port_ : valid_id id = true -> keeps wf (server_connect id p ip port_).
Proof using HAL. intros Hid. unfold server_connect. nl_auto; by apply keeps_open_server. Qed.

Lemma keeps_network_connect n fuel : keeps wf (network_connect n fuel).
Proof using HAL. unfold network_connect. nl_auto. Qed.

Lemma keeps_update_modem n fuel : keeps wf (update_modem n fuel).
Proof using HAL. unfold update_modem. nl_auto. apply keeps_modify. intros s Hs. by apply wf_set_fColdBoot. Qed.

Lemma keeps_wait_for_fix n fuel : keeps wf (wait_for_fix n fuel).
Proof using HAL. induction n as [|n IH]; [apply keeps_nofuel|]. cbn [wait_for_fix]. nl_auto. exact IH. Qed.

Lemma keeps_tx_write id b : st_keeps wf (tx_write id b).
Proof.
  intros s Hs. split; [|done]. unfold tx_write. destruct (message_queue_ s) as [q|] eqn:Eq; [|exact Hs].
  destruct (wf_queue_of s q Hs Eq) as (tx & rx & Hq). destruct (law_tx_push_any q tx rx id b Hq) as [tx' H'].
  destruct (mq_tx_push q id b) as [e q']. apply wf_set_message_queue; [|exact Hs]. by eexists _, _.
Qed.

Lemma keeps_rx_read id : st_keeps wf (rx_read id).
Proof.
  intros s Hs. split; [|done]. unfold rx_read. destruct (message_queue_ s) as [q|] eqn:Eq; [|exact Hs].
  destruct (wf_queue_of s q Hs Eq) as (tx & rx & Hq). destruct (law_rx_pop q tx rx id Hq) as [_ H'].
  destruct (mq_rx_pop q id) as [[e m] q']. apply wf_set_message_queue; [|exact Hs]. by eexists _, _.
Qed.

Lemma keeps_refresh_clock : st_keeps wf refresh_clock.
Proof using HAL.
  apply (keeps_fetch modemClock (fun c => XE310.get_clock c) _
    (fun c => length c <= MODEM_SHORT_STR) (fun c => length c <= MODEM_SHORT_STR));
    [intros s Hs; apply (wf_clock Hs)|intros; by apply get_clock_result|]. intros clk [st clk'] _ Hclk. simpl in Hclk.
  apply st_keeps_bind; [apply keeps_upd; intros; by apply wf_set_modemClock|intros _]. apply st_keeps_ret.
Qed.

Lemma keeps_try_operators ops : st_keeps wf (try_operators ops).
Proof using HAL. induction ops as [|op ops IH]; cbn [try_operators]; st_auto; exact IH. Qed.

Lemma keeps_force_psm : st_keeps wf force_psm.
Proof using HAL.
  intros s Hs. unfold force_psm. destruct (negb (state_eqb (state_ s) State_data_ready)); [done|].
  set (m := st_bind _ _). assert (st_keeps wf m) as Hm; [|exact (Hm s Hs)]. unfold m.
  apply st_keeps_bind; [wf_update|intros _].
  apply st_keeps_bind; [apply keeps_disable_urcs|intros _].
  apply st_keeps_bind; [apply keeps_modem_do|intros _].
  apply st_keeps_bind; [apply keeps_modem|intros [st ops]].
  apply st_keeps_bind; [apply keeps_try_operators|intros b].
  apply st_keeps_bind; [destruct b; by apply keeps_change_state|intros _].
  apply st_keeps_bind; [wf_update|intros _].
  apply st_keeps_bind; [apply keeps_enable_urcs|intros _]. apply st_keeps_ret.
Qed.

(** A timer operation of the public interface. *)
Lemma keeps_user_timer (op : L -> timer_obj -> TimerError * timer_obj) (m : ST L TimerError) :
  (forall s t, timer_ok t -> timer_ok (snd (op s t))) ->
  (forall s, m s = match user_timer_obj s with
                   | None => (TimerError_not_running, s)
                   | Some t => let '(e, t') := op s t in (e, put_user_timer t' s)
                   end) ->
  st_keeps wf m.
Proof using HAL.
  intros Hop Hm s Hs. split; [|done]. rewrite Hm. destruct (user_timer_obj s) as [t|] eqn:Et; [|exact Hs].
  specialize (Hop s t (wf_user_timer_obj s t Hs Et)). destruct (op s t) as [e t']. by apply wf_put_user_timer.
Qed.

Lemma keeps_pop_trace s : wf s -> wf (set_trace (snd (pop_trace id (trace_ s))) s).
Proof. intros [? ? ? ? [l Hl]]. split; try done. exists (tail l). by apply pop_trace_rel. Qed.

Lemma keeps_run_call n fuel c : call_ok c = true -> call_config K c -> keeps wf (run_call n fuel c).
Proof using HAL.
  intros Hc Hk. destruct c; cbn [run_call call_ok call_config] in *;
    unfold network_disconnect, server_disconnect, new_connection, enter_sleep, enter_transparent_mode,
      exit_transparent_mode, leave_transparent_mode, acquire_gnss_position, scan_networks, refresh_clock,
      set_config; nl_auto;
    try (apply keeps_modify; intros s Hs; solve [by apply wf_on_event | by apply wf_call_action
           | by apply keeps_pop_trace | apply wf_set_nAttachRetries; [bool_facts; lia|exact Hs]]);
    try (apply keeps_lift; st_auto; by apply keeps_change_state).
  - apply keeps_network_connect.
  - by apply keeps_server_connect.
  - apply keeps_lift, keeps_tx_write.
  - apply keeps_lift, keeps_rx_read.
  - apply keeps_lift, keeps_force_psm.
  - apply keeps_lift. intros s Hs. split; [|done]. unfold send_at_command. case_goal; [exact Hs|].
    pose proof (keeps_modem (XE310.send_at_command command response timeout_ms) s Hs) as [H _].
    by destruct (modem _ s) as [[st r] s'].
  - apply keeps_update_modem.
  - apply keeps_wait_for_fix.
  - apply keeps_lift.
    apply (keeps_fetch csurvResult (fun r => XE310.scan_networks r start_ch end_ch) _ csurv_ok csurv_ok);
      [intros s Hs; apply (wf_csurv Hs)|intros; by apply scan_networks_result|]. intros r [st r'] _ Hr. simpl in Hr.
    apply st_keeps_bind; [apply keeps_upd; intros; by apply wf_set_csurvResult|intros _]. apply st_keeps_ret.
  - apply keeps_lift. exact keeps_refresh_clock.
  - apply keeps_lift, keeps_upd. intros s. by apply wf_set_lteConfig.
  - apply keeps_lift.
    apply (keeps_user_timer (fun s t => timer_start (now s) ms (Some cb_on_timer_expired) t)); [|done].
    intros s t. apply law_timer_start.
  - apply keeps_lift. apply (keeps_user_timer (fun _ t => timer_stop t)); [|done].
    intros _ t. apply law_timer_stop.
  - apply keeps_lift. apply (keeps_user_timer (fun s t => timer_reset (now s) ms t)); [|done].
    intros s t. apply law_timer_reset.
Qed.

Lemma wf_init modem config callback timer :
  opt_ok member_timer_ok timer -> K config -> wf (NetworkLte_init modem config callback timer).
Proof.
  intros Ht Hk. split; simpl; try lia; try done.
  - repeat (apply Forall_cons_2; [split; simpl; lia|]). apply Forall_nil_2.
  - apply law_timer_create.
  - exists []. apply trace_init_rel.
  - exists [], []. apply law_mq_create.
  - split_and!; simpl; try lia; by vm_compute.
  - unfold network_info_ok; simpl; lia.
  - split; [|by split; vm_compute]. repeat (apply Forall_cons_2; [simpl; lia|]). apply Forall_nil_2.
  - split_and!; simpl; try lia; try constructor; unfold int32; lia.
Qed.

Lemma keeps_run_calls n fuel calls :
  forallb call_ok calls = true -> Forall (call_config K) calls -> keeps wf (run_calls n fuel calls).
Proof using HAL.
  unfold run_calls. induction calls as [|c calls IH]; intros H Hk; [apply keeps_ret|].
  simpl in H. bool_facts. apply Forall_cons in Hk as [Hc Hk]. simpl.
  apply keeps_bind; [by apply keeps_run_call|intros _]. by apply IH.
Qed.

(** C1. Safety of the network layer, on every platform whose timers and queues meet
    their contracts: starting from the constructor, whatever sequence of interface
    calls is made, with connection numbers 1 to 5 and whatever the modem answers
    and the clock does, no access leaves the server array and the invariant
    [lte_wf_with] holds afterwards (array and string sizes, members that hold values
    of their types, timer, queue and trace consistency, reachable states); the
    configuration keeps any property that the one given at the start and those set
    later have. *)
Theorem api_safe modem config callback timer n fuel calls :
  opt_ok member_timer_ok timer -> K config -> forallb call_ok calls = true -> Forall (call_config K) calls ->
  match run_calls n fuel calls (NetworkLte_init modem config callback timer) with
  | Done (_, s) => lte_wf_with K s
  | Undef => False
  | NoFuel => True
  end.
Proof using HAL. intros Ht Hk Hc Hf. exact (keeps_run_calls n fuel calls Hc Hf _ (wf_init _ _ _ _ Ht Hk)). Qed.

Lemma server_index_invalid id : valid_id id = false -> server_index id = None.
Proof. unfold valid_id, server_index. by intros ->. Qed.

(** The connection number is not checked: outside 1 to 5 [new_connection] and
    [server_disconnect] always access memory outside [serverInfo], and
    [server_connect] does so in [data_ready], after it has queried the modem. *)
Theorem server_array_overrun id p ip port_ port_n s :
  valid_id id = false ->
  new_connection id p ip port_ s = Undef /\ server_disconnect id s = Undef /\
  (state_ s = State_data_ready -> server_connect id p ip port_n s = Undef).
Proof.
  intros Hid. apply server_index_invalid in Hid. split; [|split].
  - unfold new_connection, upd_server. by rewrite Hid.
  - unfold server_disconnect, nl_bind, get_server. by rewrite Hid.
  - intros Hst. unfold server_connect, nl_bind, nl_gets, lift. rewrite Hst. simpl.
    destruct (modem (XE310.udp_status id 0) s) as [[st cs] s1]. unfold upd_server. by rewrite Hid.
Qed.

(** ** [go_to_state] *)

(** The state on return: the target when the result is true. *)
Lemma go_to_state_true n fuel target s s' :
  go_to_state n fuel target s = Done (true, s') -> state_ s' = target.
Proof.
  revert s. induction n as [|n IH]; intros s; [done|]. cbn [go_to_state].
  unfold nl_bind at 1, nl_gets at 1. destruct (state_eqb (state_ s) target) eqn:E.
  - unfold nl_ret. intros [= <-]. by apply bool_decide_eq_true in E.
  - destruct (state_ s); try done;
      (unfold nl_bind at 1, nl_modify; cbv beta iota; unfold nl_bind at 1;
       destruct (loop fuel target _) as [[? s1]| |]; [|done|done];
       unfold nl_bind, nl_gets; destruct (event_ s1); try done; apply IH).
Qed.

Lemma go_to_state_stuck n fuel target s :
  state_ s = State_done \/ state_ s = State_modem_fota -> state_ s <> target ->
  go_to_state (S n) fuel target s = Done (false, s).
Proof.
  intros Hs Ht. cbn [go_to_state]. unfold nl_bind, nl_gets.
  assert (state_eqb (state_ s) target = false) as -> by (by apply bool_decide_eq_false).
  by destruct Hs as [-> | ->].
Qed.


(** ** [network_connect] *)

Definition refuses_connect (st : NetworkLteState) : bool :=
  match st with
  | State_gnss_fix_mode | State_transparent_mode | State_modem_fota | State_done => true
  | _ => false
  end.

(** The detach that [network_connect] sends first after a warm boot. *)
Definition maybe_detach : NL L unit :=
  let* warm := nl_gets fWarmBoot in
  if warm : bool then lift (modem_do XE310.network_detach) else nl_ret tt.

Lemma maybe_detach_frame s : exists s1, maybe_detach s = Done (tt, s1) /\ state_ s1 = state_ s.
Proof using HTL HAL.
  unfold maybe_detach, nl_bind, nl_gets. destruct (fWarmBoot s); [|by exists s].
  unfold lift. exists (snd (modem_do XE310.network_detach s)). split; [done|].
  apply called_state, called_modem_do.
Qed.

Lemma network_connect_split n fuel s s1 :
  maybe_detach s = Done (tt, s1) ->
  network_connect n fuel s =
  if refuses_connect (state_ s1) then Done (false, s1)
  else if state_eqb (state_ s1) State_data_ready then Done (true, s1)
  else match go_to_state n fuel State_data_ready s1 with
       | Done (_, s2) => Done (state_eqb (state_ s2) State_data_ready, s2)
       | Undef => Undef
       | NoFuel => NoFuel
       end.
Proof.
  intros Hd. unfold network_connect, maybe_detach, nl_bind, nl_gets in *.
  destruct (if fWarmBoot s then _ else _) as [[? s1']| |]; [|done|done]. simplify_eq.
  destruct (state_ s1) eqn:E; try done; simpl;
    destruct (go_to_state n fuel State_data_ready s1) as [[? s2]| |]; done.
Qed.

(** [network_connect] reports success exactly when the machine is in
    [data_ready]; in GNSS, transparent, FOTA and done mode it refuses, leaving
    the state as it was. *)
Theorem network_connect_result n fuel s b s' :
  network_connect n fuel s = Done (b, s') ->
  b = state_eqb (state_ s') State_data_ready /\
  (refuses_connect (state_ s) = true -> b = false /\ state_ s' = state_ s).
Proof using HTL HAL.
  destruct (maybe_detach_frame s) as (s1 & Hd & Hst). rewrite (network_connect_split _ _ _ _ Hd), Hst.
  destruct (refuses_connect (state_ s)) eqn:Er.
  - intros [= <- <-]. rewrite Hst. split; [by destruct (state_ s)|done].
  - destruct (state_eqb (state_ s) State_data_ready) eqn:Eq.
    + intros [= <- <-]. by rewrite Hst, Eq.
    + destruct (go_to_state n fuel State_data_ready s1) as [[? s2]| |]; [|done|done]. by intros [= <- <-].
Qed.

(** Firmware update cannot start: no transition of the machine enters
    [modem_fota], so from every state in which the invariant holds
    [update_modem], when it returns at all, returns false. *)
Theorem update_modem_never_succeeds n fuel s b s' :
  wf s -> update_modem n fuel s = Done (b, s') -> b = false.
Proof using HAL.
  intros Hs. assert (forall s, wf s -> state_eqb (state_ s) State_modem_fota = false) as Hl.
  { intros t Ht. pose proof (wf_state Ht). by destruct (state_ t). }
  unfold update_modem, nl_bind, nl_gets. rewrite (Hl s Hs).
  pose proof (keeps_go_to_state n fuel State_modem_fota s Hs) as Hg.
  destruct (go_to_state n fuel State_modem_fota s) as [[? s1]| |]; [|done|done].
  rewrite (Hl s1 Hg). by intros [= <- <-].
Qed.

End Api.

(** ** Witnesses *)

Import Scripted.

#[local] Instance plain_residue : Residue := {| stale := id; uninit_tech := RadioTech_unknown; undefined_int := 0 |}.

Definition lte (chunks : list str) : NetworkLte (ModemController World) :=
  NetworkLte_init (XE310.xE310_init (world chunks)) NetworkLteConfig_default true None.

Definition some_calls : list Call :=
  [Call_new_connection 1 (lit "UDP") (lit "10.0.0.1") (lit "5000"); Call_tx_write 1 (lit "abc");
   Call_on_event Event_network_detached; Call_loop State_none; Call_server_disconnect 5].

Lemma api_safe_witness :
  match run_calls 3 2 some_calls (lte []) with
  | Done (_, s) => lte_wf_with (fun c => cfg_cid c = 1%Z) s
  | Undef => False
  | NoFuel => True
  end.
Proof.
  apply (api_safe (K := fun c => cfg_cid c = 1%Z) (XE310.xE310_init (world [])) NetworkLteConfig_default true None
    3 2 some_calls); [exact I|reflexivity|reflexivity|repeat constructor].
Defined.

Lemma server_array_overrun_witness :
  new_connection 6 (lit "UDP") (lit "10.0.0.1") (lit "5000") (lte []) = Undef.
Proof.
  apply (server_array_overrun 6 (lit "UDP") (lit "10.0.0.1") (lit "5000") 5000 (lte [])). reflexivity.
Defined.


Definition done_result : bool * NetworkLte (ModemController World) :=
  match network_connect 1 1 (set_state State_done (lte [])) with
  | Done r => r
  | _ => (true, lte [])
  end.

Lemma network_connect_result_witness : fst done_result = false.
Proof.
  apply (network_connect_result 1 1 (set_state State_done (lte [])) (fst done_result) (snd done_result));
    vm_compute; reflexivity.
Defined.

Definition update_from_done : bool * NetworkLte (ModemController World) :=
  match update_modem 2 1 (set_state State_done (lte [])) with
  | Done r => r
  | _ => (true, lte [])
  end.

Lemma update_modem_never_succeeds_witness : fst update_from_done = false.
Proof.
  apply (update_modem_never_succeeds (K := fun _ => True) 2 1 (set_state State_done (lte [])) (fst update_from_done)
    (snd update_from_done)); [|vm_compute; reflexivity].
  apply (wf_set_states State_done State_none (lte [])); [reflexivity|]. apply (wf_init _ _ _ None); exact I.
Defined.
