(* ===== verification/NetworkProps.v ===== *)
(** * Functional properties of the network state machine: transitions, timers, data *)

From S2P Require Import Prelude CLib FixedString StaticVector AtCommand MessageQueue Timer Hal.
From S2P Require Import ModemController ControllerProps Xe310Types Xe310 Xe310Props Survey Trace.
From S2P Require Import NetworkTypes Typed NetworkLte NetworkInv NetworkSafety NetworkApi.

(** A relation between the states before and after a state transformer. *)
Definition st_rel {S A} (R : S -> S -> Prop) (m : ST S A) : Prop := forall s, R s (snd (m s)).

Lemma st_rel_bind {S A B} (R : S -> S -> Prop) (m : ST S A) (k : A -> ST S B) :
  (forall x y z, R x y -> R y z -> R x z) -> st_rel R m -> (forall a, st_rel R (k a)) ->
  st_rel R (st_bind m k).
Proof.
  intros Ht Hm Hk s. unfold st_bind. specialize (Hm s). destruct (m s) as [a s'].
  eapply Ht; [exact Hm|apply Hk].
Qed.

Section Sending.
Context {T : HalTypes} {HM : HalTimer} {HTL : HalTimerLaws} {HQ : HalQueue} {HQL : HalQueueLaws}.
Context {C : Type} {HC : Controller C} {HA : TimerAccess C} {HAL : TimerAccessLaws C} {HR : Residue}.
Notation L := (@NetworkLte T C).
Implicit Type s : L.

(** ** Sending *)

Lemma tick_queue o s : tick (set_message_queue o s) = set_message_queue o (tick s).
Proof using HAL.
  assert (forall cb' s', run_cb cb' (set_message_queue o s') = set_message_queue o (run_cb cb' s')) as Hcb
    by (intros [[]|] s'; done).
  unfold tick. change (now (set_message_queue o s)) with (now s).
  destruct (law_access_queue (st_timer_obj s) o s) as (-> & _).
  destruct (timer_run (now s) (st_timer_obj s)) as [cb t].
  destruct (law_access_queue t o s) as (_ & _ & -> & _). rewrite Hcb. cbv zeta. set (s1 := run_cb cb (put_st_timer t s)).
  destruct (law_access_queue t o s1) as (_ & -> & _). destruct (user_timer_obj s1) as [tm|]; [|done].
  change (now (set_message_queue o s1)) with (now s1). destruct (timer_run (now s1) tm) as [cb' t'].
  destruct (law_access_queue t' o s1) as (_ & _ & _ & ->). apply Hcb.
Qed.

Lemma send_one_queue m o s :
  snd (send_one m (set_message_queue o s)) = set_message_queue o (snd (send_one m s)).
Proof using HTL HAL.
  unfold send_one. change (serverInfo (set_message_queue o s)) with (serverInfo s).
  repeat case_goal; try done. unfold modem_do, modem. cbn [snd].
  change (modem_ (set_message_queue o s)) with (modem_ s).
  destruct (XE310.udp_send _ _ (modem_ s)) as [a x]. cbn [snd].
  change (set_modem x (set_message_queue o s)) with (set_message_queue o (set_modem x s)). apply tick_queue.
Qed.

Definition send_all (msgs : list QueueMessage) (s : L) : L := foldl (fun s m => snd (send_one m s)) s msgs.

Lemma send_all_queue msgs o s : send_all msgs (set_message_queue o s) = set_message_queue o (send_all msgs s).
Proof using HTL HAL.
  revert s. induction msgs as [|m msgs IH]; intros s; [done|]. unfold send_all in *. simpl.
  by rewrite send_one_queue, IH.
Qed.

Lemma send_loop_S n s :
  send_loop (S n) s =
  match message_queue_ s with
  | Some q => match mq_tx_pop_next q with
              | (QueueError_ok, Some m, q') =>
                  st_bind (send_one m) (fun _ => send_loop n) (set_message_queue (Some q') s)
              | (_, _, q') => (tt, set_message_queue (Some q') s)
              end
  | None => (tt, s)
  end.
Proof. done. Qed.

Lemma send_loop_spec rx msgs s q :
  message_queue_ s = Some q -> mq_rel q msgs rx ->
  exists q', mq_rel q' [] rx /\ snd (send_loop (S (length msgs)) s) = set_message_queue (Some q') (send_all msgs s).
Proof using HTL HAL.
  revert s q. induction msgs as [|m msgs IH]; intros s q Hq Hl; cbn [length]; rewrite send_loop_S, Hq;
    destruct (law_tx_pop_next _ _ _ Hl) as [Hp Hl']; cbn [spec_pop_next fst snd] in Hp, Hl';
    destruct (mq_tx_pop_next q) as [[e o] q1]; cbn [fst snd] in Hp, Hl'; injection Hp as -> ->.
  - by exists q1.
  - destruct (IH (set_message_queue (Some q1) (snd (send_one m s))) q1 eq_refl Hl') as (q' & H1 & H4).
    exists q'. split; [exact H1|]. unfold st_bind. pose proof (send_one_queue m (Some q1) s) as Hs.
    destruct (send_one m (set_message_queue (Some q1) s)) as [? s2]. cbn [snd] in Hs. subst s2.
    rewrite H4, send_all_queue. done.
Qed.

(** C18. [send_data] drains the transmit queue, on every platform whose queue meets
    its contract: in [data_ready] it takes every queued message, in the order of
    arrival over all connections and each once, hands it to [send_one] (which
    transmits on connected UDP servers and drops the rest), and leaves the queue
    empty and the received messages untouched. *)
Theorem send_data_drains_in_order msgs rx s q :
  state_ s = State_data_ready -> message_queue_ s = Some q -> mq_rel q msgs rx ->
  exists q', mq_rel q' [] rx /\ snd (act_send_data s) = set_message_queue (Some q') (send_all msgs s).
Proof using HTL HAL.
  intros Hst Hq Hl. unfold act_send_data. rewrite Hst, Hq.
  assert (negb (state_eqb State_data_ready State_data_ready) = false) as -> by done.
  rewrite (law_tx_pending q msgs rx Hl). exact (send_loop_spec rx msgs s q Hq Hl).
Qed.

End Sending.

Section Props.
Context {C : Type} {HC : Controller C} {HR : Residue}.
Notation L := (@NetworkLte posix_hal C).
Implicit Type s : L.

(** ** Modem calls and the cached data they fill do not move the machine *)

(** An idle timer stays as it is. *)
Definition timer_idle (t : Posix.Timer TimerCb) : Prop :=
  Posix.thread_ t = false /\ Posix.running_ t = false.

Definition quiet (s s' : L) : Prop :=
  state_ s' = state_ s /\ prev_state_ s' = prev_state_ s /\ serverInfo s' = serverInfo s /\
  lteConfig s' = lteConfig s /\ nAttachRetries s' = nAttachRetries s /\
  message_queue_ s' = message_queue_ s /\ modem_action_ s' = modem_action_ s /\
  networkInfo s' = networkInfo s /\ stateTimers_ s' = stateTimers_ s /\
  (timer_idle (st_timer s) -> st_timer s' = st_timer s).

Lemma quiet_refl s : quiet s s.
Proof. by repeat split. Qed.

Lemma quiet_trans x y z : quiet x y -> quiet y z -> quiet x z.
Proof.
  intros (A1 & A2 & A3 & A4 & A5 & A6 & A7 & A8 & A9 & A10) (B1 & B2 & B3 & B4 & B5 & B6 & B7 & B8 & B9 & B10).
  repeat split; try congruence. intros Hi. rewrite B10; rewrite A10 by done; done.
Qed.

Lemma run_cb_st_timer cb s : st_timer (run_cb cb s) = st_timer s.
Proof. by destruct cb as [[]|]. Qed.

Lemma tick_posix s :
  tick s = let '(cb, t) := Posix.run (now s) (st_timer s) in
           let s1 := run_cb cb (set_st_timer (T := posix_hal) t s) in
           match timer_ s1 with
           | None => s1
           | Some tm => let '(cb', t') := Posix.run (now s1) tm in
                        run_cb cb' (set_timer (T := posix_hal) (Some t') s1)
           end.
Proof. done. Qed.

Lemma tick_idle s : timer_idle (st_timer s) -> st_timer (tick s) = st_timer s.
Proof.
  intros [Ht Hr]. rewrite tick_posix. unfold Posix.run at 1. rewrite Ht. cbn [negb orb]. cbv iota.
  destruct (timer_ (run_cb None (set_st_timer (st_timer s) s))) as [tm|]; [|done].
  destruct (Posix.run _ tm) as [cb t']. by rewrite run_cb_st_timer.
Qed.

Lemma quiet_modem {A} (m : ST (XE310.xE310 C) A) : st_rel quiet (modem m).
Proof.
  intros s. pose proof (called_frame _ _ (called_modem m s)) as (H1 & H2 & H3 & H4 & H5 & H6 & H7 & H8 & H9 & H10 & _).
  repeat split; try assumption. intros Hi. unfold modem. destruct (m (modem_ s)) as [a x]. simpl.
  by rewrite tick_idle.
Qed.

Lemma quiet_modem_do {A} (m : ST (XE310.xE310 C) A) : st_rel quiet (modem_do m).
Proof. exact (quiet_modem m). Qed.

Lemma quiet_gets {A} (f : L -> A) : st_rel quiet (gets f).
Proof. intros s. apply quiet_refl. Qed.

Lemma quiet_refresh_info : st_rel quiet refresh_info.
Proof.
  unfold refresh_info.
  repeat first [ apply quiet_modem_do | apply st_rel_bind; [exact quiet_trans| |intros ?]
               | apply quiet_modem | apply quiet_gets
               | match goal with |- st_rel _ (let '(_, _) := ?p in _) => destruct p end
               | intros ?; by repeat split ].
Qed.

(** ** [change_state] *)

(** The timer a state runs while the machine is in it. *)
Definition state_deadline (cfg : NetworkLteConfig) (st : NetworkLteState) : option (Z * TimerCb) :=
  match st with
  | State_network_attaching => Some (attach_timeout_sec cfg * 1000, cb_on_timer_expired)%Z
  | State_pdp_context_opening => Some (pdp_timeout_sec cfg * 1000, cb_on_timer_expired)%Z
  | State_data_ready =>
      if (0 <? data_ready_timeout_sec cfg)%Z then Some (data_ready_timeout_sec cfg * 1000, cb_on_timer_expired)%Z
      else Some (UINT32_MAX, cb_nothing)
  | State_transparent_mode => Some (transparent_timeout_sec cfg * 1000, cb_on_timer_expired)%Z
  | State_gnss_fix_mode => Some (gps_timeout_sec cfg * 1000, cb_on_timer_expired)%Z
  | State_sleep_mode | State_off_mode => Some (UINT32_MAX, cb_nothing)
  | _ => None
  end.

(** The state after the first switch. *)
Definition left_state (new : NetworkLteState) (s : L) : L :=
  leave_state (state_ s) (log_state (set_state new (set_prev_state (state_ s) s))).

(** [enter_state] is a quiet phase followed by the start of the state's timer. *)
Lemma enter_state_split new s :
  exists s1, quiet s s1 /\
    snd (enter_state new s) = match state_deadline (lteConfig s1) new with
                              | Some (ms, cb) => start_st_timer ms cb s1
                              | None => s1
                              end.
Proof.
  unfold state_deadline. destruct new; try (exists s; split; [apply quiet_refl|reflexivity]).
  exists (snd (refresh_info s)). split; [apply quiet_refresh_info|].
  unfold enter_state, st_bind, upd. destruct (refresh_info s) as [? s1]. simpl.
  unfold start_data_ready_timer. by destruct (0 <? data_ready_timeout_sec (lteConfig s1))%Z.
Qed.

Lemma change_state_split new s :
  new <> state_ s ->
  exists s1, quiet (left_state new s) s1 /\
    snd (change_state new s) =
    reset_for_state new (match state_deadline (lteConfig s1) new with
                         | Some (ms, cb) => start_st_timer ms cb s1
                         | None => s1
                         end).
Proof.
  intros Hne. unfold change_state.
  assert (state_eqb new (state_ s) = false) as -> by (by apply bool_decide_eq_false).
  destruct (enter_state_split new (left_state new s)) as (s1 & Hq & He). exists s1. split; [exact Hq|].
  rewrite <- He. unfold st_bind, upd, left_state. by destruct (enter_state new _).
Qed.

Lemma reset_frame st s :
  state_ (reset_for_state st s) = state_ s /\ prev_state_ (reset_for_state st s) = prev_state_ s /\
  stateTimers_ (reset_for_state st s) = stateTimers_ s /\ st_timer (reset_for_state st s) = st_timer s /\
  modem_ (reset_for_state st s) = modem_ s.
Proof. by destruct st. Qed.

Lemma start_frame ms cb s :
  state_ (start_st_timer ms cb s) = state_ s /\ prev_state_ (start_st_timer ms cb s) = prev_state_ s /\
  stateTimers_ (start_st_timer ms cb s) = stateTimers_ s /\ modem_ (start_st_timer ms cb s) = modem_ s.
Proof. done. Qed.

Lemma left_state_frame new s :
  state_ (left_state new s) = new /\ prev_state_ (left_state new s) = state_ s /\
  stateTimers_ (left_state new s) =
    (if timed_state (state_ s)
     then add_timer (state_ s) (Posix.elapsed_ms (now s) (st_timer s)) (stateTimers_ s)
     else stateTimers_ s) /\
  lteConfig (left_state new s) = lteConfig s.
Proof. unfold left_state, leave_state. by destruct (timed_state (state_ s)). Qed.

(** The counter of a state, if it has one. *)
Definition time_in (st : NetworkLteState) (t : StateTimers) : option Z :=
  match st with
  | State_network_attaching => Some (network_attaching_ms t)
  | State_pdp_context_opening => Some (pdp_context_opening_ms t)
  | State_data_ready => Some (data_ready_ms t)
  | State_transparent_mode => Some (transparent_mode_ms t)
  | State_gnss_fix_mode => Some (gnss_fix_mode_ms t)
  | State_sleep_mode => Some (sleep_mode_ms t)
  | State_off_mode => Some (off_mode_ms t)
  | _ => None
  end.

Lemma time_in_add_timer st st' ms t :
  time_in st' (if timed_state st then add_timer st ms t else t) =
  if state_eqb st' st then (fun v => u32 (v + ms)) <$> time_in st' t else time_in st' t.
Proof. by destruct t, st, st'. Qed.

(** C22. Time accounting: a change of state records the old state as previous and
    adds the milliseconds since that state's timer started to the counter of that
    state, at 32 bits, and leaves the counter of every other state as it was. *)
Theorem change_state_accounts new s :
  new <> state_ s ->
  let s' := snd (change_state new s) in
  state_ s' = new /\ prev_state_ s' = state_ s /\
  forall st, time_in st (stateTimers_ s') =
    if state_eqb st (state_ s)
    then (fun v => u32 (v + Posix.elapsed_ms (now s) (st_timer s))) <$> time_in st (stateTimers_ s)
    else time_in st (stateTimers_ s).
Proof.
  intros Hne. destruct (change_state_split new s Hne) as (s1 & Hq & ->).
  destruct (left_state_frame new s) as (F1 & F2 & F3 & _).
  destruct Hq as (Q1 & Q2 & _ & _ & _ & _ & _ & _ & Q9 & _).
  set (s2 := match state_deadline (lteConfig s1) new with Some (ms, cb) => _ | None => _ end).
  assert (state_ s2 = state_ s1 /\ prev_state_ s2 = prev_state_ s1 /\ stateTimers_ s2 = stateTimers_ s1)
    as (G1 & G2 & G3).
  { unfold s2. destruct (state_deadline (lteConfig s1) new) as [[ms cb]|]; done. }
  destruct (reset_frame new s2) as (R1 & R2 & R3 & _). cbv zeta.
  rewrite R1, R2, R3, G1, G2, G3, Q1, Q2, Q9, F1, F2, F3.
  split_and!; [done..|intros st; apply time_in_add_timer].
Qed.

Lemma stop_idle (t : Posix.Timer TimerCb) : timer_ok t -> timer_idle (snd (Posix.stop t)).
Proof.
  intros [H1 H2]. unfold Posix.stop. destruct (Posix.running_ t) eqn:E; simpl; [done|]. split; congruence.
Qed.

Lemma left_state_idle new s :
  timer_ok (st_timer s) -> timed_state (state_ s) = true \/ Posix.running_ (st_timer s) = false ->
  timer_idle (st_timer (left_state new s)).
Proof.
  intros Hok Hc. unfold left_state, leave_state. destruct (timed_state (state_ s)).
  - by apply stop_idle.
  - destruct Hc as [Hc|Hc]; [done|]. destruct Hok as [H1 _]. split; [|exact Hc]. simpl. congruence.
Qed.

(** State timeouts are armed: whenever the machine enters a timed state with
    its timer free (the state left was timed, or the timer was not running), the
    timer counts from now for the configured time of the new state and will post
    [timeout] (or nothing, for the states that are only measured). *)
Theorem change_state_arms_timer new s ms cb :
  new <> state_ s -> timer_ok (st_timer s) ->
  timed_state (state_ s) = true \/ Posix.running_ (st_timer s) = false ->
  state_deadline (lteConfig s) new = Some (ms, cb) ->
  let s' := snd (change_state new s) in
  st_timer s' = Posix.mkTimer true false true (Some cb) (Some (now s')) (now s' + ms)%Z.
Proof.
  intros Hne Hok Hc Hd. destruct (change_state_split new s Hne) as (s1 & Hq & ->).
  destruct (left_state_frame new s) as (_ & _ & _ & F4). pose proof (left_state_idle new s Hok Hc) as Hi.
  destruct Hq as (_ & _ & _ & Q4 & _ & _ & _ & _ & _ & Q10).
  rewrite Q4, F4, Hd. destruct (reset_frame new (start_st_timer ms cb s1)) as (_ & _ & _ & R4 & R5).
  cbv zeta. unfold now at 1 2. rewrite R4, R5.
  change (st_timer (start_st_timer ms cb s1)) with (snd (Posix.start (now s1) ms (Some cb) (st_timer s1))).
  change (modem_ (start_st_timer ms cb s1)) with (modem_ s1). unfold Posix.start. rewrite Q10 by exact Hi. destruct Hi as [_ Hr]. by rewrite Hr.
Qed.

(** ** Loss of the network *)

Definition all_disconnected (s : L) : Prop := Forall (fun v => si_state v = Server_disconnected) (serverInfo s).

Lemma disconnect_all s : all_disconnected (disconnect_servers s).
Proof. unfold all_disconnected, disconnect_servers. simpl. apply Forall_fmap, Forall_true. done. Qed.

Lemma change_to_detached s :
  all_disconnected s ->
  let s' := snd (change_state State_network_detached s) in
  state_ s' = State_network_detached /\ all_disconnected s' /\
  (state_ s <> State_network_detached ->
   networkInfo s' = NetworkInfo_default /\ modem_action_ s' = Action_attach_network).
Proof.
  intros Ha. cbv zeta. destruct (decide (state_ s = State_network_detached)) as [E|E].
  - unfold change_state. rewrite E. by split.
  - destruct (change_state_split State_network_detached s) as (s1 & Hq & ->); [congruence|].
    destruct (left_state_frame State_network_detached s) as (F1 & _). destruct Hq as (Q1 & _).
    cbn [state_deadline reset_for_state]. split; [simpl; congruence|]. split; [|done].
    apply (disconnect_all (set_networkInfo NetworkInfo_default s1)).
Qed.

Definition radio_off (st : NetworkLteState) : bool :=
  match st with State_switched_off | State_off_mode | State_sleep_mode => true | _ => false end.

(** C24. When the network detaches the modem or closes the context, no server is
    left marked as connected; unless the radio is off, the machine is then in
    [network_detached], and on the way there the network data were reset and a
    new attach was requested. *)
Theorem network_loss_disconnects e s :
  e = Event_network_detached \/ e = Event_context_closed ->
  let s' := snd (process_event e s) in
  all_disconnected s' /\
  (radio_off (state_ s) = false -> state_ s' = State_network_detached) /\
  (radio_off (state_ s) = false -> state_ s <> State_network_detached ->
   networkInfo s' = NetworkInfo_default /\ modem_action_ s' = Action_attach_network).
Proof.
  pose proof (change_to_detached (disconnect_servers s) (disconnect_all s)) as (H1 & H2 & H3).
  intros [-> | ->]; cbn [process_event]; cbv zeta.
  - change (state_ (disconnect_servers s)) with (state_ s) in *.
    destruct (state_ s) eqn:E; cbn [radio_off snd] in *; split; try (split; intros; first [done | by apply H1]);
      first [ exact (disconnect_all s) | exact H2 | split; [intros; exact H1|intros _ Hn; by apply H3] ].
  - change (state_ (disconnect_servers s)) with (state_ s) in *.
    split; [exact H2|]. split; [done|]. intros _. exact H3.
Qed.

(** ** Registration codes *)

Lemma csv_fields_cons n a t :
  find_char COMMA a = None -> csv_fields (S n) (a ++ COMMA :: t) = a :: csv_fields n t.
Proof.
  intros Ha. cbn [csv_fields]. rewrite find_char_app by done. rewrite take_app_length. f_equal.
  assert (a ++ COMMA :: t = (a ++ [COMMA]) ++ t) as -> by (by rewrite <- app_assoc).
  replace (S (length a)) with (length (a ++ [COMMA])) by (rewrite length_app; simpl; lia).
  by rewrite drop_app_length.
Qed.

Lemma csv_fields_head n a : 0 < n -> exists f fs, csv_fields n a = f :: fs /\ f = take (XE310.until COMMA a) a.
Proof.
  intros Hn. destruct n as [|n]; [lia|]. cbn [csv_fields]. unfold XE310.until.
  destruct (find_char COMMA a) as [c|]; simpl; eexists _, _; (split; [reflexivity|]); [done|].
  by rewrite take_ge.
Qed.

(** What a number, perhaps after a blank, becomes as a field. *)
Lemma trim_fmt_u p n :
  Forall (fun c => mem [SPACE; TAB; CR] c = true) p -> (0 <= n)%Z -> trim_sv (p ++ fmt_u n) = fmt_u n.
Proof.
  intros Hp Hn. unfold trim_sv. pose proof (strip_sandwich [SPACE; TAB; CR] p (fmt_u n) []) as Hs.
  rewrite app_nil_r in Hs. apply Hs; [done|constructor| |apply fmt_u_ne].
  apply plain_decimal; [by repeat constructor|by apply fmt_u_decimal].
Qed.

Lemma trim_space_fmt_u n : (0 <= n)%Z -> trim_sv (SPACE :: fmt_u n) = fmt_u n.
Proof. intros Hn. apply (trim_fmt_u [SPACE]); [by repeat constructor|done]. Qed.

Lemma trim_bare_fmt_u n : (0 <= n)%Z -> trim_sv (fmt_u n) = fmt_u n.
Proof. intros Hn. apply (trim_fmt_u []); [constructor|done]. Qed.

Lemma is_uint_fmt_u n : (0 <= n)%Z -> is_uint_sv (fmt_u n) = true.
Proof.
  intros Hn. unfold is_uint_sv. destruct (fmt_u n) eqn:E; [by apply fmt_u_ne in E|]. rewrite <- E.
  apply forallb_forall. pose proof (fmt_u_decimal n Hn) as Hd. intros c Hc.
  eapply List.Forall_forall in Hd; [|exact Hc]. destruct Hd as (d & Hd & ->). by rewrite digit_in_char.
Qed.

(** A field that starts with a quote is not a number. *)
Lemma quote_not_uint t : is_uint_sv (trim_sv (DQUOTE :: t)) = false.
Proof.
  unfold trim_sv, strip.
  assert (find_first_not_of [SPACE; TAB; CR] (DQUOTE :: t) = Some 0) as -> by reflexivity.
  unfold find_last_not_of. destruct (find_if _ (reverse (DQUOTE :: t))) as [i|]; [|done].
  cbn [fmap option_fmap option_map]. unfold substr. by rewrite Nat.add_1_r.
Qed.

Lemma creg_stat_located st t :
  (0 <= st < 2 ^ 31)%Z -> creg_stat (SPACE :: fmt_u st ++ COMMA :: DQUOTE :: t) = st.
Proof.
  intros Hst. unfold creg_stat.
  change (SPACE :: fmt_u st ++ COMMA :: DQUOTE :: t) with ((SPACE :: fmt_u st) ++ COMMA :: DQUOTE :: t).
  rewrite csv_fields_cons by (apply space_fmt_u_comma; lia).
  destruct (csv_fields_head 7 (DQUOTE :: t)) as (f & fs & -> & ->); [lia|]. cbn [fmap list_fmap].
  rewrite trim_space_fmt_u, is_uint_fmt_u by lia.
  assert (exists u, take (XE310.until COMMA (DQUOTE :: t)) (DQUOTE :: t) = DQUOTE :: u \/
                    take (XE310.until COMMA (DQUOTE :: t)) (DQUOTE :: t) = []) as (u & [-> | ->]).
  { destruct (XE310.until COMMA (DQUOTE :: t)) as [|k]; [by exists []; right|]. by exists (take k t); left. }
  - rewrite quote_not_uint. by apply atoi_fmt_u.
  - by apply atoi_fmt_u.
Qed.

Lemma creg_stat_query n st :
  (0 <= n <= 5)%Z -> (0 <= st <= 10)%Z -> creg_stat (SPACE :: fmt_u n ++ COMMA :: fmt_u st) = st.
Proof.
  intros Hn Hst. unfold creg_stat.
  change (SPACE :: fmt_u n ++ COMMA :: fmt_u st) with ((SPACE :: fmt_u n) ++ COMMA :: fmt_u st).
  rewrite csv_fields_cons by (apply space_fmt_u_comma; lia).
  assert (csv_fields 7 (fmt_u st) = [fmt_u st]) as ->.
  { cbn [csv_fields]. by rewrite fmt_u_comma by lia. }
  cbn [fmap list_fmap].
  rewrite trim_space_fmt_u, trim_bare_fmt_u, !is_uint_fmt_u by lia.
  rewrite !atoi_fmt_u by lia.
  assert ((0 <=? n) && (n <=? 5) && (0 <=? st) && (st <=? 10) = true)%Z as ->; [|done].
  repeat (apply andb_true_iff; split); apply Z.leb_le; lia.
Qed.

(** Registration codes are understood in both shapes the modem uses, the
    unsolicited one with the status first and a quoted area code after it, and
    the query one with the reporting mode before the status: status 1 and 5
    (registered, home or roaming) reset the attach counter and ask for the
    context, every other status changes nothing. *)
Theorem registration_urc_handled n st t s :
  (0 <= n <= 5)%Z -> (0 <= st <= 10)%Z ->
  let after := if ((st =? 1) || (st =? 5))%Z
               then set_nAttachRetries 0 (call_action Action_query_pdp_context s) else s in
  handle_urc (lit "+CEREG:" ++ SPACE :: fmt_u st ++ COMMA :: DQUOTE :: t) s = after /\
  handle_urc (lit "+CEREG:" ++ SPACE :: fmt_u n ++ COMMA :: fmt_u st) s = after.
Proof.
  intros Hn Hst. cbv zeta.
  assert (forall p, handle_urc (lit "+CEREG:" ++ p) s =
    if ((creg_stat p =? 1) || (creg_stat p =? 5))%Z
    then set_nAttachRetries 0 (call_action Action_query_pdp_context s) else s) as Hu by done.
  by rewrite !Hu, creg_stat_located, creg_stat_query by lia.
Qed.

(** ** Receiving *)


(** ** Attach attempts *)

(** Nothing that happens during an attempt touches the counter. *)
Definition same_count (s s' : L) : Prop := nAttachRetries s' = nAttachRetries s.

Lemma same_count_trans x y z : same_count x y -> same_count y z -> same_count x z.
Proof. unfold same_count. congruence. Qed.

Lemma same_count_modem {A} (m : ST (XE310.xE310 C) A) : st_rel same_count (modem m).
Proof. intros s. apply (quiet_modem m s). Qed.

Lemma same_count_change_state new : st_rel same_count (change_state new).
Proof.
  intros s. unfold same_count. destruct (decide (new = state_ s)) as [E|E].
  { unfold change_state. assert (state_eqb new (state_ s) = true) as ->; [by apply bool_decide_eq_true|done]. }
  destruct (change_state_split new s E) as (s1 & Hq & ->). destruct Hq as (_ & _ & _ & _ & Q5 & _).
  assert (forall t, nAttachRetries (reset_for_state new t) = nAttachRetries t) as -> by (by destruct new).
  assert (nAttachRetries (left_state new s) = nAttachRetries s) as Hl.
  { unfold left_state, leave_state. by destruct (timed_state (state_ s)). }
  rewrite <- Hl, <- Q5. by destruct (state_deadline (lteConfig s1) new) as [[ms cb]|].
Qed.

(** The last two steps of an attempt. *)
Definition start_attach : ST L bool :=
  st_bind (change_state State_network_attaching) (fun _ => st_bind (modem_do XE310.power_radio) (fun _ => st_ret true)).

Lemma start_attach_state s : state_ (snd (start_attach s)) = State_network_attaching.
Proof.
  unfold start_attach, st_bind. destruct (change_state State_network_attaching s) as [? s1] eqn:E.
  pose proof (called_state _ _ (called_modem_do XE310.power_radio s1)) as Hst.
  destruct (modem_do XE310.power_radio s1) as [? s2]. simpl in *. rewrite Hst.
  destruct (decide (State_network_attaching = state_ s)) as [Heq|Hne].
  - unfold change_state in E. assert (state_eqb State_network_attaching (state_ s) = true) as Ht
      by (by apply bool_decide_eq_true). rewrite Ht in E. by injection E as _ <-.
  - destruct (change_state_split State_network_attaching s Hne) as (s3 & Hq & H3). rewrite E in H3. simpl in H3.
    subst s1. destruct (left_state_frame State_network_attaching s) as (F1 & _). destruct Hq as (Q1 & _).
    cbn. congruence.
Qed.

Lemma attach_with_result a t b :
  forall s, same_count s (snd (attach_with a t b s)) /\
    (if fst (attach_with a t b s) then state_ (snd (attach_with a t b s)) = State_network_attaching
     else modem_action_ (snd (attach_with a t b s)) = Action_setup_radio).
Proof.
  set (Q := fun (m : ST L bool) => forall s, same_count s (snd (m s)) /\
    (if fst (m s) then state_ (snd (m s)) = State_network_attaching
     else modem_action_ (snd (m s)) = Action_setup_radio)).
  assert (forall A (m : ST L A) (k : A -> ST L bool), st_rel same_count m -> (forall x, Q (k x)) -> Q (st_bind m k))
    as Hbind.
  { intros A m k Hm Hk s. unfold st_bind. specialize (Hm s). destruct (m s) as [x s1].
    destruct (Hk x s1) as [H1 H2]. split; [by eapply same_count_trans|exact H2]. }
  assert (forall A (f : L -> A), st_rel same_count (gets f)) as Hg by (by intros).
  assert (forall b m, st_rel same_count m -> st_rel same_count (st_when (S:=L) b m)) as Hw
    by (by intros [] m Hm).
  change (Q (attach_with a t b)). unfold attach_with.
  apply Hbind; [apply Hg|intros cfg]. apply Hbind; [apply Hg|intros r].
  apply Hbind; [apply same_count_modem|intros [st a']].
  apply Hbind; [by intros s|intros _].
  apply Hbind; [apply Hw, same_count_modem|intros _].
  apply Hbind; [apply same_count_modem|intros [st2 [tech g]]].
  apply Hbind; [apply Hw; by intros s|intros _].
  apply Hbind; [apply same_count_modem|intros [st3 bands]].
  apply Hbind; [apply Hw; by intros s|intros _]. apply Hbind; [apply Hg|intros s0].
  destruct (fChangeRAT s0 || fChangeBands s0); [by intros s; split|].
  change (Q start_attach). intros s. assert (fst (start_attach s) = true) as ->.
  { unfold start_attach, st_bind. by destruct (change_state State_network_attaching s). }
  split; [|apply start_attach_state].
  unfold start_attach, st_bind. pose proof (same_count_change_state State_network_attaching s) as H1.
  destruct (change_state State_network_attaching s) as [? s1].
  pose proof (same_count_modem XE310.power_radio s1) as H2. cbn [snd] in *.
  by eapply same_count_trans.
Qed.

(** The action after the radio is off. *)
Definition attach_or_give_up (n : Z) (cfg : NetworkLteConfig) : ST L unit :=
  if (n =? 0)%Z then
    st_bind (attach_with (default_apn cfg) (default_iot_tech cfg) (default_lte_bands cfg))
            (fun d => st_when d count_attempt)
  else if (n <? max_attach_retries cfg)%Z then
    st_bind (attach_with (fallback_apn cfg) (fallback_iot_tech cfg) (fallback_lte_bands cfg))
            (fun d => st_when d count_attempt)
  else st_bind (upd (on_event Event_attach_error)) (fun _ => count_attempt).

Lemma attach_split s s1 :
  snd (modem_do XE310.power_off_radio s) = s1 ->
  act_attach_network s = attach_or_give_up (nAttachRetries s1) (lteConfig s1) s1.
Proof. by intros <-. Qed.

(** Whether an attach is still allowed. *)
Definition may_attach (s : L) : bool :=
  ((nAttachRetries s =? 0) || (nAttachRetries s <? max_attach_retries (lteConfig s)))%Z.

(** C34. Attach attempts are counted and bounded: an allowed attach action either
    starts an attempt (state [network_attaching]) and increments the 8-bit
    counter, or leaves the counter and asks to reconfigure the radio first; once
    the configured number of attempts is used up, the action only powers the
    radio off, posts [attach_error] and leaves the state alone. *)
Theorem attach_attempts_bounded s :
  let s' := snd (act_attach_network s) in
  if may_attach s
  then (nAttachRetries s' = u8 (nAttachRetries s + 1) /\ state_ s' = State_network_attaching) \/
       (nAttachRetries s' = nAttachRetries s /\ modem_action_ s' = Action_setup_radio)
  else nAttachRetries s' = u8 (nAttachRetries s + 1) /\ event_ s' = Event_attach_error /\
       state_ s' = state_ s /\ modem_ s' = modem_ (snd (modem_do XE310.power_off_radio s)).
Proof.
  cbv zeta. unfold may_attach. pose proof (quiet_modem_do XE310.power_off_radio s) as (Q1 & _ & _ & Q4 & Q5 & _).
  set (s1 := snd (modem_do XE310.power_off_radio s)) in *.
  rewrite (attach_split s s1 eq_refl), Q4, Q5. clearbody s1. unfold attach_or_give_up.
  assert (forall a t b, let s' := snd (st_bind (attach_with a t b) (fun d => st_when d count_attempt) s1) in
    (nAttachRetries s' = u8 (nAttachRetries s + 1) /\ state_ s' = State_network_attaching) \/
    (nAttachRetries s' = nAttachRetries s /\ modem_action_ s' = Action_setup_radio)) as Hatt.
  { intros a t b. cbv zeta. unfold st_bind. destruct (attach_with_result a t b s1) as [H1 H2].
    destruct (attach_with a t b s1) as [[] s2]; cbn [fst snd st_when] in *; unfold same_count in H1.
    - left. simpl. rewrite H1, Q5. done.
    - right. simpl. rewrite H1, Q5. done. }
  destruct (nAttachRetries s =? 0)%Z; [apply Hatt|]. cbn [orb].
  destruct (nAttachRetries s <? max_attach_retries (lteConfig s))%Z; [apply Hatt|].
  unfold st_bind, upd, count_attempt. cbn. rewrite Q5. done.
Qed.

(** ** A timer that outlives its state *)

(** A state timer that is still running in an untimed state is inherited by
    the next one: entering [network_attaching] then does not arm the attach
    timeout, because [start] refuses a running timer, and the old deadline stays.
    ([force_psm] brings this about when no operator grants power saving: it
    starts the [data_ready] timer after it has changed to [idle_mode].) *)
Theorem stale_timer_inherited s :
  timed_state (state_ s) = false -> Posix.running_ (st_timer s) = true ->
  st_timer (snd (change_state State_network_attaching s)) = st_timer s.
Proof.
  intros Hu Hr. unfold change_state.
  destruct (state_eqb State_network_attaching (state_ s)); [done|].
  unfold st_bind, upd, enter_state, leave_state. rewrite Hu. cbn. unfold Posix.start. by rewrite Hr.
Qed.

End Props.

(** ** Witnesses *)

Import Scripted.

#[local] Instance residue : Residue := {| stale := id; uninit_tech := RadioTech_unknown; undefined_int := 0 |}.

Definition ok_line : str := CRLF ++ lit "OK" ++ CRLF.

(** A machine in a given state. *)
Definition machine (st : NetworkLteState) (chunks : list str) : NetworkLte (ModemController World) :=
  set_state st (lte chunks).

(** Seven seconds in [network_attaching]. *)
Definition attaching : NetworkLte (ModemController World) :=
  snd (modem_do (XE310.delay 7000) (start_st_timer 120000 cb_on_timer_expired (machine State_network_attaching []))).

Lemma change_state_accounts_witness :
  time_in State_network_attaching (stateTimers_ (snd (change_state State_idle_mode attaching))) = Some 7000%Z.
Proof.
  destruct (change_state_accounts State_idle_mode attaching) as (_ & _ & H); [done|].
  rewrite (H State_network_attaching). vm_compute. reflexivity.
Defined.

Lemma change_state_arms_timer_witness :
  Posix.deadline_ (st_timer (snd (change_state State_network_attaching (machine State_idle_mode [])))) = 120000%Z.
Proof.
  rewrite (change_state_arms_timer State_network_attaching (machine State_idle_mode []) 120000 cb_on_timer_expired);
    [vm_compute; reflexivity|done|done|by right|reflexivity].
Defined.

Lemma network_loss_disconnects_witness :
  state_ (snd (process_event Event_context_closed (machine State_data_ready []))) = State_network_detached.
Proof.
  apply (network_loss_disconnects Event_context_closed (machine State_data_ready [])); [by right|reflexivity].
Defined.

Definition two_messages : list QueueMessage := [mkMsg 2 (lit "b"); mkMsg 1 (lit "a")].
Definition two_queue : hal_queue :=
  snd (tx_push (snd (tx_push (create_message_queue 5) 2 (lit "b"))) 1 (lit "a")).

Lemma two_queue_rel : lane_rel (capacity_ two_queue) (tx_ two_queue) two_messages.
Proof.
  pose proof (push_to_refines 5 lane_init [] 2 (lit "b") (lane_init_rel 5)) as H1.
  destruct (push_to 5 lane_init 2 (lit "b")) as [e1 l1] eqn:E1. destruct H1 as [_ H1].
  pose proof (push_to_refines 5 l1 _ 1 (lit "a") H1) as H2.
  destruct (push_to 5 l1 1 (lit "a")) as [e2 l2] eqn:E2. destruct H2 as [_ H2].
  assert (tx_ two_queue = l2) as ->; [|exact H2].
  assert (l2 = snd (push_to 5 (snd (push_to 5 lane_init 2 (lit "b"))) 1 (lit "a"))) as ->; [|reflexivity].
  rewrite E1. cbn [snd]. by rewrite E2.
Qed.

Lemma two_queue_holds : mq_rel two_queue two_messages [].
Proof. split; [done|]. split; [exact two_queue_rel|apply lane_init_rel]. Qed.

Lemma send_data_drains_in_order_witness :
  exists q', mq_rel q' [] [] /\
    snd (act_send_data (set_message_queue (Some two_queue) (machine State_data_ready []))) =
    set_message_queue (Some q')
      (send_all two_messages (set_message_queue (Some two_queue) (machine State_data_ready []))).
Proof.
  apply (send_data_drains_in_order two_messages [] (set_message_queue (Some two_queue) (machine State_data_ready []))
    two_queue); [reflexivity|reflexivity|exact two_queue_holds].
Defined.

Lemma registration_urc_handled_witness :
  modem_action_ (handle_urc (lit "+CEREG: 2,5") (machine State_network_attaching [])) = Action_query_pdp_context.
Proof.
  destruct (registration_urc_handled 2 5 [] (machine State_network_attaching [])) as [_ H]; [lia|lia|].
  change (lit "+CEREG: 2,5") with (lit "+CEREG:" ++ SPACE :: fmt_u 2 ++ COMMA :: fmt_u 5). by rewrite H.
Defined.

Definition with_datagram : NetworkLte (ModemController World) :=
  machine State_data_ready [udp_wire srecv_header (lit "hello")].


(** [force_psm] with no operator in range. *)
Definition after_force_psm : NetworkLte (ModemController World) :=
  snd (force_psm (machine State_data_ready (replicate 12 ok_line))).

Lemma stale_timer_inherited_witness :
  Posix.deadline_ (st_timer (snd (change_state State_network_attaching after_force_psm))) = 30000%Z.
Proof.
  rewrite (stale_timer_inherited after_force_psm); [|vm_compute; reflexivity|vm_compute; reflexivity].
  vm_compute. reflexivity.
Defined.
