(* ===== verification/NetworkLive.v ===== *)
(** * Liveness: connecting through a modem that answers

    A modem that answers every command with [OK], sends nothing on its own, is
    registered and has an active context brings [network_connect] from power-off
    to [data_ready] in four rounds, whatever time its answers take. *)

From S2P Require Import Prelude CLib FixedString StaticVector AtCommand MessageQueue Timer.
From S2P Require Import ModemController ControllerProps Xe310Types Xe310 Xe310Props Survey Trace.
From S2P Require Import Hal NetworkTypes Typed NetworkLte NetworkInv NetworkSafety NetworkApi NetworkProps.

(** ** The modem *)

(** [reply cmd] is the body of the answer to [cmd]; [ready] are the controllers
    through which the modem answers every command at once and sends nothing else. *)
Class Answers (C : Type) {HC : Controller C} (reply : str -> str) (ready : C -> Prop) : Prop := {
  answers_send cmd r t retry c : ready c -> (0 < t)%Z -> exists c',
    ctl_send_raw cmd r t retry c = ((ModemStatus_ok, mkResponse AtStatus_ok (reply cmd)), c') /\ ready c';
  answers_poll t c : ready c -> exists c', ctl_poll_urc t c = ([], c') /\ ready c' }.

(** The timers, given by the two timer members and the controller, cannot post an
    event: calls of the controller keep it so, and when the timers run nothing
    happens but to them. *)
Class QuietTimers {T : HalTypes} {HM : HalTimer} (C : Type) {HC : Controller C} {HA : TimerAccess C}
    (ready : C -> Prop) (quiet : hal_timer -> option hal_timer -> C -> Prop) : Prop := {
  quiet_send t u cmd r ms retry c : quiet t u c -> ready c -> (0 < ms)%Z ->
    quiet t u (snd (ctl_send_raw cmd r ms retry c));
  quiet_poll t u ms c : quiet t u c -> ready c -> quiet t u (snd (ctl_poll_urc ms c));
  quiet_tick (s : NetworkLte C) :
    quiet (st_timer s) (timer_ s) (XE310.controller_ (modem_ s)) -> ready (XE310.controller_ (modem_ s)) ->
    exists t u c, tick s = set_modem (XE310.set_ctl c (modem_ s)) (set_timer u (set_st_timer t s)) /\
                  quiet t u c /\ ready c }.

(** Registered (home or roaming), with the context [cid] active. *)
Definition online (reply : str -> str) (cid : Z) : Prop :=
  (reply (lit "AT+CEREG?") = lit "+CEREG: 4,1" \/ reply (lit "AT+CEREG?") = lit "+CEREG: 4,5") /\
  XE310.parse_pdp_state cid (reply (lit "AT#SGACT?")) = true.

(** A triple over state transformers. *)
Definition tri {S A} (P : S -> Prop) (m : ST S A) (Q : A -> S -> Prop) : Prop :=
  forall s, P s -> Q (fst (m s)) (snd (m s)).

Lemma tri_bind {S A B} P (m : ST S A) (k : A -> ST S B) Q R :
  tri P m Q -> (forall a, tri (Q a) (k a) R) -> tri P (st_bind m k) R.
Proof.
  intros Hm Hk s Hs. unfold st_bind. specialize (Hm s Hs). destruct (m s) as [a s']. by apply (Hk a s').
Qed.

Lemma tri_seq {S A B} P (m : ST S A) (k : ST S B) P' R :
  tri P m (fun _ => P') -> tri P' k R -> tri P (st_bind m (fun _ => k)) R.
Proof. intros Hm Hk. eapply tri_bind; [exact Hm|]. intros a. exact Hk. Qed.

(** The result is known. *)
Lemma tri_bind_val {S A B} P (m : ST S A) (k : A -> ST S B) v P' R :
  tri P m (fun r s => r = v /\ P' s) -> tri P' (k v) R -> tri P (st_bind m k) R.
Proof. intros Hm Hk. eapply tri_bind; [exact Hm|]. intros a s [-> Hs]. by apply Hk. Qed.

(** The result does not matter. *)
Lemma tri_bind_any {S A B} P (m : ST S A) (k : A -> ST S B) P' R :
  tri P m (fun _ s => P' s) -> (forall a, tri P' (k a) R) -> tri P (st_bind m k) R.
Proof. intros Hm Hk. eapply tri_bind; [exact Hm|]. exact Hk. Qed.

Section Live.
Context {T : HalTypes} {HM : HalTimer} {HTL : HalTimerLaws} {HQ : HalQueue} {HQL : HalQueueLaws}.
Context {C : Type} {HC : Controller C} {HA : TimerAccess C} {HAL : TimerAccessLaws C} {HR : Residue}.
Context (reply : str -> str) (config : NetworkLteConfig) (ready : C -> Prop).
Context (quiet : hal_timer -> option hal_timer -> C -> Prop).
Context {Hob : Answers C reply ready} {Hqt : QuietTimers C ready quiet}.
Context (Hon : online reply (cfg_cid config)).
Notation L := (@NetworkLte T C).
Implicit Type s : L.

(** ** Driver methods answered with [a] *)

(** The controller answers and the timers are quiet. *)
Definition at_rest (t : hal_timer) (u : option hal_timer) (x : XE310.xE310 C) : Prop :=
  quiet t u (XE310.controller_ x) /\ ready (XE310.controller_ x).

Definition good {A} (m : ST (XE310.xE310 C) A) (a : A) : Prop :=
  forall t u x, at_rest t u x -> exists x', m x = (a, x') /\ at_rest t u x' /\ XE310.last_status_ x' = ModemStatus_ok.

Lemma good_ask cmd ms : (0 < ms)%Z -> good (XE310.ask cmd ms) (ModemStatus_ok, mkResponse AtStatus_ok (reply cmd)).
Proof using Hob Hqt.
  intros Hms t u x [Hq Hr]. unfold XE310.ask, XE310.send_raw.
  pose proof (quiet_send t u cmd AtResponse_default ms true _ Hq Hr Hms) as Hq'.
  destruct (answers_send cmd AtResponse_default ms true _ Hr Hms) as (c' & E & Hr'). rewrite E in Hq' |- *. by eexists.
Qed.

Lemma good_send_cmd cmd ms : (0 < ms)%Z -> good (XE310.send_cmd cmd ms) ModemStatus_ok.
Proof using Hob Hqt.
  intros Hms t u x Hx. unfold XE310.send_cmd, st_bind, st_ret. destruct (good_ask cmd ms Hms t u x Hx) as (x' & -> & H). by exists x'.
Qed.

Lemma good_query {A} cmd (f : str -> A -> A) out :
  good (XE310.query cmd f out) (ModemStatus_ok, f (reply cmd) out).
Proof using Hob Hqt.
  intros t u x Hx. unfold XE310.query, st_bind, st_ret. destruct (good_ask cmd 5000 ltac:(lia) t u x Hx) as (x' & -> & H).
  by exists x'.
Qed.

(** The result of a parsing query, which may be [at_error]. *)
Lemma good_query_parse {A} cmd ms (f : str -> A -> option A) out : (0 < ms)%Z ->
  good (XE310.query_parse cmd ms f out)
       (match f (reply cmd) out with Some a => (ModemStatus_ok, a) | None => (ModemStatus_at_error, out) end).
Proof using Hob Hqt.
  intros Hms t u x Hx. unfold XE310.query_parse, st_bind, st_ret. destruct (good_ask cmd ms Hms t u x Hx) as (x' & -> & H).
  by exists x'.
Qed.

(** ** Calm states *)

Definition calm (s : L) : Prop :=
  at_rest (st_timer s) (timer_ s) (modem_ s) /\ event_ s = Event_none /\ XE310.last_status_ (modem_ s) = ModemStatus_ok.

(** A calm state with its machine state, pending action and configuration. *)
Definition at_ (st : NetworkLteState) (a : ModemAction) (s : L) : Prop :=
  calm s /\ state_ s = st /\ modem_action_ s = a /\ lteConfig s = config /\
  fChangeBands s = false /\ fChangeRAT s = false.

Lemma at_tick st a s : at_ st a s -> at_ st a (tick s).
Proof using Hqt.
  intros (((Hq & Hr) & H3 & H4) & Hs). destruct (quiet_tick s Hq Hr) as (t & u & c & -> & Hq' & Hr').
  split; [|exact Hs]. by split; [split|split].
Qed.

Lemma tri_modem {A} st a (m : ST (XE310.xE310 C) A) (v : A) :
  good m v -> tri (at_ st a) (modem m) (fun r s => r = v /\ at_ st a s).
Proof using Hqt.
  intros Hg s ((H1 & H3 & H4) & Hs). unfold modem.
  destruct (Hg _ _ _ H1) as (x & -> & Hx & Hok). simpl. split; [done|].
  apply at_tick. split; [by split|exact Hs].
Qed.

Lemma tri_modem_do {A} st a (m : ST (XE310.xE310 C) A) v :
  good m v -> tri (at_ st a) (modem_do m) (fun _ => at_ st a).
Proof using Hqt. intros Hg s Hs. by apply (tri_modem st a m v Hg s Hs). Qed.

Lemma tri_action st a b : tri (at_ st a) (upd (call_action b)) (fun _ => at_ st b).
Proof. intros s (Hc & H1 & H2 & H3). by split. Qed.

(** A member outside [at_] is assigned. *)
Lemma tri_upd st a (f : L -> L) : (forall s, at_ st a s -> at_ st a (f s)) -> tri (at_ st a) (upd f) (fun _ => at_ st a).
Proof. intros Hf s Hs. by apply Hf. Qed.

Lemma tri_gets {A} st a (f : L -> A) : tri (at_ st a) (gets f) (fun _ s => at_ st a s).
Proof. by intros s Hs. Qed.

Lemma tri_config st a : tri (at_ st a) (gets lteConfig) (fun r s => r = config /\ at_ st a s).
Proof. intros s Hs. split; [apply Hs|exact Hs]. Qed.

(** Changes between untimed states without follow-up. *)
Lemma tri_to_idle st a : timed_state st = false -> tri (at_ st a) (change_state State_idle_mode) (fun _ => at_ State_idle_mode a).
Proof.
  intros Hu s Hat. pose proof Hat as ((H1 & H3 & H4) & Hs & Ha & Hcfg). unfold change_state. rewrite Hs.
  destruct (state_eqb State_idle_mode st) eqn:E.
  - apply bool_decide_eq_true in E. by subst st.
  - unfold st_bind, upd, leave_state. rewrite Hu. split; [by split|]. by split.
Qed.

(** A command, a query or a parsing query, all with a positive timeout. *)
Ltac good_call := first [apply good_query | apply good_send_cmd; lia | apply good_query_parse; lia].

Ltac tri_do v := eapply tri_seq; [apply (tri_modem_do _ _ _ v); good_call|].

(** ** The four actions on the way *)

Lemma live_power_on a :
  tri (at_ State_switched_off a) act_power_on (fun _ => at_ State_idle_mode Action_setup_radio).
Proof using Hob Hqt.
  unfold act_power_on. tri_do ModemStatus_ok. tri_do ModemStatus_ok.
  eapply tri_bind_val; [apply (tri_modem _ _ _ ModemStatus_ok); good_call|].
  change (negb (status_eqb ModemStatus_ok ModemStatus_ok)) with false. cbv iota.
  tri_do ModemStatus_ok. eapply tri_seq; [by apply tri_to_idle|].
  eapply tri_seq; [apply tri_action|].
  eapply tri_seq; [apply tri_upd; intros s Hs; exact Hs|apply tri_upd; intros s Hs; exact Hs].
Qed.

Lemma live_enable_urcs st a : tri (at_ st a) enable_urcs (fun _ => at_ st a).
Proof using Hob Hqt.
  unfold enable_urcs. do 4 tri_do ModemStatus_ok. apply (tri_modem_do _ _ _ ModemStatus_ok); good_call.
Qed.

(** The second half of [setup_radio], when nothing has to be reconfigured. *)
Definition boot_radio (boot psm_off : bool) (cfg : TelitCpsmsConfig) : ST L unit :=
  st_bind (st_when boot
    (st_bind (upd (fun s => set_fColdBoot false (set_fWarmBoot false s))) (fun _ =>
     st_bind (if psm_off then modem_do XE310.disable_telit_psm else modem_do (XE310.set_telit_psm cfg))
       (fun _ => enable_urcs))))
    (fun _ => st_bind (change_state State_idle_mode) (fun _ => upd (call_action Action_query_network_status))).

Lemma live_boot_radio boot psm_off cfg a :
  tri (at_ State_idle_mode a) (boot_radio boot psm_off cfg)
      (fun _ => at_ State_idle_mode Action_query_network_status).
Proof using Hob Hqt.
  apply (tri_seq _ _ _ (at_ State_idle_mode a)).
  - destruct boot; [|by intros s Hs]. cbn [st_when].
    eapply tri_seq; [apply tri_upd; intros s Hs; exact Hs|].
    apply (tri_seq _ _ _ (at_ State_idle_mode a)); [|apply live_enable_urcs].
    destruct psm_off; apply (tri_modem_do _ _ _ ModemStatus_ok); good_call.
  - eapply tri_seq; [by apply tri_to_idle|apply tri_action].
Qed.

Lemma live_setup_radio a :
  tri (at_ State_idle_mode a) act_setup_radio (fun _ => at_ State_idle_mode Action_query_network_status).
Proof using Hob Hqt.
  intros s Hs. pose proof Hs as (_ & _ & _ & _ & Hb & Hr).
  assert (act_setup_radio s = boot_radio (fWarmBoot s || fColdBoot s) (negb (fPsmEnable (lteConfig s)))
    (boot_psm_config (lteConfig s)) s) as ->.
  { unfold act_setup_radio, st_bind at 1, gets, id. by rewrite Hb, Hr. }
  by apply (live_boot_radio _ _ _ a).
Qed.

(** A reply that says registered is read as registered. *)
Lemma online_registered r :
  exists r', (fun params => XE310.apply_reg_fields (XE310.reg_fields params) r) <$>
    XE310.after_colon (reply (lit "AT+CEREG?")) = Some r' /\ registered (stat r') = true.
Proof using Hon. destruct Hon as [[-> | ->] _]; eexists; (split; [reflexivity|reflexivity]). Qed.

Lemma live_query_network a :
  tri (at_ State_idle_mode a) act_query_network_status (fun _ => at_ State_idle_mode Action_query_pdp_context).
Proof using Hob Hqt Hon HAL.
  unfold act_query_network_status. eapply tri_bind_any; [apply tri_gets|]. intros r.
  destruct (online_registered r) as (r' & Hr & Hreg).
  apply (tri_bind_val _ _ _ (ModemStatus_ok, r') (at_ State_idle_mode a)).
  { apply tri_modem. pose proof (good_query_parse (lit "AT+CEREG?") 5000
      (fun b i => (fun params => XE310.apply_reg_fields (XE310.reg_fields params) i) <$> XE310.after_colon b) r ltac:(lia)) as Hg.
    cbv beta in Hg. rewrite Hr in Hg. exact Hg. }
  cbv beta iota. eapply tri_seq; [apply tri_upd; intros s Hs; exact Hs|].
  intros s Hs. unfold st_bind, check_status_response. cbn [negb].
  destruct (stat r'); try done; by apply (tri_action State_idle_mode a).
Qed.

Lemma live_refresh st a : tri (at_ st a) refresh_info (fun _ => at_ st a).
Proof using Hob Hqt.
  unfold refresh_info.
  repeat first
    [ eapply tri_modem_do; good_call
    | eapply tri_bind_any; [apply tri_gets|]; intros ?
    | eapply tri_bind_val; [eapply tri_modem; good_call|];
      match goal with |- context [match ?p with (_, _) => _ end] => destruct p end
    | eapply tri_seq; [apply tri_upd; intros ? ?Hs; exact Hs|] ].
Qed.

Lemma live_to_data_ready a :
  tri (at_ State_idle_mode a) (change_state State_data_ready)
      (fun _ s => state_ s = State_data_ready /\ event_ s = Event_none).
Proof using Hob Hqt HTL HAL.
  intros s ((H1 & H3 & H4) & Hs & Ha & Hcfg). unfold change_state. rewrite Hs.
  assert (state_eqb State_data_ready State_idle_mode = false) as -> by done.
  set (s1 := leave_state State_idle_mode (log_state (set_state State_data_ready (set_prev_state State_idle_mode s)))).
  assert (at_ State_data_ready a s1) as Hs1 by (split; [by split|]; by split).
  unfold st_bind, upd. cbv beta iota. fold s1. unfold enter_state, st_bind, upd.
  pose proof (live_refresh State_data_ready a s1 Hs1) as Hr. destruct (refresh_info s1) as [? s2]. cbn [snd] in *.
  destruct Hr as ((_ & He & _) & Hst & _). cbn [reset_for_state].
  assert (forall ms cb, state_ (start_st_timer ms cb s2) = state_ s2 /\ event_ (start_st_timer ms cb s2) = event_ s2) as Hkeep.
  { intros ms cb. unfold start_st_timer.
    by destruct (law_put_st (snd (timer_start (now s2) ms (Some cb) (st_timer_obj s2))) s2) as (x & t1 & -> & _). }
  unfold start_data_ready_timer. destruct (0 <? data_ready_timeout_sec (lteConfig s2))%Z; cbn [snd];
    match goal with |- context [start_st_timer ?ms ?cb s2] => destruct (Hkeep ms cb) as [-> ->] end; done.
Qed.

Lemma live_query_pdp a :
  tri (at_ State_idle_mode a) act_query_pdp_context
      (fun _ s => state_ s = State_data_ready /\ event_ s = Event_none).
Proof using Hob Hqt Hon HAL.
  unfold act_query_pdp_context. eapply tri_bind_val; [apply tri_config|].
  apply (tri_bind_val _ _ _ (ModemStatus_ok, true) (at_ State_idle_mode a)).
  { apply tri_modem.
    pose proof (good_query (lit "AT#SGACT?") (fun b _ => XE310.parse_pdp_state (cfg_cid config) b) false) as Hg.
    destruct Hon as [_ Hp]. cbv beta in Hg. rewrite Hp in Hg. exact Hg. }
  change (negb (status_eqb ModemStatus_ok ModemStatus_ok)) with false. cbv iota beta. cbn [negb].
  eapply tri_bind_any; [apply tri_gets|]. intros net.
  eapply tri_bind_val; [eapply tri_modem; good_call|]. cbv beta iota.
  eapply tri_seq; [apply tri_upd; intros s Hs; exact Hs|].
  change (status_eqb ModemStatus_ok ModemStatus_ok) with true. apply live_to_data_ready.
Qed.

(** ** Rounds *)

Lemma live_poll st a :
  st <> State_transparent_mode -> tri (at_ st a) poll_events (fun _ => at_ st a).
Proof using Hob Hqt.
  intros Hne s Hs. unfold poll_events.
  assert (state_eqb (state_ s) State_transparent_mode = false) as ->.
  { apply bool_decide_eq_false. by destruct Hs as (_ & -> & _). }
  assert (exists s', modem (XE310.poll_urc 10) s = ([], s') /\ at_ st a s') as (s' & -> & Hs').
  { destruct Hs as (((Hq & Hr) & H3 & H4) & Hs). unfold modem, XE310.poll_urc.
    pose proof (quiet_poll _ _ 10 _ Hq Hr) as Hq'. destruct (answers_poll 10 _ Hr) as (c' & E & Hr'). rewrite E in Hq' |- *.
    eexists. split; [reflexivity|]. apply at_tick. split; [|exact Hs]. by split; [split|split]. }
  cbn [foldl]. cbv zeta. destruct Hs' as ((H1 & H3 & H4) & Hs'). rewrite H4.
  assert (status_eqb ModemStatus_ok ModemStatus_timeout = false) as -> by done.
  unfold get_event. rewrite H3. cbn [process_event snd]. split; [by split|exact Hs'].
Qed.

(** One round of [go_to_state] towards [data_ready], given what its action does. *)
Lemma live_round n fuel st a b (m : ST L unit) (Q : L -> Prop) s :
  st <> State_transparent_mode -> st <> State_data_ready -> st <> State_done -> st <> State_modem_fota ->
  request_action st State_data_ready = (if bool_decide (a = b) then None else Some b) ->
  run_action fuel b = lift m -> tri (at_ st Action_none) m (fun _ => Q) ->
  (forall s, Q s -> event_ s = Event_none) -> at_ st a s ->
  exists s', Q s' /\ go_to_state (S n) fuel State_data_ready s = go_to_state n fuel State_data_ready s'.
Proof using Hob Hqt.
  intros N1 N2 N3 N4 Hreq Hrun Hm Hev Hs.
  set (s0 := from_option (fun a => call_action a s) s (request_action st State_data_ready)).
  assert (at_ st b s0) as Hs0.
  { unfold s0. rewrite Hreq. destruct (bool_decide (a = b)) eqn:E.
    - apply bool_decide_eq_true in E. by subst b.
    - by apply (tri_action st a b s). }
  pose proof (live_poll st b N1 s0 Hs0) as Hp. destruct (poll_events s0) as [u s1] eqn:E1. cbn [snd] in Hp.
  assert (at_ st Action_none (set_modem_action Action_none s1)) as Hs2.
  { destruct Hp as (Hc & H1 & H2 & H3). by split. }
  specialize (Hm _ Hs2). destruct (m (set_modem_action Action_none s1)) as [u' s2] eqn:E2. cbn [snd] in Hm.
  exists s2. split; [exact Hm|].
  assert (state_ s = st) as Hst by apply Hs. assert (state_ s1 = st) as Hst1 by apply Hp.
  assert (loop fuel State_data_ready s0 = Done (state_ s2, s2)) as Hloop.
  { unfold loop, nl_bind, lift, nl_gets. rewrite E1, Hst1.
    assert (state_eqb st State_data_ready = false) as -> by (by apply bool_decide_eq_false). cbn [andb].
    unfold execute_actions, nl_bind, lift, get_action.
    assert (modem_action_ s1 = b) as -> by apply Hp. rewrite Hrun. unfold lift. by rewrite E2. }
  cbn [go_to_state]. unfold nl_bind at 1, nl_gets at 1. rewrite Hst.
  assert (state_eqb st State_data_ready = false) as -> by (by apply bool_decide_eq_false).
  specialize (Hev s2 Hm).
  assert (forall st', match st' with State_done | State_modem_fota => False | _ => True end -> st' = st ->
    nl_bind (nl_modify (fun s => from_option (fun a => call_action a s) s (request_action st' State_data_ready)))
      (fun _ => nl_bind (loop fuel State_data_ready) (fun _ => nl_bind (nl_gets event_) (fun e =>
        match e with
        | Event_network_error | Event_attach_error | Event_context_error => nl_ret false
        | _ => go_to_state n fuel State_data_ready
        end))) s = go_to_state n fuel State_data_ready s2) as Hgo.
  { intros st' _ ->. unfold nl_bind at 1, nl_modify. fold s0. unfold nl_bind at 1. rewrite Hloop.
    unfold nl_bind, nl_gets. by rewrite Hev. }
  destruct st; try done; by apply Hgo.
Qed.

Lemma at_event st a s : at_ st a s -> event_ s = Event_none.
Proof. intros ((_ & H & _) & _). exact H. Qed.

Lemma live_go n fuel a s :
  at_ State_switched_off a s -> a <> Action_power_on ->
  exists s', go_to_state (5 + n) fuel State_data_ready s = Done (true, s') /\ state_ s' = State_data_ready.
Proof using Hob Hqt Hon HAL.
  intros Hs Ha.
  destruct (live_round (4 + n) fuel State_switched_off a Action_power_on act_power_on
    (at_ State_idle_mode Action_setup_radio) s) as (s1 & H1 & E1); try done.
  { by rewrite bool_decide_eq_false_2. } { apply live_power_on. } { intros; by eapply at_event. }
  destruct (live_round (3 + n) fuel State_idle_mode Action_setup_radio Action_setup_radio act_setup_radio
    (at_ State_idle_mode Action_query_network_status) s1) as (s2 & H2 & E2); try done.
  { apply live_setup_radio. } { intros; by eapply at_event. }
  destruct (live_round (2 + n) fuel State_idle_mode Action_query_network_status Action_query_network_status
    act_query_network_status (at_ State_idle_mode Action_query_pdp_context) s2) as (s3 & H3 & E3); try done.
  { apply live_query_network. } { intros; by eapply at_event. }
  destruct (live_round (1 + n) fuel State_idle_mode Action_query_pdp_context Action_query_pdp_context
    act_query_pdp_context (fun s => state_ s = State_data_ready /\ event_ s = Event_none) s3)
    as (s4 & (H4 & _) & E4); try done.
  { apply live_query_pdp. } { by intros ? [_ ?]. }
  assert (go_to_state (1 + n) fuel State_data_ready s4 = Done (true, s4)) as E5.
  { cbn [go_to_state Nat.add]. unfold nl_bind at 1, nl_gets at 1. by rewrite H4. }
  exists s4. split; [|exact H4]. exact (eq_trans E1 (eq_trans E2 (eq_trans E3 (eq_trans E4 E5)))).
Qed.

(** [network_connect] of a machine at rest after a warm boot. *)
Lemma live_connect n fuel s :
  at_ State_switched_off Action_none s -> fWarmBoot s = true ->
  exists s', network_connect (5 + n) fuel s = Done (true, s') /\ state_ s' = State_data_ready.
Proof using Hob Hqt Hon HAL.
  intros Hs Hw.
  assert (maybe_detach s = Done (tt, snd (modem_do XE310.network_detach s))) as Hd
    by (unfold maybe_detach, nl_bind, nl_gets; by rewrite Hw).
  pose proof (tri_modem_do _ _ XE310.network_detach ModemStatus_ok (good_send_cmd (lit "AT+CGATT=0") 30000 ltac:(lia)) s Hs) as Hs1.
  set (s1 := snd (modem_do XE310.network_detach s)) in *. clearbody s1.
  rewrite (network_connect_split _ _ _ _ Hd).
  assert (state_ s1 = State_switched_off) as -> by apply Hs1. cbn [refuses_connect].
  assert (state_eqb State_switched_off State_data_ready = false) as -> by done.
  destruct (live_go n fuel Action_none s1 Hs1) as (s' & -> & Hst); [done|].
  exists s'. rewrite Hst. done.
Qed.


End Live.

(** ** POSIX: idle timers are quiet *)

Section Posix.
Context {C : Type} {HC : Controller C} {HR : Residue}.

Definition posix_quiet (t : @hal_timer posix_hal) (u : option (@hal_timer posix_hal)) (_ : C) : Prop :=
  timer_idle t /\ u = None.

Lemma tick_calm (s : NetworkLte C) : timer_idle (st_timer s) -> timer_ s = None -> tick s = s.
Proof.
  intros [Ht Hr] Htm. rewrite tick_posix. unfold Posix.run at 1. rewrite Ht. cbn [negb orb]. cbv iota. cbn [run_cb].
  change (timer_ (set_st_timer (st_timer s) s)) with (timer_ s). rewrite Htm. by destruct s.
Qed.

#[export] Instance posix_quiet_timers ready : QuietTimers (T := posix_hal) C ready posix_quiet.
Proof.
  split; [done|done|]. intros s [H1 H2] Hr. exists (st_timer s), (timer_ s), (XE310.controller_ (modem_ s)).
  rewrite tick_calm by done. split; [|by split]. destruct s as [[]]. done.
Qed.
End Posix.

(** ** A modem that answers *)

Definition table (cmd : str) : str :=
  if str_eqb cmd (lit "AT+CEREG?") then lit "+CEREG: 4,1"
  else if str_eqb cmd (lit "AT#SGACT?") then lit "#SGACT: 1,1" else [].

(** Its state is the clock; every answer takes one second. *)
#[local] Instance Echo : Controller Z := {
  ctl_send_raw cmd _ _ _ c := ((ModemStatus_ok, mkResponse AtStatus_ok (table cmd)), c + 1000)%Z;
  ctl_send_with_prompt _ _ _ _ c := ((ModemStatus_ok, mkResponse AtStatus_ok []), c + 1000)%Z;
  ctl_poll_urc _ c := ([], c);
  ctl_now c := c;
  ctl_delay ms c := (c + ms)%Z }.

#[local] Instance echo_residue : Residue := {| stale := id; uninit_tech := RadioTech_unknown; undefined_int := 0 |}.

#[local] Instance echo_answers : Answers Z table (fun _ => True).
Proof. split; intros; by eexists. Qed.

