(* ===== verification/UartModem.v ===== *)
(** * A modem at the other end of the serial line

    [UartModem] says what it means for the UART that a modem is there, answers each
    command line in one read with its reply and [OK], and sends nothing on its own.
    Over such a UART the modem controller is one that answers ([NetworkLive.Answers]),
    so connecting succeeds end to end, from the bytes on the line to [data_ready]. *)

From S2P Require Import Prelude CLib FixedString StaticVector AtCommand MessageQueue Timer.
From S2P Require Import ModemController ControllerProps Xe310Types Xe310 Xe310Props Survey Trace.
From S2P Require Import Hal NetworkTypes Typed NetworkLte NetworkInv NetworkSafety NetworkApi NetworkProps NetworkLive.

(** ** Replies on the line *)

(** The status line, after the reply if there is one. *)
Definition wire (r : str) : str := (CRLF ++ match r with [] => [] | _ => r ++ CRLF ++ CRLF end) ++ lit "OK" ++ CRLF.

(** One line that is no status, fits a read and has no [OK] inside. *)
Definition plain_reply (r : str) : Prop :=
  r = [] \/ (no_crlf r /\ is_payload r = true /\ length r <= 500 /\
             find_sub (lit "OK") (wire r) = Some (length (wire r) - 4)).

Lemma wire_parsed r : plain_reply r -> parse_response (wire r) = mkResponse AtStatus_ok r.
Proof.
  intros [->|(Hn & Hp & Hl & _)]; [reflexivity|]. pose proof (is_payload_ne _ Hp) as Hne.
  rewrite parse_response_ne by done.
  assert (sv_lines (wire r) = [[]; r; []; lit "OK"]) as ->.
  { destruct r as [|c r']; [done|]. unfold wire. rewrite <- !app_assoc, sv_lines_blank, sv_lines_cons, sv_lines_blank by done.
    assert (sv_lines (lit "OK" ++ CRLF) = [lit "OK"]) as ->; reflexivity. }
  f_equal. unfold reply_body. cbn [List.filter]. rewrite Hp. change (is_payload []) with false.
  change (is_payload (lit "OK")) with false. cbv iota. cbn [join]. apply take_ge. unfold AT_RESPONSE_MAX. lia.
Qed.

Lemma wire_no_rest r : plain_reply r -> after_status AtStatus_ok (wire r) = [].
Proof.
  intros Hr. set (pre := CRLF ++ match r with [] => [] | _ => r ++ CRLF ++ CRLF end).
  assert (wire r = pre ++ lit "OK" ++ CRLF ++ []) as E by (by rewrite app_nil_r).
  rewrite E. apply after_status_ok. rewrite <- E.
  assert (length (wire r) - 4 = length pre) as Hl by (rewrite E, !length_app; simpl; lia).
  destruct Hr as [->|(_ & _ & _ & Hf)]; [reflexivity|]. by rewrite Hf, Hl.
Qed.

(** ** The line *)

(** [closed]: the port has not been opened, [closed_held]: with the lock held;
    [idle]: nobody uses the line and nothing is on it; [held]: the same with the lock
    held; [asked line]: the modem has got a command line. *)
Class UartModem (E : Type) {HP : Platform E} (replies : str -> str) := {
  um_closed : E -> Prop;
  um_closed_held : E -> Prop;
  um_idle : E -> Prop;
  um_held : E -> Prop;
  um_asked : str -> E -> Prop;
  um_plain line : plain_reply (replies line);
  um_lock_closed e : um_closed e -> exists e', lock_for 5000 e = (true, e') /\ um_closed_held e';
  um_opens port cfg e : um_closed_held e -> exists e', uart_open port cfg e = (UartError_ok, e') /\ um_held e';
  um_lock e : um_idle e -> exists e', lock_for 5000 e = (true, e') /\ um_held e';
  um_unlock e : um_held e -> um_idle (unlock e);
  um_open e : um_held e -> uart_is_open e = true;
  um_write line e : um_held e -> exists e', uart_write (line ++ CRLF) e = (UartError_ok, e') /\ um_asked line e';
  um_answer line t e : um_asked line e -> (0 < t)%Z ->
    exists e', uart_read READ_SIZE t e = (UartError_ok, wire (replies line), e') /\ um_held e';
  um_silent t e : um_held e -> exists e', uart_read READ_SIZE t e = (UartError_timeout, [], e') /\ um_held e' }.

Section Controller.
Context {T : CommandTimerType} {CT : CommandTimer} {HT : CommandTimerLaws}.
Context {E : Type} {HP : Platform E} {HL : @PlatformLaws E HP} (replies : str -> str) {HU : UartModem E replies}.
Notation Ctl := (@ModemController T E).

(** The command as it is written. *)
Definition sent (cmd : str) : str := fs_set AT_CMD_MAX cmd.
Definition reply_to (cmd : str) : str := replies (sent cmd).

Definition ctl_ready (m : Ctl) : Prop := um_idle (env m) /\ uart_ m = true /\ urc_rx_buffer_ m = [].

Lemma connect_ready port cfg e :
  um_closed e -> exists m, connect port cfg (controller_init e true) = (ModemStatus_ok, m) /\ ctl_ready m /\ cmd_timer_ m = ct_create.
Proof.
  intros Hc. destruct (um_lock_closed _ Hc) as (e1 & El & Hh). destruct (um_opens port cfg _ Hh) as (e2 & Eo & Hh2).
  unfold connect, with_lock. cbn [env controller_init]. rewrite El. cbn [uart_ set_env env controller_init negb]. rewrite Eo.
  rewrite decide_True by done. eexists. split; [reflexivity|]. split; [|done]. split; [by apply um_unlock|by split].
Qed.

Lemma full_cmd_sent cmd : full_cmd (sent cmd) = sent cmd ++ CRLF.
Proof. unfold full_cmd. rewrite take_ge; [done|]. pose proof (length_fs_set AT_CMD_MAX cmd). unfold sent. lia. Qed.

Lemma send_command_answered cmd r t m :
  ctl_ready m -> (0 < t)%Z ->
  exists m', send_command (at_command cmd t) r m = ((ModemStatus_ok, mkResponse AtStatus_ok (reply_to cmd)), m') /\ ctl_ready m'.
Proof using HT HL.
  intros (Hi & Hu & Hb) Ht. destruct (um_lock _ Hi) as (e1 & El & Hh1). destruct (um_write (sent cmd) _ Hh1) as (e2 & Ew & Ha).
  destruct (um_answer _ t _ Ha Ht) as (e3 & Er & Hh3).
  unfold send_command, with_lock. rewrite El. unfold is_open. cbn [uart_ env set_env]. rewrite Hu, (um_open _ Hh1). cbn [andb negb].
  change (command_string (at_command cmd t)) with (sent cmd). rewrite full_cmd_sent, Ew, decide_True by done. cbv zeta.
  change (timeout_ms (at_command cmd t)) with t.
  rewrite (read_loop_first _ _ _ _ (wire (replies (sent cmd))) e3); [|apply ct_restarted|done|exact Er].
  pose proof (um_plain (sent cmd)) as Hp. rewrite (wire_parsed _ Hp). cbn [status reply_result]. rewrite (wire_no_rest _ Hp).
  eexists. split; [reflexivity|]. split; [by apply um_unlock|]. split; [exact Hu|]. cbn. by rewrite Hb.
Qed.

#[export] Instance uart_answers : Answers Ctl reply_to ctl_ready.
Proof using HT HL.
  split.
  - intros cmd r t retry m Hm Ht. cbn. unfold send_raw. destruct (send_command_answered cmd r t m Hm Ht) as (m' & -> & Hm').
    cbn [fst]. change (status_eqb ModemStatus_ok ModemStatus_timeout) with false. rewrite andb_false_r. by exists m'.
  - intros t m (Hi & Hu & Hb). destruct (um_lock _ Hi) as (e1 & El & Hh1). destruct (um_silent t _ Hh1) as (e2 & Er & Hh2).
    cbn. unfold poll_urc, with_lock. rewrite El. unfold is_open. cbn [uart_ env set_env]. rewrite Hu, (um_open _ Hh1), Er.
    cbn [andb negb urc_rx_buffer_ set_env]. rewrite Hb. eexists. split; [reflexivity|]. split; [by apply um_unlock|]. by split.
Qed.

End Controller.

(** ** Connecting over the line

    On POSIX, with the port opened by [connect], as in the desktop program. *)
Lemma uart_network_connects {E} {HP : Platform E} {HL : PlatformLaws E} {HR : Residue} (replies : str -> str)
    {HU : UartModem E replies} n fuel port cfg config callback (e : E) :
  um_closed e -> online (reply_to replies) (cfg_cid config) ->
  let controller := snd (connect port cfg (controller_init e true)) in
  exists s', network_connect (5 + n) fuel (NetworkLte_init (XE310.xE310_init controller) config callback None) =
             Done (true, s') /\ state_ s' = State_data_ready.
Proof.
  intros Hc Hon. destruct (connect_ready replies port cfg e Hc) as (m & -> & Hm & _).
  by apply (live_connect (reply_to replies) config (ctl_ready replies) posix_quiet Hon).
Qed.

(** ** A modem with a table of replies *)

Module TableModem.

(** [pending] is a command line that has not been answered yet. *)
Record World := mkWorld { opened : bool; pending : option str; clock : Z }.

Definition read (n : nat) (t : Z) (w : World) : UartError * str * World :=
  match pending w with
  | Some line =>
      match take n (wire (table line)) with
      | [] => (UartError_timeout, [], mkWorld (opened w) None (clock w + t))
      | c :: b => (UartError_ok, c :: b, mkWorld (opened w) None (clock w + 20))
      end
  | None => (UartError_timeout, [], mkWorld (opened w) None (clock w + t))
  end.

#[export] Instance table_platform : Platform World := {
  uart_open _ _ w := (UartError_ok, mkWorld true (pending w) (clock w));
  uart_close w := mkWorld false (pending w) (clock w);
  uart_is_open := opened;
  uart_write b w := (UartError_ok, mkWorld (opened w) (Some (take (length b - 2) b)) (clock w));
  uart_read := read;
  lock_for _ w := (true, w);
  unlock w := w;
  now_ms := clock;
  delay_ms ms w := mkWorld (opened w) (pending w) (clock w + ms) }.

#[export] Instance table_laws : PlatformLaws World.
Proof.
  split.
  - intros n t w err bytes w'. cbn. unfold read. destruct (pending w) as [line|]; [|intros [= <- <- <-]; simpl; lia].
    pose proof (length_take (wire (table line)) n) as Hl.
    destruct (take n (wire (table line))); intros [= <- <- <-]; simpl in *; lia.
  - intros n t w bytes w'. cbn. unfold read. destruct (pending w) as [line|]; [|done].
    by destruct (take n (wire (table line))); [|intros [= <- _]].
Qed.

Lemma table_plain line : plain_reply (table line).
Proof.
  assert (forall r, r = lit "+CEREG: 4,1" \/ r = lit "#SGACT: 1,1" -> plain_reply r) as Hr.
  { intros r Hr. right. destruct Hr as [-> | ->]; (split; [reflexivity|split; [reflexivity|split; [simpl; lia|reflexivity]]]). }
  unfold table. case_goal; [apply Hr; by left|]. case_goal; [apply Hr; by right|by left].
Qed.

Lemma table_read line : take READ_SIZE (wire (table line)) = wire (table line) /\ wire (table line) <> [].
Proof. unfold table. case_goal; [done|]. by case_goal. Qed.

#[export] Instance table_modem : UartModem World table.
Proof.
  refine {| um_closed w := opened w = false /\ pending w = None; um_closed_held w := opened w = false /\ pending w = None;
            um_idle w := opened w = true /\ pending w = None; um_held w := opened w = true /\ pending w = None;
            um_asked line w := opened w = true /\ pending w = Some line; um_plain := table_plain |}.
  - intros e He. by exists e.
  - intros port cfg e [_ Hp]. eexists. split; [reflexivity|]. by split.
  - intros e He. by exists e.
  - done.
  - by intros e [He _].
  - intros line e [Ho _]. eexists. split; [reflexivity|]. cbn. split; [exact Ho|]. f_equal.
    rewrite length_app. change (length CRLF) with 2. rewrite Nat.add_sub. apply take_app_length.
  - intros line t e [Ho Hp] _. cbn [uart_read table_platform]. unfold read. rewrite Hp.
    destruct (table_read line) as [-> Hne]. destruct (wire (table line)); [done|]. eexists. split; [reflexivity|]. by split.
  - intros t e [Ho Hp]. cbn. unfold read. rewrite Hp. eexists. split; [reflexivity|]. by split.
Defined.

(** A port that has not been opened. *)
Definition unopened : World := mkWorld false None 0.

Lemma table_online : online (reply_to table) 1.
Proof. split; [left; reflexivity|reflexivity]. Qed.

End TableModem.
