(* ===== verification/RadioMessages.v ===== *)
(** * Messages of the radio service (include/modem/i_radio_lte.h)

    The requests, replies and notifications that cross the channels, each with
    the [Codec] of its C++ structure: the members in declaration order. *)

From S2P Require Import Prelude CLib FixedString StaticVector Layout MessageChannel Timer ModemController.
From S2P Require Import Xe310Types Xe310 Strtof Survey Trace Hal NetworkTypes Typed.

(** ** Event bits *)

Definition MODEM_EVT_REQUEST : Z := 1.
Definition MODEM_EVT_RESPONSE : Z := 2.
Definition MODEM_EVT_STATE : Z := 4.
Definition MODEM_EVT_LOG : Z := 8.
Definition MODEM_EVT_ACTION_DONE : Z := 16.

(** ** Requests *)

Inductive RadioLteRequestType :=
| Req_get_registration_info | Req_get_signal_quality | Req_get_iccid | Req_get_imsi | Req_get_clock
| Req_get_modem_info | Req_get_sim_status | Req_get_radio_tech | Req_get_reg_status
| Req_get_network_info | Req_get_psm_mode | Req_get_cpsms_config | Req_get_telit_cpsms_config
| Req_get_telit_cpsms_status | Req_get_network_survey_result | Req_get_available_operators
| Req_get_csurv_result | Req_scan_networks | Req_get_server_info_array | Req_get_config
| Req_set_config | Req_network_connect | Req_network_disconnect | Req_server_connect
| Req_server_disconnect | Req_force_psm | Req_get_timers | Req_get_gnss_position
| Req_acquire_gnss_position | Req_other (v : Z).

#[export] Instance RadioLteRequestType_eq_dec : EqDecision RadioLteRequestType.
Proof. solve_decision. Defined.

(** The enumerators in order; their position is their value. *)
Definition request_types : list RadioLteRequestType :=
  [Req_get_registration_info; Req_get_signal_quality; Req_get_iccid; Req_get_imsi; Req_get_clock;
   Req_get_modem_info; Req_get_sim_status; Req_get_radio_tech; Req_get_reg_status;
   Req_get_network_info; Req_get_psm_mode; Req_get_cpsms_config; Req_get_telit_cpsms_config;
   Req_get_telit_cpsms_status; Req_get_network_survey_result; Req_get_available_operators;
   Req_get_csurv_result; Req_scan_networks; Req_get_server_info_array; Req_get_config;
   Req_set_config; Req_network_connect; Req_network_disconnect; Req_server_connect;
   Req_server_disconnect; Req_force_psm; Req_get_timers; Req_get_gnss_position;
   Req_acquire_gnss_position].

Definition RadioLteRequestType_cast (v : Z) : RadioLteRequestType :=
  default (Req_other v) (request_types !! Z.to_nat v).

Definition RadioLteRequestType_val (r : RadioLteRequestType) : Z :=
  match r with
  | Req_other v => v
  | _ => match list_find (fun x => x = r) request_types with
         | Some (i, _) => Z.of_nat i
         | None => 0
         end
  end.

Record ModemTxMsg := mkTxMsg { tx_type : RadioLteRequestType; arg0 : Z; arg1 : Z }.

Definition ModemTxMsg_default : ModemTxMsg := mkTxMsg Req_get_registration_info 0 0.

Record ModemSetConfigMsg := mkSetConfigMsg { sc_msg_type : RadioLteRequestType; sc_msg_config : NetworkLteConfig }.

Record ModemServerConnectMsg := mkConnectMsg {
  cm_type : RadioLteRequestType; cm_conn_id : Z; cm_port : Z; cm_protocol : str; cm_ip : str }.

Record ModemActionCompleteMsg := mkComplete { ac_type : RadioLteRequestType; ac_result : bool }.

(** [GnssPositionMsg] has the members of [GnssPosition], its strings cut at 16. *)
Definition to_gnss_position_msg (p : GnssPosition) : GnssPosition :=
  let c := fs_set 16 in
  mkGnss (c (utc p)) (c (latitude p)) (c (longitude p)) (c (hdop p)) (c (altitude p)) (fix_ p)
    (c (cog p)) (c (spkm p)) (c (spkn p)) (c (date p)) (nsat p) (c (hepe p)) (c (vepe p)).

(** ** Enumerations as the integers they are stored as *)

Definition ContextState_val (s : ContextState) : Z :=
  match s with ContextState_inactive => 0 | ContextState_active => 1 end.
Definition ContextState_cast (v : Z) : ContextState :=
  if (v =? 0)%Z then ContextState_inactive else ContextState_active.

Definition PsmVersion_cast (v : Z) : PsmVersion :=
  match v with
  | 1 => PsmVersion_no_coord | 2 => PsmVersion_rel12_no_retain | 8 => PsmVersion_edrx
  | _ => PsmVersion_rel12_retain
  end%Z.

Definition SurvCellType_val (t : SurvCellType) : Z :=
  match t with
  | SurvCellType_cell_2g_bcch => 0 | SurvCellType_cell_2g_non_bcch => 1 | SurvCellType_cell_4g => 2
  end.
Definition SurvCellType_cast (v : Z) : SurvCellType :=
  match v with
  | 0 => SurvCellType_cell_2g_bcch | 1 => SurvCellType_cell_2g_non_bcch | _ => SurvCellType_cell_4g
  end%Z.

(** A [float] as its 32 bits. *)
Definition f32_bits (f : spec_float) : Z :=
  let sign (s : bool) := if s then (2 ^ 31)%Z else 0%Z in
  match f with
  | S754_zero s => sign s
  | S754_infinity s => (sign s + 255 * 2 ^ 23)%Z
  | S754_nan => (255 * 2 ^ 23 + 2 ^ 22)%Z
  | S754_finite s m e =>
      if (Zpos m <? 2 ^ 23)%Z then (sign s + Zpos m)%Z
      else (sign s + (e + 150) * 2 ^ 23 + (Zpos m - 2 ^ 23))%Z
  end.

Definition f32_of_bits (b : Z) : spec_float :=
  let s := Z.testbit b 31 in
  let e := ((b / 2 ^ 23) mod 256)%Z in
  let m := (b mod 2 ^ 23)%Z in
  if (e =? 255)%Z then (if (m =? 0)%Z then S754_infinity s else S754_nan)
  else match (if (e =? 0)%Z then m else m + 2 ^ 23)%Z with
       | Zpos p => S754_finite s p ((if (e =? 0)%Z then 1 else e) - 150)
       | _ => S754_zero s
       end.

(** ** Codecs of the members *)

Local Open Scope codec_scope.

Definition request_c : Codec RadioLteRequestType :=
  map_c (uint 1) RadioLteRequestType_val RadioLteRequestType_cast.
Definition radio_tech_c : Codec RadioTech := map_c (sint 1) RadioTech_val RadioTech_cast.
Definition reg_status_c : Codec RegStatus := map_c (uint 1) RegStatus_val RegStatus_cast.
Definition sim_status_c : Codec SimStatus := map_c (uint 1) SimStatus_val SimStatus_cast.
Definition context_state_c : Codec ContextState := map_c (uint 1) ContextState_val ContextState_cast.
Definition psm_mode_c : Codec PsmMode := map_c (uint 1) PsmMode_val PsmMode_cast.
Definition psm_version_c : Codec PsmVersion := map_c (uint 1) PsmVersion_val PsmVersion_cast.
Definition fix_type_c : Codec GnssFixType := map_c (uint 1) GnssFixType_val GnssFixType_cast.
Definition cell_type_c : Codec SurvCellType := map_c (uint 1) SurvCellType_val SurvCellType_cast.
Definition float_c : Codec spec_float := map_c (uint 4) f32_bits f32_of_bits.

Definition short_c : Codec str := fixed_string_c MODEM_SHORT_STR.
Definition medium_c : Codec str := fixed_string_c MODEM_MEDIUM_STR.
Definition long_c : Codec str := fixed_string_c MODEM_LONG_STR.
Definition ip_c : Codec str := fixed_string_c MODEM_IP_STR.
Definition u8_c : Codec Z := uint 1.
Definition u16_c : Codec Z := uint 2.
Definition u32_c : Codec Z := uint 4.
Definition u64_c : Codec Z := uint 8.
Definition int_c : Codec Z := sint 4.

(** ** Structures of the driver *)

Definition registration_info_c : Codec RegistrationInfo :=
  struct_c (short_c & short_c & short_c & short_c & ip_c & medium_c & medium_c & u8_c & reg_status_c
            & radio_tech_c & bool_c & u8_c & u8_c & bool_c & bool_c)
    (fun r => (lac r, ci r, active_time r, periodic_tau r, ri_ip_address r, operator_name r, apn r, ri_mode r,
               stat r, act r, fHasLocation r, cause_type r, reject_cause r, fHasReject r, fHasPsm r))
    (fun '(a, b, c, d, e, f, g, h, i, j, k, l, m, n, o) => mkReg a b c d e f g h i j k l m n o).

Definition signal_quality_c : Codec SignalQuality :=
  struct_c (int_c & int_c & int_c & int_c)
    (fun s => (rssi s, sig_ber s, rsrq s, rsrp s)) (fun '(a, b, c, d) => mkSig a b c d).

Definition sw_package_c : Codec SoftwarePackageVersion :=
  struct_c (long_c & long_c & long_c & long_c)
    (fun v => (package_version v, modem_version v, prod_params_version v, app_version v))
    (fun '(a, b, c, d) => mkSwPkg a b c d).

Definition modem_info_c : Codec ModemInfo :=
  struct_c (short_c & short_c & short_c & medium_c & sw_package_c & medium_c & long_c & short_c)
    (fun m => (imei_sv m, iccid m, imsi m, model_id m, sw_package_version m, telit_id m, identification m, imei m))
    (fun '(a, b, c, d, e, f, g, h) => mkModemInfo a b c d e f g h).

Definition network_info_c : Codec NetworkInfo :=
  struct_c (context_state_c & ip_c) (fun n => (context_state n, ip_address n)) (fun '(a, b) => mkNet a b).

Definition cpsms_config_c : Codec CpsmsConfig :=
  struct_c (psm_mode_c & short_c & short_c & short_c & short_c)
    (fun c => (cp_mode c, req_periodic_rau c, req_gprs_ready_timer c, req_periodic_tau c, req_active_time c))
    (fun '(a, b, c, d, e) => mkCpsms a b c d e).

Definition telit_cpsms_config_c : Codec TelitCpsmsConfig :=
  struct_c (psm_mode_c & bool_c & u32_c & bool_c & u32_c & bool_c & u32_c & bool_c & u32_c & bool_c
            & psm_version_c & bool_c & u32_c)
    (fun c => (tc_mode c, tc_fHasPeriodicRau c, tc_req_periodic_rau c, tc_fHasGprsReadyTimer c,
               tc_req_gprs_ready_timer c, tc_fHasPeriodicTau c, tc_req_periodic_tau c, tc_fHasActiveTime c,
               tc_req_active_time c, tc_fHasPsmVersion c, tc_psm_version c, tc_fHasPsmThreshold c,
               tc_psm_threshold c))
    (fun '(a, b, c, d, e, f, g, h, i, j, k, l, m) => mkTelitCfg a b c d e f g h i j k l m).

Definition telit_cpsms_status_c : Codec TelitCpsmsStatus :=
  struct_c (u8_c & u32_c & u32_c & u8_c & u32_c & psm_mode_c)
    (fun s => (ts_status s, t3324 s, t3412 s, ts_psm_version s, ts_psm_threshold s, ts_mode s))
    (fun '(a, b, c, d, e, f) => mkTelitStatus a b c d e f).

Definition surv_cell_c : Codec SurvCell :=
  struct_c (cell_type_c & int_c & int_c & int_c & int_c & u16_c & u16_c & u32_c & u32_c & short_c & int_c
            & int_c & u32_c & u32_c & u64_c & float_c & float_c)
    (fun c => (sc_type c, sc_arfcn c, sc_bsic c, sc_rx_lev c, sc_ber c, sc_mcc c, sc_mnc c, sc_lac c,
               sc_cell_id c, sc_cell_stat c, sc_num_arfcn c, sc_earfcn c, sc_tac c, sc_phys_cell_id c,
               sc_cell_identity c, sc_rsrp c, sc_rsrq c))
    (fun '(a, b, c, d, e, f, g, h, i, j, k, l, m, n, o, p, q) => mkSurvCell a b c d e f g h i j k l m n o p q).

Definition network_survey_c : Codec NetworkSurveyResult :=
  struct_c (static_vector_c surv_cell_c SurvCell_default MAX_CELLS & bool_c & int_c & int_c)
    (fun r => (sv_cells r, sv_fHasSummary r, sv_no_arfcn r, sv_no_bcch r)) (fun '(a, b, c, d) => mkSurvey a b c d).

Definition Operator_default : Operator := mkOperator [] [] [] RadioTech_unknown.

Definition operator_c : Codec Operator :=
  struct_c (medium_c & medium_c & short_c & radio_tech_c)
    (fun o => (long_name o, short_name o, numeric o, op_act o)) (fun '(a, b, c, d) => mkOperator a b c d).

Definition operators_c : Codec (list Operator) := static_vector_c operator_c Operator_default MAX_OPERATORS.

Definition CsurvCell_default : CsurvCell := mkCsurvCell 0 0 0 0 0 0 0.

Definition csurv_cell_c : Codec CsurvCell :=
  struct_c (int_c & int_c & u16_c & u16_c & u32_c & u32_c & u64_c)
    (fun c => (earfcn c, rx_lev c, mcc c, mnc c, cell_id c, tac c, cell_identity c))
    (fun '(a, b, c, d, e, f, g) => mkCsurvCell a b c d e f g).

Definition csurv_result_c : Codec CsurvResult :=
  struct_c (static_vector_c csurv_cell_c CsurvCell_default MAX_CELLS & bool_c & int_c & int_c)
    (fun r => (cells r, fHasSummary r, no_arfcn r, no_bcch r)) (fun '(a, b, c, d) => mkCsurv a b c d).

Definition state_timers_c : Codec StateTimers :=
  struct_c (u32_c & u32_c & u32_c & u32_c & u32_c & u32_c & u32_c)
    (fun t => (network_attaching_ms t, pdp_context_opening_ms t, data_ready_ms t, transparent_mode_ms t,
               gnss_fix_mode_ms t, sleep_mode_ms t, off_mode_ms t))
    (fun '(a, b, c, d, e, f, g) => mkTimers a b c d e f g).

Definition gnss_position_msg_c : Codec GnssPosition :=
  let s := fixed_string_c 16 in
  struct_c (s & s & s & s & s & fix_type_c & s & s & s & s & u8_c & s & s)
    (fun p => (utc p, latitude p, longitude p, hdop p, altitude p, fix_ p, cog p, spkm p, spkn p, date p,
               nsat p, hepe p, vepe p))
    (fun '(a, b, c, d, e, f, g, h, i, j, k, l, m) => mkGnss a b c d e f g h i j k l m).

Definition config_c : Codec NetworkLteConfig :=
  struct_c (u8_c & u8_c & u8_c & u8_c & u16_c & u16_c & u8_c & u8_c & u8_c
            & u64_c & radio_tech_c & medium_c & u64_c & radio_tech_c & medium_c
            & short_c & bool_c & bool_c & u32_c & u32_c & u8_c)
    (fun c => (cfg_cid c, attach_timeout_sec c, pdp_timeout_sec c, data_ready_timeout_sec c,
               transparent_timeout_sec c, gps_timeout_sec c, max_network_attempts c, max_attach_retries c,
               max_pdp_retries c, default_lte_bands c, default_iot_tech c, default_apn c, fallback_lte_bands c,
               fallback_iot_tech c, fallback_apn c, plmn c, fPsmEnable c, fCfunSleep c, psm_t3412 c,
               psm_t3324 c, cfg_conn_id c))
    (fun '(a, b, c, d, e, f, g, h, i, j, k, l, m, n, o, p, q, r, s, t, u) =>
       mkConfig a b c d e f g h i j k l m n o p q r s t u).

(** ** Messages *)

Definition tx_msg_c : Codec ModemTxMsg :=
  struct_c (request_c & u32_c & u32_c) (fun m => (tx_type m, arg0 m, arg1 m)) (fun '(a, b, c) => mkTxMsg a b c).

Definition set_config_msg_c : Codec ModemSetConfigMsg :=
  struct_c (request_c & config_c) (fun m => (sc_msg_type m, sc_msg_config m)) (fun '(a, b) => mkSetConfigMsg a b).

Definition connect_msg_c : Codec ModemServerConnectMsg :=
  struct_c (request_c & u8_c & u16_c & short_c & medium_c)
    (fun m => (cm_type m, cm_conn_id m, cm_port m, cm_protocol m, cm_ip m))
    (fun '(a, b, c, d, e) => mkConnectMsg a b c d e).

Definition complete_c : Codec ModemActionCompleteMsg :=
  struct_c (request_c & bool_c) (fun m => (ac_type m, ac_result m)) (fun '(a, b) => mkComplete a b).

(** [ModemTypedResponseMsg<T>]: the flag and the value. *)
Definition typed_c {T} (c : Codec T) : Codec (bool * T) := struct_c (bool_c & c) id id.

(** [ModemLogMsg]. *)
Definition log_msg_c : Codec str := struct_c long_c id id.

Local Close Scope codec_scope.

(** The sizes the [static_assert]s of the header bound by 512. *)
Lemma message_sizes :
  sizeof tx_msg_c = 12 /\ sizeof set_config_msg_c = 280 /\ sizeof connect_msg_c = 136 /\
  sizeof complete_c = 2 /\ sizeof (typed_c bool_c) = 2 /\ sizeof (typed_c config_c) = 280 /\
  sizeof (typed_c gnss_position_msg_c) = 376 /\ sizeof (typed_c state_timers_c) = 32.
Proof. repeat split; vm_compute; reflexivity. Qed.

(** ** Round trips *)

Definition named_request (r : RadioLteRequestType) : Prop :=
  match r with Req_other _ => False | _ => True end.

Lemma decodes_request : decodes request_c named_request.
Proof.
  eapply decodes_map; [apply decodes_uint|]. intros r Hr. split.
  - destruct r; vm_compute; first [done | split; done].
  - by destruct r.
Qed.

Lemma decodes_radio_tech : decodes radio_tech_c tech_ok.
Proof.
  by eapply decodes_map; [apply decodes_sint; lia|].
Qed.

#[export] Hint Resolve decodes_request decodes_radio_tech decodes_uint : codec.

Definition tx_msg_ok (m : ModemTxMsg) : Prop :=
  named_request (tx_type m) /\ (0 <= arg0 m < 2 ^ 32)%Z /\ (0 <= arg1 m < 2 ^ 32)%Z.

Lemma decodes_tx_msg : decodes tx_msg_c tx_msg_ok.
Proof.
  eapply decodes_struct.
  - decode_members; eauto with codec.
  - intros [t a b] (Ht & Ha & Hb). done.
Qed.

Lemma decodes_string n : (n < 1000) -> decodes (fixed_string_c n) (fun s => length s <= n).
Proof. intros Hn. apply decodes_fixed_string. lia. Qed.

#[export] Hint Extern 1 (decodes short_c _) => (apply decodes_string; unfold MODEM_SHORT_STR; lia) : codec.
#[export] Hint Extern 1 (decodes medium_c _) => (apply decodes_string; unfold MODEM_MEDIUM_STR; lia) : codec.
#[export] Hint Extern 1 (decodes u8_c _) => (apply (decodes_uint 1)) : codec.
#[export] Hint Extern 1 (decodes u16_c _) => (apply (decodes_uint 2)) : codec.
#[export] Hint Extern 1 (decodes u32_c _) => (apply (decodes_uint 4)) : codec.
#[export] Hint Extern 1 (decodes u64_c _) => (apply (decodes_uint 8)) : codec.
#[export] Hint Extern 2 (sized _) => (progress unfold short_c, medium_c, u8_c, u16_c, u32_c, u64_c, int_c,
  request_c, radio_tech_c, config_c) : codec.

Lemma decodes_config : decodes config_c config_ok.
Proof.
  eapply decodes_struct.
  - decode_members; eauto with codec.
  - intros c Hc. unfold config_ok in Hc. split; [|by destruct c]. cbn [fst snd].
    destruct_and! Hc. split_and!; cbn [fst snd]; done || lia.
Qed.

Definition connect_msg_ok (m : ModemServerConnectMsg) : Prop :=
  named_request (cm_type m) /\ (0 <= cm_conn_id m < 256)%Z /\ (0 <= cm_port m < 2 ^ 16)%Z /\
  length (cm_protocol m) <= MODEM_SHORT_STR /\ length (cm_ip m) <= MODEM_MEDIUM_STR.

Lemma decodes_connect_msg : decodes connect_msg_c connect_msg_ok.
Proof.
  eapply decodes_struct.
  - decode_members; eauto with codec.
  - intros [a b c d e] (? & ? & ? & ? & ?). done.
Qed.

Lemma sized_config : sized config_c.
Proof. eauto 60 with codec. Qed.

#[export] Hint Resolve decodes_config sized_config : codec.

Lemma decodes_set_config_msg : decodes set_config_msg_c (fun m => named_request (sc_msg_type m) /\ config_ok (sc_msg_config m)).
Proof.
  eapply decodes_struct.
  - decode_members; eauto with codec.
  - by intros [a b] [? ?].
Qed.

Lemma decodes_complete : decodes complete_c (fun m => named_request (ac_type m)).
Proof.
  eapply decodes_struct.
  - decode_members; eauto with codec.
  - by intros [a b] ?.
Qed.

Lemma decodes_typed {T} (c : Codec T) ok : 0 < alignof c -> decodes c ok -> decodes (typed_c c) (fun m => ok (snd m)).
Proof.
  intros Ha Hc. eapply decodes_struct.
  - apply decodes_pair; [done|apply sized_bool|apply decodes_bool|exact Hc].
  - by intros [a b] ?.
Qed.

Lemma sized_typed {T} (c : Codec T) : 0 < alignof c -> sized c -> sized (typed_c c).
Proof.
  intros Ha Hc. apply sized_struct; [cbn; lia|]. apply sized_pair; [done|apply sized_bool|done].
Qed.

Lemma sized_messages : sized tx_msg_c /\ sized set_config_msg_c /\ sized connect_msg_c /\ sized complete_c.
Proof. repeat split; eauto 60 with codec. Qed.

(** ** The replies read back *)

Lemma decodes_byte_enum {E} (val : E -> Z) (cast : Z -> E) : decodes (map_c (uint 1) val cast) (byte_enum val cast).
Proof. by eapply decodes_map; [apply decodes_uint|]. Qed.

Lemma decodes_int : decodes int_c int32.
Proof. apply (decodes_sint 4). lia. Qed.

Lemma decodes_ip : decodes ip_c (fun s => length s <= MODEM_IP_STR).
Proof. apply decodes_string. unfold MODEM_IP_STR. lia. Qed.

Lemma decodes_context_state : decodes context_state_c (fun _ => True).
Proof. eapply decodes_map; [apply decodes_uint|]. intros [] _; simpl; split; lia || done. Qed.

Lemma decodes_psm_version : decodes psm_version_c (fun _ => True).
Proof. eapply decodes_map; [apply decodes_uint|]. intros [] _; simpl; split; lia || done. Qed.

#[export] Hint Resolve decodes_int decodes_ip decodes_context_state decodes_psm_version : codec.
#[export] Hint Extern 1 (decodes reg_status_c _) => (apply decodes_byte_enum) : codec.
#[export] Hint Extern 1 (decodes sim_status_c _) => (apply decodes_byte_enum) : codec.
#[export] Hint Extern 1 (decodes psm_mode_c _) => (apply decodes_byte_enum) : codec.
#[export] Hint Extern 1 (decodes fix_type_c _) => (apply decodes_byte_enum) : codec.
#[export] Hint Extern 2 (sized _) => (progress unfold ip_c, reg_status_c, sim_status_c, context_state_c, psm_mode_c,
  psm_version_c, fix_type_c) : codec.

(** The strings of the message are cut at 16 characters. *)
Definition gnss_position_msg_ok (p : GnssPosition) : Prop :=
  Forall (fun s : str => length s <= 16)
    [utc p; latitude p; longitude p; hdop p; altitude p; cog p; spkm p; spkn p; date p; hepe p; vepe p] /\
  byte_enum GnssFixType_val GnssFixType_cast (fix_ p) /\ (0 <= nsat p < 256)%Z.

Lemma to_gnss_position_msg_ok p : gnss_position_ok p -> gnss_position_msg_ok (to_gnss_position_msg p).
Proof.
  intros (_ & Hf & Hn). split; [|done]. repeat (apply Forall_cons_2; [apply length_fs_set|]). apply Forall_nil_2.
Qed.

(** Goes through the members, then splits the conditions on the values. *)
Ltac decode_struct ok :=
  eapply decodes_struct;
  [ decode_members; eauto with codec
  | let v := fresh in let H := fresh in
    intros v H; unfold ok in H; split; [|by destruct v]; cbn [fst snd]; destruct_and?;
    split_and!; done || lia ].

Lemma decodes_registration_info : decodes registration_info_c registration_info_ok.
Proof. decode_struct registration_info_ok. Qed.
Lemma decodes_signal_quality : decodes signal_quality_c signal_quality_ok.
Proof. decode_struct signal_quality_ok. Qed.
Lemma decodes_network_info : decodes network_info_c network_info_ok.
Proof. decode_struct network_info_ok. Qed.
Lemma decodes_cpsms_config : decodes cpsms_config_c cpsms_config_ok.
Proof. decode_struct cpsms_config_ok. Qed.
Lemma decodes_telit_cpsms_config : decodes telit_cpsms_config_c telit_cpsms_config_ok.
Proof. decode_struct telit_cpsms_config_ok. Qed.
Lemma decodes_telit_cpsms_status : decodes telit_cpsms_status_c telit_cpsms_status_ok.
Proof. decode_struct telit_cpsms_status_ok. Qed.
Lemma decodes_state_timers : decodes state_timers_c state_timers_ok.
Proof. decode_struct state_timers_ok. Qed.

Lemma decodes_string16 : decodes (fixed_string_c 16) (fun s => length s <= 16).
Proof. apply decodes_string. lia. Qed.
#[export] Hint Resolve decodes_string16 : codec.

Lemma decodes_gnss_position_msg : decodes gnss_position_msg_c gnss_position_msg_ok.
Proof.
  eapply decodes_struct; [decode_members; eauto with codec|]. intros p (Hs & Hf & Hn).
  repeat (apply Forall_cons in Hs as [? Hs]). split; [|by destruct p]. cbn [fst snd].
  split_and!; done || lia.
Qed.
#[export] Hint Resolve decodes_registration_info decodes_signal_quality decodes_network_info decodes_cpsms_config
  decodes_telit_cpsms_config decodes_telit_cpsms_status decodes_state_timers decodes_gnss_position_msg : codec.
