(* ===== verification/RadioLte.v ===== *)
(** * The radio service (include/modem/i_radio_lte.h, src/i_radio_lte.cpp)

    Other threads talk to the network thread through three message channels and
    a word of event flags; [process_radio_requests] takes the queued requests
    and dispatches them on [NetworkLte].  The channels are any implementation of
    [MessageChannel]; calls use the default [timeout_ms = 0] of the sources. *)

From S2P Require Import Prelude CLib FixedString StaticVector Layout MessageChannel Timer ModemController.
From S2P Require Import Xe310Types Xe310 Survey Trace Hal NetworkTypes Typed NetworkLte RadioMessages.

Definition MODEM_TX_Q_DEPTH : nat := 8.
Definition MODEM_RX_Q_DEPTH : nat := 8.
Definition MODEM_LOG_Q_DEPTH : nat := 16.

(** ** [RadioLteChannels] *)

Record RadioLteChannels (Ch : Type) := mkChannels {
  modem_tx_q : Ch; modem_rx_q : Ch; modem_log_q : Ch; modem_evt : Z;
  state_msg : NetworkLteState * NetworkLteEvent }.
Arguments mkChannels {Ch} _ _ _ _ _.
Arguments modem_tx_q {Ch} _.
Arguments modem_rx_q {Ch} _.
Arguments modem_log_q {Ch} _.
Arguments modem_evt {Ch} _.
Arguments state_msg {Ch} _.

Section Channels.
Context {Ch : Type} {HCh : MessageChannel Ch}.

Notation Chs := (RadioLteChannels Ch).

Definition RadioLteChannels_init : Chs :=
  mkChannels (ch_create MODEM_TX_Q_DEPTH) (ch_create MODEM_RX_Q_DEPTH) (ch_create MODEM_LOG_Q_DEPTH) 0
    (State_none, Event_none).

Definition set_tx_q (q : Ch) (s : Chs) : Chs :=
  mkChannels q (modem_rx_q s) (modem_log_q s) (modem_evt s) (state_msg s).
Definition set_rx_q (q : Ch) (s : Chs) : Chs :=
  mkChannels (modem_tx_q s) q (modem_log_q s) (modem_evt s) (state_msg s).
Definition set_log_q (q : Ch) (s : Chs) : Chs :=
  mkChannels (modem_tx_q s) (modem_rx_q s) q (modem_evt s) (state_msg s).
Definition set_evt (e : Z) (s : Chs) : Chs :=
  mkChannels (modem_tx_q s) (modem_rx_q s) (modem_log_q s) e (state_msg s).

(** [modem_evt->set(bit)] when the message was accepted. *)
Definition notify (err : MessageChannelError) (bit : Z) (s : Chs) : Chs :=
  if decide (err = ChannelError_ok) then set_evt (EventFlags.set (modem_evt s) bit) s else s.

Definition send_message {T} (c : Codec T) (msg : T) : ST Ch MessageChannelError := ch_send (enc c msg).

(** [memcpy(&msg, frame.data.data(), sizeof(MessageType))]. *)
Definition read_frame {T} (c : Codec T) (frame : MessageFrame) : T := dec c (take (sizeof c) (fr_data frame)).

Definition receive_message {T} (c : Codec T) (msg : T) : ST Ch (MessageChannelError * T) := fun q =>
  let '((err, frame), q') := ch_receive MessageFrame_default q in
  if negb (bool_decide (err = ChannelError_ok)) then ((err, msg), q')
  else if negb (fr_length frame =? sizeof c) then ((ChannelError_invalid_size, msg), q')
  else ((ChannelError_ok, read_frame c frame), q').

Definition send_request {T} (c : Codec T) (msg : T) : ST Chs MessageChannelError := fun s =>
  let '(err, q) := send_message c msg (modem_tx_q s) in
  (err, notify err MODEM_EVT_REQUEST (set_tx_q q s)).

Definition recv_request (msg : ModemTxMsg) : ST Chs (MessageChannelError * ModemTxMsg) := fun s =>
  let '(r, q) := receive_message tx_msg_c msg (modem_tx_q s) in (r, set_tx_q q s).

Definition recv_request_frame (frame : MessageFrame) : ST Chs (MessageChannelError * MessageFrame) := fun s =>
  let '(r, q) := ch_receive frame (modem_tx_q s) in (r, set_tx_q q s).

Definition publish_typed_response {T} (c : Codec T) (value : T) : ST Chs MessageChannelError := fun s =>
  let '(err, q) := send_message (typed_c c) (true, value) (modem_rx_q s) in
  (err, notify err MODEM_EVT_RESPONSE (set_rx_q q s)).

Definition recv_typed_response {T} (c : Codec T) (msg : bool * T) : ST Chs (MessageChannelError * (bool * T)) := fun s =>
  let '(r, q) := receive_message (typed_c c) msg (modem_rx_q s) in (r, set_rx_q q s).

Definition publish_action_complete (type : RadioLteRequestType) (result : bool) : ST Chs unit := fun s =>
  let '(err, q) := send_message complete_c (mkComplete type result) (modem_rx_q s) in
  (tt, notify err MODEM_EVT_ACTION_DONE (set_rx_q q s)).

Definition recv_action_complete (msg : ModemActionCompleteMsg) : ST Chs (MessageChannelError * ModemActionCompleteMsg) :=
  fun s => let '(r, q) := receive_message complete_c msg (modem_rx_q s) in (r, set_rx_q q s).

Definition publish_state (st : NetworkLteState) (e : NetworkLteEvent) (s : Chs) : Chs :=
  mkChannels (modem_tx_q s) (modem_rx_q s) (modem_log_q s) (EventFlags.set (modem_evt s) MODEM_EVT_STATE) (st, e).

Definition publish_log (line : str) : ST Chs MessageChannelError := fun s =>
  let '(err, q) := send_message log_msg_c (fs_set MODEM_LONG_STR line) (modem_log_q s) in
  (err, notify err MODEM_EVT_LOG (set_log_q q s)).

Definition recv_log (msg : str) : ST Chs (MessageChannelError * str) := fun s =>
  let '(r, q) := receive_message log_msg_c msg (modem_log_q s) in (r, set_log_q q s).

Definition wait (events : Z) (reset : bool) : ST Chs Z := fun s =>
  let '(matched, e) := EventFlags.wait (fun _ => None) (modem_evt s) events reset 0 in (matched, set_evt e s).

Definition clear (events : Z) (s : Chs) : Chs := set_evt (EventFlags.clear (modem_evt s) events) s.

End Channels.

(** ** [process_radio_requests] *)

Record Service {HT : HalTypes} (Ch C : Type) := mkService { channels : RadioLteChannels Ch; radio : NetworkLte C }.
Arguments mkService {HT Ch C} _ _.
Arguments channels {HT Ch C} _.
Arguments radio {HT Ch C} _.

Section Dispatch.
Context {HT : HalTypes} {HM : HalTimer} {HQ : HalQueue} {Ch : Type} {HCh : MessageChannel Ch}.
Context {C : Type} {HC : Controller C} {HA : TimerAccess C} {HR : Residue}.
(** The address of the array that [server_info_array()] returns. *)
Variable server_info_ptr : Z.
(** Bounds of the loops inside the radio operations ([go_to_state] and its [loop]). *)
Variable n fuel : nat.

Notation S := (@Service HT Ch C).
Notation L := (@NetworkLte HT C).

Definition on_channels {A} (m : ST (RadioLteChannels Ch) A) : NL S A := fun s =>
  let '(a, ch) := m (channels s) in Done (a, mkService ch (radio s)).

Definition on_radio {A} (m : NL L A) : NL S A := fun s =>
  match m (radio s) with
  | Done (a, r) => Done (a, mkService (channels s) r)
  | Undef => Undef
  | NoFuel => NoFuel
  end.

Local Open Scope nl_scope.

Definition publish {T} (c : Codec T) (value : T) : NL S unit :=
  on_channels (publish_typed_response c value) ;;; nl_ret tt.

(** A query: the answer is a member of the radio object. *)
Definition publish_member {T} (c : Codec T) (member : L -> T) : NL S unit :=
  let* value := nl_gets (fun s => member (radio s)) in publish c value.

(** A blocking action: acknowledged, run, its result notified. *)
Definition run_blocking (type : RadioLteRequestType) (m : NL L bool) : NL S unit :=
  publish bool_c true ;;;
  let* res := on_radio m in
  on_channels (publish_action_complete type res).

Definition of_unwritten {T} (f : Unwritten -> T) (r : L) : T := f (unwritten_ r).

(** The [switch]. *)
Definition dispatch (frame : MessageFrame) (req : ModemTxMsg) (request_type : RadioLteRequestType) : NL S unit :=
  match request_type with
  | Req_get_registration_info => publish_member registration_info_c regInfo
  | Req_get_signal_quality => publish_member signal_quality_c signalQuality
  | Req_get_iccid => publish_member short_c (of_unwritten (fun u => iccid (modemInfo u)))
  | Req_get_imsi => publish_member short_c (of_unwritten (fun u => imsi (modemInfo u)))
  | Req_get_clock => on_radio (lift refresh_clock) ;;; publish_member short_c modemClock
  | Req_get_modem_info => publish_member modem_info_c (of_unwritten modemInfo)
  | Req_get_sim_status => publish_member sim_status_c (of_unwritten simStatus)
  | Req_get_radio_tech => publish_member radio_tech_c (of_unwritten radioTech)
  | Req_get_reg_status => publish_member reg_status_c (of_unwritten regStatus)
  | Req_get_network_info => publish_member network_info_c networkInfo
  | Req_get_psm_mode => publish_member psm_mode_c (of_unwritten psmMode)
  | Req_get_cpsms_config => publish_member cpsms_config_c (of_unwritten cpsmsConfig)
  | Req_get_telit_cpsms_config => publish_member telit_cpsms_config_c (of_unwritten telitCpsmsConfig)
  | Req_get_telit_cpsms_status => publish_member telit_cpsms_status_c (of_unwritten telitCpsmsStatus)
  | Req_get_network_survey_result => publish_member network_survey_c (of_unwritten networkSurveyResult)
  | Req_get_available_operators => publish_member operators_c (of_unwritten operatorList)
  | Req_get_csurv_result => publish_member csurv_result_c csurvResult
  | Req_scan_networks => run_blocking Req_scan_networks (lift (scan_networks (arg0 req) (arg1 req)))
  | Req_get_server_info_array => publish u64_c server_info_ptr
  | Req_get_config => publish_member config_c lteConfig
  | Req_set_config =>
      if negb (fr_length frame =? sizeof set_config_msg_c) then publish bool_c false
      else
        on_radio (lift (set_config (sc_msg_config (read_frame set_config_msg_c frame)))) ;;;
        publish bool_c true
  | Req_network_connect => run_blocking Req_network_connect (network_connect n fuel)
  | Req_network_disconnect => run_blocking Req_network_disconnect (lift network_disconnect)
  | Req_server_connect =>
      if negb (fr_length frame =? sizeof connect_msg_c) then publish bool_c false
      else let m := read_frame connect_msg_c frame in
           run_blocking Req_server_connect (server_connect (cm_conn_id m) (cm_protocol m) (cm_ip m) (cm_port m))
  | Req_server_disconnect => run_blocking Req_server_disconnect (server_disconnect (u8 (arg0 req)))
  | Req_force_psm => run_blocking Req_force_psm (lift force_psm)
  | Req_get_timers => publish_member state_timers_c stateTimers_
  | Req_get_gnss_position => publish_member gnss_position_msg_c (fun r => to_gnss_position_msg (gnssPosition r))
  | Req_acquire_gnss_position =>
      run_blocking Req_acquire_gnss_position
        (let* (res, _) := acquire_gnss_position n fuel GnssPosition_default in nl_ret res)
  | Req_other _ => publish bool_c false
  end.

Definition process_request (frame : MessageFrame) : NL S unit :=
  if fr_length frame <? sizeof request_c then publish bool_c false
  else
    let request_type := read_frame request_c frame in
    if decide (request_type <> Req_set_config /\ request_type <> Req_server_connect) then
      if negb (fr_length frame =? sizeof tx_msg_c) then publish bool_c false
      else let req := read_frame tx_msg_c frame in dispatch frame req (tx_type req)
    else dispatch frame ModemTxMsg_default request_type.

(** [while (recv_request_frame(frame) == ok)]; [rounds] bounds the requests taken. *)
Fixpoint requests_loop (rounds : nat) (frame : MessageFrame) : NL S unit :=
  match rounds with
  | 0 => nl_nofuel
  | Datatypes.S rounds' =>
      let* (err, frame) := on_channels (recv_request_frame frame) in
      if decide (err = ChannelError_ok) then process_request frame ;;; requests_loop rounds' frame
      else nl_ret tt
  end.

Definition process_radio_requests (rounds : nat) : NL S unit := requests_loop rounds MessageFrame_default.

End Dispatch.
