(* ===== verification/RadioLteProps.v ===== *)
(** * Properties of the radio service

    [serve] says what a list of request messages means for the radio and which
    messages it gives back; the dispatcher and the channels implement it, for
    every implementation of the channel interface. *)

From S2P Require Import Prelude CLib FixedString StaticVector Layout MessageChannel MessageQueue Timer.
From S2P Require Import AtCommand ModemController ControllerProps Xe310Types Xe310 Xe310Props Survey Trace.
From S2P Require Import Hal NetworkTypes Typed NetworkLte NetworkInv NetworkSafety NetworkApi NetworkProps.
From S2P Require Import RadioMessages RadioLte.

(** ** Specification *)

(** A message for the client with the event bit that announces it. *)
Definition Notice : Type := Z * str.

Definition reply {T} (c : Codec T) (v : T) : Notice := (MODEM_EVT_RESPONSE, enc (typed_c c) (true, v)).
Definition completion (t : RadioLteRequestType) (b : bool) : Notice :=
  (MODEM_EVT_ACTION_DONE, enc complete_c (mkComplete t b)).

Section Spec.
Context {HT : HalTypes} {HM : HalTimer} {HQ : HalQueue}.
Context {C : Type} {HC : Controller C} {HA : TimerAccess C} {HR : Residue}.
Variable server_info_ptr : Z.
Variable n fuel : nat.

Notation L := (@NetworkLte HT C).
Local Open Scope nl_scope.

(** What a query returns. *)
Definition query (t : RadioLteRequestType) : option (L -> Notice) :=
  match t with
  | Req_get_registration_info => Some (fun r => reply registration_info_c (regInfo r))
  | Req_get_signal_quality => Some (fun r => reply signal_quality_c (signalQuality r))
  | Req_get_iccid => Some (fun r => reply short_c (iccid (modemInfo (unwritten_ r))))
  | Req_get_imsi => Some (fun r => reply short_c (imsi (modemInfo (unwritten_ r))))
  | Req_get_clock => Some (fun r => reply short_c (modemClock r))
  | Req_get_modem_info => Some (fun r => reply modem_info_c (modemInfo (unwritten_ r)))
  | Req_get_sim_status => Some (fun r => reply sim_status_c (simStatus (unwritten_ r)))
  | Req_get_radio_tech => Some (fun r => reply radio_tech_c (radioTech (unwritten_ r)))
  | Req_get_reg_status => Some (fun r => reply reg_status_c (regStatus (unwritten_ r)))
  | Req_get_network_info => Some (fun r => reply network_info_c (networkInfo r))
  | Req_get_psm_mode => Some (fun r => reply psm_mode_c (psmMode (unwritten_ r)))
  | Req_get_cpsms_config => Some (fun r => reply cpsms_config_c (cpsmsConfig (unwritten_ r)))
  | Req_get_telit_cpsms_config => Some (fun r => reply telit_cpsms_config_c (telitCpsmsConfig (unwritten_ r)))
  | Req_get_telit_cpsms_status => Some (fun r => reply telit_cpsms_status_c (telitCpsmsStatus (unwritten_ r)))
  | Req_get_network_survey_result => Some (fun r => reply network_survey_c (networkSurveyResult (unwritten_ r)))
  | Req_get_available_operators => Some (fun r => reply operators_c (operatorList (unwritten_ r)))
  | Req_get_csurv_result => Some (fun r => reply csurv_result_c (csurvResult r))
  | Req_get_server_info_array => Some (fun _ => reply u64_c server_info_ptr)
  | Req_get_config => Some (fun r => reply config_c (lteConfig r))
  | Req_get_timers => Some (fun r => reply state_timers_c (stateTimers_ r))
  | Req_get_gnss_position => Some (fun r => reply gnss_position_msg_c (to_gnss_position_msg (gnssPosition r)))
  | _ => None
  end.

(** The radio operation behind a blocking request. *)
Definition action (req : ModemTxMsg) : option (NL L bool) :=
  match tx_type req with
  | Req_scan_networks => Some (lift (scan_networks (arg0 req) (arg1 req)))
  | Req_network_connect => Some (network_connect n fuel)
  | Req_network_disconnect => Some (lift network_disconnect)
  | Req_server_disconnect => Some (server_disconnect (u8 (arg0 req)))
  | Req_force_psm => Some (lift force_psm)
  | Req_acquire_gnss_position =>
      Some (let* (res, _) := acquire_gnss_position n fuel GnssPosition_default in nl_ret res)
  | _ => None
  end.

Definition refused : list Notice := [reply bool_c false].

Definition acted (t : RadioLteRequestType) (m : NL L bool) : NL L (list Notice) :=
  let* b := m in nl_ret [reply bool_c true; completion t b].

(** A request of the common form. *)
Definition answer_tx (req : ModemTxMsg) : NL L (list Notice) :=
  match action req with
  | Some m => acted (tx_type req) m
  | None =>
      (if decide (tx_type req = Req_get_clock) then lift refresh_clock else nl_ret ModemStatus_ok) ;;;
      match query (tx_type req) with
      | Some q => let* a := nl_gets q in nl_ret [a]
      | None => nl_ret refused
      end
  end.

(** One request message. *)
Definition answer (x : str) : NL L (list Notice) :=
  if length x =? 0 then nl_ret refused
  else match dec request_c (take 1 x) with
       | Req_set_config =>
           if length x =? sizeof set_config_msg_c
           then lift (set_config (sc_msg_config (dec set_config_msg_c x))) ;;; nl_ret [reply bool_c true]
           else nl_ret refused
       | Req_server_connect =>
           if length x =? sizeof connect_msg_c
           then let m := dec connect_msg_c x in
                acted Req_server_connect (server_connect (cm_conn_id m) (cm_protocol m) (cm_ip m) (cm_port m))
           else nl_ret refused
       | _ => if length x =? sizeof tx_msg_c then answer_tx (dec tx_msg_c x) else nl_ret refused
       end.

Fixpoint serve (xs : list str) : NL L (list Notice) :=
  match xs with
  | [] => nl_ret []
  | x :: xs' => let* a := answer x in let* b := serve xs' in nl_ret (a ++ b)
  end.

End Spec.

(** What a notice does to the response queue and the event flags. *)
Definition deliver (d : list str * Z) (m : Notice) : list str * Z :=
  match spec_send MODEM_RX_Q_DEPTH (snd m) (fst d) with
  | (ChannelError_ok, l) => (l, EventFlags.set (snd d) (fst m))
  | (_, l) => (l, snd d)
  end.

(** ** Values of their types *)

Section Types.
Context {HT : HalTypes} {HM : HalTimer} {HTL : HalTimerLaws} {HQ : HalQueue} {HQL : HalQueueLaws}.
Context {C : Type} {HC : Controller C} {HA : TimerAccess C} {HAL : TimerAccessLaws C} {HR : Residue}.
Notation L := (@NetworkLte HT C).

(** The member a request asks for holds a value of its C++ type. *)
Definition member_ok (t : RadioLteRequestType) (r : L) : Prop :=
  match t with
  | Req_get_registration_info => registration_info_ok (regInfo r)
  | Req_get_signal_quality => signal_quality_ok (signalQuality r)
  | Req_get_iccid => length (iccid (modemInfo (unwritten_ r))) <= MODEM_SHORT_STR
  | Req_get_imsi => length (imsi (modemInfo (unwritten_ r))) <= MODEM_SHORT_STR
  | Req_get_clock => length (modemClock r) <= MODEM_SHORT_STR
  | Req_get_sim_status => byte_enum SimStatus_val SimStatus_cast (simStatus (unwritten_ r))
  | Req_get_radio_tech => tech_ok (radioTech (unwritten_ r))
  | Req_get_reg_status => byte_enum RegStatus_val RegStatus_cast (regStatus (unwritten_ r))
  | Req_get_network_info => network_info_ok (networkInfo r)
  | Req_get_psm_mode => byte_enum PsmMode_val PsmMode_cast (psmMode (unwritten_ r))
  | Req_get_cpsms_config => cpsms_config_ok (cpsmsConfig (unwritten_ r))
  | Req_get_telit_cpsms_config => telit_cpsms_config_ok (telitCpsmsConfig (unwritten_ r))
  | Req_get_telit_cpsms_status => telit_cpsms_status_ok (telitCpsmsStatus (unwritten_ r))
  | Req_get_config => config_ok (lteConfig r)
  | Req_get_timers => state_timers_ok (stateTimers_ r)
  | Req_get_gnss_position => gnss_position_msg_ok (to_gnss_position_msg (gnssPosition r))
  | _ => True
  end.

Lemma wf_member_ok t r : lte_wf_with config_ok r -> member_ok t r.
Proof.
  intros H. pose proof (wf_unwritten H) as Hu. pose proof (wf_reg H). pose proof (wf_signal H).
  pose proof (wf_clock H). pose proof (wf_net H). pose proof (wf_timers H). pose proof (wf_config H).
  pose proof (to_gnss_position_msg_ok _ (wf_gnss H)).
  destruct t; cbn [member_ok]; try assumption; try exact I; rewrite Hu;
    repeat split; simpl; lia || (by vm_compute).
Qed.

(** C8. Type safety of the radio's data: starting from a configuration of its type,
    whatever sequence of interface calls is made, with configurations of their
    type, and whatever text the modem sends, every member the service can be asked
    for holds a value of its C++ type: integers within their width, strings within
    their capacity, enumerations within their underlying type.  Hence each of them
    survives being copied through the channels byte by byte. *)
Theorem queried_members_typed modem config callback timer n fuel calls :
  opt_ok member_timer_ok timer -> config_ok config ->
  forallb call_ok calls = true -> Forall (call_config config_ok) calls ->
  match run_calls n fuel calls (NetworkLte_init modem config callback timer) with
  | Done (_, s) => forall t, member_ok t s
  | Undef => False
  | NoFuel => True
  end.
Proof using HQL HAL.
  intros Ht Hk Hc Hf. pose proof (keeps_run_calls n fuel calls Hc Hf _ (wf_init modem config callback timer Ht Hk)) as H.
  destruct (run_calls n fuel calls _) as [[[] s]| |]; try done. intros t. by apply wf_member_ok.
Qed.

End Types.

(** ** The dispatcher implements it *)

Section Refinement.
Context {HT : HalTypes} {HM : HalTimer} {HTL : HalTimerLaws} {HQ : HalQueue} {HQL : HalQueueLaws}.
Context {Ch : Type} {HCh : MessageChannel Ch} {HL : MessageChannelLaws Ch}.
Context {C : Type} {HC : Controller C} {HA : TimerAccess C} {HAL : TimerAccessLaws C} {HR : Residue}.
Variable server_info_ptr : Z.
Variable n fuel : nat.

Notation S := (@Service HT Ch C).
Notation L := (@NetworkLte HT C).
Local Open Scope nl_scope.

(** The channels hold the requests [tx], the responses [fst d] and the flags
    [snd d]; [rest] are the log queue and the published state. *)
Definition holds (tx : list str) (d : list str * Z) (rest : Ch * (NetworkLteState * NetworkLteEvent))
  (ch : RadioLteChannels Ch) : Prop :=
  ch_rel MODEM_TX_Q_DEPTH (modem_tx_q ch) tx /\ ch_rel MODEM_RX_Q_DEPTH (modem_rx_q ch) (fst d) /\
  modem_evt ch = snd d /\ (modem_log_q ch, state_msg ch) = rest.

(** The result of running [m] is what the specification [a] says of the radio,
    with its notices delivered. *)
Definition follows (tx : list str) d rest (o : Outcome (list Notice * L)) (o' : Outcome (unit * S)) : Prop :=
  match o with
  | Done (msgs, r) => exists s', o' = Done (tt, s') /\ radio s' = r /\ holds tx (foldl deliver d msgs) rest (channels s')
  | Undef => o' = Undef
  | NoFuel => o' = NoFuel
  end.

Definition simulates (m : NL S unit) (a : NL L (list Notice)) : Prop :=
  forall s tx d rest, holds tx d rest (channels s) -> follows tx d rest (a (radio s)) (m s).

Lemma notify_rel bit x ch tx d rest :
  holds tx d rest ch ->
  let '(err, q) := ch_send x (modem_rx_q ch) in
  holds tx (deliver d (bit, x)) rest (notify err bit (set_rx_q q ch)).
Proof.
  intros (Htx & Hrx & He & Hrest). destruct (law_send _ _ _ x Hrx) as [Herr Hrel].
  destruct (ch_send x (modem_rx_q ch)) as [err q]. unfold deliver. cbn [fst snd] in *. subst err.
  destruct (spec_send MODEM_RX_Q_DEPTH x (fst d)) as [e l]. cbn [fst snd] in *.
  unfold notify. destruct e; (case_decide; [|done]); done || (unfold holds; cbn; by rewrite He).
Qed.

Lemma sim_publish {T} (c : Codec T) v : simulates (publish c v) (nl_ret [reply c v]).
Proof.
  intros s tx d rest H. pose proof (notify_rel MODEM_EVT_RESPONSE (enc (typed_c c) (true, v)) _ _ _ _ H) as Hn.
  unfold publish, nl_bind, on_channels, publish_typed_response, send_message.
  destruct (ch_send _ (modem_rx_q (channels s))) as [err q]. eexists. done.
Qed.

Lemma sim_complete t b : simulates (on_channels (publish_action_complete t b)) (nl_ret [completion t b]).
Proof.
  intros s tx d rest H. pose proof (notify_rel MODEM_EVT_ACTION_DONE (enc complete_c (mkComplete t b)) _ _ _ _ H) as Hn.
  unfold on_channels, publish_action_complete, send_message.
  destruct (ch_send _ (modem_rx_q (channels s))) as [err q]. eexists. done.
Qed.

Lemma sim_radio {A} (m : NL L A) k a :
  (forall v, simulates (k v) (a v)) -> simulates (nl_bind (on_radio m) k) (nl_bind m a).
Proof.
  intros Hk s tx d rest H. unfold nl_bind, on_radio. destruct (m (radio s)) as [[v r]| |]; [|done|done].
  apply (Hk v (mkService (channels s) r)). done.
Qed.

(** The notices of a first part come before those of the rest; a publication
    does not look at the radio, so it commutes with what follows. *)
Lemma sim_then m1 msgs m2 a2 :
  simulates m1 (nl_ret msgs) -> simulates m2 a2 ->
  simulates (m1 ;;; m2) (let* b := a2 in nl_ret (msgs ++ b)).
Proof.
  intros H1 H2 s tx d rest H. destruct (H1 s tx d rest H) as (s1 & E1 & Hr & Hh).
  specialize (H2 s1 tx _ rest Hh). rewrite Hr in H2. unfold nl_bind, nl_ret. rewrite E1.
  destruct (a2 (radio s)) as [[b r]| |]; [|done|done]. cbn in *. rewrite foldl_app. exact H2.
Qed.

Lemma sim_member {T} (c : Codec T) (f : L -> T) :
  simulates (publish_member c f) (let* a := nl_gets (fun r => reply c (f r)) in nl_ret [a]).
Proof. intros s. apply (sim_publish c (f (radio s)) s). Qed.

Lemma sim_blocking t m : simulates (run_blocking t m) (acted t m).
Proof.
  intros s tx d rest H. unfold run_blocking, acted.
  assert (simulates (let* res := on_radio m in on_channels (publish_action_complete t res))
                    (let* b := m in nl_ret [completion t b])) as Hc.
  { apply sim_radio. intros b. apply sim_complete. }
  pose proof (sim_then _ _ _ _ (sim_publish bool_c true) Hc s tx d rest H) as Hs.
  unfold nl_bind at 1 in Hs. unfold nl_bind at 1. unfold nl_bind at 1 in Hs. 
  destruct (m (radio s)) as [[b r]| |]; exact Hs.
Qed.

Lemma sim_dispatch_tx frame req :
  tx_type req <> Req_set_config -> tx_type req <> Req_server_connect ->
  simulates (dispatch server_info_ptr n fuel frame req (tx_type req)) (answer_tx server_info_ptr n fuel req).
Proof.
  intros H1 H2. unfold answer_tx, action.
  destruct (tx_type req) eqn:Et; try done; cbn [dispatch query];
    first [ apply sim_blocking | exact (sim_member _ _) | exact (sim_publish bool_c false) | idtac ].
  rewrite decide_True by done. apply sim_radio. intros _. apply sim_member.
Qed.

Lemma frame_read {T} (c : Codec T) frame x :
  frame_is frame x -> length x = sizeof c -> read_frame c frame = dec c x.
Proof. intros (_ & _ & Hx) Hl. unfold read_frame. by rewrite <- Hl, Hx. Qed.

Lemma frame_read_type frame x :
  frame_is frame x -> 0 < length x -> read_frame request_c frame = dec request_c (take 1 x).
Proof.
  intros (_ & _ & Hx) Hl. unfold read_frame. cbn [sizeof request_c map_c uint]. rewrite <- Hx.
  rewrite take_take. by replace (1 `min` length x) with 1 by lia.
Qed.

(** The first byte of the common form is the type. *)
Lemma tx_type_first x : tx_type (dec tx_msg_c x) = dec request_c (take 1 x).
Proof. cbn. by rewrite take_take. Qed.

Lemma sim_request frame x :
  frame_is frame x -> simulates (process_request server_info_ptr n fuel frame) (answer server_info_ptr n fuel x).
Proof.
  intros Hf. pose proof Hf as (_ & Hlen & _). unfold process_request, answer. rewrite Hlen.
  change (sizeof request_c) with 1. destruct (length x =? 0) eqn:E0; bool_facts.
  { rewrite E0. exact (sim_publish bool_c false). }
  destruct (length x <? 1) eqn:E1; bool_facts; [lia|].
  rewrite (frame_read_type frame x) by (done || lia). pose proof (tx_type_first x) as Hty.
  case_decide as Hcase.
  - assert (forall A (a b c : A), match dec request_c (take 1 x) with
              | Req_set_config => a | Req_server_connect => b | _ => c end = c) as Hm.
    { intros. destruct Hcase. by destruct (dec request_c (take 1 x)). }
    rewrite Hm. destruct (length x =? sizeof tx_msg_c) eqn:Es; bool_facts; cbn [negb];
      [|exact (sim_publish bool_c false)].
    rewrite (frame_read _ _ x) by done. apply sim_dispatch_tx; rewrite Hty; tauto.
  - assert (dec request_c (take 1 x) = Req_set_config \/ dec request_c (take 1 x) = Req_server_connect) as Hc.
    { destruct (decide (dec request_c (take 1 x) = Req_set_config)); [by left|].
      destruct (decide (dec request_c (take 1 x) = Req_server_connect)); [by right|tauto]. }
    destruct Hc as [-> | ->]; cbn [dispatch]; rewrite Hlen.
    + destruct (length x =? sizeof set_config_msg_c) eqn:Es; bool_facts; cbn [negb];
        [|exact (sim_publish bool_c false)].
      rewrite (frame_read _ _ x) by done. apply sim_radio. intros _. apply sim_publish.
    + destruct (length x =? sizeof connect_msg_c) eqn:Es; bool_facts; cbn [negb];
        [|exact (sim_publish bool_c false)].
      rewrite (frame_read _ _ x) by done. apply sim_blocking.
Qed.

Lemma recv_frame_some x tx d rest f ch :
  holds (x :: tx) d rest ch -> frame_sized f ->
  exists f' ch', recv_request_frame f ch = ((ChannelError_ok, f'), ch') /\ frame_is f' x /\ holds tx d rest ch'.
Proof.
  intros (Htx & Hrx & He & Hrest) Hf. destruct (law_receive _ _ _ _ f Htx Hf) as (Hok & Hfr & Hrel).
  unfold recv_request_frame. destruct (ch_receive f (modem_tx_q ch)) as [[err f'] q]. cbn in *. subst err.
  by exists f', (set_tx_q q ch).
Qed.

Lemma recv_frame_none d rest f ch :
  holds [] d rest ch ->
  exists f' ch', recv_request_frame f ch = ((ChannelError_empty, f'), ch') /\ holds [] d rest ch'.
Proof.
  intros (Htx & Hrx & He & Hrest). destruct (law_receive_empty _ _ f Htx) as (Hok & Hrel).
  unfold recv_request_frame. destruct (ch_receive f (modem_tx_q ch)) as [[err f'] q]. cbn in *. subst err.
  by exists f', (set_tx_q q ch).
Qed.

Lemma loop_round rounds frame s err f ch :
  recv_request_frame frame (channels s) = ((err, f), ch) ->
  requests_loop server_info_ptr n fuel (Datatypes.S rounds) frame s =
  (if decide (err = ChannelError_ok)
   then process_request server_info_ptr n fuel f ;;; requests_loop server_info_ptr n fuel rounds f
   else nl_ret tt) (mkService ch (radio s)).
Proof. intros E. cbn [requests_loop]. unfold nl_bind at 1, on_channels. by rewrite E. Qed.

Lemma loop_serves tx : forall rounds frame s d rest,
  length tx < rounds -> frame_sized frame -> holds tx d rest (channels s) ->
  follows [] d rest (serve server_info_ptr n fuel tx (radio s))
    (requests_loop server_info_ptr n fuel rounds frame s).
Proof.
  induction tx as [|x tx IH]; intros [|rounds] frame s d rest Hr Hf H; cbn [length] in Hr; [lia| |lia|].
  - destruct (recv_frame_none _ _ frame _ H) as (f' & ch' & E & Hh).
    rewrite (loop_round _ _ _ _ _ _ E), decide_False by done. eexists. done.
  - destruct (recv_frame_some _ _ _ _ frame _ H Hf) as (f' & ch' & E & Hfr & Hh).
    rewrite (loop_round _ _ _ _ _ _ E), decide_True by done.
    pose proof (sim_request f' x Hfr (mkService ch' (radio s)) tx d rest Hh) as Ha.
    cbn [radio serve] in *. unfold nl_bind.
    destruct (answer server_info_ptr n fuel x (radio s)) as [[msgs r]| |]; cbn [follows] in Ha;
      [|by rewrite Ha|by rewrite Ha].
    destruct Ha as (s1 & -> & <- & Hh1). specialize (IH rounds f' s1 _ rest ltac:(lia) (proj1 Hfr) Hh1).
    destruct (serve server_info_ptr n fuel tx (radio s1)) as [[ms r]| |]; [|done|done].
    cbn in *. rewrite foldl_app. exact IH.
Qed.

Lemma process_serves tx msgs r' rounds ch r d rest :
  serve server_info_ptr n fuel tx r = Done (msgs, r') -> length tx < rounds -> holds tx d rest ch ->
  exists s', process_radio_requests server_info_ptr n fuel rounds (mkService ch r) = Done (tt, s') /\
             radio s' = r' /\ holds [] (foldl deliver d msgs) rest (channels s').
Proof.
  intros Hs Hr Hh. pose proof (loop_serves tx rounds MessageFrame_default (mkService ch r) d rest Hr
                                 PosixChannel.frame_default_sized Hh) as Hl.
  cbn [radio] in Hl. rewrite Hs in Hl. exact Hl.
Qed.

(** C7. The radio thread serves every queued request: run on channels that hold
    the requests [tx], [process_radio_requests] empties the request queue,
    applies the requests to the radio in order, and puts the messages they give
    back ([serve]: one reply each, and a completion after each blocking action)
    into the response queue in order, each announced by its event bit; a message
    that is too long or finds the queue full is dropped without a bit.  Log queue
    and published state are not touched.  The loop ends after as many rounds as
    there are requests. *)
Theorem radio_requests_served rounds tx d rest s :
  length tx < rounds -> holds tx d rest (channels s) ->
  match serve server_info_ptr n fuel tx (radio s) with
  | Done (msgs, r) =>
      exists s', process_radio_requests server_info_ptr n fuel rounds s = Done (tt, s') /\
                 radio s' = r /\ holds [] (foldl deliver d msgs) rest (channels s')
  | Undef => process_radio_requests server_info_ptr n fuel rounds s = Undef
  | NoFuel => process_radio_requests server_info_ptr n fuel rounds s = NoFuel
  end.
Proof. intros Hr H. apply loop_serves; [done|apply PosixChannel.frame_default_sized|done]. Qed.

(** ** The client's side *)

Lemma send_request_rel {T} (c : Codec T) v tx rx e rest ch :
  holds tx (rx, e) rest ch -> sized c -> sizeof c <= MESSAGE_CHANNEL_MAX_DATA -> length tx < MODEM_TX_Q_DEPTH ->
  exists ch', send_request c v ch = (ChannelError_ok, ch') /\
              holds (tx ++ [enc c v]) (rx, EventFlags.set e MODEM_EVT_REQUEST) rest ch'.
Proof.
  intros (Htx & Hrx & He & Hrest) Hs Hc Hl. unfold send_request, send_message.
  destruct (law_send _ _ _ (enc c v) Htx) as [Herr Hrel].
  destruct (ch_send (enc c v) (modem_tx_q ch)) as [err q]. unfold spec_send in *. rewrite Hs in *.
  destruct (MESSAGE_CHANNEL_MAX_DATA <? sizeof c) eqn:E1; bool_facts; [lia|].
  destruct (MODEM_TX_Q_DEPTH <=? length tx) eqn:E2; bool_facts; [lia|]. cbn [fst snd] in *. subst err.
  eexists. split; [done|]. unfold notify. rewrite decide_True by done. unfold holds. cbn in *. by rewrite He.
Qed.

(** The next message of a queue, read at the type it was written at. *)
Lemma receive_message_rel {T} (c : Codec T) msg cap q x l :
  ch_rel cap q (x :: l) -> length x = sizeof c ->
  let '(r, q') := receive_message c msg q in r = (ChannelError_ok, dec c x) /\ ch_rel cap q' l.
Proof.
  intros Hq Hx. unfold receive_message.
  destruct (law_receive _ _ _ _ MessageFrame_default Hq) as (Hok & Hfr & Hrel); [apply PosixChannel.frame_default_sized|].
  destruct (ch_receive MessageFrame_default q) as [[err f] q']. cbn [fst snd] in *. subst err.
  rewrite bool_decide_true by done. cbn [negb]. pose proof Hfr as (_ & Hl & _). rewrite Hl, Hx, Nat.eqb_refl.
  cbn [negb]. split; [|done]. by rewrite (frame_read c f x).
Qed.

Lemma recv_rel {T} (c : Codec T) msg tx x rx e rest ch :
  holds tx (x :: rx, e) rest ch -> length x = sizeof c ->
  let '(r, q) := receive_message c msg (modem_rx_q ch) in
  r = (ChannelError_ok, dec c x) /\ holds tx (rx, e) rest (set_rx_q q ch).
Proof.
  intros (Htx & Hrx & He & Hrest) Hx. pose proof (receive_message_rel c msg _ _ _ _ Hrx Hx) as Hr.
  destruct (receive_message c msg (modem_rx_q ch)) as [r q]. by destruct Hr as [-> Hr].
Qed.

Lemma recv_reply {T} (c : Codec T) v ok msg tx rx e rest ch :
  0 < alignof c -> sized c -> decodes c ok -> ok v ->
  holds tx (snd (reply c v) :: rx, e) rest ch ->
  exists ch', recv_typed_response c msg ch = ((ChannelError_ok, (true, v)), ch') /\ holds tx (rx, e) rest ch'.
Proof.
  intros Ha Hs Hd Hv H. unfold recv_typed_response.
  pose proof (recv_rel (typed_c c) msg _ _ _ _ _ _ H (sized_typed c Ha Hs _)) as Hr.
  destruct (receive_message (typed_c c) msg (modem_rx_q ch)) as [r q]. destruct Hr as [-> Hh].
  eexists. split; [|done]. cbn [reply snd].
  pose proof (decodes_typed c ok Ha Hd (true, v) [] Hv) as Hdec. rewrite app_nil_r in Hdec. by rewrite Hdec.
Qed.

Lemma recv_completion t b msg tx rx e rest ch :
  named_request t -> holds tx (snd (completion t b) :: rx, e) rest ch ->
  exists ch', recv_action_complete msg ch = ((ChannelError_ok, mkComplete t b), ch') /\ holds tx (rx, e) rest ch'.
Proof.
  intros Ht H. unfold recv_action_complete. destruct sized_messages as (_ & _ & _ & Hs).
  pose proof (recv_rel complete_c msg _ _ _ _ _ _ H (Hs _)) as Hr.
  destruct (receive_message complete_c msg (modem_rx_q ch)) as [r q]. destruct Hr as [-> Hh].
  eexists. split; [|done]. pose proof (decodes_complete (mkComplete t b) [] Ht) as Hdec.
  rewrite app_nil_r in Hdec. cbn [completion snd]. by rewrite Hdec.
Qed.

(** A request the client wrote is read back by the dispatcher. *)
Lemma answer_sent req :
  tx_msg_ok req -> tx_type req <> Req_set_config -> tx_type req <> Req_server_connect ->
  answer server_info_ptr n fuel (enc tx_msg_c req) = answer_tx server_info_ptr n fuel req.
Proof.
  intros Hok H1 H2. pose proof (decodes_tx_msg req [] Hok) as Hdec. rewrite app_nil_r in Hdec.
  destruct sized_messages as (Hs & _). unfold answer. rewrite Hs. change (sizeof tx_msg_c) with 12.
  cbn [Nat.eqb]. pose proof (tx_type_first (enc tx_msg_c req)) as Ht. rewrite Hdec in Ht. rewrite <- Ht, Hdec.
  by destruct (tx_type req).
Qed.

Lemma action_named req m : action n fuel req = Some m -> tx_type req <> Req_set_config /\ tx_type req <> Req_server_connect.
Proof. unfold action. destruct (tx_type req); done. Qed.

Lemma deliver_fits rx e m :
  length (snd m) <= MESSAGE_CHANNEL_MAX_DATA -> length rx < MODEM_RX_Q_DEPTH ->
  deliver (rx, e) m = (rx ++ [snd m], EventFlags.set e (fst m)).
Proof.
  intros Hm Hl. unfold deliver, spec_send. cbn [fst snd].
  destruct (MESSAGE_CHANNEL_MAX_DATA <? length (snd m)) eqn:E1; bool_facts; [lia|].
  by destruct (MODEM_RX_Q_DEPTH <=? length rx) eqn:E2; bool_facts; [lia|].
Qed.

Lemma length_ack b : length (snd (reply bool_c b)) = 2.
Proof. by rewrite (sized_typed bool_c ltac:(simpl; lia) sized_bool). Qed.

Lemma length_completion t b : length (snd (completion t b)) = 2.
Proof. destruct sized_messages as (_ & _ & _ & Hs). apply Hs. Qed.

Lemma length_config_reply cfg : length (snd (reply config_c cfg)) = 280.
Proof.
  cbn [reply snd]. rewrite (sized_typed config_c ltac:(vm_compute; lia) sized_config). apply message_sizes.
Qed.

(** Discharges the conditions of [deliver_fits] for the two-byte messages. *)
Local Ltac short_message :=
  rewrite ?length_ack, ?length_completion, ?length_config_reply; unfold MESSAGE_CHANNEL_MAX_DATA, MODEM_RX_Q_DEPTH; simpl length; lia.

(** A blocking action over the channels, end to end: the client's request is
    accepted, the radio thread performs exactly the requested operation, the
    client then reads an acknowledgement and after it the completion with the
    type of its request and the operation's own result, and the queues are empty
    again. *)
Theorem blocking_action_roundtrip rounds req m b r r' e rest ch msg0 :
  1 < rounds -> holds [] ([], e) rest ch -> tx_msg_ok req ->
  action n fuel req = Some m -> m r = Done (b, r') ->
  exists ch1 s2 ch3 ch4,
    send_request tx_msg_c req ch = (ChannelError_ok, ch1) /\
    process_radio_requests server_info_ptr n fuel rounds (mkService ch1 r) = Done (tt, s2) /\ radio s2 = r' /\
    recv_typed_response bool_c (false, false) (channels s2) = ((ChannelError_ok, (true, true)), ch3) /\
    recv_action_complete msg0 ch3 = ((ChannelError_ok, mkComplete (tx_type req) b), ch4) /\
    holds [] ([], Z.lor (Z.lor (Z.lor e MODEM_EVT_REQUEST) MODEM_EVT_RESPONSE) MODEM_EVT_ACTION_DONE) rest ch4.
Proof.
  intros Hr Hh Hok Ha Hm. destruct (action_named _ _ Ha) as [Hn1 Hn2].
  destruct (send_request_rel tx_msg_c req _ _ _ _ _ Hh (proj1 sized_messages)) as (ch1 & E1 & Hh1);
    [vm_compute; lia|cbn; unfold MODEM_TX_Q_DEPTH; lia|].
  assert (serve server_info_ptr n fuel [enc tx_msg_c req] r =
          Done ([reply bool_c true; completion (tx_type req) b], r')) as Hs.
  { cbn [serve]. rewrite answer_sent by done. unfold answer_tx, acted, nl_bind. by rewrite Ha, Hm. }
  destruct (process_serves _ _ _ rounds ch1 _ _ _ Hs Hr Hh1) as (s2 & E2 & Hr2 & Hh2).
  cbn [foldl] in Hh2. rewrite deliver_fits, deliver_fits in Hh2 by short_message. cbn [app] in Hh2.
  destruct (recv_reply bool_c true (fun _ => True) (false, false) _ _ _ _ _ ltac:(simpl; lia) sized_bool decodes_bool I Hh2)
    as (ch3 & E3 & Hh3).
  destruct (recv_completion (tx_type req) b msg0 _ _ _ _ _ (proj1 Hok) Hh3) as (ch4 & E4 & Hh4).
  by exists ch1, s2, ch3, ch4.
Qed.

Lemma set_config_type_first x : sc_msg_type (dec set_config_msg_c x) = dec request_c (take 1 x).
Proof. cbn. by rewrite take_take. Qed.

Lemma answer_set_config cfg :
  config_ok cfg ->
  answer server_info_ptr n fuel (enc set_config_msg_c (mkSetConfigMsg Req_set_config cfg)) =
  (lift (set_config cfg) ;;; nl_ret [reply bool_c true]).
Proof.
  intros Hok. pose proof (decodes_set_config_msg (mkSetConfigMsg Req_set_config cfg) [] (conj I Hok)) as Hdec.
  rewrite app_nil_r in Hdec. destruct sized_messages as (_ & Hs & _).
  set (x := enc set_config_msg_c (mkSetConfigMsg Req_set_config cfg)) in *.
  pose proof (set_config_type_first x) as Ht. rewrite Hdec in Ht. unfold answer. rewrite <- Ht, Hdec.
  unfold x at 1 2. rewrite Hs, Nat.eqb_refl. by change (sizeof set_config_msg_c) with 280.
Qed.

Lemma serve_config cfg r :
  config_ok cfg ->
  serve server_info_ptr n fuel
    [enc set_config_msg_c (mkSetConfigMsg Req_set_config cfg); enc tx_msg_c (mkTxMsg Req_get_config 0 0)] r =
  Done ([reply bool_c true; reply config_c cfg], set_lteConfig cfg r).
Proof.
  intros Hok. cbn [serve]. rewrite answer_set_config by done. rewrite answer_sent; [by destruct r| |done|done].
  split; [done|]. simpl. lia.
Qed.

(** A configuration survives the channels: a client that sends [set_config]
    and then [get_config] is acknowledged and reads back, member for member, the
    configuration it sent, which is now the radio's. *)
Theorem config_roundtrip rounds cfg r e rest ch cfg0 :
  2 < rounds -> holds [] ([], e) rest ch -> config_ok cfg ->
  exists ch1 ch2 s3 ch4 ch5,
    send_request set_config_msg_c (mkSetConfigMsg Req_set_config cfg) ch = (ChannelError_ok, ch1) /\
    send_request tx_msg_c (mkTxMsg Req_get_config 0 0) ch1 = (ChannelError_ok, ch2) /\
    process_radio_requests server_info_ptr n fuel rounds (mkService ch2 r) = Done (tt, s3) /\
    radio s3 = set_lteConfig cfg r /\
    recv_typed_response bool_c (false, false) (channels s3) = ((ChannelError_ok, (true, true)), ch4) /\
    recv_typed_response config_c (false, cfg0) ch4 = ((ChannelError_ok, (true, cfg)), ch5).
Proof.
  intros Hr Hh Hok. destruct sized_messages as (Hst & Hss & _).
  destruct (send_request_rel set_config_msg_c (mkSetConfigMsg Req_set_config cfg) _ _ _ _ _ Hh Hss) as (ch1 & E1 & Hh1);
    [vm_compute; lia|cbn; unfold MODEM_TX_Q_DEPTH; lia|]. cbn [app] in Hh1.
  destruct (send_request_rel tx_msg_c (mkTxMsg Req_get_config 0 0) _ _ _ _ _ Hh1 Hst) as (ch2 & E2 & Hh2);
    [vm_compute; lia|cbn; unfold MODEM_TX_Q_DEPTH; lia|]. cbn [app] in Hh2.
  destruct (process_serves _ _ _ rounds ch2 _ _ _ (serve_config cfg r Hok) Hr Hh2) as (s3 & E3 & Hr3 & Hh3).
  cbn [foldl] in Hh3. rewrite deliver_fits, deliver_fits in Hh3 by short_message. cbn [app] in Hh3.
  destruct (recv_reply bool_c true (fun _ => True) (false, false) _ _ _ _ _ ltac:(simpl; lia) sized_bool decodes_bool I Hh3)
    as (ch4 & E4 & Hh4).
  destruct (recv_reply config_c cfg config_ok (false, cfg0) _ _ _ _ _ ltac:(vm_compute; lia) sized_config
              decodes_config Hok Hh4) as (ch5 & E5 & Hh5).
  by exists ch1, ch2, s3, ch4, ch5.
Qed.

(** ** Replies that do not fit a frame *)

Definition oversize (t : RadioLteRequestType) : bool :=
  match t with
  | Req_get_modem_info | Req_get_network_survey_result | Req_get_available_operators
  | Req_get_csurv_result => true
  | _ => false
  end.

Lemma reply_length {T} (c : Codec T) v : 0 < alignof c -> sized c -> length (snd (reply c v)) = sizeof (typed_c c).
Proof. intros Ha Hs. apply (sized_typed c Ha Hs). Qed.

Lemma query_size t q (r : L) :
  query server_info_ptr t = Some q ->
  fst (q r) = MODEM_EVT_RESPONSE /\ (MESSAGE_CHANNEL_MAX_DATA <? length (snd (q r))) = oversize t.
Proof.
  intros Hq. destruct t; cbn [query] in Hq; try discriminate Hq; injection Hq as <-; (split; [done|]);
    rewrite reply_length by (solve [vm_compute; lia | eauto 60 with codec]); vm_compute; reflexivity.
Qed.

Lemma query_is_query t q : query (C := C) server_info_ptr t = Some q ->
  named_request t /\ t <> Req_set_config /\ t <> Req_server_connect /\ action (C := C) n fuel (mkTxMsg t 0 0) = None.
Proof. by destruct t. Qed.

(** Queries over the channels: a query is answered by exactly one message
    with the radio's member, announced by the response bit, and leaves the radio
    as it was; but the modem information, survey, operator and scan results are
    larger than a frame, so these four queries are never answered and the client
    gets neither message nor response bit. *)
Theorem query_answered_if_it_fits rounds t q r e rest ch :
  1 < rounds -> holds [] ([], e) rest ch -> query server_info_ptr t = Some q -> t <> Req_get_clock ->
  exists ch1 s2,
    send_request tx_msg_c (mkTxMsg t 0 0) ch = (ChannelError_ok, ch1) /\
    process_radio_requests server_info_ptr n fuel rounds (mkService ch1 r) = Done (tt, s2) /\ radio s2 = r /\
    holds [] (if oversize t then ([], Z.lor e MODEM_EVT_REQUEST)
              else ([snd (q r)], Z.lor (Z.lor e MODEM_EVT_REQUEST) MODEM_EVT_RESPONSE)) rest (channels s2).
Proof.
  intros Hr Hh Hq Hclk. destruct (query_is_query t q Hq) as (Hn & Hn1 & Hn2 & Ha).
  destruct (send_request_rel tx_msg_c (mkTxMsg t 0 0) _ _ _ _ _ Hh (proj1 sized_messages)) as (ch1 & E1 & Hh1);
    [vm_compute; lia|cbn; unfold MODEM_TX_Q_DEPTH; lia|].
  assert (serve server_info_ptr n fuel [enc tx_msg_c (mkTxMsg t 0 0)] r = Done ([q r], r)) as Hs.
  { cbn [serve]. rewrite answer_sent by (done || (split; [done|simpl; lia])).
    unfold answer_tx. rewrite Ha. cbn [tx_type]. rewrite decide_False, Hq by done. done. }
  destruct (process_serves _ _ _ rounds ch1 _ _ _ Hs Hr Hh1) as (s2 & E2 & Hr2 & Hh2).
  exists ch1, s2. split; [done|]. split; [done|]. split; [done|]. cbn [foldl] in Hh2.
  destruct (query_size t q r Hq) as [Hbit Hsz]. unfold deliver, spec_send in Hh2. cbn [fst snd length] in Hh2.
  rewrite Hsz, Hbit in Hh2. by destruct (oversize t).
Qed.

(** ** Safety of the service *)

(** Connection numbers inside the server array. *)
Definition request_ok (x : str) : bool :=
  match dec request_c (take 1 x) with
  | Req_server_connect => negb (length x =? sizeof connect_msg_c) || valid_id (cm_conn_id (dec connect_msg_c x))
  | Req_server_disconnect => negb (length x =? sizeof tx_msg_c) || valid_id (u8 (arg0 (dec tx_msg_c x)))
  | _ => true
  end.

Lemma keeps_of_call {A} (m : NL L A) c :
  run_call n fuel c = (m ;;; nl_ret tt) -> call_ok c = true -> keeps lte_wf m.
Proof using HAL.
  intros Hc Hok s Hs. pose proof (keeps_run_call n fuel c Hok (call_config_any c) s Hs) as Hk. rewrite Hc in Hk.
  unfold nl_bind in Hk. by destruct (m s) as [[a s']| |].
Qed.

Lemma keeps_acted t (m : NL L bool) : keeps lte_wf m -> keeps lte_wf (acted t m).
Proof. intros Hm. apply keeps_bind; [done|]. intros b. apply keeps_ret. Qed.

Lemma keeps_action req (m : NL L bool) :
  action n fuel req = Some m -> (tx_type req = Req_server_disconnect -> valid_id (u8 (arg0 req)) = true) ->
  keeps lte_wf m.
Proof using HAL.
  unfold action. intros Hm Hid. destruct (tx_type req); try discriminate Hm; injection Hm as <-.
  - by apply (keeps_of_call _ (Call_scan_networks (arg0 req) (arg1 req))).
  - by apply (keeps_of_call _ Call_network_connect).
  - by apply (keeps_of_call _ Call_network_disconnect).
  - apply (keeps_of_call _ (Call_server_disconnect (u8 (arg0 req)))); [done|by apply Hid].
  - by apply (keeps_of_call _ Call_force_psm).
  - apply keeps_bind; [by apply (keeps_of_call _ Call_acquire_gnss_position)|].
    intros [b p]. apply keeps_ret.
Qed.

Lemma keeps_answer_tx req :
  (tx_type req = Req_server_disconnect -> valid_id (u8 (arg0 req)) = true) ->
  keeps lte_wf (answer_tx (C := C) server_info_ptr n fuel req).
Proof using HAL.
  intros Hid. unfold answer_tx. destruct (action n fuel req) as [m|] eqn:Ha.
  - apply keeps_acted. by apply (keeps_action req).
  - apply keeps_bind.
    + case_decide; [|apply keeps_ret]. by apply (keeps_of_call _ Call_refresh_clock).
    + intros _. destruct (query server_info_ptr (tx_type req)); [|apply keeps_ret].
      apply keeps_bind; [apply keeps_gets|]. intros a. apply keeps_ret.
Qed.

Lemma keeps_answer x : request_ok x = true -> keeps lte_wf (answer (C := C) server_info_ptr n fuel x).
Proof using HAL.
  intros Hx. unfold answer. destruct (length x =? 0); [apply keeps_ret|]. pose proof (tx_type_first x) as Ht.
  assert (length x =? sizeof tx_msg_c = true -> keeps lte_wf (answer_tx (C := C) server_info_ptr n fuel (dec tx_msg_c x)))
    as Htx.
  { intros Hl. apply keeps_answer_tx. intros Hd. rewrite Ht in Hd. unfold request_ok in Hx. by rewrite Hd, Hl in Hx. }
  unfold request_ok in Hx.
  destruct (dec request_c (take 1 x)) eqn:E;
    try (destruct (length x =? sizeof tx_msg_c); [by apply Htx|apply keeps_ret]).
  - destruct (length x =? sizeof set_config_msg_c); [|apply keeps_ret].
    apply keeps_bind; [|intros; apply keeps_ret].
    apply (keeps_run_call n fuel (Call_set_config (sc_msg_config (dec set_config_msg_c x))) eq_refl I).
  - destruct (length x =? sizeof connect_msg_c); [|apply keeps_ret]. cbn [negb orb] in Hx.
    set (m := dec connect_msg_c x) in *. apply keeps_acted.
    by apply (keeps_of_call _ (Call_server_connect (cm_conn_id m) (cm_protocol m) (cm_ip m) (cm_port m))).
Qed.

Lemma keeps_serve tx : forallb request_ok tx = true -> keeps lte_wf (serve (C := C) server_info_ptr n fuel tx).
Proof using HAL.
  induction tx as [|x tx IH]; intros Hx; [apply keeps_ret|]. simpl in Hx. bool_facts. cbn [serve].
  apply keeps_bind; [by apply keeps_answer|]. intros a. apply keeps_bind; [by apply IH|]. intros b. apply keeps_ret.
Qed.

(** The radio service is safe: whatever bytes the clients have queued, as long
    as the connection numbers of server requests are 1 to 5, processing them has
    no access outside the server array, keeps the invariant of the network layer
    and leaves the request queue empty. *)
Lemma radio_service_safe rounds tx d rest s :
  length tx < rounds -> forallb request_ok tx = true -> holds tx d rest (channels s) -> lte_wf (radio s) ->
  match process_radio_requests server_info_ptr n fuel rounds s with
  | Done (_, s') => lte_wf (radio s') /\ exists d', holds [] d' rest (channels s')
  | Undef => False
  | NoFuel => True
  end.
Proof using HAL.
  intros Hr Hx Hh Hwf. pose proof (keeps_serve tx Hx (radio s) Hwf) as Hk.
  pose proof (loop_serves tx rounds MessageFrame_default s d rest Hr PosixChannel.frame_default_sized Hh) as Hl.
  unfold process_radio_requests. destruct (serve server_info_ptr n fuel tx (radio s)) as [[msgs r]| |];
    [|done|by rewrite Hl].
  destruct Hl as (s' & -> & <- & Hh'). split; [done|]. by exists (foldl deliver d msgs).
Qed.

End Refinement.

(** ** Witnesses *)

Import Scripted.

Definition idle_channels : RadioLteChannels PosixChannel.Channel := RadioLteChannels_init.
Definition idle_rest : PosixChannel.Channel * (NetworkLteState * NetworkLteEvent) :=
  (modem_log_q idle_channels, state_msg idle_channels).

Lemma idle_holds : holds [] ([], 0%Z) idle_rest idle_channels.
Proof. split; [exact (PosixChannel.create_rel 8)|]. split; [exact (PosixChannel.create_rel 8)|done]. Qed.

(** The channels after a client has queued one request of the common form. *)
Definition asked (req : ModemTxMsg) : RadioLteChannels PosixChannel.Channel :=
  snd (send_request tx_msg_c req idle_channels).

Lemma asked_holds req : holds [enc tx_msg_c req] ([], 1%Z) idle_rest (asked req).
Proof.
  destruct (send_request_rel tx_msg_c req _ _ _ _ _ idle_holds (proj1 sized_messages)) as (ch1 & E1 & Hh1);
    [vm_compute; lia|cbn; unfold MODEM_TX_Q_DEPTH; lia|]. unfold asked. rewrite E1. exact Hh1.
Qed.

#[local] Instance example_residue : Residue := {| stale := id; uninit_tech := RadioTech_unknown; undefined_int := 0 |}.

(** A radio object whose modem does not answer. *)
Definition silent : NetworkLte (ModemController Scripted.World) := lte [].

Lemma default_config_ok : config_ok NetworkLteConfig_default.
Proof.
  unfold config_ok, NetworkLteConfig_default, B3_8_20_BAND_MASK, MODEM_MEDIUM_STR, MODEM_SHORT_STR.
  split_and!; simpl; try lia; split; vm_compute; try done.
Qed.

Lemma queried_members_typed_witness :
  match run_calls 3 2 some_calls silent with
  | Done (_, s) => forall t, member_ok t s
  | Undef => False
  | NoFuel => True
  end.
Proof.
  apply (queried_members_typed (XE310.xE310_init (world [])) NetworkLteConfig_default true None 3 2 some_calls);
    [exact I|exact default_config_ok|reflexivity|repeat constructor].
Defined.

Lemma radio_requests_served_witness :
  exists s', process_radio_requests 0 5 5 2 (mkService (asked (mkTxMsg Req_get_psm_mode 0 0)) silent) = Done (tt, s') /\
             radio s' = silent /\ holds [] ([snd (reply psm_mode_c PsmMode_disable)], 3%Z) idle_rest (channels s').
Proof.
  exact (radio_requests_served 0 5 5 2 [enc tx_msg_c (mkTxMsg Req_get_psm_mode 0 0)] ([], 1%Z) idle_rest
    (mkService (asked (mkTxMsg Req_get_psm_mode 0 0)) silent) ltac:(simpl; lia)
    (asked_holds (mkTxMsg Req_get_psm_mode 0 0))).
Defined.

(** Disconnecting a server that is not connected fails, and the client learns it. *)
Lemma blocking_action_roundtrip_witness :
  exists ch1 s2 ch3 ch4,
    send_request tx_msg_c (mkTxMsg Req_server_disconnect 1 0) idle_channels = (ChannelError_ok, ch1) /\
    process_radio_requests 0 5 5 2 (mkService ch1 silent) = Done (tt, s2) /\ radio s2 = silent /\
    recv_typed_response bool_c (false, false) (channels s2) = ((ChannelError_ok, (true, true)), ch3) /\
    recv_action_complete (mkComplete Req_force_psm true) ch3 =
      ((ChannelError_ok, mkComplete Req_server_disconnect false), ch4) /\
    holds [] ([], 19%Z) idle_rest ch4.
Proof.
  apply (blocking_action_roundtrip 0 5 5 2 (mkTxMsg Req_server_disconnect 1 0) (server_disconnect 1) false
           silent silent 0 idle_rest idle_channels (mkComplete Req_force_psm true)).
  - lia.
  - exact idle_holds.
  - split; [exact I|]. simpl. lia.
  - reflexivity.
  - reflexivity.
Defined.

Lemma config_roundtrip_witness :
  exists ch1 ch2 s3 ch4 ch5,
    send_request set_config_msg_c (mkSetConfigMsg Req_set_config NetworkLteConfig_default) idle_channels =
      (ChannelError_ok, ch1) /\
    send_request tx_msg_c (mkTxMsg Req_get_config 0 0) ch1 = (ChannelError_ok, ch2) /\
    process_radio_requests 0 5 5 3 (mkService ch2 silent) = Done (tt, s3) /\
    radio s3 = set_lteConfig NetworkLteConfig_default silent /\
    recv_typed_response bool_c (false, false) (channels s3) = ((ChannelError_ok, (true, true)), ch4) /\
    recv_typed_response config_c (false, NetworkLteConfig_default) ch4 =
      ((ChannelError_ok, (true, NetworkLteConfig_default)), ch5).
Proof.
  apply (config_roundtrip 0 5 5 3 NetworkLteConfig_default silent 0 idle_rest idle_channels NetworkLteConfig_default);
    [lia|exact idle_holds|exact default_config_ok].
Defined.

(** The modem information is never answered. *)
Lemma query_answered_if_it_fits_witness :
  exists ch1 s2,
    send_request tx_msg_c (mkTxMsg Req_get_modem_info 0 0) idle_channels = (ChannelError_ok, ch1) /\
    process_radio_requests 0 5 5 2 (mkService ch1 silent) = Done (tt, s2) /\ radio s2 = silent /\
    holds [] ([], 1%Z) idle_rest (channels s2).
Proof.
  apply (query_answered_if_it_fits 0 5 5 2 Req_get_modem_info
           (fun r => reply modem_info_c (modemInfo (unwritten_ r))) silent 0 idle_rest idle_channels);
    [lia|exact idle_holds|reflexivity|discriminate].
Defined.

Lemma silent_wf : lte_wf silent.
Proof. by apply wf_init. Qed.

Lemma radio_service_safe_witness :
  match process_radio_requests 0 5 5 2 (mkService (asked (mkTxMsg Req_server_disconnect 3 0)) silent) with
  | Done (_, s') => lte_wf (radio s') /\ exists d', holds [] d' idle_rest (channels s')
  | Undef => False
  | NoFuel => True
  end.
Proof.
  apply (radio_service_safe 0 5 5 2 [enc tx_msg_c (mkTxMsg Req_server_disconnect 3 0)] ([], 1%Z) idle_rest
           (mkService (asked (mkTxMsg Req_server_disconnect 3 0)) silent));
    [simpl; lia|reflexivity|apply asked_holds|exact silent_wf].
Defined.
