(* ===== verification/Json.v ===== *)
(** * JSON texts

    A tree, its compact text and a reader of compact texts: what the replies of
    the desktop RPC server have to be.  Numbers are kept as their literals.  The
    reader follows the grammar of RFC 8259 without white space: a control
    character inside a string is refused, so is a literal that is no number. *)

From S2P Require Import Prelude CLib.

Definition BACKSLASH : ascii := ascii_of_nat 92.
Definition LBRACE : ascii := ascii_of_nat 123.
Definition RBRACE : ascii := ascii_of_nat 125.
Definition LBRACKET : ascii := ascii_of_nat 91.
Definition RBRACKET : ascii := ascii_of_nat 93.
Definition SQUOTE : ascii := ascii_of_nat 39.

(** A text literal of the sources with its double quotes written as single ones. *)
Definition jlit (s : String.string) : str := map (fun c => if ch_eqb c SQUOTE then DQUOTE else c) (lit s).
Arguments jlit s%_string_scope.

Inductive json :=
| JStr (s : str)
| JNum (literal : str)
| JBool (b : bool)
| JArr (items : list json)
| JObj (members : list (str * json)).

(** Induction with the hypothesis on the elements. *)
Section JsonInd.
Variable P : json -> Prop.
Hypothesis HStr : forall s, P (JStr s).
Hypothesis HNum : forall l, P (JNum l).
Hypothesis HBool : forall b, P (JBool b).
Hypothesis HArr : forall l, Forall P l -> P (JArr l).
Hypothesis HObj : forall l, Forall (fun kv => P (snd kv)) l -> P (JObj l).

Fixpoint json_nested_ind (j : json) : P j :=
  match j with
  | JStr s => HStr s
  | JNum l => HNum l
  | JBool b => HBool b
  | JArr l => HArr l ((fix go l : Forall P l :=
      match l with [] => List.Forall_nil _ | x :: l' => List.Forall_cons _ _ _ (json_nested_ind x) (go l') end) l)
  | JObj l => HObj l ((fix go l : Forall (fun kv => P (snd kv)) l :=
      match l with [] => List.Forall_nil _ | x :: l' => List.Forall_cons _ _ _ (json_nested_ind (snd x)) (go l') end) l)
  end.
End JsonInd.

(** ** Text *)

Definition escape_char (c : ascii) : str :=
  if ch_eqb c DQUOTE then [BACKSLASH; DQUOTE]
  else if ch_eqb c BACKSLASH then [BACKSLASH; BACKSLASH]
  else if ch_eqb c LF then [BACKSLASH; "n"%char]
  else if ch_eqb c CR then [BACKSLASH; "r"%char]
  else [c].

Definition escape (s : str) : str := concat (map escape_char s).

Fixpoint join_comma (l : list str) : str :=
  match l with
  | [] => []
  | [x] => x
  | x :: l' => x ++ COMMA :: join_comma l'
  end.

Definition quoted (s : str) : str := DQUOTE :: escape s ++ [DQUOTE].

Fixpoint render (j : json) : str :=
  match j with
  | JStr s => quoted s
  | JNum l => l
  | JBool b => if b then lit "true" else lit "false"
  | JArr l => LBRACKET :: join_comma (map render l) ++ [RBRACKET]
  | JObj l => LBRACE :: join_comma (map (fun kv => quoted (fst kv) ++ COLON :: render (snd kv)) l) ++ [RBRACE]
  end.

(** ** Reader *)

(** The characters of a string up to its closing quote, and the rest. *)
Fixpoint read_string (s : str) : option (str * str) :=
  match s with
  | [] => None
  | c :: r =>
      if ch_eqb c DQUOTE then Some ([], r)
      else if ch_eqb c BACKSLASH then
        match r with
        | [] => None
        | e :: r' =>
            let out := if ch_eqb e DQUOTE then Some DQUOTE
                       else if ch_eqb e BACKSLASH then Some BACKSLASH
                       else if ch_eqb e "/"%char then Some "/"%char
                       else if ch_eqb e "n"%char then Some LF
                       else if ch_eqb e "r"%char then Some CR
                       else if ch_eqb e "t"%char then Some TAB
                       else None in
            match out, read_string r' with
            | Some o, Some (t, rest) => Some (o :: t, rest)
            | _, _ => None
            end
        end
      else if nat_of_ascii c <? 32 then None
      else match read_string r with
           | Some (t, rest) => Some (c :: t, rest)
           | None => None
           end
  end.

Definition is_digit (c : ascii) : bool := bool_decide (is_Some (digit_in 10 c)).

Fixpoint span (p : ascii -> bool) (s : str) : str * str :=
  match s with
  | [] => ([], [])
  | c :: r => if p c then let '(a, b) := span p r in (c :: a, b) else ([], s)
  end.

Definition number_char (c : ascii) : bool := is_digit c || mem (lit "-+.eE") c.

(** A sign, an integer without leading zeros, a fraction and an exponent. *)
Definition number_ok (literal : str) : bool :=
  let s := match literal with c :: r => if ch_eqb c "-"%char then r else literal | [] => [] end in
  let '(int_part, s) := span is_digit s in
  let int_ok := match int_part with [] => false | [_] => true | c :: _ => negb (ch_eqb c "0"%char) end in
  let '(frac_ok, s) :=
    match s with
    | c :: r => if ch_eqb c "."%char then let '(d, s') := span is_digit r in (negb (length d =? 0), s') else (true, s)
    | [] => (true, s)
    end in
  let exp_ok :=
    match s with
    | [] => true
    | c :: r =>
        if mem (lit "eE") c then
          let r := match r with c' :: r' => if mem (lit "+-") c' then r' else r | [] => [] end in
          let '(d, s') := span is_digit r in negb (length d =? 0) && (length s' =? 0)
        else false
    end in
  int_ok && frac_ok && exp_ok.

(** One or more items up to [close]; [n] bounds their number. *)
Fixpoint read_items {A} (item : str -> option (A * str)) (close : ascii) (n : nat) (s : str)
  : option (list A * str) :=
  match n with
  | 0 => None
  | S n' =>
      match item s with
      | Some (a, c :: r) =>
          if ch_eqb c COMMA then
            match read_items item close n' r with Some (l, r') => Some (a :: l, r') | None => None end
          else if ch_eqb c close then Some ([a], r) else None
      | _ => None
      end
  end.

Definition read_member (value : str -> option (json * str)) (s : str) : option ((str * json) * str) :=
  match s with
  | c :: r =>
      if ch_eqb c DQUOTE then
        match read_string r with
        | Some (k, c' :: r') =>
            if ch_eqb c' COLON then
              match value r' with Some (v, r'') => Some ((k, v), r'') | None => None end
            else None
        | _ => None
        end
      else None
  | [] => None
  end.

Fixpoint read_value (fuel : nat) (s : str) : option (json * str) :=
  match fuel with
  | 0 => None
  | S fuel' =>
      match s with
      | [] => None
      | c :: r =>
          if ch_eqb c LBRACE then
            match r with
            | c' :: r' => if ch_eqb c' RBRACE then Some (JObj [], r')
                          else match read_items (read_member (read_value fuel')) RBRACE (length r) r with
                               | Some (l, r'') => Some (JObj l, r'')
                               | None => None
                               end
            | [] => None
            end
          else if ch_eqb c LBRACKET then
            match r with
            | c' :: r' => if ch_eqb c' RBRACKET then Some (JArr [], r')
                          else match read_items (read_value fuel') RBRACKET (length r) r with
                               | Some (l, r'') => Some (JArr l, r'')
                               | None => None
                               end
            | [] => None
            end
          else if ch_eqb c DQUOTE then
            match read_string r with Some (t, r') => Some (JStr t, r') | None => None end
          else if starts_with (lit "true") s then Some (JBool true, drop 4 s)
          else if starts_with (lit "false") s then Some (JBool false, drop 5 s)
          else
            let '(literal, r') := span number_char s in
            if number_ok literal then Some (JNum literal, r') else None
      end
  end.

(** A whole text. *)
Definition json_parse (s : str) : option json :=
  match read_value (length s) s with
  | Some (j, []) => Some j
  | _ => None
  end.

(** ** What is rendered is read back *)

(** Characters a JSON string may hold once escaped as the sources escape. *)
Definition char_ok (c : ascii) : bool := ch_eqb c LF || ch_eqb c CR || negb (nat_of_ascii c <? 32).
Definition text_ok (s : str) : bool := forallb char_ok s.

Fixpoint json_ok (j : json) : bool :=
  match j with
  | JStr s => text_ok s
  | JNum l => number_ok l && forallb number_char l
  | JBool _ => true
  | JArr l => forallb json_ok l
  | JObj l => forallb (fun kv => text_ok (fst kv) && json_ok (snd kv)) l
  end.

Fixpoint depth (j : json) : nat :=
  match j with
  | JArr l => S (list_max (map depth l))
  | JObj l => S (list_max (map (fun kv => depth (snd kv)) l))
  | _ => 1
  end.

Lemma read_string_quoted s r : text_ok s = true -> read_string (escape s ++ DQUOTE :: r) = Some (s, r).
Proof.
  induction s as [|c s IH]; intros Hs; [done|]. cbn in Hs. bool_facts. specialize (IH ltac:(done)).
  change (escape (c :: s)) with (escape_char c ++ escape s). unfold escape_char.
  destruct (ch_eqb c DQUOTE) eqn:E1; bool_facts; [subst; cbn; by rewrite IH|].
  destruct (ch_eqb c BACKSLASH) eqn:E2; bool_facts; [subst; cbn; by rewrite IH|].
  destruct (ch_eqb c LF) eqn:E3; bool_facts; [subst; cbn; by rewrite IH|].
  destruct (ch_eqb c CR) eqn:E4; bool_facts; [subst; cbn; by rewrite IH|].
  cbn [app read_string].
  assert (ch_eqb c DQUOTE = false) as -> by (by apply Ascii.eqb_neq).
  assert (ch_eqb c BACKSLASH = false) as -> by (by apply Ascii.eqb_neq).
  unfold char_ok in H. assert (ch_eqb c LF = false) as E3' by (by apply Ascii.eqb_neq).
  assert (ch_eqb c CR = false) as E4' by (by apply Ascii.eqb_neq). rewrite E3', E4' in H. cbn [orb] in H.
  apply negb_true_iff in H. rewrite H. by rewrite IH.
Qed.

Lemma span_all p s r : forallb p s = true -> match r with c :: _ => p c = false | [] => True end -> span p (s ++ r) = (s, r).
Proof.
  intros Hs Hr. induction s as [|c s IH]; cbn in *.
  - destruct r as [|c r]; [done|]. cbn. by rewrite Hr.
  - bool_facts. rewrite H. by rewrite IH.
Qed.

(** What may follow a value. *)
Definition ends_value (r : str) : Prop := match r with c :: _ => number_char c = false | [] => True end.

Lemma quoted_nonempty s : 2 <= length (quoted s).
Proof. unfold quoted. cbn. rewrite length_app. simpl. lia. Qed.

Lemma number_ok_head l : number_ok l = true -> exists c r, l = c :: r.
Proof. destruct l; [done|eauto]. Qed.

Lemma render_nonempty j : json_ok j = true -> 1 <= length (render j).
Proof.
  destruct j as [s|l|[]|l|l]; cbn; intros H; try lia. bool_facts.
  destruct (number_ok_head l H) as (c & r & ->). simpl. lia.
Qed.

Lemma length_join l : length l <= length (join_comma l) \/ exists x, x ∈ l /\ x = [].
Proof.
  induction l as [|x [|y l] IH]; [by left| |].
  - destruct x; [right; exists []; split; [constructor|done]|left; simpl; lia].
  - destruct IH as [IH|(z & Hz & ->)]; [|right; exists []; split; [by constructor|done]].
    left. cbn [join_comma length] in *. rewrite length_app. cbn [length]. lia.
Qed.

(** Items separated by commas are read one by one. *)
Lemma read_items_join {A} (text : A -> str) (item : str -> option (A * str)) close :
  ch_eqb close COMMA = false ->
  forall l n r, l <> [] -> length l <= n ->
  Forall (fun a => forall c r', c = COMMA \/ c = close -> item (text a ++ c :: r') = Some (a, c :: r')) l ->
  read_items item close n (join_comma (map text l) ++ close :: r) = Some (l, r).
Proof.
  intros Hcl l. induction l as [|a [|b l] IH]; intros [|n] r Hne Hn Hl; cbn [length] in Hn; try done; try lia.
  - apply Forall_cons in Hl as [Ha _]. cbn [map join_comma read_items]. rewrite Ha by (by right).
    rewrite Hcl, ch_eqb_refl. done.
  - apply Forall_cons in Hl as [Ha Hl]. change (join_comma (map text (a :: b :: l))) with (text a ++ COMMA :: join_comma (map text (b :: l))).
    rewrite <- app_assoc. cbn [app read_items]. rewrite Ha by (by left). rewrite ch_eqb_refl.
    rewrite IH; [done|done|cbn [length]; lia|done].
Qed.

Lemma join_head x l : exists t, join_comma (x :: l) = x ++ t.
Proof. destruct l; [exists []; cbn; by rewrite app_nil_r|by eexists]. Qed.

(** The first character of a number is none of the others'. *)
Lemma number_char_not c : number_char c = true ->
  ch_eqb c LBRACE = false /\ ch_eqb c LBRACKET = false /\ ch_eqb c DQUOTE = false /\ ch_eqb c RBRACKET = false /\
  (forall s, starts_with (lit "true") (c :: s) = false) /\ (forall s, starts_with (lit "false") (c :: s) = false).
Proof.
  intros H. assert (forall d, number_char d = false -> ch_eqb c d = false) as Hd.
  { intros d Hf. apply Ascii.eqb_neq. intros ->. congruence. }
  assert (forall d, number_char d = false -> ch_eqb d c = false) as Hd'.
  { intros d Hf. apply Ascii.eqb_neq. intros ->. congruence. }
  repeat split; try (apply Hd; reflexivity); intros s; cbn [lit String.list_ascii_of_string starts_with];
    (rewrite Hd' by reflexivity); done.
Qed.

Lemma render_head j r : json_ok j = true -> exists c s, render j ++ r = c :: s /\ ch_eqb c RBRACKET = false.
Proof.
  destruct j as [s|l|[]|l|l]; cbn; intros H; try (eexists _, _; split; reflexivity).
  bool_facts. destruct (number_ok_head l H) as (c & t & ->). cbn in H0. bool_facts.
  exists c, (t ++ r). split; [done|]. by apply number_char_not.
Qed.

Lemma list_max_le x l : x ∈ l -> x <= list_max l.
Proof. induction 1; simpl; lia. Qed.

Lemma depth_pos j : 1 <= depth j.
Proof. destruct j; simpl; lia. Qed.

Lemma items_length {A} (text : A -> str) (l : list A) r :
  Forall (fun a => 1 <= length (text a)) l -> length l <= length (join_comma (map text l) ++ r).
Proof.
  intros Hl. rewrite length_app. destruct (length_join (map text l)) as [H|(x & Hx & ->)].
  - rewrite length_map in H. lia.
  - apply list_elem_of_fmap in Hx as (a & Ea & Ha). rewrite Forall_forall in Hl. specialize (Hl a Ha).
    rewrite <- Ea in Hl. simpl in Hl. lia.
Qed.

Definition reads_back (j : json) : Prop := forall fuel r,
  json_ok j = true -> depth j <= fuel -> ends_value r -> read_value fuel (render j ++ r) = Some (j, r).

Lemma ends_close c r : c = COMMA \/ c = RBRACE \/ c = RBRACKET -> ends_value (c :: r).
Proof. by intros [-> | [-> | ->]]. Qed.

Lemma reads_back_num l : reads_back (JNum l).
Proof.
  intros [|fuel] r Hok Hd Hr; cbn in Hd; [lia|]. cbn in Hok. bool_facts.
  destruct (number_ok_head l H) as (c & t & ->). pose proof H0 as Hall. cbn in H0. bool_facts.
  destruct (number_char_not c H0) as (N1 & N2 & N3 & _ & N5 & N6). cbn [render app read_value].
  rewrite N1, N2, N3, N5, N6. change (c :: t ++ r) with ((c :: t) ++ r). rewrite (span_all _ _ _ Hall Hr). by rewrite H.
Qed.

Lemma reads_back_arr l : Forall reads_back l -> reads_back (JArr l).
Proof.
  intros Hl [|fuel] r Hok Hd Hr; cbn in Hd; [lia|]. cbn in Hok. rewrite forallb_forall in Hok.
  change (render (JArr l) ++ r) with (LBRACKET :: (join_comma (map render l) ++ [RBRACKET]) ++ r).
  rewrite <- app_assoc. cbn [app]. destruct l as [|a l]; [done|].
  assert (exists c s, join_comma (map render (a :: l)) ++ RBRACKET :: r = c :: s /\ ch_eqb c RBRACKET = false) as (c & s & Es & Ec).
  { cbn [map]. destruct (join_head (render a) (map render l)) as [t ->]. rewrite <- app_assoc. apply render_head, Hok. by left. }
  cbn [read_value]. change (ch_eqb LBRACKET LBRACE) with false. rewrite ch_eqb_refl. cbv iota. rewrite Es, Ec, <- Es.
  rewrite (read_items_join render _ RBRACKET eq_refl); [done|done| |].
  - apply items_length, Forall_forall. intros x Hx. apply render_nonempty, Hok. by apply list_elem_of_In.
  - rewrite Forall_forall in Hl |- *. intros x Hx c' r' Hc. apply Hl; [done| | |].
    + apply Hok. by apply list_elem_of_In.
    + assert (depth x <= list_max (map depth (a :: l))); [|cbn [map] in *; lia].
      apply list_max_le, list_elem_of_fmap. by exists x.
    + apply ends_close. tauto.
Qed.

Lemma reads_back_obj l : Forall (fun kv => reads_back (snd kv)) l -> reads_back (JObj l).
Proof.
  intros Hl [|fuel] r Hok Hd Hr; cbn in Hd; [lia|]. cbn in Hok. rewrite forallb_forall in Hok.
  set (text := fun kv : str * json => quoted (fst kv) ++ COLON :: render (snd kv)) in *.
  change (render (JObj l) ++ r) with (LBRACE :: (join_comma (map text l) ++ [RBRACE]) ++ r).
  rewrite <- app_assoc. cbn [app]. destruct l as [|a l]; [done|].
  assert (exists s, join_comma (map text (a :: l)) ++ RBRACE :: r = DQUOTE :: s) as (s & Es).
  { cbn [map]. destruct (join_head (text a) (map text l)) as [t ->]. by eexists. }
  cbn [read_value]. rewrite ch_eqb_refl, Es. change (ch_eqb DQUOTE RBRACE) with false. cbv iota. rewrite <- Es.
  rewrite (read_items_join text _ RBRACE eq_refl); [done|done| |].
  - apply items_length, Forall_forall. intros x Hx. unfold text. rewrite length_app. pose proof (quoted_nonempty (fst x)). lia.
  - rewrite Forall_forall in Hl |- *. intros [k v] Hx c' r' Hc. unfold text. cbn [fst snd].
    assert (text_ok k && json_ok v = true) as Hkv.
    { exact (Hok (k, v) ltac:(by apply list_elem_of_In)). }
    bool_facts. unfold quoted, read_member. cbn [app]. rewrite ch_eqb_refl, <- !app_assoc. cbn [app].
    rewrite read_string_quoted by done. rewrite ch_eqb_refl. rewrite (Hl (k, v) Hx); [done|done| |apply ends_close; tauto].
    apply le_S_n in Hd. etransitivity; [|exact Hd]. apply list_max_le, list_elem_of_fmap. by exists (k, v).
Qed.

Lemma reads_back_all j : reads_back j.
Proof.
  induction j as [s|l|b|l Hl|l Hl] using json_nested_ind.
  - intros [|fuel] r Hok Hd Hr; cbn in Hd; [lia|]. unfold render, quoted. cbn [app read_value].
    change (ch_eqb DQUOTE LBRACE) with false. change (ch_eqb DQUOTE LBRACKET) with false. rewrite ch_eqb_refl. cbv iota.
    rewrite <- app_assoc. cbn [app]. by rewrite read_string_quoted.
  - apply reads_back_num.
  - intros [|fuel] r Hok Hd Hr; cbn in Hd; [lia|]. by destruct b.
  - by apply reads_back_arr.
  - by apply reads_back_obj.
Qed.

Lemma join_member x l : x ∈ l -> length x <= length (join_comma l).
Proof.
  induction 1 as [x [|y l]|x y [|z l] H IH]; try (cbn; lia).
  - change (join_comma (x :: y :: l)) with (x ++ COMMA :: join_comma (y :: l)). rewrite length_app. lia.
  - inversion H.
  - change (join_comma (y :: z :: l)) with (y ++ COMMA :: join_comma (z :: l)). rewrite length_app. cbn [length]. lia.
Qed.

Lemma list_max_bound l b : Forall (fun x => x <= b) l -> list_max l <= b.
Proof. induction 1; simpl; lia. Qed.

Lemma depth_le_render j : json_ok j = true -> depth j <= length (render j).
Proof.
  induction j as [s|l|b|l Hl|l Hl] using json_nested_ind; intros Hok; try (by apply render_nonempty).
  - cbn in Hok. rewrite forallb_forall in Hok. rewrite Forall_forall in Hl. cbn [depth render length]. rewrite length_app.
    assert (list_max (map depth l) <= length (join_comma (map render l))); [|lia].
    apply list_max_bound, Forall_forall. intros d Hd. apply list_elem_of_fmap in Hd as (x & -> & Hx).
    etransitivity; [apply Hl; [done|by apply Hok, list_elem_of_In]|]. apply join_member, list_elem_of_fmap. by exists x.
  - cbn in Hok. rewrite forallb_forall in Hok. rewrite Forall_forall in Hl. cbn [depth render length]. rewrite length_app.
    set (text := fun kv : str * json => quoted (fst kv) ++ COLON :: render (snd kv)).
    assert (list_max (map (fun kv => depth (snd kv)) l) <= length (join_comma (map text l))); [|lia].
    apply list_max_bound, Forall_forall. intros d Hd. apply list_elem_of_fmap in Hd as ([k v] & -> & Hx).
    specialize (Hok (k, v) ltac:(by apply list_elem_of_In)). cbn in Hok. bool_facts.
    etransitivity; [apply (Hl (k, v) Hx); done|].
    etransitivity; [|apply (join_member (text (k, v))), list_elem_of_fmap; by exists (k, v)].
    unfold text. cbn [fst snd]. rewrite length_app. cbn [length]. lia.
Qed.

Lemma json_parse_render j : json_ok j = true -> json_parse (render j) = Some j.
Proof.
  intros Hok. unfold json_parse. rewrite <- (app_nil_r (render j)) at 2.
  by rewrite (reads_back_all j _ [] Hok (depth_le_render j Hok) I).
Qed.
