(* ===== verification/RpcHelpers.v ===== *)
(** * Texts of the desktop RPC server (examples/desktop/rpc_helpers.h)

    The names of the enumerators, the JSON serialisers of the state types and
    the parser of [SET CONFIG].  Text literals are written with single quotes
    where the source has double ones ([jlit]).  A serialiser that formats into a
    buffer is its full text, [..._text], cut by [snprintf] at the buffer. *)

From Stdlib Require Import SpecFloat.
From S2P Require Import Prelude CLib FixedString StaticVector MessageQueue Timer.
From S2P Require Import Xe310Types Xe310 Survey Trace Hal NetworkTypes Typed Json.

(** ** Names of enumerators *)

Definition to_str_state (v : NetworkLteState) : str :=
  match v with
  | State_none => lit "none" | State_rebooting => lit "rebooting" | State_switched_off => lit "switched_off"
  | State_off_mode => lit "off_mode" | State_sleep_mode => lit "sleep_mode" | State_setup_mode => lit "setup_mode"
  | State_idle_mode => lit "idle_mode" | State_network_detached => lit "network_detached"
  | State_network_attaching => lit "network_attaching" | State_pdp_context_closed => lit "pdp_context_closed"
  | State_pdp_context_opening => lit "pdp_context_opening" | State_data_ready => lit "data_ready"
  | State_transparent_mode => lit "transparent_mode" | State_modem_fota => lit "modem_fota"
  | State_done => lit "done"
  | _ => lit "unknown"
  end.

Definition to_str_sim (v : SimStatus) : str :=
  match v with
  | SimStatus_not_inserted => lit "not_inserted" | SimStatus_inserted => lit "inserted"
  | SimStatus_inserted_and_pin_unlocked => lit "inserted_and_pin_unlocked"
  | SimStatus_inserted_and_ready => lit "inserted_and_ready"
  | SimStatus_other _ => lit "unknown"
  end.

Definition to_str_tech (v : RadioTech) : str :=
  match v with
  | RadioTech_gsm => lit "gsm" | RadioTech_lte => lit "lte" | RadioTech_cat_m1 => lit "cat_m1"
  | RadioTech_nb_iot => lit "nb_iot" | _ => lit "unknown"
  end.

Definition to_str_reg (v : RegStatus) : str :=
  match v with
  | RegStatus_not_registered => lit "not_registered" | RegStatus_registered_home => lit "registered_home"
  | RegStatus_searching => lit "searching" | RegStatus_denied => lit "denied" | RegStatus_unknown => lit "unknown"
  | RegStatus_registered_roaming => lit "registered_roaming" | RegStatus_sms_only => lit "sms_only"
  | RegStatus_sms_only_roaming => lit "sms_only_roaming" | RegStatus_emergency => lit "emergency"
  | RegStatus_csfb_home => lit "csfb_home" | RegStatus_csfb_roaming => lit "csfb_roaming"
  | RegStatus_other _ => lit "unknown"
  end.

Definition to_str_psm (v : PsmMode) : str := if decide (v = PsmMode_enable) then lit "enable" else lit "disable".

Definition to_str_context (v : ContextState) : str :=
  match v with ContextState_active => lit "active" | _ => lit "inactive" end.

Definition to_str_server (v : ServerState) : str :=
  match v with
  | Server_unknown => lit "unknown" | Server_disconnected => lit "disconnected" | Server_connected => lit "connected"
  | _ => lit "unknown"
  end.

Definition to_str_cell (v : SurvCellType) : str :=
  match v with
  | SurvCellType_cell_2g_bcch => lit "2g_bcch" | SurvCellType_cell_2g_non_bcch => lit "2g_non_bcch"
  | SurvCellType_cell_4g => lit "4g"
  end.

Definition to_str_fix (v : GnssFixType) : str :=
  match v with
  | GnssFixType_invalid => lit "invalid" | GnssFixType_invalid_fix => lit "invalid_fix"
  | GnssFixType_fix_2d => lit "fix_2d" | GnssFixType_fix_3d => lit "fix_3d" | GnssFixType_other _ => lit "unknown"
  end.

(** ** Strings and numbers *)

(** The loop appends to [out]. *)
Definition json_str (s : str) : str :=
  let out := foldl (fun out c =>
    if ch_eqb c DQUOTE then out ++ [BACKSLASH; DQUOTE]
    else if ch_eqb c BACKSLASH then out ++ [BACKSLASH; BACKSLASH]
    else if ch_eqb c LF then out ++ [BACKSLASH; "n"%char]
    else if ch_eqb c CR then out ++ [BACKSLASH; "r"%char]
    else out ++ [c]) [DQUOTE] s in
  out ++ [DQUOTE].

(** [%s] of [json_str(s).c_str()]. *)
Definition json_cstr (s : str) : str := cstr (json_str s).

(** [b ? "true" : "false"]. *)
Definition true_false (b : bool) : str := if b then lit "true" else lit "false".

(** [%.1f] of a [float]: the exact value to one decimal, ties to even. *)
Definition round_half_even (num den : Z) : Z :=
  let q := (num / den)%Z in
  let r := (2 * (num mod den))%Z in
  if (r <? den)%Z then q else if (den <? r)%Z then (q + 1)%Z else if Z.even q then q else (q + 1)%Z.

Definition fmt_f1 (f : spec_float) : str :=
  let sign (s : bool) (t : str) := if s then "-"%char :: t else t in
  match f with
  | S754_zero s => sign s (lit "0.0")
  | S754_infinity s => sign s (lit "inf")
  | S754_nan => lit "nan"
  | S754_finite s m e =>
      let tenths := if (0 <=? e)%Z then (Zpos m * 10 * 2 ^ e)%Z else round_half_even (Zpos m * 10) (2 ^ (- e)) in
      sign s (fmt_u (tenths / 10) ++ "."%char :: fmt_u (tenths mod 10))
  end.

(** [for (i ...) { if (i > 0) s += ','; s += to_json(v[i]); }]. *)
Definition comma_list {A} (f : A -> str) (l : list A) : str :=
  concat (imap (fun i a => (if 0 <? i then [COMMA] else []) ++ f a) l).

(** ** Serialisers *)

Definition to_json_swpkg (v : SoftwarePackageVersion) : str :=
  jlit "{'package_version':" ++ json_str (package_version v) ++ jlit "," ++
  jlit "'modem_version':" ++ json_str (modem_version v) ++ jlit "," ++
  jlit "'prod_params_version':" ++ json_str (prod_params_version v) ++ jlit "," ++
  jlit "'app_version':" ++ json_str (app_version v) ++ jlit "}".

Definition to_json_modem_info (v : ModemInfo) : str :=
  jlit "{'imei':" ++ json_str (imei v) ++ jlit "," ++
  jlit "'imei_sv':" ++ json_str (imei_sv v) ++ jlit "," ++
  jlit "'iccid':" ++ json_str (iccid v) ++ jlit "," ++
  jlit "'imsi':" ++ json_str (imsi v) ++ jlit "," ++
  jlit "'model_id':" ++ json_str (model_id v) ++ jlit "," ++
  jlit "'telit_id':" ++ json_str (telit_id v) ++ jlit "," ++
  jlit "'identification':" ++ json_str (identification v) ++ jlit "," ++
  jlit "'sw_package_version':" ++ to_json_swpkg (sw_package_version v) ++ jlit "}".

Definition reg_info_text (v : RegistrationInfo) : str :=
  jlit "{'mode':" ++ fmt_u (ri_mode v) ++ jlit ",'stat':'" ++ to_str_reg (stat v) ++
  jlit "','lac':" ++ json_cstr (lac v) ++ jlit ",'ci':" ++ json_cstr (ci v) ++
  jlit ",'act':'" ++ to_str_tech (act v) ++ jlit "','fHasLocation':" ++ true_false (fHasLocation v) ++
  jlit ",'operator_name':" ++ json_cstr (operator_name v) ++ jlit ",'apn':" ++ json_cstr (apn v) ++
  jlit ",'cause_type':" ++ fmt_u (cause_type v) ++ jlit ",'reject_cause':" ++ fmt_u (reject_cause v) ++
  jlit ",'fHasReject':" ++ true_false (fHasReject v) ++
  jlit ",'active_time':" ++ json_cstr (active_time v) ++ jlit ",'periodic_tau':" ++ json_cstr (periodic_tau v) ++
  jlit ",'fHasPsm':" ++ true_false (fHasPsm v) ++ jlit "}".
Definition to_json_reg_info (v : RegistrationInfo) : str := snprintf 512 (reg_info_text v).

Definition to_json_network_info (v : NetworkInfo) : str :=
  jlit "{'context_state':'" ++ to_str_context (context_state v) ++ jlit "'," ++
  jlit "'ip_address':" ++ json_str (ip_address v) ++ jlit "}".

Definition signal_text (v : SignalQuality) : str :=
  jlit "{'rssi':" ++ fmt_d (rssi v) ++ jlit ",'ber':" ++ fmt_d (sig_ber v) ++ jlit ",'rsrq':" ++ fmt_d (rsrq v) ++
  jlit ",'rsrp':" ++ fmt_d (rsrp v) ++ jlit ",'rsrp_dbm':" ++ fmt_d (rsrp_dbm v) ++ jlit "}".
Definition to_json_signal (v : SignalQuality) : str := snprintf 128 (signal_text v).

Definition to_json_gnss (v : GnssPosition) : str :=
  jlit "{'utc':" ++ json_str (utc v) ++ jlit ",'latitude':" ++ json_str (latitude v) ++
  jlit ",'longitude':" ++ json_str (longitude v) ++ jlit ",'hdop':" ++ json_str (hdop v) ++
  jlit ",'altitude':" ++ json_str (altitude v) ++ jlit ",'fix':'" ++ to_str_fix (fix_ v) ++ jlit "'" ++
  jlit ",'cog':" ++ json_str (cog v) ++ jlit ",'spkm':" ++ json_str (spkm v) ++
  jlit ",'spkn':" ++ json_str (spkn v) ++ jlit ",'date':" ++ json_str (date v) ++
  jlit ",'nsat':" ++ fmt_u (nsat v) ++
  jlit ",'hepe':" ++ json_str (hepe v) ++ jlit ",'vepe':" ++ json_str (vepe v) ++ jlit "}".

(** The overload for [GnssPositionMsg] has the same body on the same members. *)
Definition to_json_gnss_msg (v : GnssPosition) : str := to_json_gnss v.

Definition to_json_cpsms (v : CpsmsConfig) : str :=
  jlit "{'mode':'" ++ to_str_psm (cp_mode v) ++ jlit "'," ++
  jlit "'req_periodic_rau':" ++ json_str (req_periodic_rau v) ++ jlit "," ++
  jlit "'req_gprs_ready_timer':" ++ json_str (req_gprs_ready_timer v) ++ jlit "," ++
  jlit "'req_periodic_tau':" ++ json_str (req_periodic_tau v) ++ jlit "," ++
  jlit "'req_active_time':" ++ json_str (req_active_time v) ++ jlit "}".

Definition telit_cpsms_text (v : TelitCpsmsConfig) : str :=
  jlit "{'mode':'" ++ to_str_psm (tc_mode v) ++
  jlit "','fHasPeriodicRau':" ++ true_false (tc_fHasPeriodicRau v) ++
  jlit ",'req_periodic_rau':" ++ fmt_u (tc_req_periodic_rau v) ++
  jlit ",'fHasGprsReadyTimer':" ++ true_false (tc_fHasGprsReadyTimer v) ++
  jlit ",'req_gprs_ready_timer':" ++ fmt_u (tc_req_gprs_ready_timer v) ++
  jlit ",'fHasPeriodicTau':" ++ true_false (tc_fHasPeriodicTau v) ++
  jlit ",'req_periodic_tau':" ++ fmt_u (tc_req_periodic_tau v) ++
  jlit ",'fHasActiveTime':" ++ true_false (tc_fHasActiveTime v) ++
  jlit ",'req_active_time':" ++ fmt_u (tc_req_active_time v) ++
  jlit ",'fHasPsmVersion':" ++ true_false (tc_fHasPsmVersion v) ++
  jlit ",'psm_version':" ++ fmt_u (PsmVersion_val (tc_psm_version v)) ++
  jlit ",'fHasPsmThreshold':" ++ true_false (tc_fHasPsmThreshold v) ++
  jlit ",'psm_threshold':" ++ fmt_u (tc_psm_threshold v) ++ jlit "}".
Definition to_json_telit_cpsms (v : TelitCpsmsConfig) : str := snprintf 512 (telit_cpsms_text v).

Definition telit_status_text (v : TelitCpsmsStatus) : str :=
  jlit "{'status':" ++ fmt_u (ts_status v) ++ jlit ",'t3324':" ++ fmt_u (t3324 v) ++ jlit ",'t3412':" ++ fmt_u (t3412 v) ++
  jlit ",'psm_version':" ++ fmt_u (ts_psm_version v) ++ jlit ",'psm_threshold':" ++ fmt_u (ts_psm_threshold v) ++
  jlit ",'mode':'" ++ to_str_psm (ts_mode v) ++ jlit "'}".
Definition to_json_telit_status (v : TelitCpsmsStatus) : str := snprintf 256 (telit_status_text v).

Definition surv_cell_text (c : SurvCell) : str :=
  jlit "{'type':'" ++ to_str_cell (sc_type c) ++ jlit "','arfcn':" ++ fmt_d (sc_arfcn c) ++
  jlit ",'bsic':" ++ fmt_d (sc_bsic c) ++ jlit ",'rx_lev':" ++ fmt_d (sc_rx_lev c) ++ jlit ",'ber':" ++ fmt_d (sc_ber c) ++
  jlit ",'mcc':" ++ fmt_u (sc_mcc c) ++ jlit ",'mnc':" ++ fmt_u (sc_mnc c) ++ jlit ",'lac':" ++ fmt_u (sc_lac c) ++
  jlit ",'cell_id':" ++ fmt_u (sc_cell_id c) ++ jlit ",'cell_stat':" ++ json_cstr (sc_cell_stat c) ++
  jlit ",'num_arfcn':" ++ fmt_d (sc_num_arfcn c) ++ jlit ",'earfcn':" ++ fmt_d (sc_earfcn c) ++
  jlit ",'tac':" ++ fmt_u (sc_tac c) ++ jlit ",'phys_cell_id':" ++ fmt_u (sc_phys_cell_id c) ++
  jlit ",'cell_identity':" ++ fmt_u (sc_cell_identity c) ++
  jlit ",'rsrp':" ++ fmt_f1 (sc_rsrp c) ++ jlit ",'rsrq':" ++ fmt_f1 (sc_rsrq c) ++ jlit "}".
Definition to_json_surv_cell (c : SurvCell) : str := snprintf 512 (surv_cell_text c).

Definition survey_header (v : NetworkSurveyResult) : str :=
  jlit "{'fHasSummary':" ++ true_false (sv_fHasSummary v) ++ jlit ",'no_arfcn':" ++ fmt_d (sv_no_arfcn v) ++
  jlit ",'no_bcch':" ++ fmt_d (sv_no_bcch v) ++ jlit ",'cells':[".
Definition to_json_survey (v : NetworkSurveyResult) : str :=
  snprintf 64 (survey_header v) ++ comma_list to_json_surv_cell (sv_cells v) ++ jlit "]}".

Definition server_text (v : ServerInfo) : str :=
  jlit "{'conn_id':" ++ fmt_u (si_conn_id v) ++ jlit ",'state':'" ++ to_str_server (si_state v) ++
  jlit "','protocol':" ++ json_cstr (protocol v) ++ jlit ",'address':" ++ json_cstr (address v) ++
  jlit ",'port':" ++ fmt_u (port v) ++ jlit ",'has_data':" ++ true_false (fHasData v) ++ jlit "}".
Definition to_json_server (v : ServerInfo) : str := snprintf 256 (server_text v).

Definition to_json_operator (op : Operator) : str :=
  jlit "{'long_name':" ++ json_str (long_name op) ++ jlit "," ++
  jlit "'short_name':" ++ json_str (short_name op) ++ jlit "," ++
  jlit "'numeric':" ++ json_str (numeric op) ++ jlit "," ++
  jlit "'act':'" ++ to_str_tech (op_act op) ++ jlit "'}".

Definition to_json_operators (ops : list Operator) : str :=
  jlit "[" ++ comma_list to_json_operator ops ++ jlit "]".

Definition csurv_cell_text (c : CsurvCell) : str :=
  jlit "{'earfcn':" ++ fmt_d (earfcn c) ++ jlit ",'rx_lev':" ++ fmt_d (rx_lev c) ++
  jlit ",'mcc':" ++ fmt_u (mcc c) ++ jlit ",'mnc':" ++ fmt_u (mnc c) ++
  jlit ",'cell_id':" ++ fmt_u (cell_id c) ++ jlit ",'tac':" ++ fmt_u (tac c) ++
  jlit ",'cell_identity':" ++ fmt_u (cell_identity c) ++ jlit "}".
Definition to_json_csurv_cell (c : CsurvCell) : str := snprintf 256 (csurv_cell_text c).

Definition csurv_tail (r : CsurvResult) : str :=
  jlit "],'fHasSummary':" ++ true_false (fHasSummary r) ++ jlit ",'no_arfcn':" ++ fmt_d (no_arfcn r) ++
  jlit ",'no_bcch':" ++ fmt_d (no_bcch r) ++ jlit "}".
Definition to_json_csurv (r : CsurvResult) : str :=
  jlit "{'cells':[" ++ comma_list to_json_csurv_cell (cells r) ++ snprintf 64 (csurv_tail r).

Definition timers_text (t : StateTimers) : str :=
  jlit "{'network_attaching_ms':" ++ fmt_u (network_attaching_ms t) ++
  jlit ",'pdp_context_opening_ms':" ++ fmt_u (pdp_context_opening_ms t) ++
  jlit ",'data_ready_ms':" ++ fmt_u (data_ready_ms t) ++ jlit ",'transparent_mode_ms':" ++ fmt_u (transparent_mode_ms t) ++
  jlit ",'sleep_mode_ms':" ++ fmt_u (sleep_mode_ms t) ++ jlit ",'off_mode_ms':" ++ fmt_u (off_mode_ms t) ++ jlit "}".
Definition to_json_timers (t : StateTimers) : str := snprintf 192 (timers_text t).

Definition config_text (c : NetworkLteConfig) : str :=
  jlit "{'cid':" ++ fmt_u (cfg_cid c) ++ jlit ",'attach_timeout_sec':" ++ fmt_u (attach_timeout_sec c) ++
  jlit ",'pdp_timeout_sec':" ++ fmt_u (pdp_timeout_sec c) ++
  jlit ",'data_ready_timeout_sec':" ++ fmt_u (data_ready_timeout_sec c) ++
  jlit ",'transparent_timeout_sec':" ++ fmt_u (transparent_timeout_sec c) ++
  jlit ",'max_network_attempts':" ++ fmt_u (max_network_attempts c) ++
  jlit ",'max_attach_retries':" ++ fmt_u (max_attach_retries c) ++ jlit ",'max_pdp_retries':" ++ fmt_u (max_pdp_retries c) ++
  jlit ",'default_lte_bands':" ++ fmt_u (default_lte_bands c) ++
  jlit ",'default_iot_tech':'" ++ to_str_tech (default_iot_tech c) ++ jlit "','default_apn':" ++ json_cstr (default_apn c) ++
  jlit ",'fallback_lte_bands':" ++ fmt_u (fallback_lte_bands c) ++
  jlit ",'fallback_iot_tech':'" ++ to_str_tech (fallback_iot_tech c) ++
  jlit "','fallback_apn':" ++ json_cstr (fallback_apn c) ++
  jlit ",'plmn':" ++ json_cstr (plmn c) ++ jlit ",'fPsmEnable':" ++ true_false (fPsmEnable c) ++
  jlit ",'fCfunSleep':" ++ true_false (fCfunSleep c) ++ jlit ",'psm_t3412':" ++ fmt_u (psm_t3412 c) ++
  jlit ",'psm_t3324':" ++ fmt_u (psm_t3324 c) ++ jlit ",'conn_id':" ++ fmt_u (cfg_conn_id c) ++ jlit "}".
Definition config_to_json (c : NetworkLteConfig) : str := snprintf 1024 (config_text c).

(** ** [SET CONFIG] *)

Definition radio_tech_from_str (s : str) : RadioTech :=
  if str_eqb s (lit "gsm") then RadioTech_gsm
  else if str_eqb s (lit "lte") then RadioTech_lte
  else if str_eqb s (lit "cat_m1") then RadioTech_cat_m1
  else if str_eqb s (lit "nb_iot") then RadioTech_nb_iot
  else RadioTech_cat_m1.

(** The parsed value, [None] when the function returns [false]. *)
Definition bool_from_str (s : str) : option bool :=
  if existsb (str_eqb s) [lit "1"; lit "true"; lit "TRUE"; lit "on"; lit "ON"] then Some true
  else if existsb (str_eqb s) [lit "0"; lit "false"; lit "FALSE"; lit "off"; lit "OFF"] then Some false
  else None.

(** [std::stoul] and [std::stoull]; [None] is the exception, [invalid_argument]
    when there is no number and [out_of_range] above [ULONG_MAX]. *)
Definition stoul (s : str) : option Z :=
  match read_number 10 s with
  | Some (neg, v, _) => if (ULONG_MAX <? v)%Z then None else Some (u64 (if neg : bool then - v else v)%Z)
  | None => None
  end.

(** The fields of the configuration that [SET CONFIG] knows, with their keys. *)
Inductive ConfigKey :=
| Key_cid | Key_attach_timeout_sec | Key_pdp_timeout_sec | Key_data_ready_timeout_sec | Key_transparent_timeout_sec
| Key_max_network_attempts | Key_max_attach_retries | Key_max_pdp_retries | Key_default_lte_bands
| Key_default_iot_tech | Key_default_apn | Key_fallback_lte_bands | Key_fallback_iot_tech | Key_fallback_apn
| Key_plmn | Key_fPsmEnable | Key_fCfunSleep | Key_psm_t3412 | Key_psm_t3324 | Key_conn_id.

#[export] Instance ConfigKey_eq_dec : EqDecision ConfigKey.
Proof. solve_decision. Defined.

Definition config_keys : list (String.string * ConfigKey) :=
  [("cid", Key_cid); ("attach_timeout_sec", Key_attach_timeout_sec); ("pdp_timeout_sec", Key_pdp_timeout_sec);
   ("data_ready_timeout_sec", Key_data_ready_timeout_sec); ("transparent_timeout_sec", Key_transparent_timeout_sec);
   ("max_network_attempts", Key_max_network_attempts); ("max_attach_retries", Key_max_attach_retries);
   ("max_pdp_retries", Key_max_pdp_retries); ("default_lte_bands", Key_default_lte_bands);
   ("default_iot_tech", Key_default_iot_tech); ("default_apn", Key_default_apn);
   ("fallback_lte_bands", Key_fallback_lte_bands); ("fallback_iot_tech", Key_fallback_iot_tech);
   ("fallback_apn", Key_fallback_apn); ("plmn", Key_plmn); ("fPsmEnable", Key_fPsmEnable);
   ("fCfunSleep", Key_fCfunSleep); ("psm_t3412", Key_psm_t3412); ("psm_t3324", Key_psm_t3324);
   ("conn_id", Key_conn_id)]%string.

(** The [if]/[else if] chain on the key. *)
Definition find_key (key : str) : option ConfigKey :=
  snd <$> List.find (fun kv => str_eqb key (lit (fst kv))) config_keys.

(** One member replaced, in declaration order. *)
Definition set_member (k : ConfigKey) (n : Z) (t : RadioTech) (s : str) (b : bool) (c : NetworkLteConfig) : NetworkLteConfig :=
  match c with
  | mkConfig a1 a2 a3 a4 a5 a6 a7 a8 a9 b1 b2 b3 b4 b5 b6 b7 b8 b9 c1 c2 c3 =>
      match k with
      | Key_cid => mkConfig (u8 n) a2 a3 a4 a5 a6 a7 a8 a9 b1 b2 b3 b4 b5 b6 b7 b8 b9 c1 c2 c3
      | Key_attach_timeout_sec => mkConfig a1 (u8 n) a3 a4 a5 a6 a7 a8 a9 b1 b2 b3 b4 b5 b6 b7 b8 b9 c1 c2 c3
      | Key_pdp_timeout_sec => mkConfig a1 a2 (u8 n) a4 a5 a6 a7 a8 a9 b1 b2 b3 b4 b5 b6 b7 b8 b9 c1 c2 c3
      | Key_data_ready_timeout_sec => mkConfig a1 a2 a3 (u8 n) a5 a6 a7 a8 a9 b1 b2 b3 b4 b5 b6 b7 b8 b9 c1 c2 c3
      | Key_transparent_timeout_sec => mkConfig a1 a2 a3 a4 (u16 n) a6 a7 a8 a9 b1 b2 b3 b4 b5 b6 b7 b8 b9 c1 c2 c3
      | Key_max_network_attempts => mkConfig a1 a2 a3 a4 a5 a6 (u8 n) a8 a9 b1 b2 b3 b4 b5 b6 b7 b8 b9 c1 c2 c3
      | Key_max_attach_retries => mkConfig a1 a2 a3 a4 a5 a6 a7 (u8 n) a9 b1 b2 b3 b4 b5 b6 b7 b8 b9 c1 c2 c3
      | Key_max_pdp_retries => mkConfig a1 a2 a3 a4 a5 a6 a7 a8 (u8 n) b1 b2 b3 b4 b5 b6 b7 b8 b9 c1 c2 c3
      | Key_default_lte_bands => mkConfig a1 a2 a3 a4 a5 a6 a7 a8 a9 n b2 b3 b4 b5 b6 b7 b8 b9 c1 c2 c3
      | Key_default_iot_tech => mkConfig a1 a2 a3 a4 a5 a6 a7 a8 a9 b1 t b3 b4 b5 b6 b7 b8 b9 c1 c2 c3
      | Key_default_apn => mkConfig a1 a2 a3 a4 a5 a6 a7 a8 a9 b1 b2 (fs_set MODEM_MEDIUM_STR s) b4 b5 b6 b7 b8 b9 c1 c2 c3
      | Key_fallback_lte_bands => mkConfig a1 a2 a3 a4 a5 a6 a7 a8 a9 b1 b2 b3 n b5 b6 b7 b8 b9 c1 c2 c3
      | Key_fallback_iot_tech => mkConfig a1 a2 a3 a4 a5 a6 a7 a8 a9 b1 b2 b3 b4 t b6 b7 b8 b9 c1 c2 c3
      | Key_fallback_apn => mkConfig a1 a2 a3 a4 a5 a6 a7 a8 a9 b1 b2 b3 b4 b5 (fs_set MODEM_MEDIUM_STR s) b7 b8 b9 c1 c2 c3
      | Key_plmn => mkConfig a1 a2 a3 a4 a5 a6 a7 a8 a9 b1 b2 b3 b4 b5 b6 (fs_set MODEM_SHORT_STR s) b8 b9 c1 c2 c3
      | Key_fPsmEnable => mkConfig a1 a2 a3 a4 a5 a6 a7 a8 a9 b1 b2 b3 b4 b5 b6 b7 b b9 c1 c2 c3
      | Key_fCfunSleep => mkConfig a1 a2 a3 a4 a5 a6 a7 a8 a9 b1 b2 b3 b4 b5 b6 b7 b8 b c1 c2 c3
      | Key_psm_t3412 => mkConfig a1 a2 a3 a4 a5 a6 a7 a8 a9 b1 b2 b3 b4 b5 b6 b7 b8 b9 (u32 n) c2 c3
      | Key_psm_t3324 => mkConfig a1 a2 a3 a4 a5 a6 a7 a8 a9 b1 b2 b3 b4 b5 b6 b7 b8 b9 c1 (u32 n) c3
      | Key_conn_id => mkConfig a1 a2 a3 a4 a5 a6 a7 a8 a9 b1 b2 b3 b4 b5 b6 b7 b8 b9 c1 c2 (u8 n)
      end
  end.

(** What kind of value a key takes. *)
Inductive ValueKind := Kind_number | Kind_tech | Kind_text | Kind_flag.
Definition key_kind (k : ConfigKey) : ValueKind :=
  match k with
  | Key_default_iot_tech | Key_fallback_iot_tech => Kind_tech
  | Key_default_apn | Key_fallback_apn | Key_plmn => Kind_text
  | Key_fPsmEnable | Key_fCfunSleep => Kind_flag
  | _ => Kind_number
  end.

(** The body of the loop for one [key=value]: whether the field was set. *)
Definition set_field (key val : str) (cfg : NetworkLteConfig) : bool * NetworkLteConfig :=
  match find_key key with
  | None => (false, cfg)
  | Some k =>
      let set n t s b := (true, set_member k n t s b cfg) in
      match key_kind k with
      | Kind_number => match stoul val with Some n => set n RadioTech_unknown [] false | None => (false, cfg) end
      | Kind_tech => set 0%Z (radio_tech_from_str val) [] false
      | Kind_text => set 0%Z RadioTech_unknown val false
      | Kind_flag => match bool_from_str val with Some b => set 0%Z RadioTech_unknown [] b | None => (false, cfg) end
      end
  end.

(** [while (pos < args.size() && args[pos] == ' ') ++pos], on the rest of [args]. *)
Fixpoint skip_blanks (s : str) : str :=
  match s with
  | c :: r => if ch_eqb c SPACE then skip_blanks r else s
  | [] => []
  end.

(** The loop, on [args] from [pos] on.  Every round consumes a character. *)
Fixpoint config_loop (fuel : nat) (rest : str) (fChanged : bool) (cfg : NetworkLteConfig) : bool * NetworkLteConfig :=
  match fuel with
  | 0 => (fChanged, cfg)
  | S fuel' =>
      match skip_blanks rest with
      | [] => (fChanged, cfg)
      | rest =>
          match find_char "="%char rest with
          | None => (fChanged, cfg)
          | Some eq =>
              let key := take eq rest in
              let tail := drop (S eq) rest in
              let '(val, next) := match find_char SPACE tail with
                                  | None => (tail, [])
                                  | Some sp => (take sp tail, drop (S sp) tail)
                                  end in
              let '(set_, cfg) := set_field key val cfg in
              config_loop fuel' next (fChanged || set_) cfg
          end
      end
  end.

Definition apply_config_fields (args : str) (cfg : NetworkLteConfig) : bool * NetworkLteConfig :=
  config_loop (length args) args false cfg.
