(* ===== verification/NetworkLog.v ===== *)
(** * The names in the state machine's log messages (src/network_lte.cpp)

    What [log_state], [log_event], [log_action] and [log_error] write besides the
    trace entries that [NetworkLte] models, through the macros of [Log]. *)

From S2P Require Import Prelude CLib Log Trace Hal NetworkTypes RpcHelpers.

Definition state_to_str (s : NetworkLteState) : str :=
  match s with
  | State_switched_off => lit "switched_off"
  | State_off_mode => lit "off_mode"
  | State_sleep_mode => lit "sleep_mode"
  | State_setup_mode => lit "setup_mode"
  | State_idle_mode => lit "idle_mode"
  | State_network_detached => lit "network_detached"
  | State_network_attaching => lit "network_attaching"
  | State_pdp_context_closed => lit "pdp_context_closed"
  | State_pdp_context_opening => lit "pdp_context_opening"
  | State_data_ready => lit "data_ready"
  | State_modem_fota => lit "modem_fota"
  | State_transparent_mode => lit "transparent_mode"
  | State_done => lit "done"
  | _ => lit "unknown"
  end.

Definition event_to_str (e : NetworkLteEvent) : str :=
  match e with
  | Event_none => lit "none"
  | Event_psm_enter => lit "psm_enter"
  | Event_psm_exit => lit "psm_exit"
  | Event_network_detached => lit "network_detached"
  | Event_network_attached => lit "network_attached"
  | Event_context_opened => lit "context_opened"
  | Event_context_closed => lit "context_closed"
  | Event_context_rejected => lit "context_rejected"
  | Event_data_available => lit "data_available"
  | Event_attach_started => lit "attach_started"
  | Event_pdp_opening => lit "pdp_opening"
  | Event_timeout => lit "timeout"
  | Event_network_error => lit "network_error"
  | Event_attach_error => lit "attach_error"
  | Event_context_error => lit "context_error"
  | _ => lit "unknown"
  end.

Definition modem_event_to_str (e : NetworkLteEvent) : str :=
  match e with
  | Event_psm_enter => lit "psm_enter"
  | Event_psm_exit => lit "psm_exit"
  | Event_network_detached => lit "network_detached"
  | Event_network_attached => lit "network_attached"
  | Event_context_opened => lit "context_opened"
  | Event_context_closed => lit "context_closed"
  | Event_context_rejected => lit "context_rejected"
  | Event_data_available => lit "data_available"
  | _ => lit "unknown_modem_event"
  end.

Definition action_to_str (a : ModemAction) : str :=
  match a with
  | Action_none => lit "none"
  | Action_reboot => lit "reboot"
  | Action_factory_reset => lit "factory_reset"
  | Action_check_responsiveness => lit "check_responsiveness"
  | Action_power_on => lit "power_on"
  | Action_power_off => lit "power_off"
  | Action_turn_on_radio => lit "turn_on_radio"
  | Action_switch_off_radio => lit "switch_off_radio"
  | Action_enter_sleep => lit "enter_sleep"
  | Action_wake_up => lit "wake_up"
  | Action_setup_radio => lit "setup_radio"
  | Action_query_network_status => lit "query_network_status"
  | Action_query_pdp_context => lit "query_pdp_context"
  | Action_attach_network => lit "attach_network"
  | Action_open_pdp_context => lit "open_pdp_context"
  | Action_send_data => lit "send_data"
  | Action_read_data => lit "read_data"
  | Action_data_complete => lit "data_complete"
  | Action_enter_transparent_mode => lit "enter_transparent_mode"
  | Action_leave_transparent_mode => lit "leave_transparent_mode"
  | _ => lit "unknown_action"
  end.

(** The messages; [None] is no message. *)
Definition log_state_message (state_ : NetworkLteState) (now : Z) : Message :=
  mkMessage Log_network DBG now (lit "new state: " ++ state_to_str state_).
Definition log_event_message (event_ : NetworkLteEvent) (now : Z) : Message :=
  mkMessage Log_network DBG now (lit "new event: " ++ event_to_str event_).
Definition log_action_message (modem_action_ : ModemAction) (now : Z) : option Message :=
  if decide (modem_action_ = Action_none) then None
  else Some (mkMessage Log_network DBG now (lit "new action: " ++ action_to_str modem_action_)).
Definition log_error (error_event : NetworkLteEvent) (now : Z) : Message :=
  mkMessage Log_network ERR now (lit "new error event: " ++ event_to_str error_event).

(** A state's name in the log is its name in the replies of the RPC server, and
    names a single state, unless the log does not know it: [none], [rebooting] and
    [gnss_fix_mode]. *)
Lemma state_names s s' :
  (state_to_str s = lit "unknown" <-> s = State_none \/ s = State_rebooting \/ s = State_gnss_fix_mode) /\
  (state_to_str s <> lit "unknown" -> state_to_str s = to_str_state s /\ (state_to_str s' = state_to_str s -> s' = s)).
Proof. destruct s, s'; cbn; intuition congruence. Qed.

(** Two events have no name in the log, one of them an error. *)
Lemma event_names e e' :
  (event_to_str e = lit "unknown" <-> e = Event_gps_available \/ e = Event_at_command_no_response) /\
  (event_to_str e <> lit "unknown" -> event_to_str e' = event_to_str e -> e' = e).
Proof. destruct e, e'; cbn; intuition congruence. Qed.

(** Neither have the two actions of the GNSS mode. *)
Lemma action_names a a' :
  (action_to_str a = lit "unknown_action" <-> a = Action_enter_gnss_fix \/ a = Action_leave_gnss_fix) /\
  (action_to_str a <> lit "unknown_action" -> action_to_str a' = action_to_str a -> a' = a).
Proof. destruct a, a'; cbn; intuition congruence. Qed.

(** The modem's own events are named as in the log. *)
Lemma modem_event_names e :
  modem_event_to_str e = lit "unknown_modem_event" \/ modem_event_to_str e = event_to_str e.
Proof. destruct e; cbn; auto. Qed.
