(* ===== verification/TestXe310.v ===== *)
(** * The desktop test program of the driver (examples/desktop/test_xe310.cpp)

    [main] opens the port, checks that the modem answers and then asks for one value
    after the other, logging each value or the reason there is none.  The program's
    state is the driver and what has been logged so far. *)

From S2P Require Import Prelude CLib FixedString StaticVector AtCommand Timer ModemController ControllerProps.
From S2P Require Import Xe310Types Xe310 Survey RadioMessages Log Trace Hal NetworkTypes RpcHelpers.

Section Program.
Context {P : Type} {HP : Platform P} {HR : Residue}.
Notation X := (XE310.xE310 (ModemController P)).
Local Open Scope st_scope.

(** Logged messages: the level and the text. *)
Definition Text := (Level * str)%type.
Record Test := mkTest { modem : X; logged : list Text }.

Definition say (level : Level) (text : str) : ST Test unit := fun t => (tt, mkTest (modem t) (logged t ++ [(level, text)])).
Fixpoint say_all (texts : list Text) : ST Test unit :=
  match texts with
  | [] => st_ret tt
  | (level, text) :: rest => do_ say level text; say_all rest
  end.
Definition on_modem {A} (m : ST X A) : ST Test A := fun t => let '(a, x) := m (modem t) in (a, mkTest x (logged t)).

Definition ModemStatus_val (s : ModemStatus) : Z :=
  match s with
  | ModemStatus_ok => 0 | ModemStatus_busy => 1 | ModemStatus_uart_error => 2 | ModemStatus_not_connected => 3
  | ModemStatus_at_error => 4 | ModemStatus_timeout => 5 | ModemStatus_invalid_param => 6
  end.

Definition status_text (status : ModemStatus) : str :=
  match status with
  | ModemStatus_timeout => lit "  -> timeout"
  | ModemStatus_at_error => lit "  -> AT command error"
  | ModemStatus_uart_error => lit "  -> UART error"
  | ModemStatus_not_connected => lit "  -> not connected"
  | _ => lit "  -> error code " ++ fmt_d (ModemStatus_val status)
  end.
Definition log_status (status : ModemStatus) : ST Test unit := say ERR (status_text status).

(** [status = modem....; if (status != ok) { MODEM_LOG_ERR(failure); log_status(status); } else ...]. *)
Definition report {A} (query : ST X (ModemStatus * A)) (failure : str) (texts : A -> list Text) : ST Test unit :=
  do (status, v) <- on_modem query;
  if negb (status_eqb status ModemStatus_ok) then do_ say ERR failure; log_status status
  else say_all (texts v).

Definition with_unit (m : ST X ModemStatus) : ST X (ModemStatus * unit) := do st <- m; st_ret (st, tt).

Definition yes_no (b : bool) (yes no : str) : str := if b then yes else no.

(** ** The queries *)

Definition disable_echo : ST Test unit :=
  report (with_unit (XE310.set_echo false)) (lit "Failed to disable echo") (fun _ => [(INF, lit "Echo disabled")]).

Definition show_imei_sv : ST Test unit :=
  report (XE310.request_imei_sv []) (lit "Failed to retrieve IMEI/SV") (fun v => [(INF, lit "IMEI/SV: " ++ cstr v)]).

Definition show_model : ST Test unit :=
  report (XE310.request_model_id []) (lit "Failed to retrieve model ID") (fun v => [(INF, lit "Model ID: " ++ cstr v)]).

Definition show_software : ST Test unit :=
  report (XE310.request_sw_package_version SoftwarePackageVersion_default) (lit "Failed to retrieve software package version")
    (fun v => [(INF, lit "Software Package Version: " ++ cstr (package_version v));
               (INF, lit "Modem Version: " ++ cstr (modem_version v));
               (INF, lit "Production Parameters Version: " ++ cstr (prod_params_version v));
               (INF, lit "Application Software Version: " ++ cstr (app_version v))]).

Definition show_imei : ST Test unit :=
  report (XE310.get_imei []) (lit "Failed to retrieve IMEI") (fun v => [(INF, lit "IMEI: " ++ cstr v)]).

Definition show_iccid : ST Test unit :=
  report (XE310.read_iccid []) (lit "Failed to retrieve ICCID") (fun v => [(INF, lit "ICCID: " ++ cstr v)]).

Definition show_imsi : ST Test unit :=
  report (XE310.read_imsi []) (lit "Failed to retrieve IMSI") (fun v => [(INF, lit "IMSI: " ++ cstr v)]).

Definition show_psm : ST Test unit :=
  report (XE310.get_telit_psm TelitCpsmsStatus_default) (lit "Failed to retrieve PSM status")
    (fun v => [(INF, lit "PSM Status: " ++ fmt_d (ts_status v));
               (INF, lit "T3324: " ++ fmt_u (t3324 v) ++ lit " seconds");
               (INF, lit "T3412: " ++ fmt_u (t3412 v) ++ lit " seconds");
               (INF, lit "PSM Version: " ++ fmt_d (ts_psm_version v));
               (INF, lit "PSM Threshold: " ++ fmt_u (ts_psm_threshold v) ++ lit " seconds");
               (INF, lit "PSM Mode: " ++ fmt_d (PsmMode_val (ts_mode v)))]).

Definition show_bands : ST Test unit :=
  report (XE310.get_bands BandConfig_default) (lit "Failed to retrieve band configuration")
    (fun v => [(INF, lit "Band Configuration - GSM: " ++ fmt_u (gsm_mask v) ++ lit ", UMTS: " ++ fmt_u (umts_mask v) ++
                     lit ", LTE: " ++ fmt_u (lte_mask v) ++ lit ", TDSCDMA: " ++ fmt_u (tdscdma_mask v) ++
                     lit ", LTE>64: " ++ fmt_u (lte_mask_over_64 v))]).

Definition show_registration : ST Test unit :=
  report (XE310.get_registration_status RegistrationInfo_default RadioTech_gsm) (lit "Failed to retrieve registration status")
    (fun v => [(INF, lit "Registration Status: " ++ fmt_d (RegStatus_val (stat v)));
               (INF, lit "Location Area Code: " ++ cstr (lac v));
               (INF, lit "Cell ID: " ++ cstr (ci v));
               (INF, lit "Access Technology: " ++ fmt_d (RadioTech_val (act v)));
               (INF, lit "Has Location: " ++ yes_no (fHasLocation v) (lit "Yes") (lit "No"))]).

Definition show_signal : ST Test unit :=
  report (XE310.get_signal_quality SignalQuality_default) (lit "Failed to retrieve signal quality")
    (fun v => [(INF, lit "Signal Quality - RSSI: " ++ fmt_d (rssi v) ++ lit ", BER: " ++ fmt_d (sig_ber v) ++
                     lit ", RSRQ: " ++ fmt_d (rsrq v) ++ lit ", RSRP: " ++ fmt_d (rsrp v))]).

Definition show_operator : ST Test unit :=
  report (XE310.get_operator []) (lit "Failed to retrieve operator") (fun v => [(INF, lit "Operator: " ++ cstr v)]).

(** [uint8_t cid = 1]. *)
Definition test_cid : Z := 1.

Definition show_apn : ST Test unit :=
  report (XE310.get_apn test_cid []) (lit "Failed to retrieve APN") (fun v => [(INF, lit "APN: " ++ cstr v)]).

Definition show_pdp : ST Test unit :=
  report (XE310.get_pdp_state test_cid false) (lit "Failed to retrieve PDP state")
    (fun v => [(INF, lit "PDP Context " ++ fmt_d test_cid ++ lit " is " ++ yes_no v (lit "Active") (lit "Inactive"))]).

Definition show_ip : ST Test unit :=
  report (XE310.get_ip_address test_cid []) (lit "Failed to retrieve IP address")
    (fun v => [(INF, lit "IP Address for PDP Context " ++ fmt_d test_cid ++ lit ": " ++ cstr v)]).

(** [switch (static_cast<int>(tech))]. *)
Definition tech_text (tech : RadioTech) : str :=
  match RadioTech_val tech with
  | 0 => lit "IoT Technology: CAT-M1"
  | 1 => lit "IoT Technology: NB-IoT"
  | 2 => lit "IoT Technology: CAT-M1 preferred + NB-IoT"
  | 3 => lit "IoT Technology: CAT-M1 + NB-IoT preferred"
  | _ => lit "IoT Technology: Unknown (" ++ fmt_d (RadioTech_val tech) ++ lit ")"
  end%Z.

Definition show_tech : ST Test unit :=
  report (XE310.get_iot_tech (RadioTech_cat_m1, 0%Z)) (lit "Failed to retrieve IoT technology")
    (fun v => [(INF, tech_text (fst v))]).

Definition show_survey : ST Test unit :=
  report (network_survey NetworkSurveyResult_default 0 0) (lit "Network survey failed")
    (fun v => (INF, lit "Network survey completed, found " ++ fmt_u (Z.of_nat (length (sv_cells v))) ++ lit " cells") ::
       map (fun cell => (INF, lit "Cell: Type=" ++ fmt_d (SurvCellType_val (sc_type cell)) ++ lit ", ARFCN=" ++ fmt_d (sc_arfcn cell) ++
                              lit ", RSRP=" ++ fmt_f1 (sc_rsrp cell) ++ lit " dBm")) (sv_cells v)).

(** ** [main] *)

Definition queries : ST Test unit :=
  do_ disable_echo; do_ show_imei_sv; do_ show_model; do_ show_software; do_ show_imei; do_ show_iccid; do_ show_imsi;
  do_ show_psm; do_ show_bands; do_ show_registration; do_ show_signal; do_ show_operator; do_ show_apn; do_ show_pdp;
  do_ show_ip; do_ show_tech; show_survey.

(** The exit code, the controller and the log. *)
Definition main (p : P) : Z * ModemController P * list Text :=
  let config := UartConfig_default in
  let t0 := [(INF, lit "Connecting to modem on COM17...")] in
  let '(status, controller) := connect (lit "COM17") config (controller_init p true) in
  let t1 := t0 ++ [(INF, lit "Connection status: " ++ fmt_d (ModemStatus_val status))] in
  if negb (status_eqb status ModemStatus_ok)
  then (1%Z, controller, t1 ++ [(ERR, lit "Failed to open modem port"); (ERR, status_text status)])
  else
    let '(status, x) := XE310.at_ok (XE310.xE310_init controller) in
    if negb (status_eqb status ModemStatus_ok)
    then (1%Z, snd (disconnect (XE310.controller_ x)), t1 ++ [(ERR, lit "Modem not responsive"); (ERR, status_text status)])
    else
      let '(_, t) := queries (mkTest x (t1 ++ [(INF, lit "Modem initialized successfully")])) in
      (0%Z, snd (disconnect (XE310.controller_ (modem t))), logged t).

End Program.

(** ** What the program reports *)

(** The lines of one query: the failure and its reason, or lines of information. *)
Definition failed (failure : str) (lines : list Text) : Prop :=
  exists status, status <> ModemStatus_ok /\ lines = [(ERR, failure); (ERR, status_text status)].
Definition informed (lines : list Text) : Prop := lines <> [] /\ Forall (fun l => fst l = INF) lines.

(** The technology is never one of the four names: the driver's values are 7, 9 and -1,
    the program expects 0 to 3. *)
Definition unnamed_tech (lines : list Text) : Prop :=
  exists v, (v = 7 \/ v = 9 \/ v = -1)%Z /\ lines = [(INF, lit "IoT Technology: Unknown (" ++ fmt_d v ++ lit ")")].

(** For each query, what it says on failure and what its other reports look like. *)
Definition outline : list (str * (list Text -> Prop)) :=
  map (fun f => (lit f, informed))
    ["Failed to disable echo"; "Failed to retrieve IMEI/SV"; "Failed to retrieve model ID";
     "Failed to retrieve software package version"; "Failed to retrieve IMEI"; "Failed to retrieve ICCID";
     "Failed to retrieve IMSI"; "Failed to retrieve PSM status"; "Failed to retrieve band configuration";
     "Failed to retrieve registration status"; "Failed to retrieve signal quality"; "Failed to retrieve operator";
     "Failed to retrieve APN"; "Failed to retrieve PDP state"; "Failed to retrieve IP address"]%string ++
  [(lit "Failed to retrieve IoT technology", unnamed_tech); (lit "Network survey failed", informed)].

Definition reported (o : str * (list Text -> Prop)) (lines : list Text) : Prop := failed (fst o) lines \/ snd o lines.

Section Reports.
Context {P : Type} {HP : Platform P} {HR : Residue}.
Notation X := (XE310.xE310 (ModemController P)).
Notation Test := (Test (P := P)).

(** [m] adds the reports of [os] to the log. *)
Definition adds (m : ST Test unit) (os : list (str * (list Text -> Prop))) : Prop :=
  forall t : Test, exists segments, Forall2 reported os segments /\ logged (snd (m t)) = logged t ++ concat segments.

Lemma say_all_logged texts : forall t : Test, logged (snd (say_all texts t)) = logged t ++ texts.
Proof.
  induction texts as [|[level text] texts IH]; intros t; [symmetry; apply app_nil_r|].
  cbn [say_all]. unfold st_bind, say. rewrite IH. cbn [logged]. by rewrite <- app_assoc.
Qed.

Lemma adds_report {A} (q : ST X (ModemStatus * A)) failure texts Q :
  (forall x v x', q x = ((ModemStatus_ok, v), x') -> Q (texts v)) -> adds (report q failure texts) [(failure, Q)].
Proof.
  intros HQ t. unfold report, st_bind, on_modem. destruct (q (modem t)) as [[status v] x] eqn:E.
  destruct (status_eqb status ModemStatus_ok) eqn:Es; cbn [negb].
  - apply bool_decide_eq_true in Es. subst status. exists [texts v]. split.
    + constructor; [|done]. right. by apply (HQ _ _ _ E).
    + rewrite say_all_logged. by cbn; rewrite app_nil_r.
  - apply bool_decide_eq_false in Es. exists [[(ERR, failure); (ERR, status_text status)]]. split.
    + constructor; [|done]. left. by exists status.
    + cbn. by rewrite <- app_assoc.
Qed.

Lemma adds_informed {A} (q : ST X (ModemStatus * A)) failure texts :
  (forall v, informed (texts v)) -> adds (report q failure texts) [(failure, informed)].
Proof. intros H. by apply adds_report. Qed.

Lemma adds_seq (m k : ST Test unit) o os : adds m [o] -> adds k os -> adds (st_bind m (fun _ => k)) (o :: os).
Proof.
  intros Hm Hk t. destruct (Hm t) as (s1 & F1 & E1). unfold st_bind. destruct (m t) as [u t1]. cbn [snd] in E1.
  destruct (Hk t1) as (s2 & F2 & E2). exists (s1 ++ s2). split; [exact (Forall2_app F1 F2)|].
  by rewrite E2, E1, concat_app, app_assoc.
Qed.

Lemma informed_map {A} (f : A -> str) x l : informed ((INF, x) :: map (fun a => (INF, f a)) l).
Proof. split; [done|]. constructor; [done|]. apply Forall_map, Forall_true. done. Qed.

(** What the driver stores as the technology. *)
Lemma iot_tech_values b o :
  fst o = RadioTech_cat_m1 ->
  let v := RadioTech_val (fst (XE310.parse_iot_tech b o)) in (v = 7 \/ v = 9 \/ v = -1)%Z.
Proof.
  intros Ho. unfold XE310.parse_iot_tech. destruct (XE310.after_colon b) as [params|]; [|rewrite Ho; by left].
  destruct (match find_char COMMA params with None => _ | Some _ => _ end) as [nv gp]. cbn [fst].
  destruct nv as [|[]|]; cbn; auto.
Qed.

Lemma adds_tech : adds show_tech [(lit "Failed to retrieve IoT technology", unnamed_tech)].
Proof.
  apply adds_report. intros x [tech gp] x' E. cbn [fst].
  assert (let v := RadioTech_val tech in (v = 7 \/ v = 9 \/ v = -1)%Z) as Hv.
  { unfold XE310.get_iot_tech, XE310.query, st_bind in E. destruct (XE310.ask _ _ x) as [[st r] x1].
    cbn in E. injection E as -> E _. cbn in E. replace tech with (fst (tech, gp)) by done. rewrite <- E.
    by apply iot_tech_values. }
  cbv zeta in Hv. exists (RadioTech_val tech). split; [exact Hv|]. unfold tech_text.
  by destruct Hv as [->|[->| ->]].
Qed.

Lemma adds_queries : adds queries outline.
Proof.
  unfold queries, outline.
  repeat (apply adds_seq; [apply adds_tech || (apply adds_informed; intros v; split; [done|repeat constructor])|]).
  apply adds_informed. intros v. apply informed_map.
Qed.

End Reports.

(** The test program reports on every query, whatever the modem answers: it ends with
    code 1 only when the port cannot be opened or the modem does not answer the
    first command, after saying which and why; otherwise it ends with code 0 and its
    log has, in order, for each of the seventeen queries either its error message
    with the reason or lines of information, so a failed query stops none of the
    others.  The technology is never reported by name. *)
Theorem test_program_reports {P} `{Platform P} `{Residue} (p : P) :
  let '(code, _, log) := main p in
  (code = 1%Z /\ exists init failure status, status <> ModemStatus_ok /\
     (failure = lit "Failed to open modem port" \/ failure = lit "Modem not responsive") /\
     log = init ++ [(ERR, failure); (ERR, status_text status)] /\ Forall (fun l => fst l = INF) init) \/
  (code = 0%Z /\ exists segments, Forall2 reported outline segments /\
     log = [(INF, lit "Connecting to modem on COM17..."); (INF, lit "Connection status: 0");
            (INF, lit "Modem initialized successfully")] ++ concat segments).
Proof.
  unfold main. destruct (connect _ _ _) as [status controller].
  destruct (status_eqb status ModemStatus_ok) eqn:E1; cbn [negb].
  2:{ apply bool_decide_eq_false in E1. left. split; [done|]. eexists _, _, status. split_and!; [done|by left|reflexivity|].
      by repeat constructor. }
  apply bool_decide_eq_true in E1. subst status.
  destruct (XE310.at_ok _) as [status x]. destruct (status_eqb status ModemStatus_ok) eqn:E2; cbn [negb].
  2:{ apply bool_decide_eq_false in E2. left. split; [done|]. eexists _, _, status. split_and!; [done|by right|reflexivity|].
      by repeat constructor. }
  set (t0 := mkTest x _). destruct (adds_queries t0) as (segments & HF & E). destruct (queries t0) as [u t].
  right. split; [done|]. exists segments. split; [exact HF|]. cbn [snd] in E. rewrite E. reflexivity.
Qed.
