(* ===== verification/RpcHelpersProps.v ===== *)
(** * The RPC server's texts are JSON (examples/desktop/rpc_helpers.h)

    Each serialiser writes the text of a tree with the members of its argument;
    within the ranges of the member types the formatting buffers are large
    enough, the registration and survey replies excepted. *)

From Stdlib Require Import SpecFloat.
From S2P Require Import Prelude CLib FixedString StaticVector MessageQueue Timer.
From S2P Require Import Xe310Types Xe310 Survey Trace Hal NetworkTypes Typed Json RpcHelpers.

(** ** Strings and numbers *)

Lemma escape_loop s : forall acc,
  foldl (fun out c =>
    if ch_eqb c DQUOTE then out ++ [BACKSLASH; DQUOTE]
    else if ch_eqb c BACKSLASH then out ++ [BACKSLASH; BACKSLASH]
    else if ch_eqb c LF then out ++ [BACKSLASH; "n"%char]
    else if ch_eqb c CR then out ++ [BACKSLASH; "r"%char]
    else out ++ [c]) acc s = acc ++ escape s.
Proof.
  induction s as [|c s IH]; intros acc; cbn [foldl]; [by rewrite app_nil_r|]. rewrite IH.
  change (escape (c :: s)) with (escape_char c ++ escape s). rewrite app_assoc. f_equal. unfold escape_char.
  by repeat (match goal with |- context [if ?b then _ else _] => destruct b end).
Qed.

Lemma json_str_quoted s : json_str s = quoted s.
Proof. unfold json_str. by rewrite escape_loop. Qed.

Lemma text_ok_no_nul s : text_ok s = true -> Forall (fun c => ch_eqb c NUL = false) s.
Proof.
  unfold text_ok. rewrite forallb_forall, Forall_forall. intros H c Hc. apply list_elem_of_In, H in Hc.
  apply Ascii.eqb_neq. by intros ->.
Qed.

Lemma escape_no_nul s : Forall (fun c => ch_eqb c NUL = false) s -> Forall (fun c => ch_eqb c NUL = false) (escape s).
Proof.
  induction 1 as [|c s Hc _ IH]; [constructor|]. change (escape (c :: s)) with (escape_char c ++ escape s).
  apply Forall_app. split; [|done]. unfold escape_char.
  repeat (match goal with |- context [if ?b then _ else _] => destruct b end); by repeat constructor.
Qed.

Lemma json_cstr_quoted s : text_ok s = true -> json_cstr s = quoted s.
Proof.
  intros Hs. unfold json_cstr. rewrite json_str_quoted. apply cstr_id. unfold quoted. constructor; [done|].
  apply Forall_app. split; [by apply escape_no_nul, text_ok_no_nul|by repeat constructor].
Qed.

Lemma length_escape s : length (escape s) <= 2 * length s.
Proof.
  induction s as [|c s IH]; [done|]. change (escape (c :: s)) with (escape_char c ++ escape s). rewrite length_app. cbn [length].
  assert (length (escape_char c) <= 2); [|lia]. unfold escape_char.
  repeat (match goal with |- context [if ?b then _ else _] => destruct b end); cbn; lia.
Qed.

Lemma length_json_cstr s : length (json_cstr s) <= 2 * length s + 2.
Proof.
  unfold json_cstr. rewrite json_str_quoted. etransitivity; [apply length_cstr|]. unfold quoted. cbn [length].
  rewrite length_app. pose proof (length_escape s). cbn [length]. lia.
Qed.

Lemma digit_number_char d : (0 <= d < 10)%Z -> is_digit (digit_char d) = true.
Proof. intros Hd. apply bool_decide_eq_true. exists d. by apply digit_in_char. Qed.

Lemma decimal_digits s : decimal s -> forallb is_digit s = true.
Proof.
  intros H. rewrite forallb_forall. unfold decimal in H. rewrite Forall_forall in H. intros c Hc.
  destruct (H c ltac:(by apply list_elem_of_In)) as (d & Hd & ->). by apply digit_number_char.
Qed.

Lemma digits_number_chars s : forallb is_digit s = true -> forallb number_char s = true.
Proof.
  rewrite !forallb_forall. intros H c Hc. unfold number_char. by rewrite (H c Hc).
Qed.

(** The first digit of a positive number is not zero. *)
Lemma dec_digits_head : forall fuel n, (0 < n < 10 ^ Z.of_nat fuel)%Z ->
  exists d t, (1 <= d < 10)%Z /\ dec_digits fuel n = digit_char d :: t.
Proof.
  induction fuel as [|fuel IH]; intros n Hn; [simpl in Hn; lia|]. cbn [dec_digits].
  destruct (n <? 10)%Z eqn:E; bool_facts; [exists n, []; split; [lia|done]|].
  destruct (IH (n / 10)%Z) as (d & t & Hd & ->).
  - rewrite Nat2Z.inj_succ, Z.pow_succ_r in Hn by lia. split; [apply Z.div_str_pos; lia|].
    apply Z.div_lt_upper_bound; lia.
  - by exists d, (t ++ [digit_char (n mod 10)]).
Qed.

Lemma fmt_u_zero : fmt_u 0 = lit "0".
Proof. reflexivity. Qed.

Lemma number_ok_digits c s :
  forallb is_digit (c :: s) = true -> (s = [] \/ ch_eqb c "0"%char = false) -> number_ok (c :: s) = true.
Proof.
  intros Hd Hz. assert (ch_eqb c "-"%char = false) as Hm.
  { apply Ascii.eqb_neq. intros ->. by cbn in Hd. }
  unfold number_ok. rewrite Hm. rewrite <- (app_nil_r (c :: s)). rewrite (span_all _ _ [] Hd I).
  destruct Hz as [->|Hz]; [done|]. by destruct s; rewrite ?Hz.
Qed.

Lemma fmt_u_digits n : (0 <= n)%Z -> forallb is_digit (fmt_u n) = true.
Proof. intros Hn. by apply decimal_digits, fmt_u_decimal. Qed.

Lemma fmt_u_shape n : (0 <= n)%Z -> exists c s, fmt_u n = c :: s /\ (s = [] \/ ch_eqb c "0"%char = false).
Proof.
  intros Hn. destruct (decide (n = 0%Z)) as [->|Hne]; [by eexists _, []; split; [|left]|].
  destruct (dec_digits_head (S (Z.to_nat (Z.log2 n))) n) as (d & t & Hd & E).
  - pose proof (log2_fuel n Hn). lia.
  - exists (digit_char d), t. split; [exact E|]. right. revert d Hd E. intros d Hd _.
    apply Ascii.eqb_neq. intros Hc. pose proof (digit_in_char d ltac:(lia)) as Hi. rewrite Hc in Hi. cbv in Hi. injection Hi as <-. lia.
Qed.

Lemma number_fmt_u n : (0 <= n)%Z -> json_ok (JNum (fmt_u n)) = true.
Proof.
  intros Hn. pose proof (fmt_u_digits n Hn) as Hd. cbn [json_ok]. rewrite (digits_number_chars _ Hd), andb_true_r.
  destruct (fmt_u_shape n Hn) as (c & s & E & Hz). rewrite E in *. by apply number_ok_digits.
Qed.

Lemma number_fmt_d n : json_ok (JNum (fmt_d n)) = true.
Proof.
  unfold fmt_d. destruct (n <? 0)%Z eqn:E; bool_facts; [|by apply number_fmt_u].
  pose proof (number_fmt_u (- n) ltac:(lia)) as H. cbn [json_ok] in H |- *. bool_facts. cbn [forallb]. rewrite H0, andb_true_r.
  destruct (fmt_u_shape (- n) ltac:(lia)) as (c & s & Ec & Hz). unfold number_ok in *. rewrite Ec in *.
  assert (ch_eqb c "-"%char = false) as Hm.
  { pose proof (fmt_u_digits (- n) ltac:(lia)) as Hd. rewrite Ec in Hd. apply Ascii.eqb_neq. intros ->. by cbn in Hd. }
  cbn [ch_eqb]. rewrite Hm in H. exact H.
Qed.

Definition finite_float (f : spec_float) : bool := match f with S754_zero _ | S754_finite _ _ _ => true | _ => false end.

Lemma round_half_even_pos num den : (0 <= num)%Z -> (0 < den)%Z -> (0 <= round_half_even num den)%Z.
Proof.
  intros Hn Hd. unfold round_half_even. pose proof (Z.div_pos num den Hn Hd).
  repeat case_match; lia.
Qed.

(** A decimal with one digit after the point, with or without a sign. *)
Lemma number_tenths (neg : bool) a b : (0 <= a)%Z -> (0 <= b)%Z ->
  json_ok (JNum (let t := fmt_u a ++ "."%char :: fmt_u b in if neg then "-"%char :: t else t)) = true.
Proof.
  intros Ha Hb. cbv zeta. destruct (fmt_u_shape a Ha) as (c & s & Ea & Hz). pose proof (fmt_u_digits a Ha) as Hda.
  pose proof (fmt_u_digits b Hb) as Hdb. pose proof (fmt_u_ne b) as Hne.
  assert (ch_eqb c "-"%char = false) as Hm.
  { rewrite Ea in Hda. apply Ascii.eqb_neq. intros ->. by cbn in Hda. }
  assert (forallb number_char (fmt_u a ++ "."%char :: fmt_u b) = true) as Hc.
  { rewrite forallb_app. cbn [forallb]. rewrite (digits_number_chars _ Hda), (digits_number_chars _ Hdb). done. }
  assert (number_ok (fmt_u a ++ "."%char :: fmt_u b) = true /\ number_ok ("-"%char :: fmt_u a ++ "."%char :: fmt_u b) = true) as [H1 H2].
  { unfold number_ok. rewrite Ea in Hda |- *. cbn [app]. rewrite Hm, ch_eqb_refl.
    change (c :: s ++ "."%char :: fmt_u b) with ((c :: s) ++ "."%char :: fmt_u b).
    rewrite (span_all _ _ ("."%char :: fmt_u b) Hda eq_refl). rewrite ch_eqb_refl.
    rewrite <- (app_nil_r (fmt_u b)). rewrite (span_all _ _ [] Hdb I).
    assert (length (fmt_u b) =? 0 = false) as -> by (apply Nat.eqb_neq; by destruct (fmt_u b)).
    destruct Hz as [->|Hz]; [done|]. destruct s; by rewrite ?Hz. }
  destruct neg; cbn [json_ok forallb]; rewrite ?H1, ?H2, Hc; done.
Qed.

Lemma number_fmt_f1 f : finite_float f = true -> json_ok (JNum (fmt_f1 f)) = true.
Proof.
  destruct f as [[]|?| |s m e]; try done. intros _. unfold fmt_f1. set (t := if (0 <=? e)%Z then _ else _).
  assert (0 <= t)%Z as Ht.
  { unfold t. destruct (0 <=? e)%Z eqn:Ee; bool_facts; [lia|]. apply round_half_even_pos; [lia|]. apply Z.pow_pos_nonneg; lia. }
  apply (number_tenths s (t / 10) (t mod 10)); [apply Z.div_pos; lia|apply Z.mod_pos_bound; lia].
Qed.

Lemma comma_list_join {A} (f : A -> str) l : comma_list f l = join_comma (map f l).
Proof.
  unfold comma_list. destruct l as [|a l]; [done|]. rewrite imap_cons. cbn [concat map]. change (0 <? 0) with false. cbn [app].
  revert a. induction l as [|b l IH]; intros a; [by rewrite app_nil_r|].
  change (join_comma (f a :: map f (b :: l))) with (f a ++ COMMA :: join_comma (map f (b :: l))). cbn [map]. rewrite <- (IH b).
  rewrite imap_cons. done.
Qed.

(** Names of enumerators need no escape. *)
Ltac plain_name := intros v; unfold quoted; do 2 f_equal; by destruct v.
Lemma quoted_reg v : quoted (to_str_reg v) = DQUOTE :: to_str_reg v ++ [DQUOTE].
Proof. revert v. plain_name. Qed.
Lemma quoted_tech v : quoted (to_str_tech v) = DQUOTE :: to_str_tech v ++ [DQUOTE].
Proof. revert v. plain_name. Qed.
Lemma quoted_context v : quoted (to_str_context v) = DQUOTE :: to_str_context v ++ [DQUOTE].
Proof. revert v. plain_name. Qed.
Lemma quoted_fix v : quoted (to_str_fix v) = DQUOTE :: to_str_fix v ++ [DQUOTE].
Proof. revert v. plain_name. Qed.
Lemma quoted_server v : quoted (to_str_server v) = DQUOTE :: to_str_server v ++ [DQUOTE].
Proof. revert v. plain_name. Qed.
Lemma quoted_cell v : quoted (to_str_cell v) = DQUOTE :: to_str_cell v ++ [DQUOTE].
Proof. revert v. plain_name. Qed.
Lemma quoted_psm v : quoted (to_str_psm v) = DQUOTE :: to_str_psm v ++ [DQUOTE].
Proof. unfold to_str_psm. by case_decide. Qed.

(** ** Trees *)

Definition JText (s : str) : json := JStr s.
Definition JU (n : Z) : json := JNum (fmt_u n).
Definition JD (n : Z) : json := JNum (fmt_d n).
Definition JF (f : spec_float) : json := JNum (fmt_f1 f).
Definition obj (l : list (String.string * json)) : json := JObj (map (fun kv => (lit (fst kv), snd kv)) l).
Arguments obj l%_list_scope.

Local Open Scope string_scope.

Definition swpkg_tree (v : SoftwarePackageVersion) : json :=
  obj [("package_version", JText (package_version v)); ("modem_version", JText (modem_version v));
       ("prod_params_version", JText (prod_params_version v)); ("app_version", JText (app_version v))].

Definition modem_info_tree (v : ModemInfo) : json :=
  obj [("imei", JText (imei v)); ("imei_sv", JText (imei_sv v)); ("iccid", JText (iccid v)); ("imsi", JText (imsi v));
       ("model_id", JText (model_id v)); ("telit_id", JText (telit_id v)); ("identification", JText (identification v));
       ("sw_package_version", swpkg_tree (sw_package_version v))].

Definition reg_info_tree (v : RegistrationInfo) : json :=
  obj [("mode", JU (ri_mode v)); ("stat", JText (to_str_reg (stat v))); ("lac", JText (lac v)); ("ci", JText (ci v));
       ("act", JText (to_str_tech (act v))); ("fHasLocation", JBool (fHasLocation v));
       ("operator_name", JText (operator_name v)); ("apn", JText (apn v)); ("cause_type", JU (cause_type v));
       ("reject_cause", JU (reject_cause v)); ("fHasReject", JBool (fHasReject v)); ("active_time", JText (active_time v));
       ("periodic_tau", JText (periodic_tau v)); ("fHasPsm", JBool (fHasPsm v))].

Definition network_info_tree (v : NetworkInfo) : json :=
  obj [("context_state", JText (to_str_context (context_state v))); ("ip_address", JText (ip_address v))].

Definition signal_tree (v : SignalQuality) : json :=
  obj [("rssi", JD (rssi v)); ("ber", JD (sig_ber v)); ("rsrq", JD (rsrq v)); ("rsrp", JD (rsrp v));
       ("rsrp_dbm", JD (rsrp_dbm v))].

Definition gnss_tree (v : GnssPosition) : json :=
  obj [("utc", JText (utc v)); ("latitude", JText (latitude v)); ("longitude", JText (longitude v));
       ("hdop", JText (hdop v)); ("altitude", JText (altitude v)); ("fix", JText (to_str_fix (fix_ v)));
       ("cog", JText (cog v)); ("spkm", JText (spkm v)); ("spkn", JText (spkn v)); ("date", JText (date v));
       ("nsat", JU (nsat v)); ("hepe", JText (hepe v)); ("vepe", JText (vepe v))].

Definition cpsms_tree (v : CpsmsConfig) : json :=
  obj [("mode", JText (to_str_psm (cp_mode v))); ("req_periodic_rau", JText (req_periodic_rau v));
       ("req_gprs_ready_timer", JText (req_gprs_ready_timer v)); ("req_periodic_tau", JText (req_periodic_tau v));
       ("req_active_time", JText (req_active_time v))].

Definition telit_cpsms_tree (v : TelitCpsmsConfig) : json :=
  obj [("mode", JText (to_str_psm (tc_mode v)));
       ("fHasPeriodicRau", JBool (tc_fHasPeriodicRau v)); ("req_periodic_rau", JU (tc_req_periodic_rau v));
       ("fHasGprsReadyTimer", JBool (tc_fHasGprsReadyTimer v)); ("req_gprs_ready_timer", JU (tc_req_gprs_ready_timer v));
       ("fHasPeriodicTau", JBool (tc_fHasPeriodicTau v)); ("req_periodic_tau", JU (tc_req_periodic_tau v));
       ("fHasActiveTime", JBool (tc_fHasActiveTime v)); ("req_active_time", JU (tc_req_active_time v));
       ("fHasPsmVersion", JBool (tc_fHasPsmVersion v)); ("psm_version", JU (PsmVersion_val (tc_psm_version v)));
       ("fHasPsmThreshold", JBool (tc_fHasPsmThreshold v)); ("psm_threshold", JU (tc_psm_threshold v))].

Definition telit_status_tree (v : TelitCpsmsStatus) : json :=
  obj [("status", JU (ts_status v)); ("t3324", JU (t3324 v)); ("t3412", JU (t3412 v));
       ("psm_version", JU (ts_psm_version v)); ("psm_threshold", JU (ts_psm_threshold v));
       ("mode", JText (to_str_psm (ts_mode v)))].

Definition surv_cell_tree (c : SurvCell) : json :=
  obj [("type", JText (to_str_cell (sc_type c))); ("arfcn", JD (sc_arfcn c)); ("bsic", JD (sc_bsic c));
       ("rx_lev", JD (sc_rx_lev c)); ("ber", JD (sc_ber c)); ("mcc", JU (sc_mcc c)); ("mnc", JU (sc_mnc c));
       ("lac", JU (sc_lac c)); ("cell_id", JU (sc_cell_id c)); ("cell_stat", JText (sc_cell_stat c));
       ("num_arfcn", JD (sc_num_arfcn c)); ("earfcn", JD (sc_earfcn c)); ("tac", JU (sc_tac c));
       ("phys_cell_id", JU (sc_phys_cell_id c)); ("cell_identity", JU (sc_cell_identity c));
       ("rsrp", JF (sc_rsrp c)); ("rsrq", JF (sc_rsrq c))].

Definition survey_tree (v : NetworkSurveyResult) : json :=
  obj [("fHasSummary", JBool (sv_fHasSummary v)); ("no_arfcn", JD (sv_no_arfcn v)); ("no_bcch", JD (sv_no_bcch v));
       ("cells", JArr (map surv_cell_tree (sv_cells v)))].

Definition server_tree (v : ServerInfo) : json :=
  obj [("conn_id", JU (si_conn_id v)); ("state", JText (to_str_server (si_state v))); ("protocol", JText (protocol v));
       ("address", JText (address v)); ("port", JU (port v)); ("has_data", JBool (fHasData v))].

Definition operator_tree (op : Operator) : json :=
  obj [("long_name", JText (long_name op)); ("short_name", JText (short_name op)); ("numeric", JText (numeric op));
       ("act", JText (to_str_tech (op_act op)))].

Definition csurv_cell_tree (c : CsurvCell) : json :=
  obj [("earfcn", JD (earfcn c)); ("rx_lev", JD (rx_lev c)); ("mcc", JU (mcc c)); ("mnc", JU (mnc c));
       ("cell_id", JU (cell_id c)); ("tac", JU (tac c)); ("cell_identity", JU (cell_identity c))].

Definition csurv_tree (r : CsurvResult) : json :=
  obj [("cells", JArr (map csurv_cell_tree (cells r))); ("fHasSummary", JBool (fHasSummary r));
       ("no_arfcn", JD (no_arfcn r)); ("no_bcch", JD (no_bcch r))].

Definition timers_tree (t : StateTimers) : json :=
  obj [("network_attaching_ms", JU (network_attaching_ms t)); ("pdp_context_opening_ms", JU (pdp_context_opening_ms t));
       ("data_ready_ms", JU (data_ready_ms t)); ("transparent_mode_ms", JU (transparent_mode_ms t));
       ("sleep_mode_ms", JU (sleep_mode_ms t)); ("off_mode_ms", JU (off_mode_ms t))].

Definition config_tree (c : NetworkLteConfig) : json :=
  obj [("cid", JU (cfg_cid c)); ("attach_timeout_sec", JU (attach_timeout_sec c));
       ("pdp_timeout_sec", JU (pdp_timeout_sec c)); ("data_ready_timeout_sec", JU (data_ready_timeout_sec c));
       ("transparent_timeout_sec", JU (transparent_timeout_sec c)); ("max_network_attempts", JU (max_network_attempts c));
       ("max_attach_retries", JU (max_attach_retries c)); ("max_pdp_retries", JU (max_pdp_retries c));
       ("default_lte_bands", JU (default_lte_bands c)); ("default_iot_tech", JText (to_str_tech (default_iot_tech c)));
       ("default_apn", JText (default_apn c)); ("fallback_lte_bands", JU (fallback_lte_bands c));
       ("fallback_iot_tech", JText (to_str_tech (fallback_iot_tech c))); ("fallback_apn", JText (fallback_apn c));
       ("plmn", JText (plmn c)); ("fPsmEnable", JBool (fPsmEnable c)); ("fCfunSleep", JBool (fCfunSleep c));
       ("psm_t3412", JU (psm_t3412 c)); ("psm_t3324", JU (psm_t3324 c)); ("conn_id", JU (cfg_conn_id c))].

Local Close Scope string_scope.

(** ** The texts are those of the trees *)

Lemma render_obj_cons k v l :
  render (obj ((k, v) :: l)) = LBRACE :: (quoted (lit k) ++ COLON :: render v) ++
    match l with [] => [RBRACE] | _ => COMMA :: tail (render (obj l)) end.
Proof. destruct l as [|[k' v'] l]; [done|]. unfold obj. cbn [map fst snd render]. cbn [join_comma tail]. by rewrite <- app_assoc. Qed.

Lemma render_bool b : render (JBool b) = true_false b.
Proof. done. Qed.

(** Writes the literals out and compares the texts piece by piece. *)
Ltac literals :=
  repeat match goal with
  | |- context [jlit ?s] => let t := eval vm_compute in (jlit s) in change (jlit s) with t
  | |- context [quoted (lit ?s)] => let t := eval vm_compute in (quoted (lit s)) in change (quoted (lit s)) with t
  end.

Ltac same_text :=
  repeat match goal with H : forallb text_ok _ = true |- _ => cbn [forallb] in H; bool_facts end;
  rewrite ?json_str_quoted, ?json_cstr_quoted by assumption;
  rewrite ?render_obj_cons; unfold JText, JU, JD, JF; cbn [render tail];
  rewrite ?quoted_reg, ?quoted_tech, ?quoted_context, ?quoted_fix, ?quoted_server, ?quoted_cell, ?quoted_psm;
  fold true_false; literals; cbv [LBRACE RBRACE LBRACKET RBRACKET COMMA COLON DQUOTE];
  repeat (rewrite <- app_assoc || cbn [app]); reflexivity.

Lemma swpkg_text v : to_json_swpkg v = render (swpkg_tree v).
Proof. unfold to_json_swpkg, swpkg_tree. same_text. Qed.

Lemma modem_info_text v : to_json_modem_info v = render (modem_info_tree v).
Proof. unfold to_json_modem_info, modem_info_tree. rewrite swpkg_text. generalize (swpkg_tree (sw_package_version v)) as t. intros t. same_text. Qed.

Lemma reg_info_tree_text v :
  forallb text_ok [lac v; ci v; operator_name v; apn v; active_time v; periodic_tau v] = true ->
  reg_info_text v = render (reg_info_tree v).
Proof. intros H. unfold reg_info_text, reg_info_tree. same_text. Qed.

Lemma network_info_text v : to_json_network_info v = render (network_info_tree v).
Proof. unfold to_json_network_info, network_info_tree. same_text. Qed.

Lemma signal_tree_text v : signal_text v = render (signal_tree v).
Proof. unfold signal_text, signal_tree. same_text. Qed.

Lemma gnss_text v : to_json_gnss v = render (gnss_tree v).
Proof. unfold to_json_gnss, gnss_tree. same_text. Qed.

Lemma cpsms_text v : to_json_cpsms v = render (cpsms_tree v).
Proof. unfold to_json_cpsms, cpsms_tree. same_text. Qed.

Lemma telit_cpsms_tree_text v : telit_cpsms_text v = render (telit_cpsms_tree v).
Proof. unfold telit_cpsms_text, telit_cpsms_tree. same_text. Qed.

Lemma telit_status_tree_text v : telit_status_text v = render (telit_status_tree v).
Proof. unfold telit_status_text, telit_status_tree. same_text. Qed.

Lemma surv_cell_tree_text c : text_ok (sc_cell_stat c) = true -> surv_cell_text c = render (surv_cell_tree c).
Proof. intros H. unfold surv_cell_text, surv_cell_tree. same_text. Qed.

Lemma server_tree_text v : forallb text_ok [protocol v; address v] = true -> server_text v = render (server_tree v).
Proof. intros H. unfold server_text, server_tree. same_text. Qed.

Lemma operator_text v : to_json_operator v = render (operator_tree v).
Proof. unfold to_json_operator, operator_tree. same_text. Qed.

Lemma csurv_cell_tree_text c : csurv_cell_text c = render (csurv_cell_tree c).
Proof. unfold csurv_cell_text, csurv_cell_tree. same_text. Qed.

Lemma timers_tree_text t : timers_text t = render (timers_tree t).
Proof. unfold timers_text, timers_tree. same_text. Qed.

Lemma config_tree_text c :
  forallb text_ok [default_apn c; fallback_apn c; plmn c] = true -> config_text c = render (config_tree c).
Proof. intros H. unfold config_text, config_tree. same_text. Qed.

(** ** The buffers are large enough *)

Lemma snprintf_fits n s : length s < n -> snprintf n s = s.
Proof. intros H. unfold snprintf. apply firstn_all2. lia. Qed.

Lemma fmt_u_digits_le n k : (0 <= n < 10 ^ Z.of_nat (S k))%Z -> length (fmt_u n) <= S k.
Proof. apply dec_digits_length. Qed.

Lemma fmt_u_le3 n : (0 <= n < 256)%Z -> length (fmt_u n) <= 3.
Proof. intros H. apply (fmt_u_digits_le n 2). cbn. lia. Qed.
Lemma fmt_u_le5 n : (0 <= n < 2 ^ 16)%Z -> length (fmt_u n) <= 5.
Proof. intros H. apply (fmt_u_digits_le n 4). cbn. lia. Qed.
Lemma fmt_u_le10 n : (0 <= n < 2 ^ 32)%Z -> length (fmt_u n) <= 10.
Proof. intros H. apply (fmt_u_digits_le n 9). cbn. lia. Qed.
Lemma fmt_u_le20 n : (0 <= n < 2 ^ 64)%Z -> length (fmt_u n) <= 20.
Proof. intros H. apply (fmt_u_digits_le n 19). cbn. lia. Qed.
Lemma fmt_d_le11 n : (- 2 ^ 31 <= n < 2 ^ 31)%Z -> length (fmt_d n) <= 11.
Proof.
  intros H. unfold fmt_d. destruct (n <? 0)%Z eqn:E; bool_facts.
  - pose proof (fmt_u_le10 (- n) ltac:(lia)). cbn [length]. lia.
  - pose proof (fmt_u_le10 n ltac:(lia)). lia.
Qed.
Lemma true_false_le5 b : length (true_false b) <= 5.
Proof. destruct b; cbn; lia. Qed.
Lemma tech_le7 v : length (to_str_tech v) <= 7.
Proof. destruct v; cbn; lia. Qed.
Lemma psm_le7 v : length (to_str_psm v) <= 7.
Proof. unfold to_str_psm. case_decide; cbn; lia. Qed.
Lemma server_le12 v : length (to_str_server v) <= 12.
Proof. destruct v; cbn; lia. Qed.
Lemma cell_le11 v : length (to_str_cell v) <= 11.
Proof. destruct v; cbn; lia. Qed.
Lemma psm_version_le v : (0 <= PsmVersion_val v < 256)%Z.
Proof. destruct v; cbn; lia. Qed.

(** Adds up the lengths of the pieces of a text. *)
Ltac literal_lengths :=
  repeat match goal with
  | |- context [length (jlit ?s)] => let n := eval vm_compute in (length (jlit s)) in change (length (jlit s)) with n
  end.

Ltac bound_pieces :=
  repeat match goal with
  | |- context [length (fmt_u ?n)] => match goal with
       | H : length (fmt_u n) <= _ |- _ => fail 1
       | _ => first [ pose proof (fmt_u_le3 n ltac:(lia)) | pose proof (fmt_u_le5 n ltac:(lia))
                    | pose proof (fmt_u_le10 n ltac:(lia)) | pose proof (fmt_u_le20 n ltac:(lia)) ]
       end;
       generalize dependent (length (fmt_u n)); intros
  | |- context [length (fmt_d ?n)] => pose proof (fmt_d_le11 n ltac:(lia)); generalize dependent (length (fmt_d n)); intros
  | |- context [length (true_false ?b)] => pose proof (true_false_le5 b); generalize dependent (length (true_false b)); intros
  | |- context [length (to_str_tech ?b)] => pose proof (tech_le7 b); generalize dependent (length (to_str_tech b)); intros
  | |- context [length (to_str_psm ?b)] => pose proof (psm_le7 b); generalize dependent (length (to_str_psm b)); intros
  | |- context [length (to_str_server ?b)] => pose proof (server_le12 b); generalize dependent (length (to_str_server b)); intros
  | |- context [length (to_str_cell ?b)] => pose proof (cell_le11 b); generalize dependent (length (to_str_cell b)); intros
  | |- context [length (json_cstr ?s)] => pose proof (length_json_cstr s); generalize dependent (length (json_cstr s)); intros
  end.

Ltac text_fits := rewrite !length_app; literal_lengths; bound_pieces; lia.

Lemma signal_fits v :
  int32 (rssi v) -> int32 (sig_ber v) -> int32 (rsrq v) -> int32 (rsrp v) -> int32 (rsrp_dbm v) ->
  length (signal_text v) < 128.
Proof. unfold int32. intros. unfold signal_text. text_fits. Qed.

Lemma telit_cpsms_fits v :
  (0 <= tc_req_periodic_rau v < 2 ^ 32)%Z -> (0 <= tc_req_gprs_ready_timer v < 2 ^ 32)%Z ->
  (0 <= tc_req_periodic_tau v < 2 ^ 32)%Z -> (0 <= tc_req_active_time v < 2 ^ 32)%Z ->
  (0 <= tc_psm_threshold v < 2 ^ 32)%Z -> length (telit_cpsms_text v) < 512.
Proof. intros. pose proof (psm_version_le (tc_psm_version v)). unfold telit_cpsms_text. text_fits. Qed.

Lemma telit_status_fits v :
  (0 <= ts_status v < 256)%Z -> (0 <= t3324 v < 2 ^ 32)%Z -> (0 <= t3412 v < 2 ^ 32)%Z ->
  (0 <= ts_psm_version v < 256)%Z -> (0 <= ts_psm_threshold v < 2 ^ 32)%Z -> length (telit_status_text v) < 256.
Proof. intros. unfold telit_status_text. text_fits. Qed.

(** 255 characters at most: the text of a server just fits. *)
Lemma server_fits v :
  (0 <= si_conn_id v < 256)%Z -> (0 <= port v < 2 ^ 16)%Z -> length (protocol v) <= MODEM_SHORT_STR ->
  length (address v) <= MODEM_IP_STR -> length (server_text v) < 256.
Proof. unfold MODEM_SHORT_STR, MODEM_IP_STR. intros. unfold server_text. text_fits. Qed.

Lemma csurv_cell_fits c : csurv_cell_ok c -> length (csurv_cell_text c) < 256.
Proof. unfold csurv_cell_ok, int32. intros. destruct_and!. unfold csurv_cell_text. text_fits. Qed.

Lemma timers_fits t : state_timers_ok t -> length (timers_text t) < 192.
Proof. unfold state_timers_ok. intros. destruct_and!. unfold timers_text. text_fits. Qed.

(** The members the serialiser writes, in the ranges of their types. *)
Definition config_members_ok (c : NetworkLteConfig) : Prop :=
  (0 <= cfg_cid c < 256)%Z /\ (0 <= attach_timeout_sec c < 256)%Z /\ (0 <= pdp_timeout_sec c < 256)%Z /\
  (0 <= data_ready_timeout_sec c < 256)%Z /\ (0 <= transparent_timeout_sec c < 2 ^ 16)%Z /\
  (0 <= max_network_attempts c < 256)%Z /\ (0 <= max_attach_retries c < 256)%Z /\ (0 <= max_pdp_retries c < 256)%Z /\
  (0 <= default_lte_bands c < 2 ^ 64)%Z /\ length (default_apn c) <= MODEM_MEDIUM_STR /\
  (0 <= fallback_lte_bands c < 2 ^ 64)%Z /\ length (fallback_apn c) <= MODEM_MEDIUM_STR /\
  length (plmn c) <= MODEM_SHORT_STR /\ (0 <= psm_t3412 c < 2 ^ 32)%Z /\ (0 <= psm_t3324 c < 2 ^ 32)%Z /\
  (0 <= cfg_conn_id c < 256)%Z.

Lemma config_fits c : config_members_ok c -> length (config_text c) < 1024.
Proof.
  unfold config_members_ok, MODEM_MEDIUM_STR, MODEM_SHORT_STR. intros. destruct_and!. unfold config_text.
  text_fits.
Qed.

(** A [float]: 24 bits of significand, exponent at most 104. *)
Definition f32_ok (f : spec_float) : Prop :=
  match f with S754_finite _ m e => (Zpos m < 2 ^ 24)%Z /\ (e <= 104)%Z | _ => True end.

Lemma fmt_f1_le42 f : f32_ok f -> length (fmt_f1 f) <= 42.
Proof.
  destruct f as [[]|[]| |s m e]; cbn [f32_ok]; try (cbn; lia). intros [Hm He]. unfold fmt_f1.
  set (t := if (0 <=? e)%Z then _ else _). assert (0 <= t <= 10 * 2 ^ 128)%Z as Ht.
  { unfold t. destruct (0 <=? e)%Z eqn:Ee; bool_facts.
    - split; [lia|]. transitivity (2 ^ 24 * 10 * 2 ^ 104)%Z; [|done].
      apply Z.mul_le_mono_nonneg; [lia|lia|lia|]. apply Z.pow_le_mono_r; lia.
    - split; [apply round_half_even_pos; [lia|]; apply Z.pow_pos_nonneg; lia|].
      unfold round_half_even. assert (Zpos m * 10 / 2 ^ (- e) <= 2 ^ 24 * 10)%Z.
      { transitivity (Zpos m * 10)%Z; [|lia]. apply Z.div_le_upper_bound; [apply Z.pow_pos_nonneg; lia|].
        pose proof (Z.pow_pos_nonneg 2 (- e)). nia. }
      assert (2 ^ 24 * 10 + 1 <= 10 * 2 ^ 128)%Z by done. repeat case_match; lia. }
  assert (length (fmt_u (t / 10)) <= 39).
  { apply (fmt_u_digits_le _ 38). split; [apply Z.div_pos; lia|].
    eapply Z.le_lt_trans; [apply Z.div_le_upper_bound; [|exact (proj2 Ht)]; lia|done]. }
  assert (length (fmt_u (t mod 10)) <= 1).
  { apply (fmt_u_digits_le _ 0). apply Z.mod_pos_bound. lia. }
  destruct s; cbn [length]; rewrite length_app; cbn [length]; lia.
Qed.

Definition surv_cell_ok (c : SurvCell) : Prop :=
  int32 (sc_arfcn c) /\ int32 (sc_bsic c) /\ int32 (sc_rx_lev c) /\ int32 (sc_ber c) /\
  (0 <= sc_mcc c < 2 ^ 16)%Z /\ (0 <= sc_mnc c < 2 ^ 16)%Z /\ (0 <= sc_lac c < 2 ^ 32)%Z /\
  (0 <= sc_cell_id c < 2 ^ 32)%Z /\ length (sc_cell_stat c) <= MODEM_SHORT_STR /\ text_ok (sc_cell_stat c) = true /\
  int32 (sc_num_arfcn c) /\ int32 (sc_earfcn c) /\ (0 <= sc_tac c < 2 ^ 32)%Z /\
  (0 <= sc_phys_cell_id c < 2 ^ 32)%Z /\ (0 <= sc_cell_identity c < 2 ^ 64)%Z /\
  f32_ok (sc_rsrp c) /\ f32_ok (sc_rsrq c) /\ finite_float (sc_rsrp c) = true /\ finite_float (sc_rsrq c) = true.

Lemma surv_cell_fits c : surv_cell_ok c -> length (surv_cell_text c) < 512.
Proof.
  unfold surv_cell_ok, int32, MODEM_SHORT_STR. intros. destruct_and!.
  pose proof (fmt_f1_le42 (sc_rsrp c) ltac:(done)). pose proof (fmt_f1_le42 (sc_rsrq c) ltac:(done)).
  unfold surv_cell_text. text_fits.
Qed.

(** ** Replies *)

(** What a [GET] can be answered with. *)
Inductive Reply :=
| R_modem_info (v : ModemInfo) | R_reg_info (v : RegistrationInfo) | R_network_info (v : NetworkInfo)
| R_signal (v : SignalQuality) | R_gnss (v : GnssPosition) | R_cpsms (v : CpsmsConfig)
| R_telit_cpsms (v : TelitCpsmsConfig) | R_telit_status (v : TelitCpsmsStatus) | R_survey (v : NetworkSurveyResult)
| R_server (v : ServerInfo) | R_operators (v : list Operator) | R_csurv (v : CsurvResult)
| R_timers (v : StateTimers) | R_config (v : NetworkLteConfig).

Definition reply_text (r : Reply) : str :=
  match r with
  | R_modem_info v => to_json_modem_info v | R_reg_info v => to_json_reg_info v
  | R_network_info v => to_json_network_info v | R_signal v => to_json_signal v | R_gnss v => to_json_gnss v
  | R_cpsms v => to_json_cpsms v | R_telit_cpsms v => to_json_telit_cpsms v
  | R_telit_status v => to_json_telit_status v | R_survey v => to_json_survey v | R_server v => to_json_server v
  | R_operators v => to_json_operators v | R_csurv v => to_json_csurv v | R_timers v => to_json_timers v
  | R_config v => config_to_json v
  end.

Definition reply_tree (r : Reply) : json :=
  match r with
  | R_modem_info v => modem_info_tree v | R_reg_info v => reg_info_tree v
  | R_network_info v => network_info_tree v | R_signal v => signal_tree v | R_gnss v => gnss_tree v
  | R_cpsms v => cpsms_tree v | R_telit_cpsms v => telit_cpsms_tree v
  | R_telit_status v => telit_status_tree v | R_survey v => survey_tree v | R_server v => server_tree v
  | R_operators v => JArr (map operator_tree v) | R_csurv v => csurv_tree v | R_timers v => timers_tree v
  | R_config v => config_tree v
  end.

(** Strings without control characters, numbers in the ranges of their types; the
    registration reply and the survey summaries short enough for their buffers. *)
Definition reply_ok (r : Reply) : Prop :=
  match r with
  | R_modem_info v =>
      forallb text_ok [imei v; imei_sv v; iccid v; imsi v; model_id v; telit_id v; identification v] = true /\
      forallb text_ok [package_version (sw_package_version v); modem_version (sw_package_version v);
                       prod_params_version (sw_package_version v); app_version (sw_package_version v)] = true
  | R_reg_info v =>
      forallb text_ok [lac v; ci v; operator_name v; apn v; active_time v; periodic_tau v] = true /\
      (0 <= ri_mode v)%Z /\ (0 <= cause_type v)%Z /\ (0 <= reject_cause v)%Z /\ length (reg_info_text v) < 512
  | R_network_info v => text_ok (ip_address v) = true
  | R_signal v => int32 (rssi v) /\ int32 (sig_ber v) /\ int32 (rsrq v) /\ int32 (rsrp v) /\ int32 (rsrp_dbm v)
  | R_gnss v =>
      forallb text_ok [utc v; latitude v; longitude v; hdop v; altitude v; cog v; spkm v; spkn v; date v; hepe v; vepe v] = true /\
      (0 <= nsat v)%Z
  | R_cpsms v =>
      forallb text_ok [req_periodic_rau v; req_gprs_ready_timer v; req_periodic_tau v; req_active_time v] = true
  | R_telit_cpsms v =>
      (0 <= tc_req_periodic_rau v < 2 ^ 32)%Z /\ (0 <= tc_req_gprs_ready_timer v < 2 ^ 32)%Z /\
      (0 <= tc_req_periodic_tau v < 2 ^ 32)%Z /\ (0 <= tc_req_active_time v < 2 ^ 32)%Z /\ (0 <= tc_psm_threshold v < 2 ^ 32)%Z
  | R_telit_status v =>
      (0 <= ts_status v < 256)%Z /\ (0 <= t3324 v < 2 ^ 32)%Z /\ (0 <= t3412 v < 2 ^ 32)%Z /\
      (0 <= ts_psm_version v < 256)%Z /\ (0 <= ts_psm_threshold v < 2 ^ 32)%Z
  | R_survey v => Forall surv_cell_ok (sv_cells v) /\ length (survey_header v) < 64
  | R_server v =>
      forallb text_ok [protocol v; address v] = true /\ (0 <= si_conn_id v < 256)%Z /\ (0 <= port v < 2 ^ 16)%Z /\
      length (protocol v) <= MODEM_SHORT_STR /\ length (address v) <= MODEM_IP_STR
  | R_operators v => Forall (fun o => forallb text_ok [long_name o; short_name o; numeric o] = true) v
  | R_csurv v => Forall csurv_cell_ok (cells v) /\ length (csurv_tail v) < 64
  | R_timers v => state_timers_ok v
  | R_config v => config_members_ok v /\ forallb text_ok [default_apn v; fallback_apn v; plmn v] = true
  end.

Lemma map_to_json {A} (f : A -> str) (tree : A -> json) (P : A -> Prop) l :
  (forall a, P a -> f a = render (tree a)) -> Forall P l -> map f l = map render (map tree l).
Proof. intros Hf. induction 1; cbn; [done|]. by rewrite Hf, IHForall. Qed.

Lemma to_json_surv_cell_text c : surv_cell_ok c -> to_json_surv_cell c = render (surv_cell_tree c).
Proof.
  intros Hc. unfold to_json_surv_cell. rewrite snprintf_fits by (by apply surv_cell_fits).
  apply surv_cell_tree_text. unfold surv_cell_ok in Hc. tauto.
Qed.

Lemma to_json_csurv_cell_text c : csurv_cell_ok c -> to_json_csurv_cell c = render (csurv_cell_tree c).
Proof.
  intros Hc. unfold to_json_csurv_cell. rewrite snprintf_fits by (by apply csurv_cell_fits). apply csurv_cell_tree_text.
Qed.

Lemma survey_text v :
  Forall surv_cell_ok (sv_cells v) -> length (survey_header v) < 64 -> to_json_survey v = render (survey_tree v).
Proof.
  intros Hc Hh. unfold to_json_survey. rewrite snprintf_fits, comma_list_join by done.
  rewrite (map_to_json _ surv_cell_tree _ _ to_json_surv_cell_text Hc). unfold survey_header, survey_tree.
  generalize (map surv_cell_tree (sv_cells v)) as l. intros l. same_text.
Qed.

Lemma csurv_text v :
  Forall csurv_cell_ok (cells v) -> length (csurv_tail v) < 64 -> to_json_csurv v = render (csurv_tree v).
Proof.
  intros Hc Hh. unfold to_json_csurv. rewrite snprintf_fits, comma_list_join by done.
  rewrite (map_to_json _ csurv_cell_tree _ _ to_json_csurv_cell_text Hc). unfold csurv_tail, csurv_tree.
  generalize (map csurv_cell_tree (cells v)) as l. intros l. same_text.
Qed.

Lemma reply_text_tree r : reply_ok r -> reply_text r = render (reply_tree r).
Proof.
  destruct r; cbn [reply_ok reply_text reply_tree]; intros H; destruct_and?.
  - apply modem_info_text.
  - unfold to_json_reg_info. rewrite snprintf_fits by done. by apply reg_info_tree_text.
  - apply network_info_text.
  - unfold to_json_signal. rewrite snprintf_fits by (by apply signal_fits). apply signal_tree_text.
  - apply gnss_text.
  - apply cpsms_text.
  - unfold to_json_telit_cpsms. rewrite snprintf_fits by (by apply telit_cpsms_fits). apply telit_cpsms_tree_text.
  - unfold to_json_telit_status. rewrite snprintf_fits by (by apply telit_status_fits). apply telit_status_tree_text.
  - by apply survey_text.
  - unfold to_json_server. rewrite snprintf_fits by (by apply server_fits). by apply server_tree_text.
  - unfold to_json_operators. rewrite comma_list_join.
    rewrite (map_to_json _ operator_tree _ _ (fun a _ => operator_text a) H). done.
  - by apply csurv_text.
  - unfold to_json_timers. rewrite snprintf_fits by (by apply timers_fits). apply timers_tree_text.
  - unfold config_to_json. rewrite snprintf_fits by (by apply config_fits). by apply config_tree_text.
Qed.

(** *** The trees are well formed *)

Lemma json_ok_obj l : json_ok (obj l) = forallb (fun kv => text_ok (lit (fst kv)) && json_ok (snd kv)) l.
Proof. unfold obj. induction l as [|[k v] l IH]; [done|]. cbn in *. by rewrite IH. Qed.

Lemma ok_text s : text_ok s = true -> json_ok (JText s) = true.
Proof. done. Qed.
Lemma ok_bool b : json_ok (JBool b) = true.
Proof. done. Qed.
Lemma ok_U n : (0 <= n)%Z -> json_ok (JU n) = true.
Proof. apply number_fmt_u. Qed.
Lemma ok_D n : json_ok (JD n) = true.
Proof. apply number_fmt_d. Qed.
Lemma ok_F f : finite_float f = true -> json_ok (JF f) = true.
Proof. apply number_fmt_f1. Qed.
Lemma ok_arr {A} (tree : A -> json) (P : A -> Prop) l :
  (forall a, P a -> json_ok (tree a) = true) -> Forall P l -> json_ok (JArr (map tree l)) = true.
Proof. intros Hf. induction 1; [done|]. cbn in *. by rewrite Hf. Qed.

Lemma ok_reg v : json_ok (JText (to_str_reg v)) = true.
Proof. by destruct v. Qed.
Lemma ok_tech v : json_ok (JText (to_str_tech v)) = true.
Proof. by destruct v. Qed.
Lemma ok_context v : json_ok (JText (to_str_context v)) = true.
Proof. by destruct v. Qed.
Lemma ok_fix v : json_ok (JText (to_str_fix v)) = true.
Proof. by destruct v. Qed.
Lemma ok_server v : json_ok (JText (to_str_server v)) = true.
Proof. by destruct v. Qed.
Lemma ok_cell v : json_ok (JText (to_str_cell v)) = true.
Proof. by destruct v. Qed.
Lemma ok_psm v : json_ok (JText (to_str_psm v)) = true.
Proof. unfold to_str_psm. by case_decide. Qed.

Create HintDb rpc discriminated.
#[export] Hint Resolve ok_bool ok_D ok_F ok_reg ok_tech ok_context ok_fix ok_server ok_cell ok_psm ok_text : rpc.
#[export] Hint Extern 1 (json_ok (JU _) = true) => apply ok_U; lia : rpc.
#[export] Hint Extern 1 (text_ok (lit _) = true) => reflexivity : rpc.

Ltac tree_ok :=
  repeat match goal with H : forallb text_ok _ = true |- _ => cbn [forallb] in H; bool_facts end;
  rewrite json_ok_obj; cbn [forallb fst snd];
  rewrite !andb_true_iff; split_and!; auto with rpc.

Lemma surv_cell_tree_ok c : surv_cell_ok c -> json_ok (surv_cell_tree c) = true.
Proof. unfold surv_cell_ok. intros. destruct_and!. unfold surv_cell_tree. tree_ok. Qed.

Lemma csurv_cell_tree_ok c : csurv_cell_ok c -> json_ok (csurv_cell_tree c) = true.
Proof. unfold csurv_cell_ok. intros. destruct_and!. unfold csurv_cell_tree. tree_ok. Qed.

Lemma operator_tree_ok o : forallb text_ok [long_name o; short_name o; numeric o] = true -> json_ok (operator_tree o) = true.
Proof. intros. unfold operator_tree. tree_ok. Qed.

Lemma swpkg_tree_ok v :
  forallb text_ok [package_version v; modem_version v; prod_params_version v; app_version v] = true ->
  json_ok (swpkg_tree v) = true.
Proof. intros. unfold swpkg_tree. tree_ok. Qed.

Lemma reply_tree_ok r : reply_ok r -> json_ok (reply_tree r) = true.
Proof.
  destruct r; cbn [reply_ok reply_tree]; intros H; destruct_and?.
  - pose proof (swpkg_tree_ok (sw_package_version v) ltac:(done)). unfold modem_info_tree. tree_ok.
  - unfold reg_info_tree. tree_ok.
  - unfold network_info_tree. tree_ok.
  - unfold signal_tree. tree_ok.
  - unfold gnss_tree. tree_ok.
  - unfold cpsms_tree. tree_ok.
  - pose proof (psm_version_le (tc_psm_version v)). unfold telit_cpsms_tree. tree_ok.
  - unfold telit_status_tree. tree_ok.
  - pose proof (ok_arr _ _ _ surv_cell_tree_ok ltac:(eassumption)). unfold survey_tree. tree_ok.
  - unfold server_tree. tree_ok.
  - by apply (ok_arr _ _ _ operator_tree_ok).
  - pose proof (ok_arr _ _ _ csurv_cell_tree_ok ltac:(eassumption)). unfold csurv_tree. tree_ok.
  - unfold state_timers_ok in H. destruct_and!. unfold timers_tree. tree_ok.
  - unfold config_members_ok in *. destruct_and!. unfold config_tree. tree_ok.
Qed.



(** A survey summary with two numbers of six digits is cut in the middle. *)
Lemma survey_header_truncated :
  json_parse (to_json_survey (mkSurvey [] false 123456 123456)) = None.
Proof. vm_compute. reflexivity. Qed.

(** A tab is not escaped, so the reply is no JSON. *)
Lemma tab_not_escaped : json_parse (to_json_network_info (mkNet ContextState_active [TAB])) = None.
Proof. vm_compute. reflexivity. Qed.

(** ** [SET CONFIG] *)

Fixpoint unwords (l : list str) : str :=
  match l with
  | [] => []
  | [x] => x
  | x :: l' => x ++ SPACE :: unwords l'
  end.

Definition assignment (kv : str * str) : str := fst kv ++ "="%char :: snd kv.

(** A key without ['='] that does not start with a blank, a value without blanks. *)
Definition assignment_ok (kv : str * str) : Prop :=
  find_char "="%char (fst kv) = None /\ match fst kv with c :: _ => ch_eqb c SPACE = false | [] => True end /\
  find_char SPACE (snd kv) = None.

(** The fields set one after the other. *)
Definition set_fields (kvs : list (str * str)) (r : bool * NetworkLteConfig) : bool * NetworkLteConfig :=
  foldl (fun r kv => let '(set_, cfg) := set_field (fst kv) (snd kv) (snd r) in (fst r || set_, cfg)) r kvs.

Lemma skip_blanks_assignment kv r : assignment_ok kv -> skip_blanks (assignment kv ++ r) = assignment kv ++ r.
Proof. destruct kv as [[|c k] v]; intros (_ & H & _); [done|]. cbn in *. by rewrite H. Qed.

Lemma assignment_split kv r : assignment_ok kv ->
  find_char "="%char (assignment kv ++ r) = Some (length (fst kv)) /\
  take (length (fst kv)) (assignment kv ++ r) = fst kv /\
  drop (S (length (fst kv))) (assignment kv ++ r) = snd kv ++ r.
Proof.
  intros (H & _ & _). unfold assignment. rewrite <- app_assoc. cbn [app]. split; [by apply find_char_app|].
  split; [apply take_app_length|]. rewrite <- Nat.add_1_r, <- drop_drop, drop_app_length. done.
Qed.

Lemma config_loop_fields kvs : forall fuel changed cfg,
  Forall assignment_ok kvs -> length kvs <= fuel ->
  config_loop fuel (unwords (map assignment kvs)) changed cfg = set_fields kvs (changed, cfg).
Proof.
  induction kvs as [|kv kvs IH]; intros [|fuel] changed cfg Hok Hf; cbn [length] in Hf; try done; try lia.
  apply Forall_cons in Hok as [Hkv Hok].
  change (set_fields (kv :: kvs) (changed, cfg)) with
    (set_fields kvs (let '(set_, cfg) := set_field (fst kv) (snd kv) cfg in (changed || set_, cfg))).
  assert (exists r, unwords (map assignment (kv :: kvs)) = assignment kv ++ r /\
    (r = [] /\ kvs = [] \/ r = SPACE :: unwords (map assignment kvs))) as (r & Er & Hr).
  { destruct kvs as [|kv' kvs]; [exists []; cbn; rewrite app_nil_r; by split; [|left]|]. eexists. split; [done|by right]. }
  rewrite Er. cbn [config_loop]. rewrite (skip_blanks_assignment _ _ Hkv).
  destruct (assignment_split kv r Hkv) as (E1 & E2 & E3). pose proof Hkv as (_ & _ & Hv).
  destruct (assignment kv ++ r) as [|c t] eqn:Ea.
  { unfold assignment in Ea. by destruct (fst kv). }
  rewrite E1, E2, E3. destruct Hr as [[-> ->]| ->].
  - rewrite app_nil_r, Hv. destruct (set_field (fst kv) (snd kv) cfg) as [b cfg']. by destruct fuel.
  - rewrite (find_char_app _ _ _ Hv), take_app_length.
    assert (drop (S (length (snd kv))) (snd kv ++ SPACE :: unwords (map assignment kvs)) = unwords (map assignment kvs)) as ->.
    { rewrite <- Nat.add_1_r, <- drop_drop, drop_app_length. done. }
    destruct (set_field (fst kv) (snd kv) cfg) as [b cfg']. apply IH; [done|lia].
Qed.

Lemma unwords_length kvs : length kvs <= length (unwords (map assignment kvs)).
Proof.
  induction kvs as [|kv [|kv' kvs] IH]; [done| |].
  - cbn. unfold assignment. rewrite length_app. cbn [length]. lia.
  - change (unwords (map assignment (kv :: kv' :: kvs))) with (assignment kv ++ SPACE :: unwords (map assignment (kv' :: kvs))).
    rewrite length_app. cbn [length] in *. lia.
Qed.

(** The parser reads a list of [key=value] words in order. *)
Lemma apply_config_fields_words kvs cfg :
  Forall assignment_ok kvs -> apply_config_fields (unwords (map assignment kvs)) cfg = set_fields kvs (false, cfg).
Proof. intros H. apply config_loop_fields; [done|apply unwords_length]. Qed.

(** *** Writing a whole configuration *)

Definition flag_text (b : bool) : str := if b then lit "on" else lit "off".

Local Open Scope string_scope.
Definition config_assignments (c : NetworkLteConfig) : list (str * str) :=
  map (fun kv => (lit (fst kv), snd kv))
  [("cid", fmt_u (cfg_cid c)); ("attach_timeout_sec", fmt_u (attach_timeout_sec c));
   ("pdp_timeout_sec", fmt_u (pdp_timeout_sec c)); ("data_ready_timeout_sec", fmt_u (data_ready_timeout_sec c));
   ("transparent_timeout_sec", fmt_u (transparent_timeout_sec c)); ("max_network_attempts", fmt_u (max_network_attempts c));
   ("max_attach_retries", fmt_u (max_attach_retries c)); ("max_pdp_retries", fmt_u (max_pdp_retries c));
   ("default_lte_bands", fmt_u (default_lte_bands c)); ("default_iot_tech", to_str_tech (default_iot_tech c));
   ("default_apn", default_apn c); ("fallback_lte_bands", fmt_u (fallback_lte_bands c));
   ("fallback_iot_tech", to_str_tech (fallback_iot_tech c)); ("fallback_apn", fallback_apn c); ("plmn", plmn c);
   ("fPsmEnable", flag_text (fPsmEnable c)); ("fCfunSleep", flag_text (fCfunSleep c));
   ("psm_t3412", fmt_u (psm_t3412 c)); ("psm_t3324", fmt_u (psm_t3324 c)); ("conn_id", fmt_u (cfg_conn_id c))].
Local Close Scope string_scope.

Definition writable_tech (t : RadioTech) : Prop :=
  t = RadioTech_gsm \/ t = RadioTech_lte \/ t = RadioTech_cat_m1 \/ t = RadioTech_nb_iot.

Lemma stoul_fmt_u n : (0 <= n < 2 ^ 64)%Z -> stoul (fmt_u n) = Some n.
Proof.
  intros Hn. unfold stoul. rewrite read_number_fmt_u by lia.
  assert (ULONG_MAX <? n = false)%Z as -> by (apply Z.ltb_ge; unfold ULONG_MAX; lia).
  unfold u64. by rewrite Z.mod_small.
Qed.

Lemma tech_roundtrip t : writable_tech t -> radio_tech_from_str (to_str_tech t) = t.
Proof. by intros [-> | [-> | [-> | ->]]]. Qed.

Lemma flag_roundtrip b : bool_from_str (flag_text b) = Some b.
Proof. by destruct b. Qed.

Lemma no_blank_fmt_u n : (0 <= n)%Z -> find_char SPACE (fmt_u n) = None.
Proof. intros Hn. by apply fmt_u_find. Qed.

(** One number written and stored. *)
Lemma set_number (key : String.string) k n cfg :
  find_key (lit key) = Some k -> key_kind k = Kind_number -> (0 <= n < 2 ^ 64)%Z ->
  set_field (lit key) (fmt_u n) cfg = (true, set_member k n RadioTech_unknown [] false cfg).
Proof. intros Hk Hkind Hn. unfold set_field. by rewrite Hk, Hkind, stoul_fmt_u. Qed.

Lemma set_tech (key : String.string) k t cfg :
  find_key (lit key) = Some k -> key_kind k = Kind_tech -> writable_tech t ->
  set_field (lit key) (to_str_tech t) cfg = (true, set_member k 0 t [] false cfg).
Proof. intros Hk Hkind Ht. unfold set_field. by rewrite Hk, Hkind, tech_roundtrip. Qed.

Lemma set_text (key : String.string) k s cfg :
  find_key (lit key) = Some k -> key_kind k = Kind_text ->
  set_field (lit key) s cfg = (true, set_member k 0 RadioTech_unknown s false cfg).
Proof. intros Hk Hkind. unfold set_field. by rewrite Hk, Hkind. Qed.

Lemma set_flag (key : String.string) k b cfg :
  find_key (lit key) = Some k -> key_kind k = Kind_flag ->
  set_field (lit key) (flag_text b) cfg = (true, set_member k 0 RadioTech_unknown [] b cfg).
Proof. intros Hk Hkind. unfold set_field. by rewrite Hk, Hkind, flag_roundtrip. Qed.

Definition config_words_ok (c : NetworkLteConfig) : Prop :=
  writable_tech (default_iot_tech c) /\ writable_tech (fallback_iot_tech c) /\
  find_char SPACE (default_apn c) = None /\ find_char SPACE (fallback_apn c) = None /\ find_char SPACE (plmn c) = None.

Lemma config_assignments_ok c : config_members_ok c -> config_words_ok c -> Forall assignment_ok (config_assignments c).
Proof.
  unfold config_members_ok, config_words_ok. intros. destruct_and!. unfold config_assignments. cbn [map fst snd].
  repeat (apply Forall_cons; split); try (split; [reflexivity|split; [reflexivity|cbn [fst snd]]]);
    try (apply no_blank_fmt_u; lia); try done.
  - by destruct (default_iot_tech c).
  - by destruct (fallback_iot_tech c).
  - by destruct (fPsmEnable c).
  - by destruct (fCfunSleep c).
Qed.

(** [gps_timeout_sec] has no key. *)
Definition with_gps_timeout (g : Z) (c : NetworkLteConfig) : NetworkLteConfig :=
  match c with
  | mkConfig a1 a2 a3 a4 a5 _ a7 a8 a9 b1 b2 b3 b4 b5 b6 b7 b8 b9 c1 c2 c3 =>
      mkConfig a1 a2 a3 a4 a5 g a7 a8 a9 b1 b2 b3 b4 b5 b6 b7 b8 b9 c1 c2 c3
  end.

Lemma set_fields_step k v kvs b cfg cfg' :
  set_field k v cfg = (true, cfg') -> set_fields ((k, v) :: kvs) (b, cfg) = set_fields kvs (true, cfg').
Proof. intros E. unfold set_fields. cbn [foldl fst snd]. by rewrite E, orb_true_r. Qed.

Ltac set_fields_steps :=
  repeat (erewrite set_fields_step;
    [|first [ eapply set_number; [vm_compute; reflexivity|reflexivity|lia]
            | eapply set_tech; [vm_compute; reflexivity|reflexivity|assumption]
            | eapply set_flag; [vm_compute; reflexivity|reflexivity]
            | eapply set_text; [vm_compute; reflexivity|reflexivity] ]];
    cbn [set_member]).

(** [SET CONFIG] is complete but for one member: writing the fields of a
    configuration as [key=value] words, with numbers in decimal, and applying the
    words to any configuration gives exactly the written configuration, except for
    [gps_timeout_sec], which has no key and stays as it was. *)
Theorem set_config_roundtrip c cfg :
  config_members_ok c -> config_words_ok c ->
  apply_config_fields (unwords (map assignment (config_assignments c))) cfg =
  (true, with_gps_timeout (gps_timeout_sec cfg) c).
Proof.
  intros Hm Hw. rewrite (apply_config_fields_words _ _ (config_assignments_ok c Hm Hw)).
  unfold config_members_ok, config_words_ok, MODEM_MEDIUM_STR, MODEM_SHORT_STR in *. destruct_and!.
  unfold config_assignments. cbn [map fst snd]. destruct cfg as [x1 x2 x3 x4 x5 x6 x7 x8 x9 x10 x11 x12 x13 x14 x15 x16 x17 x18 x19 x20 x21].
  set_fields_steps.
  change (set_fields [] ?r) with r. destruct c as [y1 y2 y3 y4 y5 y6 y7 y8 y9 y10 y11 y12 y13 y14 y15 y16 y17 y18 y19 y20 y21]. cbn [with_gps_timeout gps_timeout_sec cfg_cid attach_timeout_sec pdp_timeout_sec
    data_ready_timeout_sec transparent_timeout_sec max_network_attempts max_attach_retries max_pdp_retries default_lte_bands
    default_iot_tech default_apn fallback_lte_bands fallback_iot_tech fallback_apn plmn fPsmEnable fCfunSleep psm_t3412
    psm_t3324 cfg_conn_id] in *. unfold u8, u16, u32.
  rewrite !Z.mod_small by lia. by rewrite !fs_set_small by (unfold MODEM_MEDIUM_STR, MODEM_SHORT_STR; lia).
Qed.

(** A new access point in an old configuration. *)
Lemma set_config_roundtrip_witness :
  apply_config_fields (unwords (map assignment (config_assignments NetworkLteConfig_default)))
    (mkConfig 5 6 7 8 9 10 11 12 13 14 RadioTech_gsm (lit "old") 15 RadioTech_gsm [] [] false false 16 17 18) =
  (true, with_gps_timeout 10 NetworkLteConfig_default).
Proof.
  apply (set_config_roundtrip NetworkLteConfig_default
    (mkConfig 5 6 7 8 9 10 11 12 13 14 RadioTech_gsm (lit "old") 15 RadioTech_gsm [] [] false false 16 17 18)).
  - unfold config_members_ok, NetworkLteConfig_default, B3_8_20_BAND_MASK, MODEM_MEDIUM_STR, MODEM_SHORT_STR.
    cbn. repeat split; lia.
  - repeat split; try reflexivity; right; right; left; reflexivity.
Defined.

(** A word without ['='] takes the next one with it: [conn_id] is not set. *)
Lemma word_swallows_next :
  apply_config_fields (lit "verbose conn_id=3 cid=2") NetworkLteConfig_default =
  (true, set_member Key_cid 2 RadioTech_unknown [] false NetworkLteConfig_default).
Proof. reflexivity. Qed.
