(* ===== verification/RpcServer.v ===== *)
(** * The desktop RPC server (examples/desktop/app_rpc_server.cpp)

    A client sends a line, [GET <resource>] or [SET <resource> ...]; the server
    turns it into requests for the network thread, waits for the answers on the
    event flags and returns a line of text.  The network thread runs while the
    server waits: [worker timeout_ms] is what it does in a wait of that length,
    any computation on the channels and the radio. *)

From S2P Require Import Prelude CLib FixedString StaticVector Layout MessageChannel MessageQueue Timer.
From S2P Require Import ModemController Xe310Types Xe310 Survey Trace Hal NetworkTypes Typed NetworkLte.
From S2P Require Import RadioMessages RadioLte Json RpcHelpers.

Definition RPC_TIMEOUT_DEFAULT_MS : Z := 5000.
Definition RPC_TIMEOUT_CONNECT_MS : Z := 210000.
Definition RPC_TIMEOUT_DISCONNECT_MS : Z := 60000.
Definition RPC_TIMEOUT_FORCE_PSM_MS : Z := 30000.
Definition RPC_TIMEOUT_GNSS_MS : Z := 90000.
Definition MODEM_ACK_TIMEOUT_MS : Z := 3000.

(** ** Texts *)

(** [std::toupper] in the C locale. *)
Definition toupper (c : ascii) : ascii :=
  let n := nat_of_ascii c in if (97 <=? n) && (n <=? 122) then ascii_of_nat (n - 32) else c.

Definition to_upper (value : str) : str := map toupper value.

Definition normalize_token (token : str) : str :=
  map toupper (filter (fun c => ~ (c = "_"%char \/ c = "-"%char)) token).

Definition config_resources : list (list String.string * String.string) :=
  [(["CID"], "cid"); (["ATTACHTIMEOUTSEC"], "attach_timeout_sec"); (["PDPTIMEOUTSEC"], "pdp_timeout_sec");
   (["DATAREADYTIMEOUTSEC"], "data_ready_timeout_sec"); (["TRANSPARENTTIMEOUTSEC"], "transparent_timeout_sec");
   (["MAXNETWORKATTEMPTS"], "max_network_attempts"); (["MAXATTACHRETRIES"], "max_attach_retries");
   (["MAXPDPRETRIES"], "max_pdp_retries"); (["DEFAULTLTEBANDS"], "default_lte_bands");
   (["DEFAULTIOTTECH"], "default_iot_tech"); (["DEFAULTAPN"], "default_apn");
   (["FALLBACKLTEBANDS"], "fallback_lte_bands"); (["FALLBACKIOTTECH"], "fallback_iot_tech");
   (["FALLBACKAPN"], "fallback_apn"); (["PLMN"], "plmn"); (["FPSMENABLE"; "PSMENABLE"], "fPsmEnable");
   (["FCFUNSLEEP"; "CFUNSLEEP"], "fCfunSleep"); (["PSMT3412"], "psm_t3412"); (["PSMT3324"], "psm_t3324");
   (["CONNID"], "conn_id")]%string.

(** The chain of comparisons; the empty key when there is none. *)
Definition config_key_from_resource (resource : str) : str :=
  let key := normalize_token resource in
  match List.find (fun r => existsb (fun n => str_eqb key (lit n)) (fst r)) config_resources with
  | Some (_, k) => lit k
  | None => []
  end.

(** [for (char c : s) n = n * 10 + (c - '0')] on an [int]: [None] when a character
    is no digit, undefined when the number does not fit. *)
Fixpoint parse_int (n : Z) (s : str) : Outcome (option Z) :=
  match s with
  | [] => Done (Some n)
  | c :: r =>
      match digit_in 10 c with
      | None => Done None
      | Some d => if (n * 10 + d <? 2 ^ 31)%Z then parse_int (n * 10 + d) r else Undef
      end
  end.

(** [parse_next]: the next word and what is left; [None] for an empty word. *)
Definition parse_next (s : str) : option str * str :=
  let '(token, rest) := match find_char SPACE s with
                        | None => (s, [])
                        | Some sp => (take sp s, drop (S sp) s)
                        end in
  (if length token =? 0 then None else Some token, rest).

Definition out_of_range : str := lit "ERROR: conn_id out of range (1-5)".

Section Server.
Context {Ch : Type} {HCh : MessageChannel Ch} {C : Type} {HC : Controller C} {HR : Residue}.
Notation S := (Service Ch C).

(** The network thread during a wait, [network_worker_running], [lte_config.conn_id]
    and [get_network_state] of the context. *)
Variable worker : Z -> NL S unit.
Variable network_worker_running : bool.
Variable lte_conn_id : Z.
Variable get_network_state : NL S str.

Local Open Scope nl_scope.

(** [channels.send_request(msg, timeout_ms)]: a full channel waits for space. *)
Definition send_request_for {T} (c : Codec T) (msg : T) (timeout_ms : Z) : NL S MessageChannelError :=
  let* err := on_channels (send_request c msg) in
  if bool_decide (err = ChannelError_full) && negb (timeout_ms =? 0)%Z then
    worker timeout_ms ;;;
    let* err := on_channels (send_request c msg) in
    nl_ret (if bool_decide (err = ChannelError_full) then ChannelError_timeout else err)
  else nl_ret err.

(** [channels.wait(events, true, timeout_ms)]. *)
Definition wait_for (events timeout_ms : Z) : NL S Z :=
  let* matched := on_channels (wait events true) in
  if negb (matched =? 0)%Z || (timeout_ms =? 0)%Z then nl_ret matched
  else worker timeout_ms ;;; on_channels (wait events true).

Definition is_set (matched bit : Z) : bool := negb (Z.land matched bit =? 0)%Z.

(** [recv_typed_response(resp, 0)] and the pair made of it. *)
Definition receive_reply {T} (c : Codec T) (dflt : T) (err_text : str) (show : T -> str) : NL S (bool * str) :=
  let* (err, (ok, value)) := on_channels (recv_typed_response c (false, dflt)) in
  nl_ret (if bool_decide (err = ChannelError_ok) then (ok, show value) else (false, err_text)).

Definition wait_blocking_action_complete (timeout_ms : Z) : NL S (bool * str) :=
  let* (err, (ok, value)) := on_channels (recv_typed_response bool_c (false, false)) in
  if negb (bool_decide (err = ChannelError_ok)) then nl_ret (false, lit "ERROR: invalid ACK")
  else if negb ok || negb value then nl_ret (false, lit "ERROR: request not accepted")
  else
    let* done_ := wait_for MODEM_EVT_ACTION_DONE timeout_ms in
    if negb (is_set done_ MODEM_EVT_ACTION_DONE) then nl_ret (false, lit "ERROR: timeout waiting for completion")
    else
      let* (err, complete) := on_channels (recv_action_complete (mkComplete Req_get_registration_info false)) in
      if negb (bool_decide (err = ChannelError_ok)) then nl_ret (false, lit "ERROR: invalid completion response")
      else nl_ret (ac_result complete, true_false (ac_result complete)).

Definition request_csurv_result (timeout_ms : Z) : NL S (bool * str) :=
  let* err := send_request_for tx_msg_c (mkTxMsg Req_get_csurv_result 0 0) timeout_ms in
  if negb (bool_decide (err = ChannelError_ok)) then nl_ret (false, lit "ERROR: failed to send request")
  else
    let* matched := wait_for MODEM_EVT_RESPONSE timeout_ms in
    if negb (is_set matched MODEM_EVT_RESPONSE) then nl_ret (false, lit "ERROR: timeout waiting response")
    else receive_reply csurv_result_c CsurvResult_default (lit "ERROR: invalid csurv_result response") to_json_csurv.

Definition in_quotes (s : str) : str := DQUOTE :: s ++ [DQUOTE].

(** The answer to [get_server_info_array]: the pointer is that of the radio's
    array, which is read without the network thread's lock. *)
Definition server_info_reply (arg0 : Z) : NL S (bool * str) :=
  let* (err, (ok, ptr)) := on_channels (recv_typed_response u64_c (false, 0%Z)) in
  if negb (bool_decide (err = ChannelError_ok)) then nl_ret (false, lit "ERROR: invalid server_info_array response")
  else if negb ok || (ptr =? 0)%Z then nl_ret (false, lit "ERROR: server_info_array unavailable")
  else
    let* servers := nl_gets (fun s => serverInfo (radio s)) in
    if ((1 <=? arg0) && (arg0 <=? 5))%Z
    then nl_ret (true, to_json_server (default ServerInfo_default (servers !! Z.to_nat (arg0 - 1))))
    else nl_ret (true, lit "[" ++ comma_list to_json_server (take MAX_SERVER_CONNECTIONS servers) ++ lit "]").

(** The [switch]; [again] is the nested request of [acquire_gnss_position]. *)
Definition receive_answer (again : ModemTxMsg -> Z -> NL S (bool * str)) (msg : ModemTxMsg) (timeout_ms : Z)
  : NL S (bool * str) :=
  match tx_type msg with
  | Req_get_registration_info =>
      receive_reply registration_info_c RegistrationInfo_default (lit "ERROR: invalid registration_info response") to_json_reg_info
  | Req_get_signal_quality =>
      receive_reply signal_quality_c SignalQuality_default (lit "ERROR: invalid signal_quality response") to_json_signal
  | Req_get_iccid => receive_reply short_c [] (lit "ERROR: invalid iccid response") (fun v => in_quotes (cstr v))
  | Req_get_imsi => receive_reply short_c [] (lit "ERROR: invalid imsi response") (fun v => in_quotes (cstr v))
  | Req_get_clock => receive_reply short_c [] (lit "ERROR: invalid clock response") (fun v => in_quotes (cstr v))
  | Req_get_modem_info =>
      receive_reply modem_info_c ModemInfo_default (lit "ERROR: invalid modem_info response") to_json_modem_info
  | Req_get_sim_status =>
      receive_reply sim_status_c SimStatus_not_inserted (lit "ERROR: invalid sim_status response") (fun v => in_quotes (to_str_sim v))
  | Req_get_radio_tech =>
      receive_reply radio_tech_c RadioTech_gsm (lit "ERROR: invalid radio_tech response") (fun v => in_quotes (to_str_tech v))
  | Req_get_reg_status =>
      receive_reply reg_status_c RegStatus_not_registered (lit "ERROR: invalid reg_status response") (fun v => in_quotes (to_str_reg v))
  | Req_get_network_info =>
      receive_reply network_info_c NetworkInfo_default (lit "ERROR: invalid network_info response") to_json_network_info
  | Req_get_psm_mode =>
      receive_reply psm_mode_c PsmMode_disable (lit "ERROR: invalid psm_mode response") (fun v => in_quotes (to_str_psm v))
  | Req_get_cpsms_config =>
      receive_reply cpsms_config_c CpsmsConfig_default (lit "ERROR: invalid cpsms_config response") to_json_cpsms
  | Req_get_telit_cpsms_config =>
      receive_reply telit_cpsms_config_c TelitCpsmsConfig_default (lit "ERROR: invalid telit_cpsms_config response") to_json_telit_cpsms
  | Req_get_telit_cpsms_status =>
      receive_reply telit_cpsms_status_c TelitCpsmsStatus_default (lit "ERROR: invalid telit_cpsms_status response") to_json_telit_status
  | Req_get_network_survey_result =>
      receive_reply network_survey_c NetworkSurveyResult_default (lit "ERROR: invalid network_survey_result response") to_json_survey
  | Req_get_available_operators =>
      receive_reply operators_c [] (lit "ERROR: invalid available_operators response") to_json_operators
  | Req_get_csurv_result =>
      receive_reply csurv_result_c CsurvResult_default (lit "ERROR: invalid csurv_result response") to_json_csurv
  | Req_scan_networks =>
      let* (ok, err_msg) := wait_blocking_action_complete timeout_ms in
      if negb ok then nl_ret (false, err_msg) else request_csurv_result timeout_ms
  | Req_get_server_info_array => server_info_reply (arg0 msg)
  | Req_get_config => receive_reply config_c NetworkLteConfig_default (lit "ERROR: invalid config response") config_to_json
  | Req_get_timers => receive_reply state_timers_c StateTimers_default (lit "ERROR: invalid timers response") to_json_timers
  | Req_network_connect | Req_network_disconnect | Req_server_connect | Req_server_disconnect | Req_force_psm =>
      wait_blocking_action_complete timeout_ms
  | Req_get_gnss_position =>
      receive_reply gnss_position_msg_c GnssPosition_default (lit "ERROR: invalid gnss_position response") to_json_gnss_msg
  | Req_acquire_gnss_position =>
      let* (ok, err_msg) := wait_blocking_action_complete timeout_ms in
      if negb ok then nl_ret (false, err_msg) else again (mkTxMsg Req_get_gnss_position 0 0) timeout_ms
  | Req_set_config | Req_other _ =>
      let* (err, (ok, value)) := on_channels (recv_typed_response bool_c (false, false)) in
      nl_ret (if bool_decide (err = ChannelError_ok) then (ok && value, true_false value)
              else (false, lit "ERROR: invalid response"))
  end.

(** [request_radio_state_impl]: it calls itself once at most, for the position
    after an acquisition, so [depth = 2] is enough. *)
Fixpoint request_radio_state_impl (depth : nat) (msg : ModemTxMsg) (timeout_ms : Z) : NL S (bool * str) :=
  match depth with
  | 0 => nl_nofuel
  | Datatypes.S depth' =>
      if negb network_worker_running then nl_ret (false, lit "ERROR: network worker not running")
      else
        let* err := send_request_for tx_msg_c msg timeout_ms in
        if negb (bool_decide (err = ChannelError_ok)) then nl_ret (false, lit "ERROR: failed to send request")
        else
          let* matched := wait_for MODEM_EVT_RESPONSE MODEM_ACK_TIMEOUT_MS in
          if negb (is_set matched MODEM_EVT_RESPONSE) then nl_ret (false, lit "ERROR: timeout waiting response")
          else receive_answer (request_radio_state_impl depth') msg timeout_ms
  end.

Definition request_radio_state (type : RadioLteRequestType) (arg : Z) (timeout_ms : Z) : NL S (bool * str) :=
  request_radio_state_impl 2 (mkTxMsg type arg 0) timeout_ms.

Definition get_text (type : RadioLteRequestType) (arg : Z) : NL S str :=
  let* (_, payload) := request_radio_state type arg RPC_TIMEOUT_DEFAULT_MS in nl_ret payload.

(** ** [handle_request] *)

(** The resources of [GET] that are answered by one query. *)
Definition get_resources : list (String.string * RadioLteRequestType) :=
  [("CONFIG", Req_get_config); ("MODEMINFO", Req_get_modem_info); ("CLOCK", Req_get_clock);
   ("SIMSTATUS", Req_get_sim_status); ("RADIOTECH", Req_get_radio_tech); ("REGSTATUS", Req_get_reg_status);
   ("REGINFO", Req_get_registration_info); ("NETWORKINFO", Req_get_network_info);
   ("SIGNALQUALITY", Req_get_signal_quality); ("PSMMODE", Req_get_psm_mode); ("CPSMSCONFIG", Req_get_cpsms_config);
   ("TELITCPSMSCONFIG", Req_get_telit_cpsms_config); ("TELITCPSMSSTATUS", Req_get_telit_cpsms_status);
   ("SURVEYRESULT", Req_get_network_survey_result); ("OPERATORLIST", Req_get_available_operators);
   ("TIMERS", Req_get_timers); ("GNSS", Req_get_gnss_position)]%string.

Definition lift_outcome {A} (o : Outcome A) : NL S A := fun s =>
  match o with Done a => Done (a, s) | Undef => Undef | NoFuel => NoFuel end.

Definition handle_get (sub : str) : NL S str :=
  if str_eqb sub (lit "SCANSURVEY") then
    let* (_, payload) := request_radio_state Req_scan_networks 0 210000 in nl_ret payload
  else match List.find (fun r => str_eqb sub (lit (fst r))) get_resources with
  | Some (_, type) => get_text type 0
  | None =>
      if str_eqb sub (lit "STATE") then get_network_state
      else if starts_with (lit "SERVERINFO") sub then
        let arg := if 10 <? length sub then drop 11 sub else [] in
        if negb (length arg =? 0) then
          let* n := lift_outcome (parse_int 0 arg) in
          match n with
          | None => nl_ret (lit "ERROR: invalid conn_id")
          | Some n => if ((1 <=? n) && (n <=? 5))%Z then get_text Req_get_server_info_array n
                      else nl_ret out_of_range
          end
        else get_text Req_get_server_info_array 0
      else nl_ret (lit "ERROR: unknown GET resource")
  end.

Definition no_valid_fields : str := lit "ERROR: no valid fields provided (use key=value pairs)".

(** The lambda [apply_config_update]. *)
Definition apply_config_update (update_expr : str) : NL S str :=
  let* cfg := nl_gets (fun s => lteConfig (radio s)) in
  let '(changed, cfg) := apply_config_fields update_expr cfg in
  if negb changed then nl_ret no_valid_fields
  else
    let* err := send_request_for set_config_msg_c (mkSetConfigMsg Req_set_config cfg) 5000 in
    if negb (bool_decide (err = ChannelError_ok)) then nl_ret (lit "ERROR: failed to send set_config request")
    else
      let* matched := wait_for MODEM_EVT_RESPONSE MODEM_ACK_TIMEOUT_MS in
      if negb (is_set matched MODEM_EVT_RESPONSE) then nl_ret (lit "ERROR: timeout waiting set_config response")
      else
        let* (err, (ok, value)) := on_channels (recv_typed_response bool_c (false, false)) in
        if negb (bool_decide (err = ChannelError_ok)) || negb ok || negb value then nl_ret no_valid_fields
        else get_text Req_get_config 0.

Definition set_network_connect : NL S str :=
  let* (ok, payload) := request_radio_state Req_network_connect 0 RPC_TIMEOUT_CONNECT_MS in
  if negb ok then nl_ret payload
  else nl_ret (jlit "{'resource':'NETWORKCONNECT','network_connect':" ++ payload ++ jlit "}").

Definition set_network_disconnect (args : str) : NL S str :=
  let disconnect_from (conn_id : Z) : NL S str :=
    let* (server_ok, server_payload) := request_radio_state Req_server_disconnect (u32 conn_id) RPC_TIMEOUT_DISCONNECT_MS in
    if negb server_ok then nl_ret server_payload
    else
      let* (network_ok, network_payload) := request_radio_state Req_network_disconnect 0 RPC_TIMEOUT_DISCONNECT_MS in
      if negb network_ok then nl_ret network_payload
      else nl_ret (jlit "{'resource':'NETWORKDISCONNECT','conn_id':" ++ fmt_d conn_id ++
                   jlit ",'server_disconnect':" ++ server_payload ++ jlit ",'network_disconnect':" ++ network_payload ++ jlit "}") in
  if length args =? 0 then disconnect_from lte_conn_id
  else
    let* n := lift_outcome (parse_int 0 args) in
    match n with
    | None => nl_ret (lit "ERROR: invalid conn_id")
    | Some n => if ((n <? 1) || (5 <? n))%Z then nl_ret out_of_range else disconnect_from n
    end.

(** [SET SERVERCONNECT]: the words of its arguments. *)
Definition parse_server_connect (args : str) : Outcome (str + ModemServerConnectMsg) :=
  let '(tok, rest) := parse_next args in
  match tok with
  | None => Done (inl (lit "ERROR: missing conn_id"))
  | Some tok =>
      match parse_int 0 tok with
      | Undef => Undef
      | NoFuel => NoFuel
      | Done id =>
          match id with
          | Some id =>
              if ((id <? 1) || (5 <? id))%Z then Done (inl (lit "ERROR: invalid conn_id (1-5)"))
              else
                let '(tok, rest) := parse_next rest in
                match tok with
                | None => Done (inl (lit "ERROR: missing protocol"))
                | Some proto =>
                    let '(tok, rest) := parse_next rest in
                    match tok with
                    | None => Done (inl (lit "ERROR: missing ip/dns"))
                    | Some ip =>
                        let '(tok, rest) := parse_next rest in
                        match tok with
                        | None => Done (inl (lit "ERROR: missing port"))
                        | Some port =>
                            match parse_int 0 port with
                            | Undef => Undef
                            | NoFuel => NoFuel
                            | Done (Some p) =>
                                if ((p <? 1) || (65535 <? p))%Z then Done (inl (lit "ERROR: invalid port"))
                                else Done (inr (mkConnectMsg Req_server_connect (u8 id) (u16 p)
                                                  (fs_set MODEM_SHORT_STR (cstr proto)) (fs_set MODEM_MEDIUM_STR (cstr ip))))
                            | Done None => Done (inl (lit "ERROR: invalid port"))
                            end
                        end
                    end
                end
          | None => Done (inl (lit "ERROR: invalid conn_id (1-5)"))
          end
      end
  end.

Definition set_server_connect (args : str) : NL S str :=
  let* parsed := lift_outcome (parse_server_connect args) in
  match parsed with
  | inl err_text => nl_ret err_text
  | inr m =>
      if negb network_worker_running then nl_ret (lit "ERROR: network worker not running")
      else
        let* err := send_request_for connect_msg_c m RPC_TIMEOUT_CONNECT_MS in
        if negb (bool_decide (err = ChannelError_ok)) then nl_ret (lit "ERROR: failed to send server_connect request")
        else
          let* matched := wait_for MODEM_EVT_RESPONSE MODEM_ACK_TIMEOUT_MS in
          if negb (is_set matched MODEM_EVT_RESPONSE) then nl_ret (lit "ERROR: timeout waiting server_connect response")
          else
            let* (sc_ok, sc_err) := wait_blocking_action_complete RPC_TIMEOUT_CONNECT_MS in
            if negb sc_ok then nl_ret sc_err
            else nl_ret (jlit "{'resource':'SERVERCONNECT','conn_id':" ++ fmt_u (cm_conn_id m) ++
                         jlit ",'protocol':'" ++ cstr (cm_protocol m) ++ jlit "','ip':'" ++ cstr (cm_ip m) ++
                         jlit "','port':" ++ fmt_u (cm_port m) ++ jlit ",'server_connect':" ++ true_false sc_ok ++ jlit "}")
  end.

Definition handle_set (sub_orig sub : str) : NL S str :=
  let sp2 := find_char SPACE sub in
  let res := match sp2 with None => sub | Some i => take i sub end in
  let args := match sp2 with None => [] | Some i => drop (Datatypes.S i) sub_orig end in
  if str_eqb res (lit "NETWORKCONNECT") || str_eqb res (lit "CONNECT") then set_network_connect
  else if str_eqb res (lit "NETWORKDISCONNECT") || str_eqb res (lit "DISCONNECT") then set_network_disconnect args
  else if str_eqb res (lit "SERVERCONNECT") then set_server_connect args
  else if str_eqb res (lit "CONFIG") then apply_config_update args
  else
    let config_key := config_key_from_resource res in
    if negb (length config_key =? 0) then
      if length args =? 0 then nl_ret (lit "ERROR: missing value")
      else apply_config_update (config_key ++ "="%char :: args)
    else if str_eqb res (lit "FORCEPSM") then
      let* (ok, payload) := request_radio_state Req_force_psm 0 RPC_TIMEOUT_FORCE_PSM_MS in
      if negb ok then nl_ret payload
      else nl_ret (jlit "{'resource':'FORCEPSM','status':" ++ payload ++ jlit "}")
    else if str_eqb res (lit "GNSS") then
      let* (_, payload) := request_radio_state Req_acquire_gnss_position 0 RPC_TIMEOUT_GNSS_MS in nl_ret payload
    else nl_ret (lit "ERROR: unknown SET resource").

Definition handle_request (request : str) : NL S str :=
  let sp := find_char SPACE request in
  let cmd := to_upper (match sp with None => request | Some i => take i request end) in
  let sub_orig := match sp with None => [] | Some i => drop (Datatypes.S i) request end in
  let sub := to_upper sub_orig in
  if str_eqb cmd (lit "GET") then handle_get sub
  else if str_eqb cmd (lit "SET") then handle_set sub_orig sub
  else nl_ret (lit "ERROR: unknown command - use GET <resource>, SET CONFIG <key>=<value>, SET NETWORKDISCONNECT [conn_id], or SET SERVERCONNECT <conn_id> <protocol> <ip> <port>").

(** The lambda of [RpcServer::start]: the bytes sent back for a message; the
    length passed on is an [uint16_t]. *)
Definition on_rpc_message (request : str) : NL S (str * Z) :=
  let* response := handle_request request in
  let response := response ++ CRLF in
  nl_ret (response, u16 (Z.of_nat (length response))).

End Server.
