(* ===== verification/RpcServerProps.v ===== *)
(** * Properties of the RPC server

    The server composed with the network thread it talks to: while the server
    waits, the thread serves the queued requests.  The texts the server returns
    are then functions of the radio's state and operations. *)

From S2P Require Import Prelude CLib FixedString StaticVector Layout MessageChannel MessageQueue Timer.
From S2P Require Import ModemController Xe310Types Xe310 Survey Trace Hal NetworkTypes Typed NetworkLte NetworkInv NetworkSafety.
From S2P Require Import ControllerProps NetworkApi NetworkProps.
From S2P Require Import RadioMessages RadioLte RadioLteProps Json RpcHelpers RpcHelpersProps RpcServer.

(** ** Event flags *)

Lemma land_bit e i : (0 <= i)%Z -> Z.land e (2 ^ i) = if Z.testbit e i then (2 ^ i)%Z else 0%Z.
Proof.
  intros Hi. apply Z.bits_inj'. intros j Hj. rewrite Z.land_spec, Z.pow2_bits_eqb by lia.
  destruct (i =? j)%Z eqn:E; bool_facts.
  - subst j. destruct (Z.testbit e i); [by rewrite Z.pow2_bits_true by lia|by rewrite Z.bits_0].
  - rewrite andb_false_r. destruct (Z.testbit e i); [by rewrite Z.pow2_bits_false by lia|by rewrite Z.bits_0].
Qed.

Section Flags.
Context {Ch : Type} {HCh : MessageChannel Ch} {HL : MessageChannelLaws Ch}.

(** Waiting for one bit takes it, or finds it clear. *)
Lemma wait_bit i e tx rx rest (ch : RadioLteChannels Ch) :
  (0 <= i)%Z -> holds tx (rx, e) rest ch ->
  exists ch', wait (2 ^ i) true ch = (if Z.testbit e i then (2 ^ i)%Z else 0%Z, ch') /\
              holds tx (rx, Z.clearbit e i) rest ch'.
Proof.
  intros Hi (Htx & Hrx & He & Hrest). unfold wait, EventFlags.wait. rewrite He. cbn [snd]. rewrite land_bit by done.
  assert (0 < 2 ^ i)%Z as Hpos by (apply Z.pow_pos_nonneg; lia).
  destruct (Z.testbit e i) eqn:Eb.
  - destruct (2 ^ i =? 0)%Z eqn:E; bool_facts; [lia|]. cbn [negb]. eexists. split; [done|].
    unfold holds. cbn. split_and!; [done|done|by rewrite Z.clearbit_spec', Z.ldiff_land|done].
  - eexists. split; [done|]. unfold holds. cbn. split_and!; [done|done| |done].
    apply Z.bits_inj'. intros j Hj. rewrite Z.clearbit_eqb. destruct (i =? j)%Z eqn:E; bool_facts; [|by rewrite andb_true_r].
    subst j. by rewrite Eb.
Qed.

End Flags.

(** ** Requests as text *)

Lemma find_char_upper s : find_char SPACE (to_upper s) = find_char SPACE s.
Proof.
  induction s as [|c s IH]; [done|]. change (to_upper (c :: s)) with (toupper c :: to_upper s).
  unfold find_char in *. cbn [find_if]. rewrite IH. by destruct c as [[] [] [] [] [] [] [] []].
Qed.

Lemma request_split request cmd rest :
  to_upper request = cmd ++ SPACE :: rest -> find_char SPACE cmd = None ->
  find_char SPACE request = Some (length cmd) /\ to_upper (take (length cmd) request) = cmd /\
  to_upper (drop (S (length cmd)) request) = rest.
Proof.
  intros E Hc. unfold to_upper in *. rewrite <- find_char_upper. unfold to_upper.
  rewrite <- firstn_map, <- skipn_map, E, (find_char_app _ _ _ Hc), take_app_length. split; [done|]. split; [done|].
  by rewrite <- Nat.add_1_r, <- drop_drop, drop_app_length.
Qed.

(** *** Numbers and words *)

Lemma read_digits_le s : forall acc, (0 <= acc)%Z -> decimal s -> (acc <= fst (read_digits 10 acc s))%Z.
Proof.
  induction s as [|c s IH]; intros acc Ha Hs; [simpl; lia|]. inversion Hs as [|? ? (d & Hd & ->) Hs']; subst.
  cbn [read_digits]. rewrite digit_in_char by done. specialize (IH (acc * 10 + d)%Z ltac:(lia) Hs'). lia.
Qed.

(** Reading a decimal number into an [int]: its value, or signed overflow. *)
Lemma parse_int_decimal s : forall acc, (0 <= acc < 2 ^ 31)%Z -> decimal s ->
  let v := fst (read_digits 10 acc s) in
  parse_int acc s = if (v <? 2 ^ 31)%Z then Done (Some v) else Undef.
Proof.
  induction s as [|c s IH]; intros acc Ha Hs.
  { cbn [read_digits parse_int fst]. by destruct (acc <? 2 ^ 31)%Z eqn:E; bool_facts; [|lia]. }
  inversion Hs as [|? ? (d & Hd & ->) Hs']; subst. cbn [read_digits parse_int]. rewrite digit_in_char by done.
  destruct (acc * 10 + d <? 2 ^ 31)%Z eqn:E; bool_facts; [apply IH; [lia|done]|].
  pose proof (read_digits_le s (acc * 10 + d)%Z ltac:(lia) Hs'). cbv zeta.
  by destruct (_ <? 2 ^ 31)%Z eqn:E2; bool_facts; [lia|].
Qed.

Lemma parse_int_fmt_u k : (0 <= k)%Z -> parse_int 0 (fmt_u k) = if (k <? 2 ^ 31)%Z then Done (Some k) else Undef.
Proof.
  intros Hk. pose proof (read_digits_dec _ _ 0 [] (log2_fuel k Hk)) as Hr. fold (fmt_u k) in Hr.
  rewrite app_nil_r, Z.mul_0_l, Z.add_0_l in Hr.
  rewrite (parse_int_decimal (fmt_u k) 0 ltac:(lia) (fmt_u_decimal k Hk)), Hr. done.
Qed.

Lemma parse_next_word w r : w <> [] -> find_char SPACE w = None -> parse_next (w ++ SPACE :: r) = (Some w, r).
Proof.
  intros Hw Hf. unfold parse_next. rewrite (find_char_app _ _ _ Hf), take_app_length.
  rewrite <- Nat.add_1_r, <- drop_drop, drop_app_length. by destruct w.
Qed.

Lemma parse_next_last w : w <> [] -> find_char SPACE w = None -> parse_next w = (Some w, []).
Proof. intros Hw Hf. unfold parse_next. rewrite Hf. by destruct w. Qed.

(** *** Numbers that cannot overflow *)

(** Ten digits in a row somewhere in the text. *)
Definition ten_digits (s : str) : bool := (10 <=? length s) && forallb is_digit (take 10 s).

Fixpoint long_number (s : str) : bool :=
  match s with
  | [] => false
  | _ :: r => ten_digits s || long_number r
  end.

Lemma is_digit_upper c : is_digit (toupper c) = is_digit c.
Proof. by destruct c as [[] [] [] [] [] [] [] []]. Qed.

Lemma long_number_upper s : long_number (to_upper s) = long_number s.
Proof.
  induction s as [|c s IH]; [done|]. change (to_upper (c :: s)) with (toupper c :: to_upper s).
  cbn [long_number]. rewrite IH. f_equal. change (toupper c :: to_upper s) with (map toupper (c :: s)).
  unfold ten_digits. rewrite length_map, firstn_map. f_equal. induction (take 10 (c :: s)) as [|d l IHl]; [done|].
  cbn. by rewrite is_digit_upper, IHl.
Qed.

Lemma long_number_drop i s : long_number (drop i s) = true -> long_number s = true.
Proof.
  revert i. induction s as [|c s IH]; intros [|i]; try done. cbn [drop]. intros H. apply IH in H. cbn [long_number].
  rewrite H. apply orb_true_r.
Qed.

Lemma ten_digits_take i s : ten_digits (take i s) = true -> ten_digits s = true.
Proof.
  unfold ten_digits. rewrite length_take, take_take. intros H. bool_facts. apply andb_true_intro.
  split; [apply Nat.leb_le; lia|]. by replace (10 `min` i) with 10 in * by lia.
Qed.

Lemma long_number_take i s : long_number (take i s) = true -> long_number s = true.
Proof.
  revert i. induction s as [|c s IH]; intros [|i]; try done. change (take (S i) (c :: s)) with (c :: take i s).
  cbn [long_number]. intros H. apply orb_true_iff in H as [H|H].
  - change (c :: take i s) with (take (S i) (c :: s)) in H. by rewrite (ten_digits_take _ _ H).
  - rewrite (IH _ H). apply orb_true_r.
Qed.

Lemma digit_in_is_digit c d : digit_in 10 c = Some d -> is_digit c = true /\ (0 <= d < 10)%Z.
Proof. destruct c as [[] [] [] [] [] [] [] []]; vm_compute; intros [=]; subst; by split. Qed.

(** An overflow takes ten digits. *)
Lemma parse_int_overflow s : forall acc k, parse_int acc s = Undef -> (0 <= acc < 10 ^ Z.of_nat k)%Z -> k < 10 ->
  10 - k <= length s /\ forallb is_digit (take (10 - k) s) = true.
Proof.
  induction s as [|c s IH]; intros acc k H Ha Hk; cbn [parse_int] in H; [done|].
  destruct (digit_in 10 c) as [d|] eqn:Ed; [|done]. destruct (digit_in_is_digit _ _ Ed) as [Hc Hd].
  replace (10 - k) with (S (9 - k)) by lia. cbn [length take forallb]. rewrite Hc.
  destruct (decide (k = 9)) as [->|Hne]; [cbn; split; [lia|done]|].
  assert (10 ^ Z.of_nat (S k) = 10 * 10 ^ Z.of_nat k)%Z as Hp by (rewrite Nat2Z.inj_succ; apply Z.pow_succ_r; lia).
  assert (10 ^ Z.of_nat (S k) <= 10 ^ 9)%Z by (apply Z.pow_le_mono_r; lia).
  destruct (acc * 10 + d <? 2 ^ 31)%Z eqn:E; bool_facts; [|lia].
  destruct (IH _ (S k) H) as [H1 H2]; [lia|lia|]. replace (10 - S k) with (9 - k) in * by lia. split; [lia|done].
Qed.

Lemma parse_int_defined s : long_number s = false -> parse_int 0 s <> Undef.
Proof.
  intros Hl H. destruct (parse_int_overflow s 0 0 H ltac:(simpl; lia) ltac:(lia)) as [H1 H2].
  rewrite Nat.sub_0_r in H1, H2. destruct s as [|c s]; [simpl in H1; lia|]. cbn [long_number] in Hl. apply orb_false_iff in Hl as [Hl _].
  unfold ten_digits in Hl. rewrite H2 in Hl. by rewrite (proj2 (Nat.leb_le _ _) H1) in Hl.
Qed.

Lemma parse_int_total acc s : parse_int acc s <> NoFuel.
Proof.
  revert acc. induction s as [|c s IH]; intros acc; cbn [parse_int]; [done|].
  destruct (digit_in 10 c); [|done]. by destruct (_ <? _)%Z.
Qed.

Lemma parse_next_numbers s tok rest :
  parse_next s = (tok, rest) -> long_number s = false ->
  long_number rest = false /\ (forall w, tok = Some w -> long_number w = false).
Proof.
  unfold parse_next. intros H Hl.
  assert (forall i, long_number (drop i s) = false /\ long_number (take i s) = false) as Hs.
  { intros i. split; apply not_true_is_false; intros Hx; [apply long_number_drop in Hx|apply long_number_take in Hx]; congruence. }
  destruct (find_char SPACE s) as [sp|]; injection H as <- <-; split; try done; try apply Hs; intros w Hw;
    [destruct (length (take sp s) =? 0)|destruct (length s =? 0)]; try done; injection Hw as <-; [apply Hs|done].
Qed.

(** A server message that was accepted has a valid number. *)
Lemma parse_server_connect_safe args :
  long_number args = false ->
  match parse_server_connect args with
  | Done (inr m) => cm_type m = Req_server_connect /\ valid_id (cm_conn_id m) = true /\ connect_msg_ok m
  | Done (inl _) => True
  | _ => False
  end.
Proof.
  intros Hl. unfold parse_server_connect. destruct (parse_next args) as [[w1|] r1] eqn:E1; [|done].
  destruct (parse_next_numbers _ _ _ E1 Hl) as [Hl1 Hw1]. specialize (Hw1 _ eq_refl).
  pose proof (parse_int_defined _ Hw1). pose proof (parse_int_total 0 w1).
  destruct (parse_int 0 w1) as [[id|]| |]; try done. destruct ((id <? 1) || (5 <? id))%Z eqn:Eid; [done|].
  destruct (parse_next r1) as [[w2|] r2] eqn:E2; [|done]. destruct (parse_next_numbers _ _ _ E2 Hl1) as [Hl2 _].
  destruct (parse_next r2) as [[w3|] r3] eqn:E3; [|done]. destruct (parse_next_numbers _ _ _ E3 Hl2) as [Hl3 _].
  destruct (parse_next r3) as [[w4|] r4] eqn:E4; [|done]. destruct (parse_next_numbers _ _ _ E4 Hl3) as [_ Hw4].
  specialize (Hw4 _ eq_refl). pose proof (parse_int_defined _ Hw4). pose proof (parse_int_total 0 w4).
  destruct (parse_int 0 w4) as [[p|]| |]; try done. destruct ((p <? 1) || (65535 <? p))%Z eqn:Ep; [done|].
  bool_facts. cbn [cm_type cm_conn_id]. unfold u8, u16. rewrite !Z.mod_small by lia.
  split; [done|]. split; [unfold valid_id; apply andb_true_intro; split; apply Z.leb_le; lia|].
  unfold connect_msg_ok. cbn. split_and!; done || lia || apply length_fs_set.
Qed.

(** *** Requests that act on the radio *)

Inductive RpcAction :=
| Rpc_connect | Rpc_disconnect (conn : Z) | Rpc_server_connect (conn : Z) (proto ip : str) (port : Z)
| Rpc_force_psm | Rpc_gnss | Rpc_scan_survey.

Definition action_request (a : RpcAction) : str :=
  match a with
  | Rpc_connect => lit "SET NETWORKCONNECT"
  | Rpc_disconnect k => lit "SET NETWORKDISCONNECT " ++ fmt_u k
  | Rpc_server_connect k proto ip p =>
      lit "SET SERVERCONNECT " ++ fmt_u k ++ SPACE :: proto ++ SPACE :: ip ++ SPACE :: fmt_u p
  | Rpc_force_psm => lit "SET FORCEPSM"
  | Rpc_gnss => lit "SET GNSS"
  | Rpc_scan_survey => lit "GET SCANSURVEY"
  end.

Definition word_ok (max : nat) (w : str) : Prop :=
  0 < length w <= max /\ find_char SPACE w = None /\ find_char NUL w = None.

Definition action_ok (a : RpcAction) : Prop :=
  match a with
  | Rpc_disconnect k => (1 <= k <= 5)%Z
  | Rpc_server_connect k proto ip p =>
      (1 <= k <= 5)%Z /\ (1 <= p <= 65535)%Z /\ word_ok MODEM_SHORT_STR proto /\ word_ok MODEM_MEDIUM_STR ip
  | _ => True
  end.

Lemma cstr_word w : find_char NUL w = None -> cstr w = w.
Proof.
  intros H. apply cstr_id. apply find_if_None in H. eapply Forall_impl; [exact H|]. intros c Hc.
  unfold ch_eqb in *. by rewrite Ascii.eqb_sym.
Qed.

Lemma parse_server_connect_words k proto ip p :
  action_ok (Rpc_server_connect k proto ip p) ->
  parse_server_connect (fmt_u k ++ SPACE :: proto ++ SPACE :: ip ++ SPACE :: fmt_u p) =
  Done (inr (mkConnectMsg Req_server_connect k p proto ip)).
Proof.
  intros (Hk & Hp & (Hpl & Hps & Hpn) & (Hil & His & Hin)). unfold parse_server_connect.
  rewrite parse_next_word by (apply fmt_u_ne || (apply fmt_u_find; [lia|done])).
  rewrite parse_int_fmt_u by lia. destruct (k <? 2 ^ 31)%Z eqn:E1; bool_facts; [|lia].
  destruct ((k <? 1) || (5 <? k))%Z eqn:E2; bool_facts; [lia|].
  rewrite (parse_next_word proto) by (done || (by intros ->; simpl in Hpl; lia)).
  rewrite (parse_next_word ip) by (done || (by intros ->; simpl in Hil; lia)).
  rewrite parse_next_last by (apply fmt_u_ne || (apply fmt_u_find; [lia|done])).
  rewrite parse_int_fmt_u by lia. destruct (p <? 2 ^ 31)%Z eqn:E3; bool_facts; [|lia].
  destruct ((p <? 1) || (65535 <? p))%Z eqn:E4; bool_facts; [lia|].
  rewrite !cstr_word, !fs_set_small by (done || lia). unfold u8, u16. by rewrite !Z.mod_small by lia.
Qed.

(** *** A configuration stays in the ranges of its types *)

Lemma tech_from_str_ok v : tech_ok (radio_tech_from_str v).
Proof. unfold radio_tech_from_str. by repeat case_match. Qed.

Lemma set_member_ok k m t w b cfg :
  config_ok cfg -> tech_ok t -> (0 <= m < 2 ^ 64)%Z -> config_ok (set_member k m t w b cfg).
Proof.
  intros Hc Ht Hm. unfold config_ok in *.
  destruct cfg as [x1 x2 x3 x4 x5 x6 x7 x8 x9 x10 x11 x12 x13 x14 x15 x16 x17 x18 x19 x20 x21].
  assert (0 <= u8 m < 256 /\ 0 <= u16 m < 2 ^ 16 /\ 0 <= u32 m < 2 ^ 32)%Z as (? & ? & ?)
    by (unfold u8, u16, u32; split_and!; apply Z.mod_pos_bound; lia).
  destruct k; cbn [set_member cfg_cid attach_timeout_sec pdp_timeout_sec
    data_ready_timeout_sec transparent_timeout_sec gps_timeout_sec max_network_attempts max_attach_retries max_pdp_retries
    default_lte_bands default_iot_tech default_apn fallback_lte_bands fallback_iot_tech fallback_apn plmn fPsmEnable
    fCfunSleep psm_t3412 psm_t3324 cfg_conn_id] in *;
    destruct_and! Hc; split_and!; first [assumption | lia | apply length_fs_set].
Qed.

Lemma stoul_range w m : stoul w = Some m -> (0 <= m < 2 ^ 64)%Z.
Proof.
  unfold stoul. destruct (read_number 10 w) as [[[neg v] r]|]; [|done]. destruct (ULONG_MAX <? v)%Z; [done|].
  injection 1 as <-. unfold u64. apply Z.mod_pos_bound. lia.
Qed.

Lemma set_field_ok key val cfg : config_ok cfg -> config_ok (snd (set_field key val cfg)).
Proof.
  intros Hc. unfold set_field. destruct (find_key key) as [k|]; [|done].
  destruct (key_kind k); [destruct (stoul val) as [m|] eqn:E| | |destruct (bool_from_str val)]; try done;
    apply set_member_ok; try done; try lia; [by apply stoul_range in E|apply tech_from_str_ok].
Qed.

Lemma config_loop_ok fuel : forall rest changed cfg, config_ok cfg -> config_ok (snd (config_loop fuel rest changed cfg)).
Proof.
  induction fuel as [|fuel IH]; intros rest changed cfg Hc; [done|]. cbn [config_loop].
  destruct (skip_blanks rest) as [|c t]; [done|]. destruct (find_char "="%char (c :: t)) as [eq|]; [|done].
  destruct (find_char SPACE (drop (S eq) (c :: t))) as [sp|];
    match goal with |- context [set_field ?k ?v cfg] => pose proof (set_field_ok k v cfg Hc); destruct (set_field k v cfg) end;
    by apply IH.
Qed.

Lemma apply_config_fields_ok args cfg cfg' b :
  config_ok cfg -> apply_config_fields args cfg = (b, cfg') -> config_ok cfg'.
Proof.
  intros Hc E. change cfg' with (snd (b, cfg')). rewrite <- E. by apply config_loop_ok.
Qed.

(** ** One exchange *)

Lemma deliver_action t b e :
  foldl deliver ([], e) [reply bool_c true; completion t b] =
  ([snd (reply bool_c true); snd (completion t b)], EventFlags.set (EventFlags.set e MODEM_EVT_RESPONSE) MODEM_EVT_ACTION_DONE).
Proof.
  cbn [foldl]. rewrite deliver_fits; [|rewrite length_ack; unfold MESSAGE_CHANNEL_MAX_DATA; lia|apply Nat.lt_0_succ].
  rewrite deliver_fits; [done|rewrite length_completion; unfold MESSAGE_CHANNEL_MAX_DATA; lia|].
  apply -> Nat.succ_lt_mono. apply Nat.lt_0_succ.
Qed.

Section Exchange.
Context {Ch : Type} {HCh : MessageChannel Ch} {HL : MessageChannelLaws Ch}.
Context {C : Type} {HC : Controller C} {HR : Residue}.
Variable ptr : Z.
Variable n fuel rounds : nat.
Hypothesis enough_rounds : MODEM_TX_Q_DEPTH < rounds.

Notation S := (Service Ch C).
Notation L := (NetworkLte C).
Local Open Scope nl_scope.

(** The network thread serves the requests while the server waits. *)
Definition serving : Z -> NL S unit := fun _ => process_radio_requests ptr n fuel rounds.

(** Queues empty, no notification pending. *)
Definition idle (rest : Ch * (NetworkLteState * NetworkLteEvent)) (s : S) : Prop :=
  exists e, holds [] ([], e) rest (channels s) /\ Z.testbit e 1 = false /\ Z.testbit e 4 = false.

Lemma on_channels_done {A} (m : ST (RadioLteChannels Ch) A) (s : S) a ch :
  m (channels s) = (a, ch) -> on_channels m s = Done (a, mkService ch (radio s)).
Proof. intros E. unfold on_channels. by rewrite E. Qed.

Lemma bind_done {A B} (m : NL S A) (k : A -> NL S B) s a s1 : m s = Done (a, s1) -> nl_bind m k s = k a s1.
Proof. intros E. unfold nl_bind. by rewrite E. Qed.

Lemma send_request_now {T} (c : Codec T) v t e rest (s : S) :
  holds [] ([], e) rest (channels s) -> sized c -> sizeof c <= MESSAGE_CHANNEL_MAX_DATA ->
  exists ch', send_request_for serving c v t s = Done (ChannelError_ok, mkService ch' (radio s)) /\
              holds [enc c v] ([], Z.lor e 1) rest ch'.
Proof using HL.
  intros Hh Hs Hc. destruct (send_request_rel c v _ _ _ _ _ Hh Hs Hc) as (ch' & E & Hh'); [apply Nat.lt_0_succ|].
  exists ch'. split; [|exact Hh']. unfold send_request_for.
  rewrite (bind_done _ _ _ _ _ (on_channels_done _ _ _ _ E)). done.
Qed.

(** What the wait for the response bit finds once the thread has served. *)
Lemma wait_served x t e rest (s : S) msgs r' rx e' :
  holds [x] ([], e) rest (channels s) -> Z.testbit e 1 = false -> (t =? 0)%Z = false ->
  serve ptr n fuel [x] (radio s) = Done (msgs, r') -> foldl deliver ([], e) msgs = (rx, e') ->
  exists s', wait_for serving MODEM_EVT_RESPONSE t s = Done (if Z.testbit e' 1 then 2%Z else 0%Z, s') /\ radio s' = r' /\
             holds [] (rx, Z.clearbit e' 1) rest (channels s').
Proof using HL enough_rounds.
  intros Hh He Ht Hs Hd. unfold wait_for. change MODEM_EVT_RESPONSE with (2 ^ 1)%Z.
  destruct (wait_bit 1 _ _ _ _ _ ltac:(lia) Hh) as (ch1 & E1 & Hh1). rewrite He in E1.
  rewrite (bind_done _ _ _ _ _ (on_channels_done _ _ _ _ E1)), Ht. cbn [negb orb Z.eqb].
  assert (length [x] < rounds) as Hr by (cbn; unfold MODEM_TX_Q_DEPTH in enough_rounds; lia).
  destruct (process_serves ptr n fuel _ _ _ rounds ch1 (radio s) _ _ Hs Hr Hh1) as (s2 & E2 & Hr2 & Hh2).
  rewrite (bind_done _ _ _ _ _ E2).
  assert (Z.clearbit e 1 = e) as Hce.
  { apply Z.bits_inj'. intros j Hj. rewrite Z.clearbit_eqb. destruct (1 =? j)%Z eqn:E; bool_facts; [|by rewrite andb_true_r].
    subst j. by rewrite He. }
  rewrite Hce, Hd in Hh2. destruct (wait_bit 1 _ _ _ _ _ ltac:(lia) Hh2) as (ch3 & E3 & Hh3).
  rewrite (on_channels_done _ _ _ _ E3). eexists. split; [done|]. done.
Qed.

(** A request sent and its response awaited. *)
Lemma exchange {T} (c : Codec T) v t t' rest (s : S) msgs r' :
  idle rest s -> sized c -> sizeof c <= MESSAGE_CHANNEL_MAX_DATA -> (t' =? 0)%Z = false ->
  serve ptr n fuel [enc c v] (radio s) = Done (msgs, r') ->
  exists e s1 s2, Z.testbit e 1 = false /\ Z.testbit e 4 = false /\
    send_request_for serving c v t s = Done (ChannelError_ok, s1) /\
    let '(rx, e') := foldl deliver ([], e) msgs in
    wait_for serving MODEM_EVT_RESPONSE t' s1 = Done (if Z.testbit e' 1 then 2%Z else 0%Z, s2) /\ radio s2 = r' /\
    holds [] (rx, Z.clearbit e' 1) rest (channels s2).
Proof using HL enough_rounds.
  intros (e & Hh & H1 & H4) Hs Hc Ht Hsv. destruct (send_request_now c v t _ _ _ Hh Hs Hc) as (ch1 & E1 & Hh1).
  assert (Z.testbit (Z.lor e 1) 1 = false) as Hb by (by rewrite Z.lor_spec, H1).
  destruct (foldl deliver ([], Z.lor e 1) msgs) as [rx e'] eqn:Ed.
  destruct (wait_served _ t' _ rest (mkService ch1 (radio s)) _ _ _ _ Hh1 Hb Ht Hsv Ed) as (s2 & E2 & Hr2 & Hh2).
  exists (Z.lor e 1), (mkService ch1 (radio s)), s2. rewrite Ed. split_and!; try done. by rewrite Z.lor_spec, H4.
Qed.

(** ** Queries *)

(** The text made of the member a query returns. *)
Definition shown (t : RadioLteRequestType) (r : L) : str :=
  match t with
  | Req_get_registration_info => to_json_reg_info (regInfo r)
  | Req_get_signal_quality => to_json_signal (signalQuality r)
  | Req_get_iccid => in_quotes (cstr (iccid (modemInfo (unwritten_ r))))
  | Req_get_imsi => in_quotes (cstr (imsi (modemInfo (unwritten_ r))))
  | Req_get_clock => in_quotes (cstr (modemClock r))
  | Req_get_sim_status => in_quotes (to_str_sim (simStatus (unwritten_ r)))
  | Req_get_radio_tech => in_quotes (to_str_tech (radioTech (unwritten_ r)))
  | Req_get_reg_status => in_quotes (to_str_reg (regStatus (unwritten_ r)))
  | Req_get_network_info => to_json_network_info (networkInfo r)
  | Req_get_psm_mode => in_quotes (to_str_psm (psmMode (unwritten_ r)))
  | Req_get_cpsms_config => to_json_cpsms (cpsmsConfig (unwritten_ r))
  | Req_get_telit_cpsms_config => to_json_telit_cpsms (telitCpsmsConfig (unwritten_ r))
  | Req_get_telit_cpsms_status => to_json_telit_status (telitCpsmsStatus (unwritten_ r))
  | Req_get_config => config_to_json (lteConfig r)
  | Req_get_timers => to_json_timers (stateTimers_ r)
  | Req_get_gnss_position => to_json_gnss_msg (to_gnss_position_msg (gnssPosition r))
  | _ => []
  end.

Lemma receive_reply_rel {T} (c : Codec T) ok v dflt err_text show rx e rest (s : S) :
  0 < alignof c -> sized c -> decodes c ok -> ok v ->
  holds [] (snd (reply c v) :: rx, e) rest (channels s) ->
  exists s', receive_reply c dflt err_text show s = Done ((true, show v), s') /\ radio s' = radio s /\
             holds [] (rx, e) rest (channels s').
Proof using HL.
  intros Ha Hs Hd Hv Hh. destruct (recv_reply c v ok (false, dflt) _ _ _ _ _ Ha Hs Hd Hv Hh) as (ch' & E & Hh').
  exists (mkService ch' (radio s)). split; [|done]. unfold receive_reply.
  by rewrite (bind_done _ _ _ _ _ (on_channels_done _ _ _ _ E)).
Qed.

Lemma receive_query t q again a timeout e rest (s : S) :
  query ptr t = Some q -> oversize t = false -> t <> Req_get_server_info_array -> member_ok t (radio s) ->
  holds [] ([snd (q (radio s))], e) rest (channels s) ->
  exists s', receive_answer serving again (mkTxMsg t a 0) timeout s = Done ((true, shown t (radio s)), s') /\
             radio s' = radio s /\ holds [] ([], e) rest (channels s').
Proof using HL enough_rounds.
  intros Hq Ho Hn Hm Hh. destruct t; cbn [query oversize] in Hq, Ho; try discriminate; try done; injection Hq as <-;
    cbn [member_ok] in Hm; cbn [receive_answer tx_type shown];
    match type of Hh with holds _ ([snd (reply ?c ?v)], _) _ _ =>
      eapply (receive_reply_rel c _ v); [vm_compute; lia|solve [eauto 60 with codec]|solve [eauto with codec]|exact Hm|exact Hh]
    end.
Qed.

(** The radio when the member is read: the clock is refreshed first. *)
Definition before (t : RadioLteRequestType) (r : L) : L :=
  if decide (t = Req_get_clock) then snd (refresh_clock r) else r.

Lemma serve_query t q a r :
  query ptr t = Some q -> (0 <= a < 2 ^ 32)%Z ->
  serve ptr n fuel [enc tx_msg_c (mkTxMsg t a 0)] r = Done ([q (before t r)], before t r).
Proof.
  intros Hq Ha. destruct (query_is_query (C := C) ptr n fuel t q Hq) as (Hn & Hn1 & Hn2 & Hact). cbn [serve].
  rewrite answer_sent by (done || (split; [done|]; simpl; lia)). unfold answer_tx, before.
  assert (action (C := C) n fuel (mkTxMsg t a 0) = None) as -> by (by destruct t).
  cbn [tx_type]. unfold nl_bind, lift. case_decide; [|by rewrite Hq].
  destruct (refresh_clock r) as [st r']. by rewrite Hq.
Qed.

(** What a client gets for a query. *)
Definition query_text (t : RadioLteRequestType) (r : L) : bool * str :=
  if oversize t then (false, lit "ERROR: timeout waiting response") else (true, shown t r).

Lemma idle_after e rest (s : S) :
  holds [] ([], Z.clearbit e 1) rest (channels s) -> Z.testbit e 4 = false -> idle rest s.
Proof. intros Hh H4. exists (Z.clearbit e 1). split; [done|]. rewrite !Z.clearbit_eqb, H4. split; [apply andb_false_r|done]. Qed.

Lemma request_query depth t q a timeout rest (s : S) :
  idle rest s -> query (C := C) ptr t = Some q -> t <> Req_get_server_info_array -> (0 <= a < 2 ^ 32)%Z ->
  member_ok t (before t (radio s)) ->
  exists s', request_radio_state_impl serving true (Datatypes.S depth) (mkTxMsg t a 0) timeout s =
               Done (query_text t (before t (radio s)), s') /\
             radio s' = before t (radio s) /\ idle rest s'.
Proof using HL enough_rounds.
  intros Hi Hq Hn Ha Hm. destruct sized_messages as (Hst & _).
  destruct (exchange tx_msg_c (mkTxMsg t a 0) timeout MODEM_ACK_TIMEOUT_MS rest s _ _ Hi Hst
              ltac:(vm_compute; lia) eq_refl (serve_query t q a (radio s) Hq Ha))
    as (e & s1 & s2 & H1 & H4 & E1 & Hw).
  cbn [foldl] in Hw. unfold deliver, spec_send in Hw. destruct (query_size ptr t q (before t (radio s)) Hq) as [Hbit Hsz].
  cbn [fst snd length] in Hw. rewrite Hsz, Hbit in Hw. unfold query_text. cbn [request_radio_state_impl negb].
  rewrite (bind_done _ _ _ _ _ E1). destruct (oversize t) eqn:Eo.
  - destruct Hw as (E2 & Hr2 & Hh2). rewrite H1 in E2. rewrite bool_decide_true by done. cbn [negb].
    rewrite (bind_done _ _ _ _ _ E2). exists s2. split; [done|]. split; [done|]. by apply (idle_after e).
  - change (MODEM_RX_Q_DEPTH <=? 0) with false in Hw. cbn iota beta zeta delta [app] in Hw. set (e' := EventFlags.set e MODEM_EVT_RESPONSE) in Hw.
    assert (Z.testbit e' 1 = true) as Hb by (unfold e', EventFlags.set; rewrite Z.lor_spec; apply orb_true_r).
    assert (Z.testbit e' 4 = false) as Hb4 by (unfold e', EventFlags.set; by rewrite Z.lor_spec, H4).
    rewrite Hb in Hw. destruct Hw as (E2 & Hr2 & Hh2). rewrite bool_decide_true by done. cbn [negb].
    rewrite (bind_done _ _ _ _ _ E2). rewrite <- Hr2 in Hh2, Hm |- *.
    destruct (receive_query t q (request_radio_state_impl serving true depth) a timeout _ _ s2 Hq Eo Hn Hm Hh2)
      as (s3 & E3 & Hr3 & Hh3).
    exists s3. split; [exact E3|]. split; [done|]. by apply (idle_after e').
Qed.

Variable conn_id : Z.
Variable state_text : NL S str.

Lemma handle_get_request request sub (s : S) :
  to_upper request = lit "GET " ++ sub ->
  handle_request serving true conn_id state_text request s = handle_get serving true state_text sub s.
Proof.
  intros E. destruct (request_split request (lit "GET") sub E eq_refl) as (E1 & E2 & E3).
  unfold handle_request. by rewrite E1, E2, E3.
Qed.

(** What [GET] promises for a resource: its name and the text made of the radio's
    member ([None] where the reply exceeds a frame). *)
Record Resource := mkResource { res_name : String.string; res_text : L -> option str }.

Definition resources : list Resource :=
  [ mkResource "CONFIG" (fun r => Some (config_to_json (lteConfig r)));
    mkResource "MODEMINFO" (fun _ => None);
    mkResource "CLOCK" (fun r => Some (in_quotes (cstr (modemClock r))));
    mkResource "SIMSTATUS" (fun r => Some (in_quotes (to_str_sim (simStatus (unwritten_ r)))));
    mkResource "RADIOTECH" (fun r => Some (in_quotes (to_str_tech (radioTech (unwritten_ r)))));
    mkResource "REGSTATUS" (fun r => Some (in_quotes (to_str_reg (regStatus (unwritten_ r)))));
    mkResource "REGINFO" (fun r => Some (to_json_reg_info (regInfo r)));
    mkResource "NETWORKINFO" (fun r => Some (to_json_network_info (networkInfo r)));
    mkResource "SIGNALQUALITY" (fun r => Some (to_json_signal (signalQuality r)));
    mkResource "PSMMODE" (fun r => Some (in_quotes (to_str_psm (psmMode (unwritten_ r)))));
    mkResource "CPSMSCONFIG" (fun r => Some (to_json_cpsms (cpsmsConfig (unwritten_ r))));
    mkResource "TELITCPSMSCONFIG" (fun r => Some (to_json_telit_cpsms (telitCpsmsConfig (unwritten_ r))));
    mkResource "TELITCPSMSSTATUS" (fun r => Some (to_json_telit_status (telitCpsmsStatus (unwritten_ r))));
    mkResource "SURVEYRESULT" (fun _ => None);
    mkResource "OPERATORLIST" (fun _ => None);
    mkResource "TIMERS" (fun r => Some (to_json_timers (stateTimers_ r)));
    mkResource "GNSS" (fun r => Some (to_json_gnss_msg (to_gnss_position_msg (gnssPosition r)))) ]%string.

Definition refreshed (name : String.string) (r : L) : L := if String.eqb name "CLOCK" then snd (refresh_clock r) else r.

Lemma resource_query res :
  In res resources ->
  exists t q, handle_get serving true state_text (lit (res_name res)) = get_text serving true t 0 /\
    query (C := C) ptr t = Some q /\ t <> Req_get_server_info_array /\ (forall r, before t r = refreshed (res_name res) r) /\
    forall r, snd (query_text t r) = default (lit "ERROR: timeout waiting response") (res_text res r).
Proof.
  intros H. repeat (destruct H as [<-|H]; [by eexists _, _|]). destruct H.
Qed.


(** ** Blocking actions *)

(** The acknowledgement and the completion are there. *)
Definition acted_state (t : RadioLteRequestType) (b : bool) rest (s : S) : Prop :=
  exists e, holds [] ([snd (reply bool_c true); snd (completion t b)], e) rest (channels s) /\
            Z.testbit e 1 = false /\ Z.testbit e 4 = true.

Lemma wait_complete t b timeout rest (s : S) :
  named_request t -> acted_state t b rest s ->
  exists s', wait_blocking_action_complete serving timeout s = Done ((b, true_false b), s') /\
             radio s' = radio s /\ idle rest s'.
Proof using HL enough_rounds.
  intros Ht (e & Hh & H1 & H4). unfold wait_blocking_action_complete.
  destruct (recv_reply bool_c true (fun _ => True) (false, false) _ _ _ _ _ ltac:(simpl; lia) sized_bool decodes_bool I Hh)
    as (ch1 & E1 & Hh1).
  rewrite (bind_done _ _ _ _ _ (on_channels_done _ _ _ _ E1)). rewrite bool_decide_true by done. cbn [negb orb].
  destruct (wait_bit 4 _ _ _ _ _ ltac:(lia) Hh1) as (ch2 & E2 & Hh2). rewrite H4 in E2.
  assert (wait_for serving MODEM_EVT_ACTION_DONE timeout (mkService ch1 (radio s)) = Done (16%Z, mkService ch2 (radio s)))
    as Ew.
  { unfold wait_for. change MODEM_EVT_ACTION_DONE with (2 ^ 4)%Z.
    by rewrite (bind_done _ _ _ _ _ (on_channels_done _ (mkService ch1 (radio s)) _ _ E2)). }
  rewrite (bind_done _ _ _ _ _ Ew). change (is_set 16 MODEM_EVT_ACTION_DONE) with true. cbn [negb].
  destruct (recv_completion t b (mkComplete Req_get_registration_info false) _ _ _ _ _ Ht Hh2) as (ch3 & E3 & Hh3).
  rewrite (bind_done _ _ _ _ _ (on_channels_done _ (mkService ch2 (radio s)) _ _ E3)).
  rewrite bool_decide_true by done. cbn [negb]. eexists. split; [done|]. split; [done|].
  exists (Z.clearbit e 4). split; [done|]. rewrite !Z.clearbit_eqb, H1. split; [done|apply andb_false_r].
Qed.

(** A message that starts an action: sent, acknowledged, carried out. *)
Lemma action_exchange {T} (c : Codec T) v t b timeout rest (s : S) r' :
  idle rest s -> sized c -> sizeof c <= MESSAGE_CHANNEL_MAX_DATA ->
  serve ptr n fuel [enc c v] (radio s) = Done ([reply bool_c true; completion t b], r') ->
  exists s1 s2, send_request_for serving c v timeout s = Done (ChannelError_ok, s1) /\
    wait_for serving MODEM_EVT_RESPONSE MODEM_ACK_TIMEOUT_MS s1 = Done (2%Z, s2) /\ radio s2 = r' /\ acted_state t b rest s2.
Proof using HL enough_rounds.
  intros Hi Hs Hc Hsv.
  destruct (exchange c v timeout MODEM_ACK_TIMEOUT_MS rest s _ _ Hi Hs Hc eq_refl Hsv) as (e & s1 & s2 & H1 & H4 & E1 & Hw).
  rewrite deliver_action in Hw. set (e' := EventFlags.set _ MODEM_EVT_ACTION_DONE) in Hw.
  assert (Z.testbit e' 1 = true) as Hb1 by (unfold e', EventFlags.set; rewrite !Z.lor_spec; by rewrite orb_true_r).
  assert (Z.testbit e' 4 = true) as Hb4 by (unfold e', EventFlags.set; rewrite !Z.lor_spec; apply orb_true_r).
  rewrite Hb1 in Hw. destruct Hw as (E2 & Hr2 & Hh2). exists s1, s2. split_and!; [done..|].
  exists (Z.clearbit e' 1). rewrite !Z.clearbit_eqb, Hb4. split; [done|]. split; [apply andb_false_r|done].
Qed.

(** The actions whose reply is their result. *)
Definition plain_action (t : RadioLteRequestType) : bool :=
  match t with
  | Req_network_connect | Req_network_disconnect | Req_server_disconnect | Req_force_psm => true
  | _ => false
  end.

Lemma serve_action req (m : NL L bool) b r r' :
  tx_msg_ok req -> action n fuel req = Some m -> m r = Done (b, r') ->
  serve ptr n fuel [enc tx_msg_c req] r = Done ([reply bool_c true; completion (tx_type req) b], r').
Proof.
  intros Hok Ha Hm. destruct (action_named n fuel _ _ Ha) as [Hn1 Hn2]. cbn [serve].
  rewrite answer_sent by done. unfold answer_tx, acted, nl_bind. by rewrite Ha, Hm.
Qed.

Lemma request_then_receive depth req m b timeout rest (s : S) r' :
  idle rest s -> tx_msg_ok req -> action n fuel req = Some m -> m (radio s) = Done (b, r') ->
  exists s2, request_radio_state_impl serving true (Datatypes.S depth) req timeout s =
               receive_answer serving (request_radio_state_impl serving true depth) req timeout s2 /\
             radio s2 = r' /\ acted_state (tx_type req) b rest s2.
Proof using HL enough_rounds.
  intros Hi Hok Ha Hm. destruct sized_messages as (Hst & _).
  destruct (action_exchange tx_msg_c req _ b timeout rest s r' Hi Hst ltac:(vm_compute; lia) (serve_action req m b _ _ Hok Ha Hm))
    as (s1 & s2 & E1 & E2 & Hr2 & Ha2).
  exists s2. split; [|done]. cbn [request_radio_state_impl negb]. rewrite (bind_done _ _ _ _ _ E1), bool_decide_true by done.
  cbn [negb]. rewrite (bind_done _ _ _ _ _ E2). done.
Qed.

Lemma request_action depth req m b timeout rest (s : S) r' :
  idle rest s -> tx_msg_ok req -> plain_action (tx_type req) = true ->
  action n fuel req = Some m -> m (radio s) = Done (b, r') ->
  exists s', request_radio_state_impl serving true (Datatypes.S depth) req timeout s = Done ((b, true_false b), s') /\
             radio s' = r' /\ idle rest s'.
Proof using HL enough_rounds.
  intros Hi Hok Hp Ha Hm.
  destruct (request_then_receive depth req m b timeout rest s r' Hi Hok Ha Hm) as (s2 & E2 & Hr2 & Ha2).
  destruct (wait_complete _ b timeout rest s2 (proj1 Hok) Ha2) as (s3 & E3 & Hr3 & Hi3).
  exists s3. rewrite E2, <- Hr2. split; [|done]. unfold receive_answer. by destruct (tx_type req).
Qed.

Lemma handle_set_request request sub (s : S) :
  to_upper request = lit "SET " ++ sub ->
  handle_request serving true conn_id state_text request s = handle_set serving true conn_id (drop 4 request) sub s.
Proof.
  intros E. destruct (request_split request (lit "SET") sub E eq_refl) as (E1 & E2 & E3).
  unfold handle_request. by rewrite E1, E2, E3.
Qed.

(** ** Requests that act on the radio *)

(** What it does to the radio, and the text that comes back. *)
Definition action_spec (a : RpcAction) : NL L str :=
  match a with
  | Rpc_connect =>
      let* b := network_connect n fuel in
      nl_ret (if b : bool then jlit "{'resource':'NETWORKCONNECT','network_connect':true}" else lit "false")
  | Rpc_disconnect k =>
      let* b := server_disconnect k in
      if negb b then nl_ret (lit "false")
      else
        let* b := lift network_disconnect in
        nl_ret (if b : bool
                then jlit "{'resource':'NETWORKDISCONNECT','conn_id':" ++ fmt_u k ++
                     jlit ",'server_disconnect':true,'network_disconnect':true}"
                else lit "false")
  | Rpc_server_connect k proto ip p =>
      let* b := server_connect k proto ip p in
      nl_ret (if b : bool
              then jlit "{'resource':'SERVERCONNECT','conn_id':" ++ fmt_u k ++ jlit ",'protocol':'" ++ proto ++
                   jlit "','ip':'" ++ ip ++ jlit "','port':" ++ fmt_u p ++ jlit ",'server_connect':true}"
              else lit "false")
  | Rpc_force_psm =>
      let* b := lift force_psm in
      nl_ret (if b : bool then jlit "{'resource':'FORCEPSM','status':true}" else lit "false")
  | Rpc_gnss =>
      let* (b, _) := acquire_gnss_position n fuel GnssPosition_default in
      if b : bool then nl_gets (shown Req_get_gnss_position) else nl_ret (lit "false")
  | Rpc_scan_survey =>
      let* b := lift (scan_networks 0 0) in
      nl_ret (if b : bool then lit "ERROR: timeout waiting response" else lit "false")
  end.

Lemma connect_rel rest (s : S) text r' :
  idle rest s -> action_spec Rpc_connect (radio s) = Done (text, r') ->
  exists s', set_network_connect serving true s = Done (text, s') /\ radio s' = r' /\ idle rest s'.
Proof using HL enough_rounds.
  intros Hi Ha. cbn [action_spec] in Ha. unfold nl_bind in Ha.
  destruct (network_connect n fuel (radio s)) as [[b r1]| |] eqn:Em; try discriminate. injection Ha as <- <-.
  destruct (request_action 1 (mkTxMsg Req_network_connect 0 0) (network_connect n fuel) b RPC_TIMEOUT_CONNECT_MS rest s r1)
    as (s' & E & Hr & Hi'); [done|by repeat split; simpl; lia|done|done|done|].
  exists s'. unfold set_network_connect, request_radio_state. rewrite (bind_done _ _ _ _ _ E). by destruct b.
Qed.

Lemma force_psm_rel rest (s : S) text r' :
  idle rest s -> action_spec Rpc_force_psm (radio s) = Done (text, r') ->
  exists s', handle_set serving true conn_id (lit "FORCEPSM") (lit "FORCEPSM") s = Done (text, s') /\ radio s' = r' /\ idle rest s'.
Proof using HL enough_rounds.
  intros Hi Ha. cbn [action_spec] in Ha. unfold nl_bind in Ha.
  destruct (lift force_psm (radio s)) as [[b r1]| |] eqn:Em; try discriminate. injection Ha as <- <-.
  destruct (request_action 1 (mkTxMsg Req_force_psm 0 0) (lift force_psm) b RPC_TIMEOUT_FORCE_PSM_MS rest s r1)
    as (s' & E & Hr & Hi'); [done|by repeat split; simpl; lia|done|done|done|].
  exists s'. split; [|done].
  change (handle_set serving true conn_id (lit "FORCEPSM") (lit "FORCEPSM") s)
    with ((let* (ok, payload) := request_radio_state serving true Req_force_psm 0 RPC_TIMEOUT_FORCE_PSM_MS in
           if negb ok then nl_ret payload
           else nl_ret (jlit "{'resource':'FORCEPSM','status':" ++ payload ++ jlit "}")) s).
  unfold request_radio_state. rewrite (bind_done _ _ _ _ _ E). by destruct b.
Qed.

Lemma disconnect_rel k rest (s : S) text r' :
  idle rest s -> (1 <= k <= 5)%Z -> action_spec (Rpc_disconnect k) (radio s) = Done (text, r') ->
  exists s', set_network_disconnect serving true conn_id (fmt_u k) s = Done (text, s') /\ radio s' = r' /\ idle rest s'.
Proof using HL enough_rounds.
  intros Hi Hk Ha. unfold set_network_disconnect. destruct (length (fmt_u k) =? 0) eqn:El; bool_facts.
  { by apply length_zero_iff_nil, fmt_u_ne in El. }
  rewrite (bind_done _ _ s (Some k) s) by (unfold lift_outcome; rewrite parse_int_fmt_u by lia;
    by destruct (k <? 2 ^ 31)%Z eqn:E; bool_facts; [|lia]).
  destruct ((k <? 1) || (5 <? k))%Z eqn:Er; bool_facts; [lia|].
  cbn [action_spec] in Ha. unfold nl_bind in Ha.
  assert (u32 k = k /\ u8 k = k) as [Hu32 Hu8] by (unfold u32, u8; split; apply Z.mod_small; lia).
  destruct (server_disconnect k (radio s)) as [[b r1]| |] eqn:Em; try discriminate.
  destruct (request_action 1 (mkTxMsg Req_server_disconnect k 0) (server_disconnect (u8 k)) b RPC_TIMEOUT_DISCONNECT_MS rest s r1)
    as (s1 & E & Hr & Hi1); [done|by repeat split; simpl; lia|done|done|by rewrite Hu8|].
  unfold request_radio_state. rewrite Hu32, (bind_done _ _ _ _ _ E). destruct b; cbn [negb] in *.
  2: { injection Ha as <- <-. by exists s1. }
  destruct (lift network_disconnect r1) as [[b r2]| |] eqn:Em2; try discriminate. injection Ha as <- <-. rewrite <- Hr in Em2.
  destruct (request_action 1 (mkTxMsg Req_network_disconnect 0 0) (lift network_disconnect) b RPC_TIMEOUT_DISCONNECT_MS rest s1 r2)
    as (s2 & E2 & Hr2 & Hi2); [done|by repeat split; simpl; lia|done|done|done|].
  exists s2. rewrite (bind_done _ _ _ _ _ E2). split; [|done]. destruct b; [|done]. cbn [negb true_false].
  assert (fmt_d k = fmt_u k) as ->; [|done]. unfold fmt_d. by destruct (k <? 0)%Z eqn:Ek; bool_facts; [lia|].
Qed.

Lemma connect_type_first x : cm_type (dec connect_msg_c x) = dec request_c (take 1 x).
Proof. cbn. by rewrite take_take. Qed.

Lemma serve_connect m b r r' :
  connect_msg_ok m -> cm_type m = Req_server_connect ->
  server_connect (cm_conn_id m) (cm_protocol m) (cm_ip m) (cm_port m) r = Done (b, r') ->
  serve ptr n fuel [enc connect_msg_c m] r = Done ([reply bool_c true; completion Req_server_connect b], r').
Proof.
  intros Hok Ht Hm. pose proof (decodes_connect_msg m [] Hok) as Hdec. rewrite app_nil_r in Hdec.
  destruct sized_messages as (_ & _ & Hs & _). cbn [serve].
  assert (answer ptr n fuel (enc connect_msg_c m) =
          acted Req_server_connect (server_connect (cm_conn_id m) (cm_protocol m) (cm_ip m) (cm_port m))) as ->.
  { pose proof (connect_type_first (enc connect_msg_c m)) as Hty. rewrite Hdec, Ht in Hty. unfold answer.
    rewrite <- Hty, Hdec, !Hs, Nat.eqb_refl. done. }
  unfold acted, nl_bind. by rewrite Hm.
Qed.

Lemma server_connect_rel k proto ip p rest (s : S) text r' :
  idle rest s -> action_ok (Rpc_server_connect k proto ip p) ->
  action_spec (Rpc_server_connect k proto ip p) (radio s) = Done (text, r') ->
  exists s', set_server_connect serving true (fmt_u k ++ SPACE :: proto ++ SPACE :: ip ++ SPACE :: fmt_u p) s = Done (text, s') /\
             radio s' = r' /\ idle rest s'.
Proof using HL enough_rounds.
  intros Hi Hok Ha. unfold set_server_connect. set (m := mkConnectMsg Req_server_connect k p proto ip).
  rewrite (bind_done _ _ s (inr m) s) by (unfold lift_outcome; by rewrite (parse_server_connect_words k proto ip p Hok)).
  cbn [negb]. destruct Hok as (Hk & Hp & (Hpl & _ & Hpn) & (Hil & _ & Hin)).
  cbn [action_spec] in Ha. unfold nl_bind in Ha.
  destruct (server_connect k proto ip p (radio s)) as [[b r1]| |] eqn:Em; try discriminate. injection Ha as <- <-.
  assert (connect_msg_ok m) as Hm by (unfold connect_msg_ok, m; cbn; split_and!; done || lia).
  destruct sized_messages as (_ & _ & Hs & _).
  destruct (action_exchange connect_msg_c m Req_server_connect b RPC_TIMEOUT_CONNECT_MS rest s r1 Hi Hs ltac:(vm_compute; lia)
              (serve_connect m b _ _ Hm eq_refl Em)) as (s1 & s2 & E1 & E2 & Hr2 & Ha2).
  rewrite (bind_done _ _ _ _ _ E1), bool_decide_true by done. cbn [negb].
  rewrite (bind_done _ _ _ _ _ E2). change (is_set 2 MODEM_EVT_RESPONSE) with true. cbn [negb].
  destruct (wait_complete Req_server_connect b RPC_TIMEOUT_CONNECT_MS rest s2 I Ha2) as (s3 & E3 & Hr3 & Hi3).
  rewrite (bind_done _ _ _ _ _ E3). exists s3. rewrite <- Hr2. split; [|done]. destruct b; [|done].
  cbn [negb]. unfold m. cbn [cm_conn_id cm_protocol cm_ip cm_port]. rewrite (cstr_word proto), (cstr_word ip) by done.
  cbn [true_false]. done.
Qed.

Lemma gnss_rel rest (s : S) text r' :
  idle rest s -> action_spec Rpc_gnss (radio s) = Done (text, r') -> member_ok Req_get_gnss_position r' ->
  exists ok s', request_radio_state serving true Req_acquire_gnss_position 0 RPC_TIMEOUT_GNSS_MS s = Done ((ok, text), s') /\
             radio s' = r' /\ idle rest s'.
Proof using HL enough_rounds.
  intros Hi Ha Hok. cbn [action_spec] in Ha. unfold nl_bind, nl_gets in Ha.
  destruct (acquire_gnss_position n fuel GnssPosition_default (radio s)) as [[[b p] r1]| |] eqn:Em; try discriminate.
  destruct (request_then_receive 1 (mkTxMsg Req_acquire_gnss_position 0 0)
              (let* (res, _) := acquire_gnss_position n fuel GnssPosition_default in nl_ret res)
              b RPC_TIMEOUT_GNSS_MS rest s r1) as (s2 & E2 & Hr2 & Ha2);
    [done|by repeat split; simpl; lia|done|unfold nl_bind; by rewrite Em|].
  unfold request_radio_state. rewrite E2. destruct (wait_complete Req_acquire_gnss_position b RPC_TIMEOUT_GNSS_MS rest s2 I Ha2) as (s3 & E3 & Hr3 & Hi3).
  cbn [receive_answer tx_type]. rewrite (bind_done _ _ _ _ _ E3). rewrite Hr2 in Hr3.
  destruct b; cbn [negb]; injection Ha as <- <-; [|by exists false, s3].
  destruct (request_query 0 Req_get_gnss_position _ 0 RPC_TIMEOUT_GNSS_MS rest s3 Hi3 eq_refl) as (s4 & E4 & Hr4 & Hi4);
    [done|lia|by rewrite Hr3|]. rewrite Hr3 in E4, Hr4. by exists true, s4.
Qed.

(** The scan result never arrives: it is larger than a frame. *)
Lemma csurv_rel timeout rest (s : S) :
  idle rest s -> (timeout =? 0)%Z = false ->
  exists s', request_csurv_result serving timeout s = Done ((false, lit "ERROR: timeout waiting response"), s') /\
             radio s' = radio s /\ idle rest s'.
Proof using HL enough_rounds.
  intros Hi Ht. destruct sized_messages as (Hst & _).
  destruct (exchange tx_msg_c (mkTxMsg Req_get_csurv_result 0 0) timeout timeout rest s _ _ Hi Hst
              ltac:(vm_compute; lia) Ht (serve_query Req_get_csurv_result _ 0 (radio s) eq_refl ltac:(lia)))
    as (e & s1 & s2 & H1 & H4 & E1 & Hw).
  pose proof (query_size ptr Req_get_csurv_result _ (radio s) eq_refl) as [_ Hsz]. cbn [oversize] in Hsz.
  cbn [foldl] in Hw. unfold deliver, spec_send in Hw. cbn [fst snd] in Hw, Hsz.
  change (before Req_get_csurv_result (radio s)) with (radio s) in Hw. rewrite Hsz, H1 in Hw. destruct Hw as (E2 & Hr2 & Hh2).
  exists s2. unfold request_csurv_result. rewrite (bind_done _ _ _ _ _ E1), bool_decide_true by done. cbn [negb].
  rewrite (bind_done _ _ _ _ _ E2). split; [done|]. split; [done|]. by apply (idle_after e).
Qed.

Lemma scan_rel rest (s : S) text r' :
  idle rest s -> action_spec Rpc_scan_survey (radio s) = Done (text, r') ->
  exists s', request_radio_state serving true Req_scan_networks 0 210000 s = Done ((false, text), s') /\
             radio s' = r' /\ idle rest s'.
Proof using HL enough_rounds.
  intros Hi Ha. cbn [action_spec] in Ha. unfold nl_bind in Ha.
  destruct (lift (scan_networks 0 0) (radio s)) as [[b r1]| |] eqn:Em; try discriminate. injection Ha as <- <-.
  destruct (request_then_receive 1 (mkTxMsg Req_scan_networks 0 0) (lift (scan_networks 0 0)) b 210000 rest s r1)
    as (s2 & E2 & Hr2 & Ha2); [done|by repeat split; simpl; lia|done|done|].
  unfold request_radio_state. rewrite E2. destruct (wait_complete Req_scan_networks b 210000 rest s2 I Ha2) as (s3 & E3 & Hr3 & Hi3).
  cbn [receive_answer tx_type]. rewrite (bind_done _ _ _ _ _ E3). rewrite Hr2 in Hr3.
  destruct b; cbn [negb]; [|by exists s3].
  destruct (csurv_rel 210000 rest s3 Hi3 eq_refl) as (s4 & E4 & Hr4 & Hi4). exists s4. rewrite <- Hr3. done.
Qed.

(** A position the radio has acquired has its type. *)
Lemma acquired_position_ok r text r' :
  lte_wf r -> action_spec Rpc_gnss r = Done (text, r') -> member_ok Req_get_gnss_position r'.
Proof.
  intros Hwf Ha. cbn [action_spec] in Ha.
  pose proof (keeps_of_call n fuel (acquire_gnss_position n fuel GnssPosition_default) Call_acquire_gnss_position
                eq_refl eq_refl r Hwf) as Hk.
  unfold nl_bind in Ha. destruct (acquire_gnss_position n fuel GnssPosition_default r) as [[[[] p] r1]| |]; try discriminate;
    unfold nl_gets, nl_ret in Ha; injection Ha as _ <-; apply to_gnss_position_msg_ok, (wf_gnss Hk).
Qed.


(** ** [SET CONFIG] *)

Lemma config_update_rel expr cfg' rest (s : S) :
  idle rest s -> apply_config_fields expr (lteConfig (radio s)) = (true, cfg') -> config_ok cfg' ->
  exists s', apply_config_update serving true expr s = Done (config_to_json cfg', s') /\
             radio s' = set_lteConfig cfg' (radio s) /\ idle rest s'.
Proof using HL enough_rounds.
  intros Hi Hf Hok. unfold apply_config_update. unfold nl_bind at 1, nl_gets. rewrite Hf. cbn [negb].
  destruct sized_messages as (_ & Hss & _).
  assert (serve ptr n fuel [enc set_config_msg_c (mkSetConfigMsg Req_set_config cfg')] (radio s) =
          Done ([reply bool_c true], set_lteConfig cfg' (radio s))) as Hsv.
  { cbn [serve]. by rewrite answer_set_config. }
  destruct (exchange set_config_msg_c (mkSetConfigMsg Req_set_config cfg') 5000 MODEM_ACK_TIMEOUT_MS rest s _ _ Hi Hss
              ltac:(vm_compute; lia) eq_refl Hsv) as (e & s1 & s2 & H1 & H4 & E1 & Hw).
  cbn [foldl] in Hw. rewrite deliver_fits in Hw
    by (rewrite ?length_ack; unfold MESSAGE_CHANNEL_MAX_DATA, MODEM_RX_Q_DEPTH; simpl; lia).
  cbn [app] in Hw. change (fst (reply bool_c true)) with MODEM_EVT_RESPONSE in Hw. set (e' := EventFlags.set e MODEM_EVT_RESPONSE) in Hw.
  assert (Z.testbit e' 1 = true) as Hb by (unfold e', EventFlags.set; rewrite Z.lor_spec; apply orb_true_r).
  assert (Z.testbit e' 4 = false) as Hb4 by (unfold e', EventFlags.set; by rewrite Z.lor_spec, H4).
  rewrite Hb in Hw. destruct Hw as (E2 & Hr2 & Hh2).
  rewrite (bind_done _ _ _ _ _ E1), bool_decide_true by done. cbn [negb]. rewrite (bind_done _ _ _ _ _ E2).
  change (is_set 2 MODEM_EVT_RESPONSE) with true. cbn [negb].
  destruct (recv_reply bool_c true (fun _ => True) (false, false) _ _ _ _ _ ltac:(simpl; lia) sized_bool decodes_bool I Hh2)
    as (ch3 & E3 & Hh3).
  rewrite (bind_done _ _ _ _ _ (on_channels_done _ _ _ _ E3)), bool_decide_true by done. cbn [negb orb].
  set (s3 := mkService ch3 (radio s2)). assert (idle rest s3) as Hi3 by (by apply (idle_after e')).
  assert (lteConfig (radio s3) = cfg') as Hc3 by (cbn; by rewrite Hr2).
  destruct (request_query 1 Req_get_config _ 0 RPC_TIMEOUT_DEFAULT_MS rest s3 Hi3 eq_refl) as (s4 & E4 & Hr4 & Hi4);
    [done|lia|cbn [member_ok before]; unfold before; rewrite decide_False by done; by rewrite Hc3|].
  exists s4. unfold get_text, request_radio_state. rewrite (bind_done _ _ _ _ _ E4).
  unfold before in Hr4 |- *. rewrite decide_False in Hr4 |- * by done. unfold query_text. cbn [oversize shown].
  rewrite Hc3. split; [done|]. split; [|done]. by rewrite Hr4, <- Hr2.
Qed.


End Exchange.

(** ** Witnesses *)

Import Scripted.
#[local] Existing Instance example_residue.

(** A service at rest whose modem does not answer. *)
Definition quiet : Service PosixChannel.Channel (ModemController Scripted.World) := mkService idle_channels silent.

Lemma quiet_idle : idle idle_rest quiet.
Proof. exists 0%Z. split; [exact idle_holds|done]. Qed.

Definition no_state_text : NL (Service PosixChannel.Channel (ModemController Scripted.World)) str := nl_ret [].



