(* ===== verification/RpcSafety.v ===== *)
(** * Safety of the RPC server, and what a late reply does *)

From S2P Require Import Prelude CLib FixedString StaticVector Layout MessageChannel MessageQueue Timer.
From S2P Require Import ModemController Xe310Types Xe310 Survey Trace Hal NetworkTypes Typed NetworkLte NetworkInv NetworkSafety.
From S2P Require Import ControllerProps NetworkApi NetworkProps.
From S2P Require Import RadioMessages RadioLte RadioLteProps Json RpcHelpers RpcHelpersProps RpcServer RpcServerProps.

(** ** The requests the server sends *)

(** No request of the common form but [server_disconnect] names a connection. *)
Lemma tx_request_ok t a :
  tx_msg_ok (mkTxMsg t a 0) -> t <> Req_server_connect -> (t = Req_server_disconnect -> valid_id (u8 a) = true) ->
  request_ok (enc tx_msg_c (mkTxMsg t a 0)) = true.
Proof.
  intros Hok Hn Hd. pose proof (decodes_tx_msg _ [] Hok) as Hdec. rewrite app_nil_r in Hdec.
  pose proof (tx_type_first (enc tx_msg_c (mkTxMsg t a 0))) as Ht. rewrite Hdec in Ht. unfold request_ok.
  rewrite <- Ht, Hdec. cbn [tx_type arg0]. destruct t; try done. rewrite (Hd eq_refl). apply orb_true_r.
Qed.

Lemma set_config_request_ok cfg : request_ok (enc set_config_msg_c (mkSetConfigMsg Req_set_config cfg)) = true.
Proof. reflexivity. Qed.

Lemma connect_request_ok m :
  connect_msg_ok m -> cm_type m = Req_server_connect -> valid_id (cm_conn_id m) = true ->
  request_ok (enc connect_msg_c m) = true.
Proof.
  intros Hok Ht Hid. pose proof (decodes_connect_msg m [] Hok) as Hdec. rewrite app_nil_r in Hdec.
  pose proof (connect_type_first (enc connect_msg_c m)) as Hty. rewrite Hdec, Ht in Hty. unfold request_ok.
  rewrite <- Hty, Hdec, Hid. apply orb_true_r.
Qed.

(** The requests made of a type and a number. *)
Definition sendable (t : RadioLteRequestType) (a : Z) : Prop :=
  named_request t /\ t <> Req_server_connect /\ (0 <= a < 2 ^ 32)%Z /\ (t = Req_server_disconnect -> valid_id (u8 a) = true).

Lemma sendable_zero t : named_request t -> t <> Req_server_connect -> t <> Req_server_disconnect -> sendable t 0.
Proof. intros. split_and!; done || lia. Qed.

Lemma sendable_disconnect k : (1 <= k <= 5)%Z -> sendable Req_server_disconnect (u32 k).
Proof.
  intros Hk. assert (u32 k = k) as -> by (apply Z.mod_small; lia). split_and!; try done; try lia. intros _.
  unfold valid_id, u8. rewrite Z.mod_small by lia. apply andb_true_intro. split; apply Z.leb_le; lia.
Qed.

Lemma get_resources_sendable name t : In (name, t) get_resources -> sendable t 0.
Proof. intros H. repeat (destruct H as [H|H]; [injection H as <- <-; by apply sendable_zero|]). destruct H. Qed.

Lemma long_number_drop' i w : long_number w = false -> long_number (drop i w) = false.
Proof. intros Hw. apply not_true_is_false. intros Hx. apply long_number_drop in Hx. congruence. Qed.

(** ** What the server does to the channels *)

Section Pending.
Context {HT : HalTypes} {HM : HalTimer} {HTL : HalTimerLaws} {HQ : HalQueue} {HQL : HalQueueLaws}.
Context {Ch : Type} {HCh : MessageChannel Ch} {HL : MessageChannelLaws Ch}.
Context {C : Type} {HC : Controller C} {HA : TimerAccess C} {HAL : TimerAccessLaws C} {HR : Residue}.
Variable rest : Ch * (NetworkLteState * NetworkLteEvent).

Notation S := (@Service HT Ch C).
Notation L := (@NetworkLte HT C).

(** Whatever is queued and notified: the queued requests are safe to serve and the
    radio satisfies its invariant. *)
Definition pending (s : S) : Prop :=
  exists tx d, length tx <= MODEM_TX_Q_DEPTH /\ forallb request_ok tx = true /\ holds tx d rest (channels s) /\
               lte_wf (radio s).

(** A computation on the channels that keeps what they hold. *)
Lemma keeps_channels {A} (m : ST (RadioLteChannels Ch) A) :
  (forall tx d ch, length tx <= MODEM_TX_Q_DEPTH -> forallb request_ok tx = true -> holds tx d rest ch ->
     exists tx' d', length tx' <= MODEM_TX_Q_DEPTH /\ forallb request_ok tx' = true /\ holds tx' d' rest (snd (m ch))) ->
  keeps pending (on_channels (C := C) m).
Proof.
  intros Hm s (tx & d & Hl & Hok & Hh & Hwf). destruct (Hm tx d (channels s) Hl Hok Hh) as (tx' & d' & Hl' & Hok' & Hh').
  unfold on_channels. destruct (m (channels s)) as [a ch]. by exists tx', d'.
Qed.

Lemma keeps_send_request {T} (c : Codec T) v :
  request_ok (enc c v) = true -> keeps pending (on_channels (C := C) (send_request c v)).
Proof using HL.
  intros Hx. apply keeps_channels. intros tx d ch Hl Hok (Htx & Hrx & He & Hrest). unfold send_request, send_message.
  destruct (law_send _ _ _ (enc c v) Htx) as [Herr Hrel]. destruct (ch_send (enc c v) (modem_tx_q ch)) as [err q].
  cbn [fst snd] in *. unfold spec_send in *.
  destruct (MESSAGE_CHANNEL_MAX_DATA <? length (enc c v)).
  { subst err. exists tx, d. by unfold notify; rewrite decide_False. }
  destruct (MODEM_TX_Q_DEPTH <=? length tx) eqn:E; bool_facts; cbn [fst snd] in *; subst err.
  { exists tx, d. by unfold notify; rewrite decide_False. }
  exists (tx ++ [enc c v]), (fst d, EventFlags.set (modem_evt ch) MODEM_EVT_REQUEST).
  split; [rewrite length_app; cbn; lia|]. split; [rewrite forallb_app, Hok; cbn; by rewrite Hx|].
  unfold notify. by rewrite decide_True.
Qed.

Lemma keeps_wait_bits events : keeps pending (on_channels (C := C) (wait events true)).
Proof.
  apply keeps_channels. intros tx [rx e] ch Hl Hok (Htx & Hrx & He & Hrest). unfold wait.
  destruct (EventFlags.wait _ _ _ _ _) as [matched e']. by exists tx, (rx, e').
Qed.

Lemma keeps_receive {T} (c : Codec T) msg tx d ch :
  holds tx d rest ch -> exists d', holds tx d' rest (set_rx_q (snd (receive_message c msg (modem_rx_q ch))) ch).
Proof using HL.
  intros (Htx & Hrx & He & Hrest). unfold receive_message. destruct (fst d) as [|x rx].
  - destruct (law_receive_empty _ _ MessageFrame_default Hrx) as (Hok & Hrel).
    destruct (ch_receive MessageFrame_default (modem_rx_q ch)) as [[err f] q]. cbn [fst snd] in *. exists ([], snd d).
    destruct (negb _); [by split_and!|]. by destruct (negb _).
  - destruct (law_receive _ _ _ _ MessageFrame_default Hrx PosixChannel.frame_default_sized) as (Hok & _ & Hrel).
    destruct (ch_receive MessageFrame_default (modem_rx_q ch)) as [[err f] q]. cbn [fst snd] in *. exists (rx, snd d).
    destruct (negb _); [by split_and!|]. by destruct (negb _).
Qed.

Lemma keeps_recv {T} (c : Codec T) msg : keeps pending (on_channels (C := C) (recv_typed_response c msg)).
Proof using HL.
  apply keeps_channels. intros tx d ch Hl Hok Hh. destruct (keeps_receive (typed_c c) msg tx d ch Hh) as (d' & Hh').
  exists tx, d'. unfold recv_typed_response. by destruct (receive_message (typed_c c) msg (modem_rx_q ch)).
Qed.

Lemma keeps_recv_complete msg : keeps pending (on_channels (C := C) (recv_action_complete msg)).
Proof using HL.
  apply keeps_channels. intros tx d ch Hl Hok Hh. destruct (keeps_receive complete_c msg tx d ch Hh) as (d' & Hh').
  exists tx, d'. unfold recv_action_complete. by destruct (receive_message complete_c msg (modem_rx_q ch)).
Qed.

Lemma keeps_requests ptr n fuel rounds :
  MODEM_TX_Q_DEPTH < rounds -> keeps pending (process_radio_requests ptr n fuel rounds).
Proof using HL HAL.
  intros Hr s (tx & d & Hl & Hok & Hh & Hwf).
  pose proof (radio_service_safe ptr n fuel rounds tx d rest s ltac:(lia) Hok Hh Hwf) as Hs.
  destruct (process_radio_requests ptr n fuel rounds s) as [[u s']| |]; [|done|done].
  destruct Hs as [Hwf' (d' & Hh')]. exists [], d'. cbn. split_and!; done || lia.
Qed.

Lemma keeps_on_radio {A} (m : NL L A) : keeps lte_wf m -> keeps pending (on_radio m).
Proof.
  intros Hm s (tx & d & Hl & Hok & Hh & Hwf). pose proof (Hm _ Hwf) as Hk. unfold on_radio.
  destruct (m (radio s)) as [[a r]| |]; [|done|done]. by exists tx, d.
Qed.

End Pending.

(** Whatever the log queue and the published state are. *)
Section ServiceOk.
Context {HT : HalTypes} {HM : HalTimer} {HTL : HalTimerLaws} {HQ : HalQueue} {HQL : HalQueueLaws}.
Context {Ch : Type} {HCh : MessageChannel Ch} {HL : MessageChannelLaws Ch}.
Context {C : Type} {HC : Controller C} {HA : TimerAccess C} {HAL : TimerAccessLaws C} {HR : Residue}.

Definition service_ok (s : Service Ch C) : Prop := exists rest, pending rest s.

Lemma keeps_service {A} (m : NL (Service Ch C) A) : (forall rest, keeps (pending rest) m) -> keeps service_ok m.
Proof.
  intros Hm s [rest Hs]. specialize (Hm rest s Hs). destruct (m s) as [[a s']| |]; [by exists rest|done|done].
Qed.
Lemma keeps_radio {A} (m : NL (NetworkLte C) A) : keeps lte_wf m -> keeps service_ok (on_radio m).
Proof. intros Hm. apply keeps_service. intros rest. by apply keeps_on_radio. Qed.

End ServiceOk.

(** ** Safety *)

Section Safety.
Context {Ch : Type} {HCh : MessageChannel Ch} {HL : MessageChannelLaws Ch}.
Context {C : Type} {HC : Controller C} {HR : Residue}.
Variable rest : Ch * (NetworkLteState * NetworkLteEvent).

Notation S := (Service Ch C).
Notation pending := (pending (C := C) rest).
Local Open Scope nl_scope.

(** *** The network thread *)

Section Thread.
Variable ptr : Z.
Variable n fuel rounds : nat.
Hypothesis enough_rounds : MODEM_TX_Q_DEPTH < rounds.

(** What the network thread does: calls of the state machine (its main loop, the
    queued commands, reading datagrams) and serving the queued requests. *)
Inductive ThreadAct := Act_call (c : Call) | Act_requests.

Definition act_ok (a : ThreadAct) : Prop := match a with Act_call c => call_ok c = true | Act_requests => True end.

Definition run_act (a : ThreadAct) : NL S unit :=
  match a with
  | Act_call c => on_radio (run_call n fuel c)
  | Act_requests => process_radio_requests ptr n fuel rounds
  end.

(** The thread during the waits: what it does in a wait of [timeout_ms]. *)
Definition thread (schedule : Z -> list ThreadAct) : Z -> NL S unit := fun timeout_ms => nl_for run_act (schedule timeout_ms).

Lemma keeps_thread schedule t : Forall act_ok (schedule t) -> keeps pending (thread schedule t).
Proof using HL enough_rounds.
  apply keeps_for_ok. intros [c|]; [|intros _; by apply keeps_requests]. intros Hc. apply keeps_on_radio, keeps_run_call; [done|apply call_config_any].
Qed.

End Thread.

(** *** The server, whatever keeps the invariant during its waits *)

Variable worker : Z -> NL S unit.
Hypothesis keeps_worker : forall t, keeps pending (worker t).

Lemma keeps_send_for {T} (c : Codec T) v t : request_ok (enc c v) = true -> keeps pending (send_request_for worker c v t).
Proof using HL keeps_worker.
  intros Hx. unfold send_request_for. apply keeps_bind; [by apply keeps_send_request|]. intros err.
  destruct (_ && _); [|apply keeps_ret]. apply keeps_bind; [apply keeps_worker|]. intros _.
  apply keeps_bind; [by apply keeps_send_request|]. intros err'. apply keeps_ret.
Qed.

Lemma keeps_wait_for events t : keeps pending (wait_for worker events t).
Proof using HL keeps_worker.
  unfold wait_for. apply keeps_bind; [apply keeps_wait_bits|]. intros m. destruct (_ || _); [apply keeps_ret|].
  apply keeps_bind; [apply keeps_worker|]. intros _. apply keeps_wait_bits.
Qed.

Hint Resolve keeps_wait_for keeps_recv keeps_recv_complete keeps_ret keeps_gets keeps_nofuel : rpc.
Hint Resolve set_config_request_ok : rpc.
Hint Extern 2 (keeps _ (send_request_for _ _ _ _)) => (apply keeps_send_for; auto with rpc) : rpc.

(** Follows the structure of the server's code. *)
Ltac rpc_auto :=
  repeat lazymatch goal with
  | |- keeps _ (nl_bind _ _) => apply keeps_bind; [|intros ?]
  | |- keeps _ (let '(_, _) := ?p in _) => destruct p
  | |- keeps _ (if ?b then _ else _) => destruct b
  | |- keeps _ (nl_ret _) => apply keeps_ret
  | |- keeps _ _ => solve [auto with rpc]
  end.

Lemma keeps_receive_reply {T} (c : Codec T) dflt err_text show : keeps pending (receive_reply c dflt err_text show).
Proof using HL. unfold receive_reply. rpc_auto. Qed.

Lemma keeps_wait_blocking t : keeps pending (wait_blocking_action_complete worker t).
Proof using HL keeps_worker. unfold wait_blocking_action_complete. rpc_auto. Qed.

Lemma keeps_csurv t : keeps pending (request_csurv_result worker t).
Proof using HL keeps_worker. unfold request_csurv_result. rpc_auto; auto using keeps_receive_reply. Qed.

Hint Resolve keeps_receive_reply keeps_wait_blocking keeps_csurv : rpc.

Lemma keeps_receive_answer again msg t :
  (forall t, keeps pending (again (mkTxMsg Req_get_gnss_position 0 0) t)) ->
  keeps pending (receive_answer worker again msg t).
Proof using HL keeps_worker.
  intros Ha. unfold receive_answer, server_info_reply. destruct (tx_type msg); rpc_auto.
Qed.

Lemma keeps_impl running depth : forall msg t,
  request_ok (enc tx_msg_c msg) = true -> keeps pending (request_radio_state_impl worker running depth msg t).
Proof using HL keeps_worker.
  induction depth as [|depth IH]; intros msg t Hm; [apply keeps_nofuel|]. cbn [request_radio_state_impl]. rpc_auto.
  apply keeps_receive_answer. intros t'. by apply IH.
Qed.

Lemma keeps_request running t a timeout :
  sendable t a -> keeps pending (request_radio_state worker running t a timeout).
Proof using HL keeps_worker.
  intros (Hn & Hc & Ha & Hd). apply keeps_impl, tx_request_ok; [|done|done]. split; [done|]. cbn. lia.
Qed.

Hint Extern 1 (sendable _ 0) => (apply sendable_zero; done) : rpc.
Hint Extern 2 (keeps _ (request_radio_state _ _ _ _ _)) => (apply keeps_request; auto with rpc) : rpc.

Lemma keeps_outcome {A} (o : Outcome A) (P : A -> Prop) (k : A -> NL S str) :
  match o with Done a => P a | _ => False end -> (forall a, P a -> keeps pending (k a)) ->
  keeps pending (nl_bind (lift_outcome o) k).
Proof. intros Ho Hk s Hs. unfold nl_bind, lift_outcome. destruct o as [a| |]; [|done|done]. by apply Hk. Qed.

Lemma keeps_number w (k : option Z -> NL S str) :
  long_number w = false -> (forall v, keeps pending (k v)) -> keeps pending (nl_bind (lift_outcome (parse_int 0 w)) k).
Proof.
  intros Hl Hk. apply (keeps_outcome _ (fun _ => True)); [|auto].
  pose proof (parse_int_defined w Hl). pose proof (parse_int_total 0 w). by destruct (parse_int 0 w).
Qed.

Variable running : bool.
Variable conn_id : Z.
Variable state_text : NL S str.
Hypothesis state_text_safe : keeps pending state_text.
Hypothesis conn_id_valid : (1 <= conn_id <= 5)%Z.

Lemma keeps_get_text t a : sendable t a -> keeps pending (get_text worker running t a).
Proof using HL keeps_worker. intros. unfold get_text. rpc_auto. Qed.

Lemma keeps_handle_get sub : long_number sub = false -> keeps pending (handle_get worker running state_text sub).
Proof using HL keeps_worker state_text_safe.
  intros Hl. unfold handle_get. destruct (str_eqb sub (lit "SCANSURVEY")); [rpc_auto|].
  destruct (List.find _ get_resources) as [[name t]|] eqn:Ef.
  { apply find_some in Ef as [Hin _]. apply keeps_get_text. by apply get_resources_sendable in Hin. }
  destruct (str_eqb sub (lit "STATE")); [done|]. destruct (starts_with (lit "SERVERINFO") sub); [|rpc_auto].
  cbv zeta. set (arg := if 10 <? length sub then drop 11 sub else []).
  assert (long_number arg = false) as Harg by (unfold arg; destruct (10 <? length sub); [by apply long_number_drop'|done]).
  destruct (negb (length arg =? 0)); [|by apply keeps_get_text, sendable_zero].
  apply keeps_number; [done|]. intros [v|]; [|apply keeps_ret].
  destruct ((1 <=? v) && (v <=? 5))%Z eqn:E; [|apply keeps_ret]. bool_facts.
  apply keeps_get_text. split_and!; done || lia.
Qed.

Lemma keeps_config_update expr : keeps pending (apply_config_update worker running expr).
Proof using HL keeps_worker.
  unfold apply_config_update. apply keeps_bind; [apply keeps_gets|]. intros cfg.
  destruct (apply_config_fields expr cfg) as [changed cfg']. rpc_auto. by apply keeps_get_text, sendable_zero.
Qed.

Lemma keeps_disconnect args : long_number args = false -> keeps pending (set_network_disconnect worker running conn_id args).
Proof using HL keeps_worker conn_id_valid.
  intros Hl. unfold set_network_disconnect.
  assert (forall k, (1 <= k <= 5)%Z -> sendable Req_server_disconnect (u32 k)) as Hs by apply sendable_disconnect.
  destruct (length args =? 0); [rpc_auto|].
  apply keeps_number; [done|]. intros [v|]; [|apply keeps_ret].
  destruct ((v <? 1) || (5 <? v))%Z eqn:E; [apply keeps_ret|]. bool_facts.
  assert (1 <= v <= 5)%Z by lia. rpc_auto.
Qed.

Lemma keeps_set_server_connect args : long_number args = false -> keeps pending (set_server_connect worker running args).
Proof using HL keeps_worker.
  intros Hl. unfold set_server_connect. pose proof (parse_server_connect_safe args Hl) as Hp.
  eapply (keeps_outcome _ (fun a => match a with
    | inr m => cm_type m = Req_server_connect /\ valid_id (cm_conn_id m) = true /\ connect_msg_ok m
    | inl _ => True end)); [by destruct (parse_server_connect args) as [[]| |]|].
  intros [e|m] Hm; [apply keeps_ret|]. destruct Hm as (Ht & Hid & Hok). rpc_auto.
  apply keeps_send_for. by apply connect_request_ok.
Qed.

Lemma keeps_handle_set orig sub : long_number orig = false -> keeps pending (handle_set worker running conn_id orig sub).
Proof using HL keeps_worker conn_id_valid.
  intros Hl. unfold handle_set. cbv zeta.
  set (args := match find_char SPACE sub with None => [] | Some i => drop (Datatypes.S i) orig end).
  assert (long_number args = false) as Ha by (unfold args; destruct (find_char SPACE sub); [by apply long_number_drop'|done]).
  set (res := match find_char SPACE sub with None => sub | Some i => take i sub end).
  destruct (_ || _); [unfold set_network_connect; rpc_auto|]. destruct (_ || _); [by apply keeps_disconnect|].
  destruct (str_eqb res _); [by apply keeps_set_server_connect|]. destruct (str_eqb res _); [apply keeps_config_update|].
  destruct (negb _); [destruct (length args =? 0); [apply keeps_ret|apply keeps_config_update]|]. rpc_auto.
Qed.

Lemma keeps_handle_request request :
  long_number request = false -> keeps pending (handle_request worker running conn_id state_text request).
Proof using HL keeps_worker state_text_safe conn_id_valid.
  intros Hl. unfold handle_request. cbv zeta.
  set (orig := match find_char SPACE request with None => [] | Some i => drop (Datatypes.S i) request end).
  assert (long_number orig = false) as Ho by (unfold orig; destruct (find_char SPACE request); [by apply long_number_drop'|done]).
  destruct (str_eqb _ _); [apply keeps_handle_get; by rewrite long_number_upper|].
  destruct (str_eqb _ _); [by apply keeps_handle_set|apply keeps_ret].
Qed.

End Safety.


(** ** A reply that comes too late *)

Lemma sim_cast_val z : (0 <= z < 256)%Z -> SimStatus_val (SimStatus_cast z) = z.
Proof. intros Hz. unfold SimStatus_cast, u8. rewrite Z.mod_small by lia. by repeat case_match. Qed.

Section Late.
Context {Ch : Type} {HCh : MessageChannel Ch} {HL : MessageChannelLaws Ch}.
Context {C : Type} {HC : Controller C} {HR : Residue}.
Variable ptr : Z.
Variable n fuel rounds : nat.
Hypothesis enough_rounds : 1 < rounds.
Variable conn_id : Z.
Variable rest : Ch * (NetworkLteState * NetworkLteEvent).

Notation S := (Service Ch C).
Local Open Scope nl_scope.

(** The network thread is busy for the whole wait. *)
Definition busy : Z -> NL S unit := fun _ => nl_ret tt.

Lemma ask_busy t e (s : S) :
  holds [] ([], e) rest (channels s) -> Z.testbit e 1 = false ->
  exists s1, request_radio_state busy true t 0 RPC_TIMEOUT_DEFAULT_MS s =
               Done ((false, lit "ERROR: timeout waiting response"), s1) /\ radio s1 = radio s /\
             holds [enc tx_msg_c (mkTxMsg t 0 0)] ([], Z.clearbit (Z.clearbit (Z.lor e 1) 1) 1) rest (channels s1).
Proof using HL.
  intros Hh He. destruct (send_request_rel tx_msg_c (mkTxMsg t 0 0) _ _ _ _ _ Hh (proj1 sized_messages)) as (ch1 & E1 & Hh1);
    [vm_compute; repeat constructor|apply Nat.lt_0_succ|]. cbn [app] in Hh1. change (EventFlags.set e MODEM_EVT_REQUEST) with (Z.lor e 1) in Hh1.
  assert (Z.testbit (Z.lor e 1) 1 = false) as Hb by (by rewrite Z.lor_spec, He).
  destruct (wait_bit 1 _ _ _ _ _ ltac:(done) Hh1) as (ch2 & E2 & Hh2). rewrite Hb in E2.
  destruct (wait_bit 1 _ _ _ _ _ ltac:(done) Hh2) as (ch3 & E3 & Hh3).
  rewrite Z.clearbit_eqb, Hb in E3. cbn [andb] in E3.
  exists (mkService ch3 (radio s)). split; [|done]. unfold request_radio_state. cbn [request_radio_state_impl negb].
  assert (send_request_for busy tx_msg_c (mkTxMsg t 0 0) RPC_TIMEOUT_DEFAULT_MS s = Done (ChannelError_ok, mkService ch1 (radio s))) as Es.
  { unfold send_request_for. by rewrite (bind_done _ _ _ _ _ (on_channels_done _ _ _ _ E1)). }
  assert (wait_for busy MODEM_EVT_RESPONSE MODEM_ACK_TIMEOUT_MS (mkService ch1 (radio s)) = Done (0%Z, mkService ch3 (radio s))) as Ew.
  { unfold wait_for. change MODEM_EVT_RESPONSE with (2 ^ 1)%Z.
    rewrite (bind_done _ _ _ _ _ (on_channels_done _ (mkService ch1 (radio s)) _ _ E2)). cbn [negb orb Z.eqb].
    change (MODEM_ACK_TIMEOUT_MS =? 0)%Z with false. cbn [orb].
    rewrite (bind_done (busy MODEM_ACK_TIMEOUT_MS) _ (mkService ch2 (radio s)) tt (mkService ch2 (radio s)) eq_refl).
    apply (on_channels_done _ (mkService ch2 (radio s)) _ _ E3). }
  rewrite (bind_done _ _ _ _ _ Es), bool_decide_true by done. cbn [negb]. by rewrite (bind_done _ _ _ _ _ Ew).
Qed.

(** A byte read as another enumeration. *)
Lemma misread e (s : S) v :
  byte_enum RegStatus_val RegStatus_cast v ->
  holds [] ([snd (reply reg_status_c v)], e) rest (channels s) -> Z.testbit e 1 = true ->
  forall worker, exists s',
    request_radio_state worker true Req_get_sim_status 0 RPC_TIMEOUT_DEFAULT_MS s =
      Done ((true, in_quotes (to_str_sim (SimStatus_cast (RegStatus_val v)))), s') /\ radio s' = radio s /\
    holds [enc tx_msg_c (mkTxMsg Req_get_sim_status 0 0)] ([], Z.clearbit (Z.lor e 1) 1) rest (channels s').
Proof using HL.
  intros Hv Hh He worker.
  destruct (send_request_rel tx_msg_c (mkTxMsg Req_get_sim_status 0 0) _ _ _ _ _ Hh (proj1 sized_messages)) as (ch1 & E1 & Hh1);
    [vm_compute; repeat constructor|apply Nat.lt_0_succ|]. cbn [app] in Hh1. change (EventFlags.set e MODEM_EVT_REQUEST) with (Z.lor e 1) in Hh1.
  destruct (wait_bit 1 _ _ _ _ _ ltac:(done) Hh1) as (ch2 & E2 & Hh2). rewrite Z.lor_spec, He in E2. cbn [orb] in E2.
  assert (holds [enc tx_msg_c (mkTxMsg Req_get_sim_status 0 0)]
            ([snd (reply sim_status_c (SimStatus_cast (RegStatus_val v)))], Z.clearbit (Z.lor e 1) 1) rest ch2) as Hh2'.
  { assert (snd (reply reg_status_c v) = snd (reply sim_status_c (SimStatus_cast (RegStatus_val v)))) as <-; [|done].
    unfold reply, typed_c, struct_c, pair_c, sim_status_c, reg_status_c, map_c. cbv [snd fst enc id].
    by rewrite (sim_cast_val _ (proj1 Hv)). }
  assert (byte_enum SimStatus_val SimStatus_cast (SimStatus_cast (RegStatus_val v))) as Hb
    by (unfold byte_enum; rewrite (sim_cast_val _ (proj1 Hv)); split; [exact (proj1 Hv)|done]).
  destruct (recv_reply sim_status_c _ (byte_enum SimStatus_val SimStatus_cast) (false, SimStatus_not_inserted) _ _ _ _ _
              ltac:(vm_compute; repeat constructor) (sized_map _ _ _ (sized_uint 1)) (decodes_byte_enum _ _)
              Hb Hh2') as (ch3 & E3 & Hh3).
  exists (mkService ch3 (radio s)). split; [|done]. unfold request_radio_state. cbn [request_radio_state_impl negb].
  assert (send_request_for worker tx_msg_c (mkTxMsg Req_get_sim_status 0 0) RPC_TIMEOUT_DEFAULT_MS s = Done (ChannelError_ok, mkService ch1 (radio s))) as Es.
  { unfold send_request_for. by rewrite (bind_done _ _ _ _ _ (on_channels_done _ _ _ _ E1)). }
  assert (wait_for worker MODEM_EVT_RESPONSE MODEM_ACK_TIMEOUT_MS (mkService ch1 (radio s)) = Done (2%Z, mkService ch2 (radio s))) as Ew.
  { unfold wait_for. change MODEM_EVT_RESPONSE with (2 ^ 1)%Z.
    by rewrite (bind_done _ _ _ _ _ (on_channels_done _ (mkService ch1 (radio s)) _ _ E2)). }
  rewrite (bind_done _ _ _ _ _ Es), bool_decide_true by done. cbn [negb]. rewrite (bind_done _ _ _ _ _ Ew).
  change (is_set 2 MODEM_EVT_RESPONSE) with true. cbn [negb receive_answer tx_type]. unfold receive_reply.
  by rewrite (bind_done _ _ _ _ _ (on_channels_done _ (mkService ch2 (radio s)) _ _ E3)), bool_decide_true.
Qed.

(** A late reply is taken for the next one: when the network thread does not get
    to a query within the three seconds of the server's wait, the client is told of
    a timeout, but the reply still comes; the next query finds it, reads its bytes
    as its own answer (a registration status as a SIM status) and leaves its own
    request behind, so that every later answer is off by one. *)
Theorem late_reply_misread state_text worker (s : S) :
  idle rest s -> byte_enum RegStatus_val RegStatus_cast (regStatus (unwritten_ (radio s))) ->
  exists s1 s2 s3 e,
    handle_request busy true conn_id state_text (lit "GET REGSTATUS") s = Done (lit "ERROR: timeout waiting response", s1) /\
    process_radio_requests ptr n fuel rounds s1 = Done (tt, s2) /\
    handle_request worker true conn_id state_text (lit "GET SIMSTATUS") s2 =
      Done (in_quotes (to_str_sim (SimStatus_cast (RegStatus_val (regStatus (unwritten_ (radio s)))))), s3) /\
    radio s3 = radio s /\ holds [enc tx_msg_c (mkTxMsg Req_get_sim_status 0 0)] ([], e) rest (channels s3).
Proof using HL enough_rounds.
  intros (e & Hh & H1 & _) Hv. destruct (ask_busy Req_get_reg_status e s Hh H1) as (s1 & E1 & Hr1 & Hh1).
  set (e1 := Z.clearbit _ 1) in Hh1.
  assert (serve ptr n fuel [enc tx_msg_c (mkTxMsg Req_get_reg_status 0 0)] (radio s1) =
          Done ([reply reg_status_c (regStatus (unwritten_ (radio s1)))], radio s1)) as Hsv
    by exact (serve_query ptr n fuel Req_get_reg_status _ 0 (radio s1) eq_refl ltac:(lia)).
  destruct (process_serves ptr n fuel _ _ _ rounds (channels s1) (radio s1) _ _ Hsv enough_rounds Hh1) as (s2 & E2 & Hr2 & Hh2).
  assert (deliver ([], e1) (reply reg_status_c (regStatus (unwritten_ (radio s1)))) =
          ([snd (reply reg_status_c (regStatus (unwritten_ (radio s1))))], EventFlags.set e1 MODEM_EVT_RESPONSE)) as Hd.
  { apply deliver_fits; [|apply Nat.lt_0_succ].
    rewrite reply_length by (vm_compute; repeat constructor || (apply sized_map, sized_uint)). vm_compute. repeat constructor. }
  cbn [foldl] in Hh2. rewrite Hd, Hr1 in Hh2.
  destruct (misread _ s2 _ Hv Hh2) with (worker := worker) as (s3 & E3 & Hr3 & Hh3).
  { unfold EventFlags.set. rewrite Z.lor_spec. apply orb_true_r. }
  exists s1, s2, s3. eexists. split; [|split; [by destruct s1|split; [|split; [congruence|exact Hh3]]]].
  - change (handle_request busy true conn_id state_text (lit "GET REGSTATUS") s)
      with (get_text busy true Req_get_reg_status 0 s). unfold get_text. by rewrite (bind_done _ _ _ _ _ E1).
  - change (handle_request worker true conn_id state_text (lit "GET SIMSTATUS") s2)
      with (get_text worker true Req_get_sim_status 0 s2). unfold get_text. by rewrite (bind_done _ _ _ _ _ E3).
Qed.

End Late.

(** ** Witnesses *)

Import Scripted.
#[local] Existing Instance example_residue.

Lemma quiet_pending : pending idle_rest quiet.
Proof. exists [], ([], 0%Z). split; [apply Nat.le_0_l|]. split; [done|]. split; [exact idle_holds|exact silent_wf]. Qed.

(** While the server waits, the thread runs its loop and serves the requests. *)
Definition one_turn : Z -> list ThreadAct := fun _ => [Act_call (Call_loop State_none); Act_requests].


(** Ten digits are enough to overflow the [int]. *)
Lemma connection_number_overflows :
  handle_request (serving 1 5 5 9) true 1 no_state_text (lit "GET SERVERINFO 2147483648") quiet = Undef.
Proof. reflexivity. Qed.

Lemma late_reply_misread_witness :
  exists s1 s2 s3 e,
    handle_request busy true 1 no_state_text (lit "GET REGSTATUS") quiet = Done (lit "ERROR: timeout waiting response", s1) /\
    process_radio_requests 1 5 5 2 s1 = Done (tt, s2) /\
    handle_request (serving 1 5 5 9) true 1 no_state_text (lit "GET SIMSTATUS") s2 = Done (jlit "'not_inserted'", s3) /\
    radio s3 = silent /\ holds [enc tx_msg_c (mkTxMsg Req_get_sim_status 0 0)] ([], e) idle_rest (channels s3).
Proof.
  apply (late_reply_misread 1 5 5 2 ltac:(lia) 1 idle_rest no_state_text (serving 1 5 5 9) quiet);
    [exact quiet_idle|split; [vm_compute; split; [discriminate|reflexivity]|reflexivity]].
Defined.
