(* ===== verification/IpcServer.v ===== *)
(** * The desktop IPC server (examples/desktop/ipc_server.h,
      examples/desktop/posix/posix_ipc_server.cpp)

    A TCP server for one client at a time, with lines of text or frames of a
    length and a payload.  The socket calls are parameters ([Sockets]); the laws
    say what a stream socket does, in particular that [recv] may return any part
    of what has arrived. *)

From S2P Require Import Prelude CLib Layout.

(** ** Socket calls *)

Class Sockets (W : Type) := {
  sk_socket : ST W Z;
  sk_setsockopt : Z -> ST W Z;
  (** The port is passed in [sockaddr_in]. *)
  sk_bind : Z -> Z -> ST W Z;
  sk_listen : Z -> Z -> ST W Z;
  sk_close : Z -> W -> W;
  sk_accept : Z -> ST W Z;
  (** The last argument is [MSG_WAITALL]; the bytes are those written to the buffer. *)
  sk_recv : Z -> nat -> bool -> ST W (Z * str);
  sk_send : Z -> str -> ST W Z }.

(** [incoming w fd] is what the peer sends on [fd] from now on until it closes;
    [outgoing w fd] is what has been accepted for it. *)
Class SocketLaws (W : Type) `{Sockets W} := {
  incoming : W -> Z -> str;
  outgoing : W -> Z -> str;
  recv_some w fd n : 0 < n -> incoming w fd <> [] ->
    exists r w', sk_recv fd n false w = ((Z.of_nat r, take r (incoming w fd)), w') /\
                 1 <= r <= n /\ r <= length (incoming w fd) /\ incoming w' fd = drop r (incoming w fd);
  recv_closed w fd n : incoming w fd = [] -> (fst (fst (sk_recv fd n false w)) <= 0)%Z;
  recv_all w fd n : n <= length (incoming w fd) ->
    exists w', sk_recv fd n true w = ((Z.of_nat n, take n (incoming w fd)), w') /\ incoming w' fd = drop n (incoming w fd);
  recv_all_short w fd n : length (incoming w fd) < n -> (fst (fst (sk_recv fd n true w)) < Z.of_nat n)%Z;
  send_accepts w fd bytes r : fst (sk_send fd bytes w) = Z.of_nat r ->
    r <= length bytes /\ outgoing (snd (sk_send fd bytes w)) fd = outgoing w fd ++ take r bytes }.

(** ** The server *)

Inductive Mode := Mode_line | Mode_framed.
#[export] Instance Mode_eq_dec : EqDecision Mode.
Proof. solve_decision. Defined.

Record IpcServer (W : Type) := mkIpc {
  os : W; port_ : Z; mode_ : Mode; server_fd_ : Z; client_fd_ : Z; running_ : bool }.
Arguments mkIpc {W} _ _ _ _ _ _.
Arguments os {W} _.
Arguments port_ {W} _.
Arguments mode_ {W} _.
Arguments server_fd_ {W} _.
Arguments client_fd_ {W} _.
Arguments running_ {W} _.

Section Server.
Context {W : Type} {HW : Sockets W}.

Notation S := (IpcServer W).
Local Open Scope nl_scope.

Definition set_os (w : W) (s : S) : S := mkIpc w (port_ s) (mode_ s) (server_fd_ s) (client_fd_ s) (running_ s).
Definition set_client_fd (fd : Z) (s : S) : S := mkIpc (os s) (port_ s) (mode_ s) (server_fd_ s) fd (running_ s).
Definition set_server (fd : Z) (running : bool) (s : S) : S := mkIpc (os s) (port_ s) (mode_ s) fd (client_fd_ s) running.

(** A call of the operating system. *)
Definition sys {A} (m : ST W A) : ST S A := fun s => let '(a, w) := m (os s) in (a, set_os w s).
Definition nl_sys {A} (m : ST W A) : NL S A := fun s => let '(a, s') := sys m s in Done (a, s').

Definition IpcServer_init (w : W) (port : Z) (mode : Mode) : S := mkIpc w port mode (-1) (-1) false.

(** The accept thread started at the end is [accept_loop]. *)
Definition start : ST S bool := fun s =>
  let '(srv, s) := sys sk_socket s in
  if (srv <? 0)%Z then (false, s)
  else
    let '(_, s) := sys (sk_setsockopt srv) s in
    let '(b, s) := sys (sk_bind srv (port_ s)) s in
    let '(l, s) := if negb (b =? 0)%Z then (1%Z, s) else sys (sk_listen srv 1) s in
    if negb (b =? 0)%Z || negb (l =? 0)%Z then (false, set_os (sk_close srv (os s)) s)
    else (true, set_server srv true s).

Definition stop (s : S) : S :=
  let s := set_server (server_fd_ s) false s in
  let s := if negb (client_fd_ s =? -1)%Z then set_client_fd (-1) (set_os (sk_close (client_fd_ s) (os s)) s) else s in
  if negb (server_fd_ s =? -1)%Z then set_server (-1) false (set_os (sk_close (server_fd_ s) (os s)) s) else s.

(** [data] are the [length] bytes at the pointer. *)
Definition send (data : str) : ST S bool := fun s =>
  let length := Z.of_nat (length data) in
  if (client_fd_ s =? -1)%Z then (false, s)
  else if decide (mode_ s = Mode_framed) then
    let hdr := [byte_of (Z.land length 255); byte_of (Z.land (Z.shiftr length 8) 255)] in
    let '(r, s) := sys (sk_send (client_fd_ s) hdr) s in
    if negb (r =? 2)%Z then (false, s)
    else let '(r, s) := sys (sk_send (client_fd_ s) data) s in ((r =? length)%Z, s)
  else
    let '(r, s) := sys (sk_send (client_fd_ s) data) s in
    if negb (r =? length)%Z then (false, s)
    else let '(r, s) := sys (sk_send (client_fd_ s) [LF]) s in ((r =? 1)%Z, s).

(** The callbacks; [None] is an empty [std::function]. *)
Variable on_message_ : option (str -> NL S unit).
Variable on_connect_ on_disconnect_ : option (NL S unit).

Definition call (cb : option (NL S unit)) : NL S unit := default (nl_ret tt) cb.

(** [if (!line.empty() && line.back() == '\r') line.pop_back()]. *)
Definition strip_cr (line : str) : str :=
  match last line with
  | Some c => if ch_eqb c CR then removelast line else line
  | None => line
  end.

(** [on_message_(line.data(), static_cast<uint16_t>(line.size()))]: the handler sees
    as many bytes as the cast length says. *)
Definition cut16 (line : str) : str := take (Z.to_nat (u16 (Z.of_nat (length line)))) line.

Fixpoint client_loop_line (fuel : nat) (fd : Z) (line : str) : NL S unit :=
  match fuel with
  | 0 => nl_nofuel
  | Datatypes.S fuel' =>
      let* running := nl_gets running_ in
      if negb running then nl_ret tt
      else
        let* (r, bytes) := nl_sys (sk_recv fd 1 false) in
        if (r <=? 0)%Z then nl_ret tt
        else
          let ch := default NUL (head bytes) in
          if ch_eqb ch LF then
            let line := strip_cr line in
            (match on_message_ with
             | Some f => if negb (length line =? 0) then f (cut16 line) else nl_ret tt
             | None => nl_ret tt
             end) ;;;
            client_loop_line fuel' fd []
          else client_loop_line fuel' fd (line ++ [ch])
  end.

Definition BUF_SIZE : nat := 4096.

(** [while (total < recv_len)]; [None] is the [return]. *)
Fixpoint recv_payload (fuel : nat) (fd : Z) (recv_len : nat) (buf : str) : NL S (option str) :=
  match fuel with
  | 0 => nl_nofuel
  | Datatypes.S fuel' =>
      if recv_len <=? length buf then nl_ret (Some buf)
      else
        let* (r, bytes) := nl_sys (sk_recv fd (recv_len - length buf) false) in
        if (r <=? 0)%Z then nl_ret None
        else recv_payload fuel' fd recv_len (buf ++ bytes)
  end.

Fixpoint client_loop_framed (fuel : nat) (fd : Z) : NL S unit :=
  match fuel with
  | 0 => nl_nofuel
  | Datatypes.S fuel' =>
      let* running := nl_gets running_ in
      if negb running then nl_ret tt
      else
        let* (r, hdr) := nl_sys (sk_recv fd 2 true) in
        if negb (r =? 2)%Z then nl_ret tt
        else
          let len := Z.to_nat (Z.lor (of_byte (default NUL (hdr !! 0))) (Z.shiftl (of_byte (default NUL (hdr !! 1))) 8)) in
          if len =? 0 then client_loop_framed fuel' fd
          else
            let recv_len := if len <=? BUF_SIZE then len else BUF_SIZE in
            let* buf := recv_payload (Datatypes.S recv_len) fd recv_len [] in
            match buf with
            | None => nl_ret tt
            | Some buf =>
                (match on_message_ with Some f => f buf | None => nl_ret tt end) ;;;
                client_loop_framed fuel' fd
            end
  end.

Definition client_loop (fuel : nat) (fd : Z) : NL S unit :=
  let* mode := nl_gets mode_ in
  if decide (mode = Mode_framed) then client_loop_framed fuel fd else client_loop_line fuel fd [].

(** [clients] bounds the connections accepted, [fuel] the messages of each. *)
Fixpoint accept_loop (clients fuel : nat) : NL S unit :=
  match clients with
  | 0 => nl_nofuel
  | Datatypes.S clients' =>
      let* running := nl_gets running_ in
      if negb running then nl_ret tt
      else
        let* srv := nl_gets server_fd_ in
        let* client := nl_sys (sk_accept srv) in
        if (client <? 0)%Z then nl_ret tt
        else
          nl_modify (set_client_fd client) ;;;
          call on_connect_ ;;;
          let* fd := nl_gets client_fd_ in
          client_loop fuel fd ;;;
          call on_disconnect_ ;;;
          nl_modify (fun s => set_client_fd (-1) (set_os (sk_close client (os s)) s)) ;;;
          accept_loop clients' fuel
  end.

End Server.

(** ** Frames *)

(** What [send] writes in framed mode. *)
Definition frame_header (n : Z) : str := [byte_of (Z.land n 255); byte_of (Z.land (Z.shiftr n 8) 255)].
Definition frame (m : str) : str := frame_header (Z.of_nat (length m)) ++ m.

Definition header_value (hdr : str) : Z :=
  Z.lor (of_byte (default NUL (hdr !! 0))) (Z.shiftl (of_byte (default NUL (hdr !! 1))) 8).

Lemma lor_high a b : (0 <= a < 256)%Z -> Z.lor a (Z.shiftl b 8) = (a + 256 * b)%Z.
Proof.
  intros Ha. rewrite Z.shiftl_mul_pow2 by lia. change (2 ^ 8)%Z with 256%Z.
  assert (Z.land a (b * 256) = 0)%Z as Hd.
  { apply Z.bits_inj'. intros i Hi. rewrite Z.land_spec, Z.bits_0. change 256%Z with (2 ^ 8)%Z.
    destruct (Z.ltb_spec i 8); [by rewrite Z.mul_pow2_bits_low, andb_false_r|].
    rewrite <- (Z.mod_small a (2 ^ 8)) by (simpl; lia). by rewrite Z.mod_pow2_bits_high by lia. }
  rewrite <- Z.lxor_lor, <- Z.add_nocarry_lxor by done. lia.
Qed.

Lemma header_roundtrip n rest : (0 <= n < 2 ^ 16)%Z -> header_value (frame_header n ++ rest) = n.
Proof.
  intros Hn. change (header_value (frame_header n ++ rest)) with
    (Z.lor (of_byte (byte_of (Z.land n 255))) (Z.shiftl (of_byte (byte_of (Z.land (Z.shiftr n 8) 255))) 8)).
  rewrite !of_byte_of.
  change 255%Z with (Z.ones 8). rewrite !Z.land_ones, Z.shiftr_div_pow2 by lia. change (2 ^ 8)%Z with 256%Z.
  rewrite !Z.mod_mod by lia. rewrite lor_high by (apply Z.mod_pos_bound; lia).
  rewrite (Z.mod_small (n / 256)).
  - pose proof (Z.div_mod n 256 ltac:(lia)). lia.
  - split; [apply Z.div_pos; lia|]. apply Z.div_lt_upper_bound; lia.
Qed.

(** ** The messages a handler gets *)

Section Messages.
Context {W : Type} {HW : Sockets W} {HWL : SocketLaws W}.
Notation S := (IpcServer W).
Local Open Scope nl_scope.

Variable fd : Z.
Variable on_message : str -> NL S unit.
(** What the handler has been called with so far. *)
Variable log : S -> list str.

(** The handler returns, records its argument, and touches neither the bytes the
    client sends nor the [running_] flag; receiving bytes calls no handler. *)
Class HandlerLaws : Prop := {
  handled m s : exists s', on_message m s = Done (tt, s') /\ log s' = log s ++ [m] /\
                           incoming (os s') fd = incoming (os s) fd /\ running_ s' = running_ s;
  recv_no_call n all s : log (snd (sys (sk_recv fd n all) s)) = log s }.
Context {HH : HandlerLaws}.

Notation stream s := (incoming (os s) fd).

(** One [recv] of the loops. *)
Lemma receive_some n s :
  0 < n -> stream s <> [] ->
  exists r s', nl_sys (sk_recv fd n false) s = Done ((Z.of_nat r, take r (stream s)), s') /\ 1 <= r <= n /\
               r <= length (stream s) /\ stream s' = drop r (stream s) /\ log s' = log s /\ running_ s' = running_ s.
Proof using HWL HH.
  intros Hn Hs. destruct (recv_some (os s) fd n Hn Hs) as (r & w' & E & Hr & Hl & Hd).
  exists r, (set_os w' s). unfold nl_sys. pose proof (recv_no_call n false s) as Hc. unfold sys in *.
  rewrite E in Hc |- *. split_and!; done || lia.
Qed.

Lemma receive_end n s : stream s = [] ->
  exists r b s', nl_sys (sk_recv fd n false) s = Done ((r, b), s') /\ (r <=? 0 = true)%Z /\ log s' = log s.
Proof using HWL HH.
  intros Hs. pose proof (recv_closed (os s) fd n Hs) as Hr. pose proof (recv_no_call n false s) as Hc.
  unfold nl_sys, sys in *. destruct (sk_recv fd n false (os s)) as [[r b] w']. cbn in *.
  exists r, b, (set_os w' s). split; [done|]. split; [by apply Z.leb_le|done].
Qed.

Lemma receive_char c rest s :
  stream s = c :: rest ->
  exists s', nl_sys (sk_recv fd 1 false) s = Done ((1%Z, [c]), s') /\ stream s' = rest /\ log s' = log s /\
             running_ s' = running_ s.
Proof using HWL HH.
  intros Hs. destruct (receive_some 1 s ltac:(lia) ltac:(by rewrite Hs)) as (r & s' & E & Hr & _ & Hd & Hl & Hrun).
  assert (r = 1) as -> by lia. rewrite Hs in *. exists s'. by split_and!.
Qed.

Lemma bind_run {A B} (m : NL S A) (k : A -> NL S B) s a s1 : m s = Done (a, s1) -> nl_bind m k s = k a s1.
Proof. intros E. unfold nl_bind. by rewrite E. Qed.

(** *** Lines *)

(** The characters of a line are collected. *)
Lemma line_chars l : forall fuel line rest s,
  Forall (fun c => ch_eqb c LF = false) l -> stream s = l ++ rest -> running_ s = true ->
  exists s', client_loop_line (Some on_message) (length l + fuel) fd line s =
             client_loop_line (Some on_message) fuel fd (line ++ l) s' /\
             stream s' = rest /\ log s' = log s /\ running_ s' = true.
Proof using HWL HH.
  induction l as [|c l IH]; intros fuel line rest s Hl Hs Hr; [exists s; by rewrite app_nil_r|].
  apply Forall_cons in Hl as [Hc Hl]. destruct (receive_char c (l ++ rest) s Hs) as (s1 & E1 & Hs1 & Hl1 & Hr1).
  destruct (IH fuel (line ++ [c]) rest s1 Hl Hs1 ltac:(congruence)) as (s2 & E2 & Hs2 & Hl2 & Hr2).
  exists s2. split; [|split_and!; congruence]. cbn [length Nat.add client_loop_line].
  unfold nl_gets at 1. unfold nl_bind at 1. rewrite Hr. cbn [negb]. rewrite (bind_run _ _ _ _ _ E1).
  change (1 <=? 0)%Z with false. cbv iota zeta. change (default NUL (head [c])) with c. rewrite Hc, E2. by rewrite <- app_assoc.
Qed.

Definition line_message (l : str) : list str :=
  if length (strip_cr l) =? 0 then [] else [cut16 (strip_cr l)].

Lemma line_end fuel line rest s :
  stream s = LF :: rest -> running_ s = true ->
  exists s', client_loop_line (Some on_message) (Datatypes.S fuel) fd line s =
             client_loop_line (Some on_message) fuel fd [] s' /\
             stream s' = rest /\ log s' = log s ++ line_message line /\ running_ s' = true.
Proof using HWL HH.
  intros Hs Hr. destruct (receive_char LF rest s Hs) as (s1 & E1 & Hs1 & Hl1 & Hr1). cbn [client_loop_line].
  unfold nl_gets at 1. unfold nl_bind at 1. rewrite Hr. cbn [negb]. rewrite (bind_run _ _ _ _ _ E1).
  change (1 <=? 0)%Z with false. cbv iota zeta. change (ch_eqb (default NUL (head [LF])) LF) with true. cbv iota.
  unfold line_message.
  destruct (length (strip_cr line) =? 0); cbn [negb].
  - exists s1. rewrite app_nil_r. split; [done|split_and!; congruence].
  - destruct (handled (cut16 (strip_cr line)) s1) as (s2 & E2 & Hl2 & Hs2 & Hr2).
    exists s2. rewrite (bind_run _ _ _ _ _ E2). split; [done|split_and!; congruence].
Qed.

Definition lines_text (ls : list str) : str := concat (map (fun l => l ++ [LF]) ls).

Lemma lines_served ls : forall fuel rest s,
  Forall (Forall (fun c => ch_eqb c LF = false)) ls -> stream s = lines_text ls ++ rest -> running_ s = true ->
  exists s', client_loop_line (Some on_message) (length (lines_text ls) + fuel) fd [] s =
             client_loop_line (Some on_message) fuel fd [] s' /\
             stream s' = rest /\ log s' = log s ++ concat (map line_message ls) /\ running_ s' = true.
Proof using HWL HH.
  induction ls as [|l ls IH]; intros fuel rest s Hl Hs Hr; [exists s; by rewrite app_nil_r|].
  apply Forall_cons in Hl as [Hc Hl]. change (lines_text (l :: ls)) with ((l ++ [LF]) ++ lines_text ls) in *.
  rewrite <- !app_assoc in *. cbn [app] in *. rewrite length_app. cbn [length].
  destruct (line_chars l (Datatypes.S (length (lines_text ls)) + fuel) [] _ s Hc Hs Hr) as (s1 & E1 & Hs1 & Hl1 & Hr1).
  rewrite <- Nat.add_assoc, E1. cbn [app Nat.add].
  destruct (line_end (length (lines_text ls) + fuel) l _ s1 Hs1 Hr1) as (s2 & E2 & Hs2 & Hl2 & Hr2). rewrite E2.
  destruct (IH fuel rest s2 Hl Hs2 Hr2) as (s3 & E3 & Hs3 & Hl3 & Hr3). exists s3. split; [done|]. split; [done|].
  split; [|done]. rewrite Hl3, Hl2, Hl1. cbn [map concat]. by rewrite <- app_assoc.
Qed.

(** Line mode: however the client's bytes arrive, the handler is called once for
    each complete line, in order, with the line without its end ("\n" or "\r\n");
    empty lines are skipped and an unfinished line at the end is dropped.  A line
    of 65536 bytes or more reaches the handler cut to its length modulo 65536. *)
Theorem ipc_line_messages ls tail fuel s :
  Forall (Forall (fun c => ch_eqb c LF = false)) ls -> Forall (fun c => ch_eqb c LF = false) tail ->
  incoming (os s) fd = lines_text ls ++ tail -> running_ s = true -> length (incoming (os s) fd) < fuel ->
  exists s', client_loop_line (Some on_message) fuel fd [] s = Done (tt, s') /\
             log s' = log s ++ concat (map line_message ls).
Proof using HWL HH.
  intros Hls Ht Hs Hr Hf. rewrite Hs, length_app in Hf.
  replace fuel with (length (lines_text ls) + (length tail + Datatypes.S (fuel - length (lines_text ls) - length tail - 1))) by lia.
  destruct (lines_served ls (length tail + Datatypes.S (fuel - length (lines_text ls) - length tail - 1)) tail s Hls Hs Hr)
    as (s1 & E1 & Hs1 & Hl1 & Hr1). rewrite E1.
  destruct (line_chars tail (Datatypes.S (fuel - length (lines_text ls) - length tail - 1)) [] [] s1 Ht
              ltac:(by rewrite app_nil_r) Hr1) as (s2 & E2 & Hs2 & Hl2 & Hr2). rewrite E2.
  destruct (receive_end 1 s2 Hs2) as (r & b & s3 & E3 & Hle & Hl3). exists s3. cbn [client_loop_line].
  unfold nl_gets at 1. unfold nl_bind at 1. rewrite Hr2. cbn [negb]. rewrite (bind_run _ _ _ _ _ E3), Hle.
  split; [done|congruence].
Qed.

(** *** Frames *)

Lemma payload_received recv_len : forall fuel buf s,
  length buf <= recv_len -> recv_len - length buf <= length (stream s) -> recv_len - length buf < fuel ->
  exists s', recv_payload fuel fd recv_len buf s = Done (Some (buf ++ take (recv_len - length buf) (stream s)), s') /\
             stream s' = drop (recv_len - length buf) (stream s) /\ log s' = log s /\ running_ s' = running_ s.
Proof using HWL HH.
  induction fuel as [|fuel IH]; intros buf s Hb Hs Hf; [lia|]. cbn [recv_payload].
  destruct (recv_len <=? length buf) eqn:E; bool_facts.
  { exists s. replace (recv_len - length buf) with 0 by lia. cbn [take drop]. by rewrite app_nil_r. }
  destruct (receive_some (recv_len - length buf) s ltac:(lia)) as (r & s1 & E1 & Hr & Hl & Hd & Hl1 & Hr1).
  { intros Hn. rewrite Hn in Hs. simpl in Hs. lia. }
  rewrite (bind_run _ _ _ _ _ E1). destruct (Z.of_nat r <=? 0)%Z eqn:Ez; bool_facts; [lia|].
  assert (length (buf ++ take r (stream s)) = length buf + r) as Hlen by (rewrite length_app, length_take; lia).
  destruct (IH (buf ++ take r (stream s)) s1) as (s2 & E2 & Hs2 & Hl2 & Hr2); rewrite ?Hlen.
  { lia. } { rewrite Hd, length_drop. lia. } { lia. }
  exists s2. rewrite E2, Hs2, Hd, Hlen, drop_drop, <- app_assoc, take_take_drop.
  replace (r + (recv_len - (length buf + r))) with (recv_len - length buf) by lia. split_and!; congruence.
Qed.

Lemma header_received s :
  2 <= length (stream s) ->
  exists s', nl_sys (sk_recv fd 2 true) s = Done ((2%Z, take 2 (stream s)), s') /\ stream s' = drop 2 (stream s) /\
             log s' = log s /\ running_ s' = running_ s.
Proof using HWL HH.
  intros Hs. destruct (recv_all (os s) fd 2 Hs) as (w' & E & Hd). pose proof (recv_no_call 2 true s) as Hc.
  exists (set_os w' s). unfold nl_sys, sys in *. rewrite E in Hc |- *. by split_and!.
Qed.

(** A frame that fits the buffer: delivered if it is not empty. *)
Lemma frame_served m rest fuel s :
  length m <= BUF_SIZE -> stream s = frame m ++ rest -> running_ s = true ->
  exists s', client_loop_framed (Some on_message) (Datatypes.S fuel) fd s = client_loop_framed (Some on_message) fuel fd s' /\
             stream s' = rest /\ log s' = log s ++ (if length m =? 0 then [] else [m]) /\ running_ s' = true.
Proof using HWL HH.
  intros Hm Hs Hr. unfold frame in Hs. rewrite <- app_assoc in Hs.
  destruct (header_received s) as (s1 & E1 & Hs1 & Hl1 & Hr1); [rewrite Hs; cbn; lia|].
  rewrite Hs in E1, Hs1. cbn [client_loop_framed]. unfold nl_gets at 1. unfold nl_bind at 1. rewrite Hr. cbn [negb].
  rewrite (bind_run _ _ _ _ _ E1). change (2 =? 2)%Z with true. cbn [negb].
  change (take 2 (frame_header (Z.of_nat (length m)) ++ m ++ rest)) with (frame_header (Z.of_nat (length m)) ++ []).
  fold (header_value (frame_header (Z.of_nat (length m)) ++ [])). unfold BUF_SIZE in Hm.
  rewrite header_roundtrip, Nat2Z.id by lia. change (drop 2 (frame_header (Z.of_nat (length m)) ++ m ++ rest)) with (m ++ rest) in Hs1.
  destruct (length m =? 0) eqn:E0; bool_facts.
  { exists s1. apply length_zero_iff_nil in E0. subst m. rewrite app_nil_r. split_and!; [done|done| |]; congruence. }
  cbv zeta. destruct (length m <=? BUF_SIZE) eqn:Eb; bool_facts; [|unfold BUF_SIZE in Eb; lia].
  destruct (payload_received (length m) (Datatypes.S (length m)) [] s1) as (s2 & E2 & Hs2 & Hl2 & Hr2);
    [simpl; lia|rewrite Hs1, length_app; simpl; lia|simpl; lia|].
  rewrite (bind_run _ _ _ _ _ E2). cbn [app length]. rewrite Nat.sub_0_r, Hs1, take_app_length.
  destruct (handled m s2) as (s3 & E3 & Hl3 & Hs3 & Hr3). rewrite (bind_run _ _ _ _ _ E3). exists s3.
  split; [done|]. rewrite Hs3, Hs2, Hs1. cbn [length]. rewrite Nat.sub_0_r, drop_app_length. split_and!; congruence.
Qed.

Definition frames_text (ms : list str) : str := concat (map frame ms).
Definition nonempty (ms : list str) : list str := filter (fun m => m <> []) ms.

Lemma frames_served ms : forall fuel rest s,
  Forall (fun m => length m <= BUF_SIZE) ms -> stream s = frames_text ms ++ rest -> running_ s = true ->
  exists s', client_loop_framed (Some on_message) (length ms + fuel) fd s = client_loop_framed (Some on_message) fuel fd s' /\
             stream s' = rest /\ log s' = log s ++ nonempty ms /\ running_ s' = true.
Proof using HWL HH.
  induction ms as [|m ms IH]; intros fuel rest s Hm Hs Hr; [exists s; by rewrite app_nil_r|].
  apply Forall_cons in Hm as [Hm Hms]. change (frames_text (m :: ms)) with (frame m ++ frames_text ms) in Hs.
  rewrite <- app_assoc in Hs. cbn [length Nat.add].
  destruct (frame_served m _ (length ms + fuel) s Hm Hs Hr) as (s1 & E1 & Hs1 & Hl1 & Hr1). rewrite E1.
  destruct (IH fuel rest s1 Hms Hs1 Hr1) as (s2 & E2 & Hs2 & Hl2 & Hr2). exists s2. split; [done|]. split; [done|].
  split; [|done]. rewrite Hl2, Hl1, <- app_assoc. f_equal. unfold nonempty. rewrite filter_cons.
  destruct (length m =? 0) eqn:E0; bool_facts.
  - apply length_zero_iff_nil in E0. subst m. by rewrite decide_False by naive_solver.
  - by rewrite decide_True by (by intros ->).
Qed.

(** The connection ends in the middle of a header. *)
Lemma frames_end fuel s :
  length (stream s) < 2 -> running_ s = true ->
  exists s', client_loop_framed (Some on_message) (Datatypes.S fuel) fd s = Done (tt, s') /\ log s' = log s.
Proof using HWL HH.
  intros Hs Hr. pose proof (recv_all_short (os s) fd 2 Hs) as Hshort. pose proof (recv_no_call 2 true s) as Hc.
  cbn [client_loop_framed]. unfold nl_gets at 1. unfold nl_bind at 1. rewrite Hr. cbn [negb]. unfold nl_bind at 1.
  unfold nl_sys, sys in *.
  destruct (sk_recv fd 2 true (os s)) as [[r hdr] w']. cbn [fst snd] in *.
  destruct (r =? 2)%Z eqn:E; bool_facts; [lia|]. cbn [negb]. by eexists.
Qed.

(** C30. Framed mode is faithful for frames of at most 4096 bytes: whatever way the
    bytes of a sequence of frames arrive, the handler is called with exactly the
    payloads, in order, empty frames left out; the bytes are those that [send]
    writes, so what one end sends the other receives. *)
Theorem ipc_frames_roundtrip ms fuel s :
  Forall (fun m => length m <= BUF_SIZE) ms -> incoming (os s) fd = frames_text ms -> running_ s = true ->
  length ms < fuel ->
  exists s', client_loop_framed (Some on_message) fuel fd s = Done (tt, s') /\ log s' = log s ++ nonempty ms.
Proof using HWL HH.
  intros Hm Hs Hr Hf. rewrite <- (app_nil_r (frames_text ms)) in Hs.
  replace fuel with (length ms + Datatypes.S (fuel - length ms - 1)) by lia.
  destruct (frames_served ms (Datatypes.S (fuel - length ms - 1)) [] s Hm Hs Hr) as (s1 & E1 & Hs1 & Hl1 & Hr1). rewrite E1.
  destruct (frames_end (fuel - length ms - 1) s1) as (s2 & E2 & Hl2); [rewrite Hs1; simpl; lia|done|].
  exists s2. split; [done|congruence].
Qed.

(** A frame longer than the buffer is not one message: the handler gets its
    first 4096 bytes, and the rest of the payload is then read as frames of its
    own, so a client's data is taken for lengths and messages. *)
Theorem ipc_long_frame_splits x ms fuel s :
  length x = BUF_SIZE -> Forall (fun m => length m <= BUF_SIZE) ms -> (Z.of_nat (length (x ++ frames_text ms)) < 2 ^ 16)%Z ->
  ms <> [] -> incoming (os s) fd = frame (x ++ frames_text ms) -> running_ s = true -> Datatypes.S (length ms) < fuel ->
  exists s', client_loop_framed (Some on_message) fuel fd s = Done (tt, s') /\ log s' = log s ++ x :: nonempty ms.
Proof using HWL HH.
  intros Hx Hm Hlen Hne Hs Hr Hf. destruct fuel as [|fuel]; [lia|]. unfold frame in Hs. set (p := x ++ frames_text ms) in *.
  assert (BUF_SIZE < length p) as Hp.
  { unfold p. rewrite length_app, Hx. destruct ms as [|m ms]; [done|]. change (frames_text (m :: ms)) with (frame m ++ frames_text ms).
    unfold frame. rewrite !length_app. cbn [frame_header length]. lia. }
  destruct (header_received s) as (s1 & E1 & Hs1 & Hl1 & Hr1); [rewrite Hs; cbn; lia|].
  rewrite Hs in E1, Hs1. cbn [client_loop_framed]. unfold nl_gets at 1. unfold nl_bind at 1. rewrite Hr. cbn [negb].
  rewrite (bind_run _ _ _ _ _ E1). change (2 =? 2)%Z with true. cbn [negb].
  change (take 2 (frame_header (Z.of_nat (length p)) ++ p)) with (frame_header (Z.of_nat (length p)) ++ []).
  fold (header_value (frame_header (Z.of_nat (length p)) ++ [])). rewrite header_roundtrip, Nat2Z.id by lia.
  change (drop 2 (frame_header (Z.of_nat (length p)) ++ p)) with p in Hs1.
  destruct (length p =? 0) eqn:E0; bool_facts; [lia|]. cbv zeta. destruct (length p <=? BUF_SIZE) eqn:Eb; bool_facts; [lia|].
  destruct (payload_received BUF_SIZE (Datatypes.S BUF_SIZE) [] s1) as (s2 & E2 & Hs2 & Hl2 & Hr2);
    [simpl; lia|rewrite Hs1; simpl length; lia|simpl length; lia|].
  rewrite (bind_run _ _ _ _ _ E2). cbn [app length]. rewrite Nat.sub_0_r, Hs1. cbn [length] in Hs2. rewrite Nat.sub_0_r, Hs1 in Hs2.
  unfold p in Hs2 |- *. rewrite <- Hx in Hs2 |- *. rewrite take_app_length, drop_app_length in *.
  destruct (handled x s2) as (s3 & E3 & Hl3 & Hs3 & Hr3). rewrite (bind_run _ _ _ _ _ E3).
  rewrite <- (app_nil_r (frames_text ms)) in Hs2.
  replace fuel with (length ms + Datatypes.S (fuel - length ms - 1)) by lia.
  destruct (frames_served ms (Datatypes.S (fuel - length ms - 1)) [] s3 Hm) as (s4 & E4 & Hs4 & Hl4 & Hr4); [congruence|congruence|].
  rewrite E4. destruct (frames_end (fuel - length ms - 1) s4) as (s5 & E5 & Hl5); [rewrite Hs4; simpl; lia|done|].
  exists s5. split; [done|]. rewrite Hl5, Hl4, Hl3, Hl2, Hl1, <- app_assoc. done.
Qed.

End Messages.

(** ** What is sent *)

Section Sending.
Context {W : Type} {HW : Sockets W} {HWL : SocketLaws W}.

Lemma sys_send fd bytes (s : IpcServer W) r s' :
  sys (sk_send fd bytes) s = (Z.of_nat r, s') -> r = length bytes ->
  outgoing (os s') fd = outgoing (os s) fd ++ bytes /\ client_fd_ s' = client_fd_ s /\ mode_ s' = mode_ s.
Proof using HWL.
  unfold sys. pose proof (send_accepts (os s) fd bytes r) as Hl. destruct (sk_send fd bytes (os s)) as [r' w'].
  intros E Hr. injection E as -> <-. destruct (Hl eq_refl) as [_ Ho]. cbn in *. by rewrite Ho, Hr, take_ge by lia.
Qed.

(** A reply that was sent, as the client sees it. *)
Lemma send_writes data (s s' : IpcServer W) :
  send data s = (true, s') ->
  outgoing (os s') (client_fd_ s) =
  outgoing (os s) (client_fd_ s) ++ (if decide (mode_ s = Mode_framed) then frame data else data ++ [LF]).
Proof using HWL.
  unfold send. destruct (client_fd_ s =? -1)%Z; [done|]. case_decide as Hm.
  - destruct (sys (sk_send (client_fd_ s) _) s) as [r1 s1] eqn:E1. destruct (r1 =? 2)%Z eqn:R1; [|done]. bool_facts. subst r1.
    cbn [negb]. destruct (sys_send _ _ s 2 s1 E1 eq_refl) as (H1 & Hc1 & _). rewrite Hc1.
    destruct (sys (sk_send (client_fd_ s) data) s1) as [r2 s2] eqn:E2. intros E. injection E as R2 <-. bool_facts. subst r2.
    destruct (sys_send _ _ s1 _ s2 E2 eq_refl) as (H2 & _ & _). rewrite H2, H1, <- app_assoc. done.
  - destruct (sys (sk_send (client_fd_ s) data) s) as [r1 s1] eqn:E1.
    destruct (r1 =? Z.of_nat (length data))%Z eqn:R1; [|done]. bool_facts. subst r1. cbn [negb].
    destruct (sys_send _ _ s _ s1 E1 eq_refl) as (H1 & Hc1 & _). rewrite Hc1.
    destruct (sys (sk_send (client_fd_ s) [LF]) s1) as [r2 s2] eqn:E2. intros E. injection E as R2 <-. bool_facts. subst r2.
    destruct (sys_send _ _ s1 1 s2 E2 eq_refl) as (H2 & _ & _). by rewrite H2, H1, <- app_assoc.
Qed.

End Sending.

(** ** A concrete network *)

(** One connection; [recv] gives at most three bytes at a time. *)
Module Pipe.

Record World := mkWorld { inq : str; outq : str; got : list str }.

#[global] Instance pipe_sockets : Sockets World := {
  sk_socket w := (3%Z, w);
  sk_setsockopt _ w := (0%Z, w);
  sk_bind _ _ w := (0%Z, w);
  sk_listen _ _ w := (0%Z, w);
  sk_close _ w := w;
  sk_accept _ w := ((-1)%Z, w);
  sk_recv _ n all w :=
    let r := (if all : bool then n else n `min` 3) `min` length (inq w) in
    ((Z.of_nat r, take r (inq w)), mkWorld (drop r (inq w)) (outq w) (got w));
  sk_send _ bytes w := (Z.of_nat (length bytes), mkWorld (inq w) (outq w ++ bytes) (got w)) }.

#[global] Instance pipe_laws : SocketLaws World.
Proof.
  refine {| incoming w _ := inq w; outgoing w _ := outq w |}.
  - intros w fd n Hn Hne. cbn. eexists _, _. split; [done|]. cbn.
    assert (0 < length (inq w)) by (destruct (inq w); [done|simpl; lia]). split_and!; done || lia.
  - intros w fd n Hw. cbn. rewrite Hw. simpl. lia.
  - intros w fd n Hn. cbn. rewrite Nat.min_l by lia. by eexists.
  - intros w fd n Hn. cbn. lia.
  - intros w fd bytes r E. cbn in *. assert (r = length bytes) as -> by lia. rewrite firstn_all. split; [lia|done].
Defined.

(** A handler that keeps what it gets. *)
Definition keep (m : str) : NL (IpcServer World) unit := fun s =>
  Done (tt, set_os (mkWorld (inq (os s)) (outq (os s)) (got (os s) ++ [m])) s).
Definition kept (s : IpcServer World) : list str := got (os s).

#[global] Instance keep_laws : HandlerLaws 4 keep kept.
Proof.
  split.
  - intros m s. eexists. split; [done|]. done.
  - done.
Qed.

Definition connected (mode : Mode) (bytes : str) : IpcServer World := mkIpc (mkWorld bytes [] []) 9000 mode 3 4 true.

End Pipe.

Import Pipe.

Lemma ipc_line_messages_witness :
  exists s', client_loop_line (Some keep) 60 4 [] (connected Mode_line (lines_text [lit "AT+CSQ" ++ [CR]; []; lit "AT"] ++ lit "AT+")) = Done (tt, s') /\
             kept s' = [lit "AT+CSQ"; lit "AT"].
Proof.
  apply (ipc_line_messages 4 keep kept [lit "AT+CSQ" ++ [CR]; []; lit "AT"] (lit "AT+") 60);
    [repeat constructor|repeat constructor|reflexivity|reflexivity|vm_compute; lia].
Defined.

Lemma ipc_frames_roundtrip_witness :
  exists s', client_loop_framed (Some keep) 4 4 (connected Mode_framed (frames_text [lit "hello"; []; lit "coap"])) = Done (tt, s') /\
             kept s' = [lit "hello"; lit "coap"].
Proof.
  apply (ipc_frames_roundtrip 4 keep kept [lit "hello"; []; lit "coap"] 4);
    [repeat (apply Forall_cons; split; [apply Nat.leb_le; reflexivity|]); done|reflexivity|reflexivity|simpl; lia].
Defined.

(** One frame, two messages. *)
Lemma ipc_long_frame_splits_witness :
  exists s', client_loop_framed (Some keep) 4 4 (connected Mode_framed (frame (replicate 4096 "x"%char ++ frames_text [lit "AT+CFUN=0"]))) =
               Done (tt, s') /\
             kept s' = [replicate 4096 "x"%char; lit "AT+CFUN=0"].
Proof.
  apply (ipc_long_frame_splits 4 keep kept (replicate 4096 "x"%char) [lit "AT+CFUN=0"] 4).
  - apply length_replicate.
  - apply Forall_singleton. apply Nat.leb_le. reflexivity.
  - rewrite length_app, length_replicate. vm_compute. reflexivity.
  - discriminate.
  - reflexivity.
  - reflexivity.
  - simpl. lia.
Defined.
