(* ===== verification/IpcThreads.v ===== *)
(** * Descriptors of the IPC server's two threads
      (examples/desktop/posix/posix_ipc_server.cpp)

    [IpcServer] has what the server does with its sockets.  Here is who owns a
    descriptor: the accept thread serves one client after the other and closes its
    socket, while [stop], called by the owner of the server, closes the sockets it
    finds in the members, which nothing protects.  A statement that reads or writes a
    member, or makes a system call, is one step; the other parts of the program open
    and close descriptors in between, and the system hands out the lowest free one.

    [ipc_closes_own]: unless [stop] finds a client, the server closes what it opened,
    once; if it does, the client's descriptor is closed twice ([stop_while_serving]), and
    the second time it may be somebody else's. *)

From S2P Require Import Prelude.

Definition fd : Type := nat.

(** Whose a descriptor is. *)
Inductive owner := of_server | of_other.
#[export] Instance owner_eq_dec : EqDecision owner.
Proof. solve_decision. Defined.

(** Where the accept thread is: in [accept_loop], with [client] the local variable. *)
Inductive accept_pc :=
| acc_test                     (* while (running_) *)
| acc_call                     (* about to call accept(server_fd_) *)
| acc_accepting (srv : option fd)
| acc_store (client : fd)      (* client_fd_ = client *)
| acc_serve (client : fd)      (* on_connect_, client_loop, on_disconnect_ *)
| acc_close (client : fd)      (* close(client) *)
| acc_clear                    (* client_fd_ = -1 *)
| acc_exit.

(** Where the owner is: outside, or in [stop]. *)
Inductive stop_pc :=
| stop_none
| stop_begin                   (* running_ = false *)
| stop_client_test             (* if (client_fd_ != -1) *)
| stop_client_close
| stop_client_clear
| stop_server_test             (* if (server_fd_ != -1) *)
| stop_server_close
| stop_server_clear.

(** [None] is -1. *)
Record State := mkState {
  table : list (option owner);
  server_fd_ : option fd;
  client_fd_ : option fd;
  running_ : bool;
  acc : accept_pc;
  own : stop_pc }.

(** A [close] of the server, and whose the descriptor was. *)
Inductive event := ev_close (f : fd) (o : option owner).

Definition set_table (t : list (option owner)) (s : State) : State :=
  mkState t (server_fd_ s) (client_fd_ s) (running_ s) (acc s) (own s).
Definition set_acc (p : accept_pc) (s : State) : State :=
  mkState (table s) (server_fd_ s) (client_fd_ s) (running_ s) p (own s).
Definition set_own (p : stop_pc) (s : State) : State :=
  mkState (table s) (server_fd_ s) (client_fd_ s) (running_ s) (acc s) p.
Definition set_client (c : option fd) (s : State) : State :=
  mkState (table s) (server_fd_ s) c (running_ s) (acc s) (own s).
Definition set_server (c : option fd) (s : State) : State :=
  mkState (table s) c (client_fd_ s) (running_ s) (acc s) (own s).

(** The lowest free descriptor. *)
Fixpoint open_fd (o : owner) (t : list (option owner)) : fd * list (option owner) :=
  match t with
  | [] => (0, [Some o])
  | None :: t' => (0, Some o :: t')
  | x :: t' => let '(f, t'') := open_fd o t' in (S f, x :: t'')
  end.

Definition owner_of (f : fd) (t : list (option owner)) : option owner := default None (t !! f).
Definition close_fd (f : fd) (t : list (option owner)) : list (option owner) := <[f := None]> t.

(** [start] has succeeded, in a program with the descriptors [t], and its thread is to
    run. *)
Definition started (t : list (option owner)) : State :=
  let '(srv, t) := open_fd of_server t in mkState t (Some srv) None true acc_test stop_none.

Definition server_close (f : option fd) (s : State) : State * list event :=
  match f with
  | Some f => (set_table (close_fd f (table s)) s, [ev_close f (owner_of f (table s))])
  | None => (s, [])
  end.

Definition is_listening (srv : option fd) (s : State) : bool :=
  match srv with Some f => bool_decide (owner_of f (table s) = Some of_server) | None => false end.

Inductive action :=
| a_other_open
| a_other_close (f : fd)
| a_stop               (* stop() is called *)
| a_stop_step
| a_accept_step        (* a statement of accept_loop *)
| a_client             (* a client connects: accept returns its descriptor *)
| a_accept_fails
| a_client_gone.       (* client_loop returns *)

(** A statement of the accept thread. *)
Definition accept_step (s : State) : option (State * list event) :=
  match acc s with
  | acc_test => Some (set_acc (if running_ s then acc_call else acc_exit) s, [])
  | acc_call => Some (set_acc (acc_accepting (server_fd_ s)) s, [])
  | acc_store c => Some (set_acc (acc_serve c) (set_client (Some c) s), [])
  | acc_close c => let '(s, evs) := server_close (Some c) s in Some (set_acc acc_clear s, evs)
  | acc_clear => Some (set_acc acc_test (set_client None s), [])
  | _ => None
  end.

(** A statement of [stop]. *)
Definition stop_step (s : State) : option (State * list event) :=
  match own s with
  | stop_none => None
  | stop_begin =>
      Some (mkState (table s) (server_fd_ s) (client_fd_ s) false (acc s) stop_client_test, [])
  | stop_client_test =>
      Some (set_own (match client_fd_ s with Some _ => stop_client_close | None => stop_server_test end) s, [])
  | stop_client_close => let '(s, evs) := server_close (client_fd_ s) s in Some (set_own stop_client_clear s, evs)
  | stop_client_clear => Some (set_own stop_server_test (set_client None s), [])
  | stop_server_test =>
      Some (set_own (match server_fd_ s with Some _ => stop_server_close | None => stop_none end) s, [])
  | stop_server_close => let '(s, evs) := server_close (server_fd_ s) s in Some (set_own stop_server_clear s, evs)
  | stop_server_clear => Some (set_own stop_none (set_server None s), [])
  end.

Definition exec (a : action) (s : State) : option (State * list event) :=
  match a with
  | a_other_open => let '(_, t) := open_fd of_other (table s) in Some (set_table t s, [])
  | a_other_close f =>
      if decide (owner_of f (table s) = Some of_other) then Some (set_table (close_fd f (table s)) s, []) else None
  | a_stop => match own s with stop_none => Some (set_own stop_begin s, []) | _ => None end
  | a_stop_step => stop_step s
  | a_accept_step => accept_step s
  | a_client =>
      match acc s with
      | acc_accepting srv =>
          if is_listening srv s then
            let '(c, t) := open_fd of_server (table s) in Some (set_acc (acc_store c) (set_table t s), [])
          else None
      | _ => None
      end
  | a_accept_fails => match acc s with acc_accepting _ => Some (set_acc acc_exit s, []) | _ => None end
  | a_client_gone => match acc s with acc_serve c => Some (set_acc (acc_close c) s, []) | _ => None end
  end.

Fixpoint exec_all (l : list action) (s : State) : option (State * list event) :=
  match l with
  | [] => Some (s, [])
  | a :: l' =>
      match exec a s with
      | None => None
      | Some (s1, evs) =>
          match exec_all l' s1 with
          | None => None
          | Some (s2, evs') => Some (s2, evs ++ evs')
          end
      end
  end.

(** [stop] looks for a client when there is none. *)
Definition finds_none (a : action) (s : State) : bool :=
  match a, own s, client_fd_ s with
  | a_stop_step, stop_client_test, Some _ => false
  | _, _, _ => true
  end.

(** The runs of a started server in which [stop] never finds a client. *)
Inductive reach (t0 : list (option owner)) : State -> list event -> Prop :=
| reach_started : reach t0 (started t0) []
| reach_exec s tr a s' evs :
    reach t0 s tr -> finds_none a s = true -> exec a s = Some (s', evs) -> reach t0 s' (tr ++ evs).

(** ** Descriptors *)

Lemma owner_open o t f :
  owner_of f (snd (open_fd o t)) = if decide (f = fst (open_fd o t)) then Some o else owner_of f t.
Proof.
  revert f. induction t as [|[x|] t IH]; intros f.
  - destruct f; [done|]. by destruct f.
  - destruct f as [|f]; cbn [open_fd]; [by destruct (open_fd o t)|]. specialize (IH f).
    destruct (open_fd o t) as [g t']. cbn [fst snd] in *. change (owner_of (S f) (Some x :: t')) with (owner_of f t').
    change (owner_of (S f) (Some x :: t)) with (owner_of f t). rewrite IH.
    repeat case_decide; congruence.
  - destruct f; done.
Qed.

(** The new descriptor was free. *)
Lemma open_free o t : owner_of (fst (open_fd o t)) t = None.
Proof. induction t as [|[x|] t IH]; [done| |done]. cbn [open_fd]. by destruct (open_fd o t). Qed.

Lemma owner_close f g t : owner_of g (close_fd f t) = if decide (g = f) then None else owner_of g t.
Proof.
  unfold owner_of, close_fd. destruct (decide (g = f)) as [->|Hne].
  - destruct (decide (f < length t)).
    + by rewrite list_lookup_insert_eq.
    + rewrite lookup_ge_None_2; [done|]. rewrite length_insert. lia.
  - by rewrite list_lookup_insert_ne.
Qed.

(** ** Invariant *)

(** The descriptors the server has to close: the client's until the accept thread has
    closed it, the listening one until [stop] has. *)
Definition client_of (p : accept_pc) : option fd :=
  match p with acc_store c | acc_serve c | acc_close c => Some c | _ => None end.

Definition listening (s : State) : option fd :=
  match own s with stop_server_clear => None | _ => server_fd_ s end.

Record Inv (s : State) : Prop := mkInv {
  inv_table : forall f, owner_of f (table s) = Some of_server <-> client_of (acc s) = Some f \/ listening s = Some f;
  inv_distinct : forall f, client_of (acc s) = Some f -> listening s <> Some f;
  inv_own : match own s with stop_client_close | stop_client_clear => False | stop_server_close => server_fd_ s <> None | _ => True end }.

(** A step that touches neither the table nor what the server has to close. *)
Lemma inv_same s s' :
  Inv s -> table s' = table s -> client_of (acc s') = client_of (acc s) -> listening s' = listening s ->
  match own s' with stop_client_close | stop_client_clear => False | stop_server_close => server_fd_ s' <> None | _ => True end ->
  Inv s'.
Proof. intros [H1 H2 H3] Ht Hc Hl Ho. split; [by rewrite Ht, Hc, Hl|by rewrite Hc, Hl|done]. Qed.

(** Somebody else opens or closes a descriptor. *)
Lemma inv_other s t :
  Inv s -> (forall f, owner_of f t = Some of_server <-> owner_of f (table s) = Some of_server) -> Inv (set_table t s).
Proof. intros [H1 H2 H3] Ht. split; [|done|done]. intros f. cbn. by rewrite Ht, H1. Qed.

Lemma inv_accept s c t :
  Inv s -> client_of (acc s) = None -> open_fd of_server (table s) = (c, t) ->
  Inv (set_acc (acc_store c) (set_table t s)).
Proof.
  intros [H1 H2 H3] Hc Ho. pose proof (owner_open of_server (table s)) as Ht. pose proof (open_free of_server (table s)) as Hf.
  rewrite Ho in Ht, Hf. cbn [fst snd] in Ht, Hf. split; [| |done].
  - intros f. cbn. rewrite Ht. destruct (decide (f = c)) as [->|Hne].
    + split; [by left|done].
    + rewrite H1, Hc. cbn. change (listening (set_acc (acc_store c) (set_table t s))) with (listening s). naive_solver.
  - intros f Hcf. cbn in Hcf. simplify_eq. change (listening s <> Some f). intros E.
    assert (owner_of f (table s) = Some of_server) as E'; [apply H1; by right|congruence].
Qed.

(** The server closes one of its descriptors. *)
Lemma inv_close s s' f :
  Inv s -> table s' = close_fd f (table s) -> client_of (acc s) = Some f \/ listening s = Some f ->
  (forall g, client_of (acc s') = Some g \/ listening s' = Some g <->
     g <> f /\ (client_of (acc s) = Some g \/ listening s = Some g)) ->
  (forall g, client_of (acc s') = Some g -> client_of (acc s) = Some g) ->
  (forall g, listening s' = Some g -> listening s = Some g) ->
  match own s' with stop_client_close | stop_client_clear => False | stop_server_close => server_fd_ s' <> None | _ => True end ->
  Inv s'.
Proof.
  intros [H1 H2 H3] Ht Hf Hg Hc Hl Ho. split; [|by intros g Hcg Hlg; eapply H2; eauto|done].
  intros g. rewrite Ht, owner_close, Hg. destruct (decide (g = f)); [naive_solver|]. rewrite H1. naive_solver.
Qed.

Definition own_close (ev : event) : Prop := match ev with ev_close _ o => o = Some of_server end.

Lemma inv_accept_step s s' evs : Inv s -> accept_step s = Some (s', evs) -> Inv s' /\ Forall own_close evs.
Proof.
  intros HI E. pose proof HI as [H1 H2 H3]. unfold accept_step in E.
  destruct (acc s) as [| |srv|c|c|c| |] eqn:Ea; simplify_eq/=.
  - split; [|done]. apply (inv_same s); try done. cbn. rewrite Ea. by destruct (running_ s).
  - split; [|done]. apply (inv_same s); try done. cbn. by rewrite Ea.
  - split; [|done]. apply (inv_same s); try done. cbn. by rewrite Ea.
  - split; [|constructor; [|done]; apply H1; by left].
    apply (inv_close s _ c); try done; cbn; rewrite ?Ea; [by left|].
    intros g. change (listening (set_acc acc_clear (set_table (close_fd c (table s)) s))) with (listening s).
    specialize (H2 c eq_refl). split; [intros [?|Hg]; [done|split; [congruence|by right]]|].
    intros [Hne [Hg|Hg]]; [cbn in Hg; congruence|by right].
  - split; [|done]. apply (inv_same s); try done. cbn. by rewrite Ea.
Qed.

Lemma inv_stop_step s s' evs :
  Inv s -> finds_none a_stop_step s = true -> stop_step s = Some (s', evs) -> Inv s' /\ Forall own_close evs.
Proof.
  intros HI Hn E. pose proof HI as [H1 H2 H3]. unfold stop_step in E. unfold finds_none in Hn. unfold listening in *.
  destruct (own s) eqn:Eo; simplify_eq/=.
  - split; [|done]. apply (inv_same s); try done. unfold listening. cbn. by rewrite Eo.
  - destruct (client_fd_ s); [done|]. split; [|done]. apply (inv_same s); try done. unfold listening. cbn. by rewrite Eo.
  - done.
  - done.
  - split; [|done]. destruct (server_fd_ s) as [f|] eqn:Es; apply (inv_same s); try done; unfold listening; cbn; rewrite ?Eo, ?Es; done.
  - destruct (server_fd_ s) as [f|] eqn:Es; [|done]. simplify_eq/=. split; [|constructor; [|done]; apply H1; by right].
    apply (inv_close s _ f); try done; unfold listening; cbn; rewrite ?Eo, ?Es; [by right|].
    intros g. split; [intros [Hg|?]; [|done]; split; [intros ->; by apply (H2 f Hg)|by left]|].
    intros [Hne [Hg|Hg]]; [by left|congruence].
  - split; [|done]. apply (inv_same s); try done. unfold listening. cbn. by rewrite Eo.
Qed.

Lemma fds_exec s a s' evs :
  Inv s -> finds_none a s = true -> exec a s = Some (s', evs) -> Inv s' /\ Forall own_close evs.
Proof.
  intros HI Hn E. destruct a; cbn [exec] in E.
  - destruct (open_fd of_other (table s)) as [f t] eqn:Ho. simplify_eq. split; [|done]. apply inv_other; [done|].
    intros g. pose proof (owner_open of_other (table s) g) as Ht. pose proof (open_free of_other (table s)) as Hf.
    rewrite Ho in Ht, Hf. cbn [fst snd] in *. rewrite Ht. destruct (decide (g = f)); [subst; rewrite Hf; done|done].
  - destruct (decide _) as [Hd|]; [|done]. simplify_eq. split; [|done]. apply inv_other; [done|].
    intros g. rewrite owner_close. destruct (decide (g = f)); [subst; rewrite Hd; done|done].
  - destruct (own s) eqn:Eo; simplify_eq. split; [|done]. apply (inv_same s); try done. unfold listening. cbn. by rewrite Eo.
  - by apply inv_stop_step in E.
  - by apply inv_accept_step in E.
  - destruct (acc s) eqn:Ea; try done. destruct (is_listening srv s); [|done].
    destruct (open_fd of_server (table s)) as [c t] eqn:Ho. simplify_eq. split; [|done]. apply inv_accept; [done|by rewrite Ea|done].
  - destruct (acc s) eqn:Ea; simplify_eq. split; [|done]. apply (inv_same s); try done; [cbn; by rewrite Ea|exact (inv_own s HI)].
  - destruct (acc s) eqn:Ea; simplify_eq. split; [|done]. apply (inv_same s); try done; [cbn; by rewrite Ea|exact (inv_own s HI)].
Qed.

(** Nobody's descriptor is the server's before it is started. *)
Definition foreign (t : list (option owner)) : Prop := forall f, owner_of f t <> Some of_server.

Lemma inv_started t : foreign t -> Inv (started t).
Proof.
  intros Hf. unfold started. pose proof (owner_open of_server t) as Ht. destruct (open_fd of_server t) as [srv t'].
  cbn [fst snd] in Ht. split; [|done|done]. intros f. cbn. rewrite Ht. destruct (decide (f = srv)); [subst; naive_solver|].
  split; [intros H; by destruct (Hf f)|]. unfold listening. cbn. naive_solver.
Qed.

Lemma fds_reach t s tr : foreign t -> reach t s tr -> Inv s /\ Forall own_close tr.
Proof.
  intros Hf. induction 1 as [|s tr a s' evs Hr [HI Htr] Hn He]; [split; [by apply inv_started|done]|].
  destruct (fds_exec s a s' evs HI Hn He) as [HI' Hevs]. split; [done|]. by apply Forall_app.
Qed.

(** A client is served; [stop] closes its descriptor; the program opens a file, which
    gets it; the client loop notices and the accept thread closes it again. *)
Definition stop_while_serving : list action :=
  [a_accept_step; a_accept_step; a_client; a_accept_step;
   a_stop; a_stop_step; a_stop_step; a_stop_step; a_other_open; a_client_gone; a_accept_step].

(** C31. The server closes what it opened.  In every run in which [stop] does not find
    a client, whatever else the program opens and closes, each [close] of the server
    hits a descriptor of its own, so none twice, and the descriptors it has open are
    the client's, if one is being served, and the listening one, until [stop] closes it:
    nothing leaks.  But a [stop] while a client is served closes the client's
    descriptor, and the accept thread closes it again afterwards: by then it may be
    a file or a socket of another part of the program. *)
Theorem ipc_closes_own t s tr :
  foreign t -> reach t s tr ->
  Forall own_close tr /\
  (forall f, owner_of f (table s) = Some of_server <-> client_of (acc s) = Some f \/ listening s = Some f) /\
  exists s', exec_all stop_while_serving (started [Some of_other; Some of_other; Some of_other]) =
    Some (s', [ev_close 4 (Some of_server); ev_close 4 (Some of_other)]).
Proof.
  intros Hf Hr. destruct (fds_reach t s tr Hf Hr) as [HI Htr]. split; [done|]. split; [apply (inv_table s HI)|].
  eexists. by vm_compute.
Qed.

(** Two clients one after the other, then [stop]. *)
Definition two_clients : list action :=
  [a_accept_step; a_accept_step; a_client; a_accept_step; a_other_open; a_client_gone; a_accept_step; a_accept_step;
   a_accept_step; a_accept_step; a_stop; a_stop_step; a_stop_step; a_stop_step; a_stop_step].

Fixpoint quiet_all (l : list action) (s : State) : bool :=
  match l with
  | [] => true
  | a :: l' => finds_none a s && match exec a s with Some (s1, _) => quiet_all l' s1 | None => false end
  end.

Lemma fds_exec_all t l s tr s' evs :
  reach t s tr -> quiet_all l s = true -> exec_all l s = Some (s', evs) -> reach t s' (tr ++ evs).
Proof.
  revert s tr evs. induction l as [|a l IH]; intros s tr evs Hr Hs He; cbn in *; [simplify_eq; by rewrite app_nil_r|].
  apply andb_true_iff in Hs as [Ha Hs]. destruct (exec a s) as [[s1 evs1]|] eqn:E; [|done].
  destruct (exec_all l s1) as [[s2 evs2]|] eqn:E2; [|done]. simplify_eq. rewrite app_assoc.
  apply (IH s1); [|done|done]. by apply (reach_exec t s tr a).
Qed.

Lemma ipc_closes_own_witness :
  exists s, exec_all two_clients (started [Some of_other]) =
      Some (s, [ev_close 2 (Some of_server); ev_close 1 (Some of_server)]) /\
    forall f, owner_of f (table s) = Some of_server <-> client_of (acc s) = Some f \/ listening s = Some f.
Proof.
  destruct (exec_all two_clients (started [Some of_other])) as [[s tr]|] eqn:E; [|by vm_compute in E].
  assert (tr = [ev_close 2 (Some of_server); ev_close 1 (Some of_server)]) as -> by (vm_compute in E; congruence).
  exists s. split; [done|].
  destruct (ipc_closes_own [Some of_other] s [ev_close 2 (Some of_server); ev_close 1 (Some of_server)]) as (_ & H & _).
  - intros [|[|f]]; vm_compute; congruence.
  - apply (fds_exec_all [Some of_other] two_clients (started [Some of_other]) []); [constructor|by vm_compute|exact E].
  - exact H.
Defined.
