(* ===== verification/Win32Ipc.v ===== *)
(** * The desktop IPC server on Windows (examples/desktop/win32/win32_ipc_server.cpp)

    The Windows server keeps its sockets in the same [int] members as the POSIX one:
    [to_fd] cuts a [SOCKET], an unsigned 64-bit handle, to 32 bits, and [to_sock]
    extends it again.  The socket calls are parameters ([Winsock]).  Seen through the
    casts they are the socket calls of [IpcServer], and as long as the handles fit
    the Windows server does exactly what the POSIX server does over them, so the
    theorems about lines and frames hold for both. *)

From S2P Require Import Prelude CLib Layout IpcServer.

(** ** Winsock *)

Definition INVALID_SOCKET : Z := 2 ^ 64 - 1.

Definition to_sock (fd : Z) : Z := u64 fd.
(** A conversion to [int] keeps the value modulo 2^32. *)
Definition to_fd (s : Z) : Z := ((s + 2 ^ 31) mod 2 ^ 32 - 2 ^ 31)%Z.

Class Winsock (W : Type) := {
  ws_startup : ST W Z;
  ws_cleanup : W -> W;
  ws_socket : ST W Z;
  ws_setsockopt : Z -> ST W Z;
  ws_bind : Z -> Z -> ST W Z;
  ws_listen : Z -> Z -> ST W Z;
  ws_closesocket : Z -> W -> W;
  ws_accept : Z -> ST W Z;
  ws_recv : Z -> nat -> bool -> ST W (Z * str);
  ws_send : Z -> str -> ST W Z }.

(** ** The server *)

Module Win32.
Section Server.
Context {W : Type} {HW : Winsock W}.
Notation S := (IpcServer W).
Local Open Scope nl_scope.

Definition start : ST S bool := fun s =>
  let '(r, s) := sys ws_startup s in
  if negb (r =? 0)%Z then (false, s)
  else
    let '(srv, s) := sys ws_socket s in
    if (srv =? INVALID_SOCKET)%Z then (false, set_os (ws_cleanup (os s)) s)
    else
      let '(_, s) := sys (ws_setsockopt srv) s in
      let '(b, s) := sys (ws_bind srv (port_ s)) s in
      let '(l, s) := if negb (b =? 0)%Z then (1%Z, s) else sys (ws_listen srv 1) s in
      if negb (b =? 0)%Z || negb (l =? 0)%Z
      then let s := set_os (ws_closesocket srv (os s)) s in (false, set_os (ws_cleanup (os s)) s)
      else (true, set_server (to_fd srv) true s).

Definition stop (s : S) : S :=
  let s := set_server (server_fd_ s) false s in
  let s := if negb (client_fd_ s =? -1)%Z
           then set_client_fd (-1) (set_os (ws_closesocket (to_sock (client_fd_ s)) (os s)) s) else s in
  let s := if negb (server_fd_ s =? -1)%Z
           then set_server (-1) false (set_os (ws_closesocket (to_sock (server_fd_ s)) (os s)) s) else s in
  set_os (ws_cleanup (os s)) s.

Definition send (data : str) : ST S bool := fun s =>
  let length := Z.of_nat (length data) in
  if (client_fd_ s =? -1)%Z then (false, s)
  else
    let c := to_sock (client_fd_ s) in
    if decide (mode_ s = Mode_framed) then
      let hdr := [byte_of (Z.land length 255); byte_of (Z.land (Z.shiftr length 8) 255)] in
      let '(r, s) := sys (ws_send c hdr) s in
      if negb (r =? 2)%Z then (false, s)
      else let '(r, s) := sys (ws_send c data) s in ((r =? length)%Z, s)
    else
      let '(sent, s) := sys (ws_send c data) s in
      if negb (sent =? length)%Z then (false, s)
      else let '(r, s) := sys (ws_send c [LF]) s in ((r =? 1)%Z, s).

Variable on_message_ : option (str -> NL S unit).
Variable on_connect_ on_disconnect_ : option (NL S unit).

Fixpoint line_loop (fuel : nat) (s_ : Z) (line : str) : NL S unit :=
  match fuel with
  | 0 => nl_nofuel
  | Datatypes.S fuel' =>
      let* running := nl_gets running_ in
      if negb running then nl_ret tt
      else
        let* (r, bytes) := nl_sys (ws_recv s_ 1 false) in
        if (r <=? 0)%Z then nl_ret tt
        else
          let ch := default NUL (head bytes) in
          if ch_eqb ch LF then
            let line := strip_cr line in
            (match on_message_ with
             | Some f => if negb (length line =? 0) then f (cut16 line) else nl_ret tt
             | None => nl_ret tt
             end) ;;;
            line_loop fuel' s_ []
          else line_loop fuel' s_ (line ++ [ch])
  end.
Definition client_loop_line (fuel : nat) (fd : Z) : NL S unit := line_loop fuel (to_sock fd) [].

Fixpoint recv_payload (fuel : nat) (s_ : Z) (recv_len : nat) (buf : str) : NL S (option str) :=
  match fuel with
  | 0 => nl_nofuel
  | Datatypes.S fuel' =>
      if recv_len <=? length buf then nl_ret (Some buf)
      else
        let* (n, bytes) := nl_sys (ws_recv s_ (recv_len - length buf) false) in
        if (n <=? 0)%Z then nl_ret None
        else recv_payload fuel' s_ recv_len (buf ++ bytes)
  end.

Fixpoint framed_loop (fuel : nat) (s_ : Z) : NL S unit :=
  match fuel with
  | 0 => nl_nofuel
  | Datatypes.S fuel' =>
      let* running := nl_gets running_ in
      if negb running then nl_ret tt
      else
        let* (r, hdr) := nl_sys (ws_recv s_ 2 true) in
        if negb (r =? 2)%Z then nl_ret tt
        else
          let len := Z.to_nat (Z.lor (of_byte (default NUL (hdr !! 0))) (Z.shiftl (of_byte (default NUL (hdr !! 1))) 8)) in
          if len =? 0 then framed_loop fuel' s_
          else
            let recv_len := if len <=? BUF_SIZE then len else BUF_SIZE in
            let* buf := recv_payload (Datatypes.S recv_len) s_ recv_len [] in
            match buf with
            | None => nl_ret tt
            | Some buf =>
                (match on_message_ with Some f => f buf | None => nl_ret tt end) ;;;
                framed_loop fuel' s_
            end
  end.
Definition client_loop_framed (fuel : nat) (fd : Z) : NL S unit := framed_loop fuel (to_sock fd).

Definition client_loop (fuel : nat) (fd : Z) : NL S unit :=
  let* mode := nl_gets mode_ in
  if decide (mode = Mode_framed) then client_loop_framed fuel fd else client_loop_line fuel fd.

Fixpoint accept_loop (clients fuel : nat) : NL S unit :=
  match clients with
  | 0 => nl_nofuel
  | Datatypes.S clients' =>
      let* running := nl_gets running_ in
      if negb running then nl_ret tt
      else
        let* srv := nl_gets server_fd_ in
        let* client := nl_sys (ws_accept (to_sock srv)) in
        if (client =? INVALID_SOCKET)%Z then nl_ret tt
        else
          nl_modify (set_client_fd (to_fd client)) ;;;
          call on_connect_ ;;;
          let* fd := nl_gets client_fd_ in
          client_loop fuel fd ;;;
          call on_disconnect_ ;;;
          nl_modify (fun s => set_client_fd (-1) (set_os (ws_closesocket client (os s)) s)) ;;;
          accept_loop clients' fuel
  end.

End Server.
End Win32.

(** ** Winsock through the casts *)

Section Casts.
Context {W : Type} {HW : Winsock W}.

Definition cast_result (m : ST W Z) : ST W Z := fun w => let '(s, w) := m w in (to_fd s, w).

(** The calls as the server makes them, with its [int] descriptors. *)
Definition casts : Sockets W := {|
  sk_socket := cast_result ws_socket;
  sk_setsockopt fd := ws_setsockopt (to_sock fd);
  sk_bind fd := ws_bind (to_sock fd);
  sk_listen fd := ws_listen (to_sock fd);
  sk_close fd := ws_closesocket (to_sock fd);
  sk_accept fd := cast_result (ws_accept (to_sock fd));
  sk_recv fd := ws_recv (to_sock fd);
  sk_send fd := ws_send (to_sock fd) |}.

(** A handle that survives the casts and is not taken for [INVALID_SOCKET]. *)
Definition handle_fits (s : Z) : Prop := s = INVALID_SOCKET \/ (0 <= s < 2 ^ 31)%Z.

(** Windows hands out small handles. *)
Class SmallHandles : Prop := {
  socket_fits w : handle_fits (fst (ws_socket w));
  accept_fits srv w : handle_fits (fst (ws_accept srv w)) }.
End Casts.

(** The casts lose nothing exactly on handles below 2^31 and on the last 2^31. *)
Lemma casts_inverse s : (0 <= s < 2 ^ 64)%Z ->
  to_sock (to_fd s) = s <-> (s < 2 ^ 31 \/ 2 ^ 64 - 2 ^ 31 <= s)%Z.
Proof.
  intros Hs. unfold to_sock, to_fd, u64. Z.to_euclidean_division_equations. lia.
Qed.

Lemma fits_small s : handle_fits s -> s <> INVALID_SOCKET -> to_fd s = s /\ to_sock s = s /\ (0 <= s)%Z.
Proof.
  intros [|Hs] Hne; [done|]. unfold to_fd, to_sock, u64. rewrite !Z.mod_small by lia. lia.
Qed.

Lemma fits_sign s : handle_fits s -> (to_fd s <? 0)%Z = (s =? INVALID_SOCKET)%Z.
Proof.
  intros [->|Hs]; [done|]. unfold to_fd. rewrite Z.mod_small by lia.
  destruct (Z.ltb_spec (s + 2 ^ 31 - 2 ^ 31) 0); [lia|]. symmetry. apply Z.eqb_neq. unfold INVALID_SOCKET. lia.
Qed.

(** ** The two servers agree *)

Lemma nl_bind_ext {S A B} (m m' : NL S A) (k k' : A -> NL S B) s :
  m s = m' s -> (forall a s, k a s = k' a s) -> nl_bind m k s = nl_bind m' k' s.
Proof. intros E Hk. unfold nl_bind. rewrite E. destruct (m' s) as [[a s']| |]; [apply Hk|done|done]. Qed.

Lemma bind_cast {W B} (m : ST W Z) (k k' : Z -> NL (IpcServer W) B) s :
  (forall s', k (fst (m (os s))) s' = k' (to_fd (fst (m (os s)))) s') ->
  nl_bind (nl_sys m) k s = nl_bind (nl_sys (cast_result m)) k' s.
Proof. intros Hk. unfold nl_bind, nl_sys, sys, cast_result in *. destruct (m (os s)). apply Hk. Qed.

Section Agree.
Context {W : Type} {HW : Winsock W} {HS : SmallHandles}.
Notation S := (IpcServer W).
Variable on_message : option (str -> NL S unit).
Variable on_connect on_disconnect : option (NL S unit).
Local Open Scope nl_scope.

Lemma line_loop_agrees fuel fd line s :
  Win32.line_loop on_message fuel (to_sock fd) line s = IpcServer.client_loop_line (HW := casts) on_message fuel fd line s.
Proof.
  revert line s. induction fuel as [|fuel IH]; intros line s; [done|].
  cbn [Win32.line_loop IpcServer.client_loop_line]. apply nl_bind_ext; [done|]. intros running s1. case_goal; [done|].
  apply nl_bind_ext; [done|]. intros [r bytes] s2. case_goal; [done|]. case_goal; [|apply IH].
  apply nl_bind_ext; [done|]. intros _ s3. apply IH.
Qed.

Lemma recv_payload_agrees fuel fd recv_len buf (s : S) :
  Win32.recv_payload fuel (to_sock fd) recv_len buf s = IpcServer.recv_payload (HW := casts) fuel fd recv_len buf s.
Proof.
  revert buf s. induction fuel as [|fuel IH]; intros buf s; [done|].
  cbn [Win32.recv_payload IpcServer.recv_payload]. case_goal; [done|].
  apply nl_bind_ext; [done|]. intros [r bytes] s2. case_goal; [done|apply IH].
Qed.

Lemma framed_loop_agrees fuel fd s :
  Win32.framed_loop on_message fuel (to_sock fd) s = IpcServer.client_loop_framed (HW := casts) on_message fuel fd s.
Proof.
  revert s. induction fuel as [|fuel IH]; intros s; [done|].
  cbn [Win32.framed_loop IpcServer.client_loop_framed]. apply nl_bind_ext; [done|]. intros running s1. case_goal; [done|].
  apply nl_bind_ext; [done|]. intros [r hdr] s2. case_goal; [done|]. case_goal; [apply IH|].
  apply nl_bind_ext; [apply recv_payload_agrees|]. intros [buf|] s3; [|done].
  apply nl_bind_ext; [done|]. intros _ s4. apply IH.
Qed.

Lemma client_loop_agrees fuel fd s :
  Win32.client_loop on_message fuel fd s = IpcServer.client_loop (HW := casts) on_message fuel fd s.
Proof.
  unfold Win32.client_loop, IpcServer.client_loop. apply nl_bind_ext; [done|]. intros mode s1.
  case_decide; [apply framed_loop_agrees|apply line_loop_agrees].
Qed.

Lemma accept_loop_agrees clients fuel s :
  Win32.accept_loop on_message on_connect on_disconnect clients fuel s =
  IpcServer.accept_loop (HW := casts) on_message on_connect on_disconnect clients fuel s.
Proof using HS.
  revert s. induction clients as [|clients IH]; intros s; [done|].
  cbn [Win32.accept_loop IpcServer.accept_loop]. apply nl_bind_ext; [done|]. intros running s1. case_goal; [done|].
  apply nl_bind_ext; [done|]. intros srv s2. apply bind_cast. intros s2'.
  pose proof (accept_fits (to_sock srv) (os s2)) as Hf. set (client := fst (ws_accept (to_sock srv) (os s2))) in *.
  rewrite (fits_sign _ Hf).
  destruct (Z.eqb_spec client INVALID_SOCKET) as [|Hne]; [done|]. destruct (fits_small _ Hf Hne) as (-> & Hto & _).
  apply nl_bind_ext; [done|]. intros _ s3. apply nl_bind_ext; [done|]. intros _ s4.
  apply nl_bind_ext; [done|]. intros fd s5. apply nl_bind_ext; [apply client_loop_agrees|]. intros _ s6.
  apply nl_bind_ext; [done|]. intros _ s7. apply nl_bind_ext; [|intros _ s8; apply IH].
  unfold nl_modify. cbn [sk_close casts]. by rewrite Hto.
Qed.

(** [WSAStartup] comes first and is undone when anything else fails. *)
Lemma start_agrees s :
  Win32.start s =
  let '(r, s) := sys ws_startup s in
  if negb (r =? 0)%Z then (false, s)
  else let '(ok, s) := IpcServer.start (HW := casts) s in (ok, if ok then s else set_os (ws_cleanup (os s)) s).
Proof using HS.
  unfold Win32.start, IpcServer.start. destruct (sys ws_startup s) as [r s1]. case_goal; [done|].
  unfold sys at 1 5. cbn [sk_socket casts]. unfold cast_result. pose proof (socket_fits (os s1)) as Hf.
  destruct (ws_socket (os s1)) as [srv w]. cbn [fst] in Hf. rewrite (fits_sign _ Hf).
  destruct (Z.eqb_spec srv INVALID_SOCKET) as [|Hne]; [done|]. destruct (fits_small _ Hf Hne) as (-> & Hto & _).
  cbn [sk_setsockopt sk_bind sk_listen sk_close casts]. rewrite Hto.
  destruct (sys (ws_setsockopt srv) _) as [r2 s2]. destruct (sys (ws_bind srv _) s2) as [b s3].
  destruct (if negb (b =? 0)%Z then _ else _) as [l s4]. by case_goal.
Qed.

Lemma stop_agrees s : Win32.stop s = let s := IpcServer.stop (HW := casts) s in set_os (ws_cleanup (os s)) s.
Proof. done. Qed.

Lemma send_agrees data s : Win32.send data s = IpcServer.send (HW := casts) data s.
Proof.
  unfold Win32.send, IpcServer.send. case_goal; [done|]. cbn [sk_send casts].
  case_decide; unfold sys; (destruct (ws_send _ _ (os s)) as [r1 w1]); (case_goal; [done|]); done.
Qed.

End Agree.

(** The Windows server is the POSIX server over the casts: when every handle the
    system returns is below 2^31 or [INVALID_SOCKET], sending, serving a client and
    accepting clients do the same, call for call; [start] and [stop] do the same
    between [WSAStartup] and [WSACleanup], and a failed [start] undoes its
    [WSAStartup].  A handle outside that range that is not within 2^31 of the
    largest does not survive the casts. *)
Theorem win32_server_is_posix {W} `{Winsock W} `{!SmallHandles} on_message on_connect on_disconnect :
  (forall data s, Win32.send data s = IpcServer.send (HW := casts) data s) /\
  (forall fuel fd s, Win32.client_loop on_message fuel fd s = IpcServer.client_loop (HW := casts) on_message fuel fd s) /\
  (forall clients fuel s, Win32.accept_loop on_message on_connect on_disconnect clients fuel s =
     IpcServer.accept_loop (HW := casts) on_message on_connect on_disconnect clients fuel s) /\
  (forall s : IpcServer W, Win32.stop s = let s := IpcServer.stop (HW := casts) s in set_os (ws_cleanup (os s)) s) /\
  (forall s : IpcServer W, Win32.start s =
     let '(r, s) := sys ws_startup s in
     if negb (r =? 0)%Z then (false, s)
     else let '(ok, s) := IpcServer.start (HW := casts) s in (ok, if ok then s else set_os (ws_cleanup (os s)) s)) /\
  (forall h, (2 ^ 31 <= h < 2 ^ 64 - 2 ^ 31)%Z -> to_sock (to_fd h) <> h).
Proof.
  split_and!.
  - apply send_agrees.
  - apply client_loop_agrees.
  - apply accept_loop_agrees.
  - apply stop_agrees.
  - apply start_agrees.
  - intros h Hh E. apply casts_inverse in E; lia.
Qed.

(** ** References to Winsock

    [WSAStartup] and [WSACleanup] are counted. *)

Class WsaCount (W : Type) {HW : Winsock W} := {
  refs : W -> Z;
  refs_startup w : refs (snd (ws_startup w)) = (refs w + if fst (ws_startup w) =? 0 then 1 else 0)%Z;
  refs_cleanup w : refs (ws_cleanup w) = (refs w - 1)%Z;
  refs_socket w : refs (snd (ws_socket w)) = refs w;
  refs_setsockopt fd w : refs (snd (ws_setsockopt fd w)) = refs w;
  refs_bind fd p w : refs (snd (ws_bind fd p w)) = refs w;
  refs_listen fd b w : refs (snd (ws_listen fd b w)) = refs w;
  refs_close fd w : refs (ws_closesocket fd w) = refs w }.

Section References.
Context {W : Type} {HW : Winsock W} {HC : WsaCount W}.

Lemma refs_sys {A} (m : ST W A) (s : IpcServer W) :
  (forall w, refs (snd (m w)) = refs w) -> refs (os (snd (sys m s))) = refs (os s).
Proof. intros Hm. unfold sys. specialize (Hm (os s)). by destruct (m (os s)). Qed.

(** A successful start takes a reference, a failed one takes none. *)
Lemma start_refs (s : IpcServer W) :
  refs (os (snd (Win32.start s))) = (refs (os s) + if fst (Win32.start s) then 1 else 0)%Z.
Proof.
  unfold Win32.start. pose proof (refs_startup (os s)) as H0. destruct (sys ws_startup s) as [r s1] eqn:E1.
  unfold sys in E1. destruct (ws_startup (os s)) as [r' w]. cbn [fst snd] in H0. injection E1 as -> <-.
  change w with (os (set_os w s)) in H0. revert H0. generalize (set_os w s). intros s1 H0.
  destruct (r =? 0)%Z; cbn [negb fst snd]; [|exact H0].
  pose proof (refs_sys ws_socket s1 refs_socket) as H1. destruct (sys ws_socket s1) as [srv s2]. cbn [snd] in H1.
  case_goal; [cbn; rewrite refs_cleanup; lia|].
  pose proof (refs_sys (ws_setsockopt srv) s2 (refs_setsockopt srv)) as H2. destruct (sys (ws_setsockopt srv) s2) as [? s3].
  pose proof (refs_sys (ws_bind srv (port_ s3)) s3 (refs_bind srv (port_ s3))) as H3.
  destruct (sys (ws_bind srv (port_ s3)) s3) as [b s4]. cbn [snd] in H2, H3.
  assert (refs (os (snd (if negb (b =? 0)%Z then (1%Z, s4) else sys (ws_listen srv 1) s4))) = refs (os s4)) as H4
    by (case_goal; [done|apply refs_sys, refs_listen]).
  destruct (if negb (b =? 0)%Z then _ else _) as [l s5]. cbn [snd] in H4.
  case_goal; cbn; rewrite ?refs_cleanup, ?refs_close; lia.
Qed.

Lemma stop_refs (s : IpcServer W) : refs (os (Win32.stop s)) = (refs (os s) - 1)%Z.
Proof. unfold Win32.stop. cbn. rewrite refs_cleanup. by repeat case_goal; cbn; rewrite ?refs_close. Qed.

(** The destructor calls [stop] whether or not [start] succeeded: a server that could
    not start releases a reference it does not hold, one of another server's. *)
Lemma destroyed_server_refs (s : IpcServer W) :
  refs (os (Win32.stop (snd (Win32.start s)))) = (refs (os s) - if fst (Win32.start s) then 0 else 1)%Z.
Proof. rewrite stop_refs, start_refs. destruct (fst (Win32.start s)); lia. Qed.

End References.

(** ** Witness: one connection, see [Pipe] *)

#[local] Instance pipe_winsock : Winsock Pipe.World := {
  ws_startup w := (0%Z, w);
  ws_cleanup w := w;
  ws_socket w := (3%Z, w);
  ws_setsockopt _ w := (0%Z, w);
  ws_bind _ _ w := (0%Z, w);
  ws_listen _ _ w := (0%Z, w);
  ws_closesocket _ w := w;
  ws_accept _ w := (if decide (Pipe.inq w = []) then INVALID_SOCKET else 4%Z, w);
  ws_recv := sk_recv;
  ws_send := sk_send }.
#[local] Instance pipe_small : SmallHandles.
Proof.
  split; intros; cbn; [right; lia|]. case_decide; [by left|right; lia].
Qed.

Lemma win32_server_is_posix_witness :
  Win32.accept_loop (Some Pipe.keep) None None 2 9 (Pipe.connected Mode_line (lit "AT" ++ [CR; LF])) =
  Done (tt, mkIpc (Pipe.mkWorld [] [] [lit "AT"]) 9000 Mode_line 3 (-1) true) /\
  IpcServer.accept_loop (HW := casts) (Some Pipe.keep) None None 2 9 (Pipe.connected Mode_line (lit "AT" ++ [CR; LF])) =
  Done (tt, mkIpc (Pipe.mkWorld [] [] [lit "AT"]) 9000 Mode_line 3 (-1) true).
Proof.
  destruct (win32_server_is_posix (Some Pipe.keep) None None) as (_ & _ & H & _).
  rewrite <- (H 2 9). split; reflexivity.
Defined.
