(* ===== verification/AppIpc.v ===== *)
(** * The desktop application (examples/desktop/app_ipc_servers.cpp, main.cpp)

    Three IPC servers hand work to the network thread through a queue of commands;
    the network thread runs the commands, one step of the state machine, the queued
    radio requests and forwards received datagrams.  A server owns its sockets, so
    each has its own part of the operating system's state.  Commands are data: what
    the lambda captures, with [run_command] as its body. *)

From S2P Require Import Prelude CLib FixedString StaticVector Layout MessageChannel MessageQueue Timer.
From S2P Require Import AtCommand ModemController Xe310Types Xe310 Survey Trace Hal NetworkTypes Typed NetworkLte.
From S2P Require Import RadioMessages RadioLte Json RpcHelpers RpcServer IpcServer.

(** [static_cast<int>(queue_err)]. *)
Definition QueueError_val (e : QueueError) : Z :=
  match e with
  | QueueError_ok => 0 | QueueError_full => 1 | QueueError_empty => 2 | QueueError_timeout => 3 | QueueError_invalid_id => 4
  end.

Definition AT_SYNC_TIMEOUT_MS : Z := 210000.

Section App.
Context {Ch : Type} {HCh : MessageChannel Ch} {C : Type} {HC : Controller C} {HR : Residue}.
Context {W : Type} {HW : Sockets W}.

Notation L := (NetworkLte C).

(** A result of a synchronous call: success and text. *)
Notation Answer := (bool * str)%type.

(** What a queued lambda has captured. *)
Inductive Command :=
| Cmd_forward (coap : bool) (payload : str)
| Cmd_enter_transparent_mode
| Cmd_leave_transparent_mode
| Cmd_sync (command : NL L Answer) (done : nat).

(** What commands act on; [promises] are the shared states of the [std::promise]s
    made so far. *)
Record Env := mkEnv {
  net : Service Ch C; data_ipc : IpcServer W; coap_ipc : IpcServer W; at_ipc : IpcServer W;
  promises : list (option Answer) }.

Record App := mkApp { env : Env; command_queue_ : list Command }.

(** [lte_config.conn_id]; the bounds of [NetworkLte]'s loops, of the requests taken
    in a round and of the datagrams forwarded in one; the address of the server
    array. *)
Variable conn_id : Z.
Variable n fuel rounds : nat.
Variable server_info_ptr : Z.

Local Open Scope nl_scope.

Definition set_net (s : Service Ch C) (e : Env) : Env := mkEnv s (data_ipc e) (coap_ipc e) (at_ipc e) (promises e).
Definition set_ipc (coap : bool) (i : IpcServer W) (e : Env) : Env :=
  if coap then mkEnv (net e) (data_ipc e) i (at_ipc e) (promises e)
  else mkEnv (net e) i (coap_ipc e) (at_ipc e) (promises e).
Definition set_at_ipc (i : IpcServer W) (e : Env) : Env := mkEnv (net e) (data_ipc e) (coap_ipc e) i (promises e).
Definition set_promises (p : list (option Answer)) (e : Env) : Env := mkEnv (net e) (data_ipc e) (coap_ipc e) (at_ipc e) p.

Definition on_service {A} (m : NL (Service Ch C) A) : NL Env A := fun e =>
  match m (net e) with
  | Done (a, s) => Done (a, set_net s e)
  | Undef => Undef
  | NoFuel => NoFuel
  end.
Definition on_network {A} (m : NL L A) : NL Env A := on_service (on_radio m).
Definition on_env {A} (m : NL Env A) : NL App A := fun a =>
  match m (env a) with
  | Done (x, e) => Done (x, mkApp e (command_queue_ a))
  | Undef => Undef
  | NoFuel => NoFuel
  end.

(** [ipc_.send(text.data(), static_cast<uint16_t>(text.size()))]. *)
Definition send_to (coap : bool) (text : str) : NL Env bool := fun e =>
  let '(r, i) := send (cut16 text) (if coap then coap_ipc e else data_ipc e) in Done (r, set_ipc coap i e).
Definition send_to_at (text : str) : NL Env bool := fun e =>
  let '(r, i) := send (cut16 text) (at_ipc e) in Done (r, set_at_ipc i e).

Definition send_udp_rx (data : str) : NL Env bool := send_to false data.

(** ** Commands *)

(** The lambda of [configure_data_ipc], and of [configure_coap_ipc] with the other server. *)
Definition forward (coap : bool) (payload : str) : NL Env unit :=
  let* st := on_network (nl_gets state_) in
  if negb (state_eqb st State_data_ready) then
    send_to coap (lit "ERROR: network not ready, state=" ++ to_str_state st) ;;; nl_ret tt
  else
    let* queue_err := on_network (lift (tx_write conn_id payload)) in
    if negb (bool_decide (queue_err = QueueError_ok)) then
      send_to coap (lit "ERROR: tx_write failed, code=" ++ fmt_d (QueueError_val queue_err)) ;;; nl_ret tt
    else on_network (nl_modify (call_action Action_send_data)).

(** [done->set_value(v)]. *)
Definition set_value (done : nat) (v : Answer) : NL Env unit := nl_modify (fun e => set_promises (<[done := Some v]> (promises e)) e).

Definition run_command (c : Command) : NL Env unit :=
  match c with
  | Cmd_forward coap payload => forward coap payload
  | Cmd_enter_transparent_mode => on_network (enter_transparent_mode n fuel) ;;; nl_ret tt
  | Cmd_leave_transparent_mode => on_network (leave_transparent_mode fuel) ;;; nl_ret tt
  | Cmd_sync command done => let* v := on_network command in set_value done v
  end.

Definition enqueue_network_command (c : Command) (a : App) : App := mkApp (env a) (command_queue_ a ++ [c]).

(** The queue is swapped with an empty one first. *)
Definition process_pending_commands : NL App unit := fun a =>
  on_env (nl_for run_command (command_queue_ a)) (mkApp (env a) []).

(** ** Synchronous calls *)

(** [std::make_shared<std::promise<...>>()]. *)
Definition make_promise : NL App nat := fun a =>
  Done (length (promises (env a)), mkApp (set_promises (promises (env a) ++ [None]) (env a)) (command_queue_ a)).

Variable network_worker_running : bool.
(** What the network thread does while the caller is blocked. *)
Variable worker : NL App unit.

(** [result.get()]: blocks until the value is there; [turns] bounds the turns of
    the network thread. *)
Fixpoint get_result (turns : nat) (done : nat) : NL App Answer :=
  let* p := nl_gets (fun a => promises (env a) !! done) in
  match p with
  | Some (Some v) => nl_ret v
  | _ => match turns with
         | 0 => nl_nofuel
         | S turns' => worker ;;; get_result turns' done
         end
  end.

(** The common form of the three [..._sync] methods. *)
Definition run_sync (turns : nat) (command : NL L Answer) : NL App Answer :=
  if negb network_worker_running then on_env (on_network command)
  else
    let* done := make_promise in
    nl_modify (enqueue_network_command (Cmd_sync command done)) ;;;
    get_result turns done.

Definition run_network_command_sync (turns : nat) (command : NL L str) : NL App str :=
  let* (_, text) := run_sync turns (let* text := command in nl_ret (true, text)) in nl_ret text.

(** The body of [send_at_command_sync]. *)
Definition at_command (cmd : str) (timeout_ms : Z) : NL L Answer :=
  let* (ok, response) := lift (send_at_command cmd [] timeout_ms) in
  if ok : bool then
    let response := if negb (length response =? 0) then fs_cat AT_RESPONSE_MAX response CRLF else response in
    nl_ret (true, cstr (fs_cat AT_RESPONSE_MAX response (lit "OK" ++ CRLF)))
  else nl_ret (false, cstr response).

Definition send_at_command_sync (turns : nat) (cmd : str) (timeout_ms : Z) : NL App Answer :=
  run_sync turns (at_command cmd timeout_ms).

Definition gnss_command : NL L Answer :=
  let* (ok, pos) := acquire_gnss_position n fuel GnssPosition_default in
  nl_ret (ok, if ok : bool then to_json_gnss pos else lit "ERROR: failed to acquire GNSS fix").

Definition acquire_gnss_position_sync (turns : nat) : NL App Answer := run_sync turns gnss_command.

(** ** The callbacks of the servers *)

Definition on_data_message (payload : str) : App -> App := enqueue_network_command (Cmd_forward false payload).
Definition on_coap_message (payload : str) : App -> App := enqueue_network_command (Cmd_forward true payload).
Definition on_at_connect : App -> App := enqueue_network_command Cmd_enter_transparent_mode.
Definition on_at_disconnect : App -> App := enqueue_network_command Cmd_leave_transparent_mode.
Definition on_at_message (turns : nat) (cmd : str) : NL App unit :=
  let* (_, response) := send_at_command_sync turns cmd AT_SYNC_TIMEOUT_MS in
  on_env (send_to_at response) ;;; nl_ret tt.

(** [get_network_state] of the RPC server. *)
Definition network_state_text (turns : nat) : NL App str :=
  run_network_command_sync turns (let* st := nl_gets state_ in nl_ret (in_quotes (to_str_state st))).

(** ** The network thread *)

(** [while (network.rx_read(conn_id, rx_msg) == ok) send_udp_rx(...)]. *)
Fixpoint drain_rx (fuel : nat) : NL Env unit :=
  match fuel with
  | 0 => nl_nofuel
  | S fuel' =>
      let* (err, m) := on_network (lift (rx_read conn_id)) in
      match m with
      | Some m => if bool_decide (err = QueueError_ok) then send_udp_rx (data m) ;;; drain_rx fuel' else nl_ret tt
      | None => nl_ret tt
      end
  end.

(** One turn of the thread's loop. *)
Definition network_thread_turn : NL App unit :=
  process_pending_commands ;;;
  on_env (on_network (loop fuel State_none)) ;;;
  on_env (on_service (process_radio_requests server_info_ptr n fuel rounds)) ;;;
  on_env (drain_rx rounds).

End App.
Arguments mkEnv {Ch C W} _ _ _ _ _.
Arguments mkApp {Ch C W} _ _.
Arguments Command : clear implicits.
Arguments Env : clear implicits.
Arguments App : clear implicits.
