(* ===== verification/AppIpcProps.v ===== *)
(** * Properties of the desktop application: its command queue and its threads *)

From S2P Require Import Prelude CLib FixedString StaticVector Layout MessageChannel MessageQueue Timer.
From S2P Require Import AtCommand ModemController ControllerProps Xe310Types Xe310 Survey Trace Hal NetworkTypes Typed NetworkLte.
From S2P Require Import NetworkInv NetworkSafety NetworkApi NetworkProps RadioMessages RadioLte RadioLteProps.
From S2P Require Import Json RpcHelpers RpcServer IpcServer AppIpc.

Section Commands.
Context {Ch : Type} {HCh : MessageChannel Ch} {C : Type} {HC : Controller C} {HR : Residue}.
Context {W : Type} {HW : Sockets W}.
Variable conn_id : Z.
Variable n fuel rounds : nat.
Variable server_info_ptr : Z.

Notation L := (NetworkLte C).
Notation Cmd := (Command C).
Notation E := (Env Ch C W).
Notation A := (App Ch C W).
Notation run := (run_command (Ch := Ch) (W := W) conn_id n fuel).
Notation process := (process_pending_commands (Ch := Ch) (W := W) conn_id n fuel).
Local Open Scope nl_scope.

(** ** The command queue *)

(** What the threads do to it: a server enqueues, the network thread processes. *)
Inductive QueueOp := Op_enqueue (c : Cmd) | Op_process.

Definition run_op (op : QueueOp) : NL A unit :=
  match op with
  | Op_enqueue c => nl_modify (enqueue_network_command c)
  | Op_process => process
  end.

Definition enqueued (ops : list QueueOp) : list Cmd :=
  omap (fun op => match op with Op_enqueue c => Some c | Op_process => None end) ops.

Lemma nl_for_app {S B} (f : B -> NL S unit) l1 l2 s :
  nl_for f (l1 ++ l2) s = nl_bind (nl_for f l1) (fun _ => nl_for f l2) s.
Proof.
  revert s. induction l1 as [|x l1 IH]; intros s; [done|]. cbn [app nl_for]. unfold nl_bind in *.
  destruct (f x s) as [[u s1]| |]; [|done|done]. apply IH.
Qed.


(** ** Synchronous calls *)

(** Commands that answer promises already made. *)
Definition answers_below (k : nat) (c : Cmd) : Prop := match c with Cmd_sync _ d => d < k | _ => True end.

Lemma on_network_promises {X} (m : NL L X) (e e' : E) x : on_network m e = Done (x, e') -> promises e' = promises e.
Proof.
  unfold on_network, on_service. destruct (on_radio m (net e)) as [[y s]| |]; try done. by injection 1 as <- <-.
Qed.

Lemma send_to_promises coap text (e e' : E) b : send_to coap text e = Done (b, e') -> promises e' = promises e.
Proof.
  unfold send_to. destruct (send _ _) as [r i]. injection 1 as <- <-. by destruct coap.
Qed.

(** A command leaves the promises it does not answer. *)
Lemma run_promises c (e e' : E) k :
  run c e = Done (tt, e') -> answers_below k c ->
  length (promises e') = length (promises e) /\ (forall j, k <= j -> promises e' !! j = promises e !! j).
Proof.
  assert (forall p, promises e' = promises e -> p = promises e' -> length p = length (promises e) /\
            (forall j, k <= j -> p !! j = promises e !! j)) as Hsame by (by intros p H ->; rewrite H).
  intros H Ha. destruct c as [coap payload| | |m d]; cbn [run_command] in H.
  - unfold forward, nl_bind in H. destruct (on_network (nl_gets state_) e) as [[st e1]| |] eqn:E1; try done.
    apply on_network_promises in E1. destruct (negb (state_eqb st State_data_ready)).
    { destruct (send_to _ _ e1) as [[b e2]| |] eqn:E2; try done. apply send_to_promises in E2. injection H as <-.
      apply Hsame; congruence. }
    destruct (on_network (lift (tx_write conn_id payload)) e1) as [[err e2]| |] eqn:E2; try done.
    apply on_network_promises in E2. destruct (negb (bool_decide (err = QueueError_ok))).
    + destruct (send_to _ _ e2) as [[b e3]| |] eqn:E3; try done. apply send_to_promises in E3. injection H as <-.
      apply Hsame; congruence.
    + apply on_network_promises in H. apply Hsame; congruence.
  - unfold nl_bind in H. destruct (on_network _ e) as [[b e1]| |] eqn:E1; try done. apply on_network_promises in E1.
    injection H as <-. by apply Hsame.
  - unfold nl_bind in H. destruct (on_network _ e) as [[b e1]| |] eqn:E1; try done. apply on_network_promises in E1.
    injection H as <-. by apply Hsame.
  - unfold nl_bind in H. destruct (on_network m e) as [[v e1]| |] eqn:E1; try done. apply on_network_promises in E1.
    unfold set_value, nl_modify in H. injection H as <-. cbn [promises set_promises]. cbn [answers_below] in Ha.
    rewrite E1, length_insert. split; [done|]. intros j Hj. apply list_lookup_insert_ne. lia.
Qed.

Lemma run_all_promises cs : forall (e e' : E) k,
  nl_for run cs e = Done (tt, e') -> Forall (answers_below k) cs ->
  length (promises e') = length (promises e) /\ (forall j, k <= j -> promises e' !! j = promises e !! j).
Proof.
  induction cs as [|c cs IH]; intros e e' k H Hc; cbn [nl_for] in H; [by injection H as <-|].
  apply Forall_cons in Hc as [Hc Hcs]. unfold nl_bind in H. destruct (run c e) as [[[] e1]| |] eqn:E1; try done.
  destruct (run_promises c e e1 k E1 Hc) as [H1 H2]. destruct (IH e1 e' k H Hcs) as [H3 H4].
  split; [congruence|]. intros j Hj. by rewrite H4, H2.
Qed.

Lemma drain_rx_promises k : forall (e e' : E), drain_rx conn_id k e = Done (tt, e') -> promises e' = promises e.
Proof.
  induction k as [|k IH]; intros e e' H; [done|]. cbn [drain_rx] in H. unfold nl_bind in H.
  destruct (on_network (lift (rx_read conn_id)) e) as [[[err m] e1]| |] eqn:E1; try done. apply on_network_promises in E1.
  destruct m as [m|]; [|by injection H as <-]. destruct (bool_decide (err = QueueError_ok)); [|by injection H as <-].
  destruct (send_udp_rx (data m) e1) as [[b e2]| |] eqn:E2; try done. apply send_to_promises in E2.
  apply IH in H. congruence.
Qed.

(** The rest of the network thread's turn. *)
Definition turn_rest : NL A unit :=
  on_env (on_network (loop fuel State_none)) ;;;
  on_env (on_service (process_radio_requests server_info_ptr n fuel rounds)) ;;;
  on_env (drain_rx conn_id rounds).

Notation turn := (network_thread_turn (Ch := Ch) (W := W) conn_id n fuel rounds server_info_ptr).

Lemma turn_rest_promises (a a' : A) : turn_rest a = Done (tt, a') -> promises (env a') = promises (env a).
Proof.
  unfold turn_rest, nl_bind, on_env. intros H.
  destruct (on_network (loop fuel State_none) (env a)) as [[st e1]| |] eqn:E1; [|discriminate H|discriminate H].
  apply on_network_promises in E1. cbn [env command_queue_] in H. unfold on_service at 1 in H.
  destruct (process_radio_requests server_info_ptr n fuel rounds (net e1)) as [[u s]| |]; [|discriminate H|discriminate H].
  cbn [env command_queue_] in H.
  destruct (drain_rx conn_id rounds (set_net s e1)) as [[[] e3]| |] eqn:E3; [|discriminate H|discriminate H].
  apply drain_rx_promises in E3. injection H as <-. cbn [env]. by rewrite E3.
Qed.


(** ** Datagrams *)

Lemma on_network_run {X} (m : NL L X) (e : E) x r' :
  m (radio (net e)) = Done (x, r') -> on_network m e = Done (x, set_net (mkService (channels (net e)) r') e).
Proof. intros H. unfold on_network, on_service, on_radio. by rewrite H. Qed.

(** The client is told; the network is not touched. *)
Lemma refusal coap text (e : E) :
  exists e', (send_to coap text ;;; nl_ret tt) e = Done (tt, e') /\ net e' = net e /\
             (if coap then coap_ipc e' else data_ipc e') = snd (send (cut16 text) (if coap then coap_ipc e else data_ipc e)).
Proof.
  unfold nl_bind, send_to. destruct (send (cut16 text) _) as [b i]. eexists. split; [done|]. by destruct coap.
Qed.

(** A message from a client becomes a datagram to send: in [data_ready], with
    room in the transmit queue, its first 256 bytes are queued for the configured
    connection and [send_data] is requested; when the network is not ready, or the
    queue refuses it, the client is told so and the network is left as it was. *)
Theorem forward_queues_datagram coap payload (e : E) q msgs :
  message_queue_ (radio (net e)) = Some q -> lane_rel (capacity_ q) (tx_ q) msgs ->
  let r := radio (net e) in
  let ok := state_eqb (state_ r) State_data_ready && (valid_id conn_id && (length msgs <? capacity_ q)) in
  exists e', forward conn_id coap payload e = Done (tt, e') /\ channels (net e') = channels (net e) /\
    if ok then
      exists q', lane_rel (capacity_ q) (tx_ q') (msgs ++ [mkMsg conn_id (take MAX_MSG_DATA payload)]) /\ rx_ q' = rx_ q /\
        radio (net e') = call_action Action_send_data (set_message_queue (Some q') r) /\
        data_ipc e' = data_ipc e /\ coap_ipc e' = coap_ipc e
    else
      exists text, state_ (radio (net e')) = state_ r /\ modem_action_ (radio (net e')) = modem_action_ r /\
        (if coap then coap_ipc e' else data_ipc e') = snd (send (cut16 text) (if coap then coap_ipc e else data_ipc e)) /\
        starts_with (lit "ERROR: ") text = true.
Proof.
  intros Hq Hl. cbv zeta. unfold forward. set (r := radio (net e)) in *.
  unfold nl_bind at 1. rewrite (on_network_run (nl_gets state_) e (state_ r) r eq_refl).
  set (e1 := set_net _ e). assert (e1 = e) as -> by (by destruct e as [[]]).
  destruct (state_eqb (state_ r) State_data_ready) eqn:Est; cbn [negb andb].
  2: { edestruct refusal as (e' & E & Hn & Hi). exists e'. split; [exact E|]. rewrite Hn. split; [done|]. by eexists. }
  pose proof (push_to_refines _ _ _ conn_id payload Hl) as Hp.
  destruct (push_to (capacity_ q) (tx_ q) conn_id payload) as [err l] eqn:Ep. unfold spec_push in Hp.
  unfold nl_bind at 1.
  rewrite (on_network_run (lift (tx_write conn_id payload)) e err 
    (set_message_queue (T := posix_hal) (Some (mkQueue (capacity_ q) l (rx_ q))) r))
    by (unfold lift, tx_write; fold r; rewrite Hq; cbn [mq_tx_push posix_queue]; unfold tx_push; by rewrite Ep).
  destruct (valid_id conn_id && (length msgs <? capacity_ q)) eqn:Eok.
  - apply andb_true_iff in Eok as [Hv Hc]. bool_facts. rewrite Hv in Hp. cbn [negb] in Hp.
    destruct (capacity_ q <=? length msgs) eqn:Ec; bool_facts; [lia|]. destruct Hp as [-> Hp].
    rewrite bool_decide_true by done. cbn [negb]. eexists. split; [done|]. split; [done|].
    by exists (mkQueue (capacity_ q) l (rx_ q)).
  - assert (err <> QueueError_ok) as Herr.
    { destruct (valid_id conn_id); cbn [negb andb] in Hp, Eok; [|by destruct Hp as [-> _]].
      destruct (capacity_ q <=? length msgs) eqn:Ec; bool_facts; [by destruct Hp as [-> _]|lia]. }
    rewrite bool_decide_false by done. cbn [negb].
    edestruct refusal as (e' & E & Hn & Hi). exists e'. split; [exact E|]. rewrite Hn. split; [done|]. by eexists.
Qed.

Lemma take_first_others c msgs m rest :
  take_first c msgs = Some (m, rest) -> filter (fun x => cid x <> c) msgs = filter (fun x => cid x <> c) rest.
Proof.
  revert rest. induction msgs as [|x msgs IH]; intros rest; simpl; [done|]. destruct (cid x =? c)%Z eqn:Ex; bool_facts.
  - intros [= -> ->]. rewrite filter_cons_False; [done|]. intros Hx. by apply Hx.
  - destruct (take_first c msgs) as [[y r]|]; [|done]. intros [= -> <-]. rewrite !filter_cons_True by done. f_equal. by apply IH.
Qed.

Lemma filter_others c msgs : filter (fun x => cid x = c) msgs = [] -> filter (fun x => cid x <> c) msgs = msgs.
Proof.
  induction msgs as [|x msgs IH]; [done|]. rewrite !filter_cons. case_decide; [done|]. intros Hf. rewrite decide_True by done.
  f_equal. by apply IH.
Qed.

(** Received datagrams reach the client: the network thread takes every datagram
    queued for the configured connection, in order and each once, and sends it to
    the data client; datagrams of other connections and the transmit queue are left
    as they are.  One more round than there are queued datagrams is enough. *)
Theorem received_datagrams_forwarded k : forall (e : E) q msgs,
  message_queue_ (radio (net e)) = Some q -> lane_rel (capacity_ q) (rx_ q) msgs -> valid_id conn_id = true ->
  length msgs < k ->
  exists e' q', drain_rx conn_id k e = Done (tt, e') /\ message_queue_ (radio (net e')) = Some q' /\ tx_ q' = tx_ q /\
    lane_rel (capacity_ q) (rx_ q') (filter (fun m => cid m <> conn_id) msgs) /\
    data_ipc e' = foldl (fun i m => snd (send (cut16 (data m)) i)) (data_ipc e) (filter (fun m => cid m = conn_id) msgs) /\
    coap_ipc e' = coap_ipc e /\ at_ipc e' = at_ipc e.
Proof.
  induction k as [|k IH]; intros e q msgs Hq Hl Hv Hk; [lia|]. cbn [drain_rx].
  pose proof (pop_from_refines _ _ _ conn_id Hl) as Hp. unfold spec_pop in Hp. rewrite Hv in Hp. cbn [negb] in Hp.
  destruct (pop_from no_wait (rx_ q) conn_id 0) as [[err m] l] eqn:Ep.
  set (q1 := mkQueue (capacity_ q) (tx_ q) l).
  unfold nl_bind at 1.
  rewrite (on_network_run (lift (rx_read conn_id)) e (err, m) (set_message_queue (T := posix_hal) (Some q1) (radio (net e))))
    by (unfold lift, rx_read; rewrite Hq; cbn [mq_rx_pop posix_queue]; unfold rx_pop; by rewrite Ep).
  set (e1 := set_net _ e).
  destruct (take_first conn_id msgs) as [[x rest]|] eqn:Et; destruct Hp as (-> & -> & Hr).
  - destruct (take_first_filter _ _ _ _ Et) as (H1 & _ & _ & Hlen & _ & _). rewrite bool_decide_true by done.
    unfold send_udp_rx, send_to. unfold nl_bind at 1. destruct (send (cut16 (data x)) (data_ipc e1)) as [b i] eqn:Es.
    destruct (IH (set_ipc false i e1) q1 rest eq_refl Hr Hv ltac:(lia)) as (e' & q' & E & Hq' & Ht & Hl' & Hd & Hc & Ha).
    exists e', q'. rewrite (take_first_others _ _ _ _ Et), H1. cbn [foldl]. split_and!; try done.
    rewrite Hd. cbn [set_ipc data_ipc]. change (data_ipc e) with (data_ipc e1). by rewrite Es.
  - apply take_first_None in Et. exists e1, q1. rewrite (filter_others _ _ Et), Et. done.
Qed.

End Commands.

(** ** Witnesses *)

Import Scripted Pipe.
#[local] Existing Instance example_residue.

(** An application whose modem is silent, with a client on every server. *)
Definition desk (q : hal_queue) : Env PosixChannel.Channel (ModemController Scripted.World) Pipe.World :=
  mkEnv (mkService idle_channels (set_message_queue (Some q) (machine State_data_ready [])))
    (connected Mode_line []) (connected Mode_framed []) (connected Mode_line []) [].


Lemma forward_queues_datagram_witness :
  exists e', forward 1 false (lit "ping") (desk two_queue) = Done (tt, e') /\ channels (net e') = idle_channels /\
    exists q', lane_rel 5 (tx_ q') (two_messages ++ [mkMsg 1 (lit "ping")]) /\ rx_ q' = rx_ two_queue /\
      radio (net e') = call_action Action_send_data (set_message_queue (Some q') (radio (net (desk two_queue)))) /\
      data_ipc e' = connected Mode_line [] /\ coap_ipc e' = connected Mode_framed [].
Proof.
  apply (forward_queues_datagram 1 false (lit "ping") (desk two_queue) two_queue two_messages); [reflexivity|exact two_queue_rel].
Defined.

(** A datagram received on connection 2. *)
Definition received : hal_queue := snd (rx_push (create_message_queue 0) 2 (lit "pong")).

Lemma received_rel : lane_rel (capacity_ received) (rx_ received) [mkMsg 2 (lit "pong")].
Proof.
  pose proof (push_to_refines 5 lane_init [] 2 (lit "pong") (lane_init_rel 5)) as H.
  unfold received, rx_push. change (rx_ (create_message_queue 0)) with lane_init.
  change (capacity_ (create_message_queue 0)) with 5. by destruct (push_to 5 lane_init 2 (lit "pong")) as [err l], H as [_ H].
Qed.

Lemma received_datagrams_forwarded_witness :
  exists e' q', drain_rx 2 9 (desk received) = Done (tt, e') /\ message_queue_ (radio (net e')) = Some q' /\ tx_ q' = tx_ received /\
    lane_rel 5 (rx_ q') [] /\
    data_ipc e' = snd (send (lit "pong") (connected Mode_line [])) /\
    coap_ipc e' = connected Mode_framed [] /\ at_ipc e' = connected Mode_line [].
Proof.
  apply (received_datagrams_forwarded 2 9 (desk received) received [mkMsg 2 (lit "pong")]);
    [reflexivity|exact received_rel|reflexivity|simpl; lia].
Defined.
