(* ===== verification/Desktop.v ===== *)
(** * The desktop program (examples/desktop/main.cpp)

    [main] of the desktop program opens the serial port, starts the four IPC
    servers, connects, and leaves the work to three threads: the network thread
    ([AppIpc.network_thread_turn]) and two that print.  Clients act at any time.
    The threads take the network's mutex for each of their steps, so a run of the
    program is a sequence of steps; a thread that waits for another is a sequence
    with the other's steps in between. *)

From S2P Require Import Prelude CLib FixedString StaticVector Layout MessageChannel MessageQueue Timer.
From S2P Require Import AtCommand ModemController Xe310Types Xe310 Survey Trace Hal NetworkTypes Typed NetworkLte.
From S2P Require Import NetworkInv NetworkSafety NetworkApi.
From S2P Require Import RadioMessages RadioLte Json RpcHelpers RpcServer IpcServer AppIpc RpcSafety.

(** ** The command line *)

(** [for (int i = 1; i < argc - 1; ++i)]: the word after the first [-p]. *)
Fixpoint find_port (args : list str) (port : str) : str :=
  match args with
  | a :: rest =>
      match rest with
      | next :: _ => if str_eqb a (lit "-p") then next else find_port rest port
      | [] => port
      end
  | [] => port
  end.

Definition main_port (argv : list str) : str := find_port (tail argv) (lit "COM17").

(** ** What the printing threads print *)

Inductive Line :=
| Line_state (state : NetworkLteState) (event : NetworkLteEvent)
| Line_log (text : str)
| Line_trace_state (previous current : NetworkLteState)
| Line_trace_event (event : NetworkLteEvent)
| Line_trace_action (action : ModemAction)
| Line_trace_error (event : NetworkLteEvent).

Section Logs.
Context {HT : HalTypes} {Ch : Type} {HCh : MessageChannel Ch} {C : Type}.
Notation S := (@Service HT Ch C).
Local Open Scope nl_scope.

(** [while (channels.recv_log(log_msg) == ok)]: the lines printed. *)
Fixpoint print_logs (rounds : nat) (log_msg : str) : NL S (list Line) :=
  match rounds with
  | 0 => nl_nofuel
  | Datatypes.S rounds' =>
      let* (err, log_msg) := on_channels (recv_log log_msg) in
      if bool_decide (err = ChannelError_ok) then
        let* printed := print_logs rounds' log_msg in nl_ret (Line_log (cstr log_msg) :: printed)
      else nl_ret []
  end.

End Logs.

Definition ALL_EVENTS : Z := Z.lor MODEM_EVT_STATE MODEM_EVT_LOG.

Section Threads.
Context {Ch : Type} {HCh : MessageChannel Ch} {C : Type} {HC : Controller C} {HR : Residue}.
Notation S := (Service Ch C).
Local Open Scope nl_scope.

(** One turn of the event thread's loop; [worker] is the network thread meanwhile. *)
Definition event_thread_turn (worker : Z -> NL S unit) (rounds : nat) : NL S (list Line) :=
  let* matched := wait_for worker ALL_EVENTS 1000 in
  if (matched =? 0)%Z then nl_ret []
  else
    let* printed := (if is_set matched MODEM_EVT_STATE
                     then nl_gets (fun s : S => [Line_state (fst (state_msg (channels s))) (snd (state_msg (channels s)))])
                     else nl_ret []) in
    let* logs := (if is_set matched MODEM_EVT_LOG then print_logs rounds [] else nl_ret []) in
    nl_ret (printed ++ logs).

Definition trace_line (entry : NetworkTraceEntry) : Line :=
  match kind entry with
  | Trace_state_change => Line_trace_state (previous_state entry) (current_state entry)
  | Trace_event_set => Line_trace_event (te_event entry)
  | Trace_action_set => Line_trace_action (te_action entry)
  | Trace_error => Line_trace_error (te_event entry)
  end.

(** One turn of the trace thread's loop; [waited] is what others trace meanwhile. *)
Definition trace_thread_turn (waited : Trace -> Trace) : NL S (list Line) :=
  on_radio (fun r =>
    let '(entry, t) := pop_trace waited (trace_ r) in
    Done (match entry with Some entry => [trace_line entry] | None => [] end, set_trace t r)).

End Threads.

(** ** The desktop program *)

Section Program.
Context {Ch : Type} {HCh : MessageChannel Ch} {C : Type} {HC : Controller C} {HR : Residue}.
Context {W : Type} {HW : Sockets W}.
Notation L := (NetworkLte C).

(** The locals of [main] the threads share: network, channels, servers and command
    queue ([App]), the RPC server's socket, [network_worker_running], and what has
    been printed by the threads. *)
Record Desktop := mkDesktop {
  app : App Ch C W; rpc_ipc_ : IpcServer W; network_worker_running_ : bool; printed : list Line }.

(** [lteConfig.conn_id]; the bounds of the state machine's loops, of the requests
    and datagrams taken in a turn, and of the turns a caller waits; the address of
    the server array. *)
Variable conn_id : Z.
Variable n fuel rounds turns : nat.
Variable server_info_ptr : Z.

Local Open Scope nl_scope.

Definition set_app (a : App Ch C W) (d : Desktop) : Desktop :=
  mkDesktop a (rpc_ipc_ d) (network_worker_running_ d) (printed d).
Definition set_rpc_ipc (i : IpcServer W) (d : Desktop) : Desktop :=
  mkDesktop (app d) i (network_worker_running_ d) (printed d).
Definition set_running (b : bool) (d : Desktop) : Desktop := mkDesktop (app d) (rpc_ipc_ d) b (printed d).
Definition print_lines (l : list Line) (d : Desktop) : Desktop :=
  mkDesktop (app d) (rpc_ipc_ d) (network_worker_running_ d) (printed d ++ l).

Definition on_app {A} (m : NL (App Ch C W) A) : NL Desktop A := fun d =>
  match m (app d) with
  | Done (x, a) => Done (x, set_app a d)
  | Undef => Undef
  | NoFuel => NoFuel
  end.
Definition on_net {A} (m : NL (Service Ch C) A) : NL Desktop A := on_app (on_env (on_service m)).

Notation turn := (network_thread_turn (Ch := Ch) (W := W) conn_id n fuel rounds server_info_ptr).
Notation network_thread := (thread (Ch := Ch) (C := C) server_info_ptr n fuel rounds).

(** The four servers. *)
Inductive Server := Server_data | Server_coap | Server_at | Server_rpc.

Definition upd_ipc (srv : Server) (f : IpcServer W -> IpcServer W) (d : Desktop) : Desktop :=
  let e := env (app d) in
  let put e := set_app (mkApp e (command_queue_ (app d))) d in
  match srv with
  | Server_data => put (set_ipc false (f (data_ipc e)) e)
  | Server_coap => put (set_ipc true (f (coap_ipc e)) e)
  | Server_at => put (set_at_ipc (f (at_ipc e)) e)
  | Server_rpc => set_rpc_ipc (f (rpc_ipc_ d)) d
  end.

(** What a client of one of the servers does; [schedule] says what the network
    thread does in the waits of the RPC server. *)
Inductive ClientStep :=
| Client_connects (srv : Server) (fd : Z)
| Client_leaves (srv : Server)
| Client_data (payload : str)
| Client_coap (payload : str)
| Client_at_command (cmd : str)
| Client_rpc (request : str) (schedule : Z -> list ThreadAct).

(** [get_network_state]: the state once the network thread has got to the command. *)
Definition state_reply (running : bool) (schedule : Z -> list ThreadAct) : NL (Service Ch C) str :=
  (if running then network_thread schedule 0 else nl_ret tt) ;;;
  nl_gets (fun s => in_quotes (to_str_state (state_ (radio s)))).

(** The steps of [accept_loop] around the messages, and the handlers. *)
Definition client_step (c : ClientStep) : NL Desktop unit :=
  match c with
  | Client_connects srv fd =>
      nl_modify (upd_ipc srv (set_client_fd fd)) ;;;
      (match srv with Server_at => on_app (nl_modify on_at_connect) | _ => nl_ret tt end)
  | Client_leaves srv =>
      (match srv with Server_at => on_app (nl_modify on_at_disconnect) | _ => nl_ret tt end) ;;;
      nl_modify (upd_ipc srv (fun i => set_client_fd (-1) (set_os (sk_close (client_fd_ i) (os i)) i)))
  | Client_data payload => on_app (nl_modify (on_data_message payload))
  | Client_coap payload => on_app (nl_modify (on_coap_message payload))
  | Client_at_command cmd =>
      let* running := nl_gets network_worker_running_ in
      on_app (on_at_message running turn turns cmd)
  | Client_rpc request schedule =>
      let* running := nl_gets network_worker_running_ in
      let* (response, len) := on_net (on_rpc_message (network_thread schedule) running conn_id
                                        (state_reply running schedule) request) in
      nl_modify (fun d => set_rpc_ipc (snd (send (take (Z.to_nat len) response) (rpc_ipc_ d))) d)
  end.

Inductive Step :=
| Step_client (c : ClientStep)
| Step_network_turn
| Step_event_turn
| Step_trace_turn.

Definition step (s : Step) : NL Desktop unit :=
  match s with
  | Step_client c => client_step c
  | Step_network_turn => on_app turn
  | Step_event_turn => let* l := on_net (event_thread_turn (fun _ => nl_ret tt) rounds) in nl_modify (print_lines l)
  | Step_trace_turn => let* l := on_net (trace_thread_turn id) in nl_modify (print_lines l)
  end.

(** [main] up to the start of the threads, with what clients do between its
    sections under the mutex, and then the threads. *)
Definition main_program (before_connect before_server before_hello : list ClientStep) (steps : list Step) : NL Desktop unit :=
  nl_for client_step before_connect ;;;
  let* _ := on_net (on_radio (network_connect n fuel)) in
  nl_for client_step before_server ;;;
  let* fRes := on_net (on_radio (server_connect conn_id (lit "UDP") (lit "185.205.209.91") 10000)) in
  nl_for client_step before_hello ;;;
  (if fRes : bool then
     on_net (on_radio (lift (tx_write conn_id (lit "Hello, World!")))) ;;;
     on_net (on_radio (nl_modify (call_action Action_send_data)))
   else nl_ret tt) ;;;
  nl_modify (set_running true) ;;;
  nl_for step steps.

End Program.
Arguments mkDesktop {Ch C W} _ _ _ _.
Arguments Desktop : clear implicits.

(** The objects [main] makes: the controller with its port open or not, the
    network, the channels, and the servers on ports 9000 to 9003. *)
Section Init.
Context {Ch : Type} {HCh : MessageChannel Ch} {P : Type} {HP : Platform P} {HR : Residue}.
Context {W : Type} {HW : Sockets W}.

Definition started (w : W) (port : Z) (mode : Mode) : IpcServer W := snd (start (IpcServer_init w port mode)).

Definition main_init (argv : list str) (p : P) (data coap at_ rpc : W) : Desktop Ch (ModemController P) W :=
  let modem_controller := snd (connect (main_port argv) UartConfig_default (controller_init p true)) in
  let network := NetworkLte_init (XE310.xE310_init modem_controller) NetworkLteConfig_default true None in
  mkDesktop
    (mkApp (mkEnv (mkService RadioLteChannels_init network) (started data 9000 Mode_line) (started coap 9001 Mode_framed)
              (started at_ 9002 Mode_line) []) [])
    (started rpc 9003 Mode_line) false [].

End Init.
