(* ===== verification/DesktopProps.v ===== *)
(** * Properties of the desktop program: safety of every run, and what the
      printing threads print *)

From S2P Require Import Prelude CLib FixedString StaticVector Layout MessageChannel MessageQueue Timer.
From S2P Require Import AtCommand ModemController ControllerProps Xe310Types Xe310 Survey Trace Hal NetworkTypes Typed NetworkLte.
From S2P Require Import NetworkInv NetworkSafety NetworkApi NetworkLive RadioMessages RadioLte RadioLteProps.
From S2P Require Import Json RpcHelpers RpcHelpersProps RpcServer RpcServerProps RpcSafety IpcServer AppIpc AppIpcProps Desktop.

(** ** Safety *)

(** Nothing is asked of a client but that its RPC requests do not hold ten digits
    in a row; [schedule] names what the network thread does in the waits of the
    server. *)
Definition client_ok (c : ClientStep) : Prop :=
  match c with
  | Client_rpc request schedule => long_number request = false /\ forall t, Forall act_ok (schedule t)
  | _ => True
  end.
Definition step_ok (s : Step) : Prop := match s with Step_client c => client_ok c | _ => True end.

Section Logs.
Context {HT : HalTypes} {HM : HalTimer} {HTL : HalTimerLaws} {HQ : HalQueue} {HQL : HalQueueLaws}.
Context {Ch : Type} {HCh : MessageChannel Ch} {HL : MessageChannelLaws Ch}.
Context {C : Type} {HC : Controller C} {HA : TimerAccess C} {HAL : TimerAccessLaws C} {HR : Residue}.

Lemma keeps_print_logs k : forall msg, keeps (service_ok (C := C)) (print_logs k msg).
Proof using HL.
  induction k as [|k IH]; intros msg; [apply keeps_nofuel|]. cbn [print_logs].
  apply keeps_bind; [|intros [err m]; case_goal; [apply keeps_bind; [apply IH|intros l; apply keeps_ret]|apply keeps_ret]].
  intros s (rest & tx & d & Hl & Hok & (Htx & Hrx & He & Hr) & Hwf). unfold on_channels, recv_log.
  destruct (receive_message _ _ _) as [r q]. by exists (q, state_msg (channels s)), tx, d.
Qed.

End Logs.

Section Safety.
Context {Ch : Type} {HCh : MessageChannel Ch} {HL : MessageChannelLaws Ch}.
Context {C : Type} {HC : Controller C} {HR : Residue}.
Context {W : Type} {HW : Sockets W}.
Variable n fuel rounds turns : nat.
Variable server_info_ptr : Z.
Hypothesis enough_rounds : MODEM_TX_Q_DEPTH < rounds.
Variable conn_id : Z.
Hypothesis conn_id_valid : valid_id conn_id = true.
Local Open Scope nl_scope.

Notation L := (NetworkLte C).

(** The invariant: the queued radio requests are safe to serve, the network
    satisfies its own, and so do the queued commands. *)
Definition env_ok (e : Env Ch C W) : Prop := service_ok (net e).
Definition command_ok (c : Command C) : Prop := match c with Cmd_sync m _ => keeps lte_wf m | _ => True end.
Definition app_ok (a : App Ch C W) : Prop := env_ok (env a) /\ Forall command_ok (command_queue_ a).
Definition desktop_ok (d : Desktop Ch C W) : Prop := app_ok (app d).

(** Each component's computations lift to the whole. *)
Lemma keeps_on_service {A} (m : NL (Service Ch C) A) : keeps service_ok m -> keeps env_ok (on_service m).
Proof. intros Hm e He. unfold on_service. specialize (Hm _ He). by destruct (m (net e)) as [[a s]| |]. Qed.
Lemma keeps_on_network {A} (m : NL L A) : keeps lte_wf m -> keeps env_ok (on_network m).
Proof using HL. intros Hm. by apply keeps_on_service, keeps_radio. Qed.
Lemma keeps_on_env {A} (m : NL (Env Ch C W) A) : keeps env_ok m -> keeps app_ok (on_env m).
Proof. intros Hm a [He Hc]. unfold on_env. specialize (Hm _ He). by destruct (m (env a)) as [[x e]| |]. Qed.
Lemma keeps_on_app {A} (m : NL (App Ch C W) A) : keeps app_ok m -> keeps desktop_ok (on_app m).
Proof. intros Hm d Hd. unfold on_app. specialize (Hm _ Hd). by destruct (m (app d)) as [[x a]| |]. Qed.
Lemma keeps_on_net {A} (m : NL (Service Ch C) A) : keeps service_ok m -> keeps desktop_ok (on_net m).
Proof. intros Hm. by apply keeps_on_app, keeps_on_env, keeps_on_service. Qed.

(** The calls of the state machine the program makes. *)
Lemma keeps_call {A} (m : NL L A) c : run_call n fuel c = (m ;;; nl_ret tt) -> call_ok c = true -> keeps lte_wf m.
Proof. apply keeps_of_call. Qed.

Local Notation wf := (lte_wf : L -> Prop).

Lemma keeps_calls :
  keeps wf (network_connect n fuel) /\ (forall p ip port_, keeps wf (server_connect conn_id p ip port_)) /\
  keeps wf (loop fuel State_none) /\ (forall i b, keeps wf (lift (tx_write i b))) /\
  (forall i, keeps wf (lift (rx_read i))) /\ keeps wf (enter_transparent_mode n fuel) /\
  keeps wf (leave_transparent_mode fuel) /\ (forall c r t, keeps wf (lift (send_at_command c r t))) /\
  (forall a, keeps wf (nl_modify (call_action a))).
Proof using conn_id_valid.
  split_and!; intros.
  - by apply (keeps_call _ Call_network_connect).
  - by apply (keeps_call _ (Call_server_connect conn_id p ip port_)).
  - by apply (keeps_call _ (Call_loop State_none)).
  - by apply (keeps_call _ (Call_tx_write i b)).
  - by apply (keeps_call _ (Call_rx_read i)).
  - by apply (keeps_call _ Call_enter_transparent_mode).
  - by apply (keeps_call _ Call_leave_transparent_mode).
  - by apply (keeps_call _ (Call_send_at_command c r t)).
  - exact (keeps_run_call n fuel (Call_call_action a) eq_refl I).
Qed.

Ltac calls := destruct keeps_calls as (Kconnect & Kserver & Kloop & Ktx & Krx & Kenter & Kleave & Kat & Kact).

Ltac app_auto :=
  repeat lazymatch goal with
  | |- keeps _ (nl_bind _ _) => apply keeps_bind; [|intros ?]
  | |- keeps _ (nl_ret _) => apply keeps_ret
  | |- keeps _ (nl_gets _) => apply keeps_gets
  | |- keeps env_ok (on_network _) => apply keeps_on_network
  | |- keeps app_ok (on_env _) => apply keeps_on_env
  | |- keeps desktop_ok (on_app _) => apply keeps_on_app
  | |- keeps desktop_ok (on_net _) => apply keeps_on_net
  | |- keeps service_ok (on_radio _) => apply keeps_radio
  | |- keeps _ (let '(_, _) := ?p in _) => destruct p
  | |- keeps _ (if ?b then _ else _) => destruct b
  | |- keeps _ (match ?x with _ => _ end) => destruct x
  end.

Lemma keeps_send_to coap text : keeps env_ok (send_to coap text).
Proof. intros e He. unfold send_to. destruct (send _ _) as [r i]. by destruct coap. Qed.

Lemma keeps_run_command c : command_ok c -> keeps env_ok (run_command conn_id n fuel c).
Proof using HL conn_id_valid.
  calls. intros Hc. destruct c as [coap payload| | |m done]; cbn [run_command]; unfold forward, set_value; app_auto; auto using keeps_send_to.
  by apply keeps_modify.
Qed.

Lemma keeps_process : keeps app_ok (process_pending_commands conn_id n fuel).
Proof using HL conn_id_valid.
  intros a [He Hc]. unfold process_pending_commands.
  pose proof (keeps_for_ok env_ok command_ok (run_command conn_id n fuel) _ keeps_run_command Hc) as Hk.
  specialize (Hk _ He). unfold on_env. cbn [env]. by destruct (nl_for _ _ (env a)) as [[u e]| |].
Qed.

Lemma keeps_drain_rx k : keeps env_ok (drain_rx conn_id k).
Proof using HL HC HR n fuel conn_id_valid.
  calls. induction k as [|k IH]; [apply keeps_nofuel|]. cbn [drain_rx]. unfold send_udp_rx. app_auto; auto using keeps_send_to.
Qed.

Notation turn := (network_thread_turn (Ch := Ch) (W := W) conn_id n fuel rounds server_info_ptr).

Lemma keeps_turn : keeps app_ok turn.
Proof using HL conn_id_valid enough_rounds.
  calls. unfold network_thread_turn. app_auto; auto using keeps_process, keeps_drain_rx.
  apply keeps_on_service, keeps_service. intros rest. by apply keeps_requests.
Qed.

(** *** Synchronous calls *)

Lemma keeps_get_result worker k done : keeps app_ok worker -> keeps app_ok (get_result worker k done).
Proof.
  intros Hw. induction k as [|k IH]; cbn [get_result]; app_auto; auto using keeps_nofuel.
Qed.

Lemma keeps_run_sync running worker command :
  keeps app_ok worker -> keeps lte_wf command -> keeps app_ok (run_sync running worker turns command).
Proof using HL.
  intros Hw Hm. unfold run_sync. app_auto; [done| | |by apply keeps_get_result].
  - by intros a' Ha.
  - apply keeps_modify. intros a' [He Hc]. split; [done|]. cbn. apply Forall_app. by split; [|constructor].
Qed.

Lemma keeps_at_message running cmd : keeps app_ok (on_at_message running turn turns cmd).
Proof using HL conn_id_valid enough_rounds.
  calls. unfold on_at_message, send_at_command_sync. app_auto.
  - apply keeps_run_sync; [exact keeps_turn|]. unfold at_command. app_auto. apply Kat.
  - intros e He. unfold send_to_at. by destruct (send _ _).
Qed.

(** *** Clients and threads *)

Lemma keeps_rpc running request schedule :
  client_ok (Client_rpc request schedule) ->
  keeps service_ok (on_rpc_message (thread server_info_ptr n fuel rounds schedule) running conn_id
                      (state_reply n fuel rounds server_info_ptr running schedule) request).
Proof using HL conn_id_valid enough_rounds.
  intros [Hl Hs]. apply keeps_service. intros rest.
  assert (forall t, keeps (pending rest) (thread server_info_ptr n fuel rounds schedule t)) as Hw by (intros t; by apply keeps_thread).
  unfold on_rpc_message. app_auto. apply keeps_handle_request; [done| |by apply valid_id_range|done].
  unfold state_reply. app_auto. apply Hw.
Qed.

Lemma keeps_client c : client_ok c -> keeps desktop_ok (client_step conn_id n fuel rounds turns server_info_ptr c).
Proof using HL conn_id_valid enough_rounds.
  intros Hc. assert (forall c, command_ok c -> keeps app_ok (nl_modify (enqueue_network_command c))) as Hq.
  { intros c' Hc'. apply keeps_modify. intros a [He Ha]. split; [done|]. cbn. apply Forall_app. by split; [|constructor]. }
  assert (forall srv f, keeps desktop_ok (nl_modify (upd_ipc srv f))) as Hi by (intros [] f d Hd; exact Hd).
  destruct c as [srv fd|srv|p|p|cmd|request schedule]; cbn [client_step]; app_auto; try apply Hi;
    try (by apply Hq); [apply keeps_at_message|by apply keeps_rpc|by apply keeps_modify].
Qed.

Lemma keeps_step s : step_ok s -> keeps desktop_ok (step conn_id n fuel rounds turns server_info_ptr s).
Proof using HL conn_id_valid enough_rounds.
  intros Hs. destruct s as [c| | |]; cbn [step]; [by apply keeps_client|..].
  - apply keeps_on_app, keeps_turn.
  - app_auto; [|by apply keeps_modify]. unfold event_thread_turn, wait_for. app_auto;
      try apply keeps_print_logs; apply keeps_service; intros rest; apply keeps_wait_bits.
  - app_auto; [|by apply keeps_modify]. unfold trace_thread_turn. app_auto. intros r Hr.
    pose proof (keeps_pop_trace r Hr) as Hp. by destruct (pop_trace id (trace_ r)).
Qed.

Lemma keeps_main cs1 cs2 cs3 steps :
  Forall client_ok (cs1 ++ cs2 ++ cs3) -> Forall step_ok steps ->
  keeps desktop_ok (main_program conn_id n fuel rounds turns server_info_ptr cs1 cs2 cs3 steps).
Proof using HL conn_id_valid enough_rounds.
  calls. rewrite !Forall_app. intros (H1 & H2 & H3) Hs. unfold main_program.
  app_auto; eauto using keeps_for_ok, keeps_client, keeps_step. by apply keeps_modify.
Qed.

End Safety.

(** ** What the event thread prints *)

Section Logs.
Context {HT : HalTypes} {Ch : Type} {HCh : MessageChannel Ch} {HL : MessageChannelLaws Ch} {C : Type}.
Notation S := (@Service HT Ch C).
Notation Chs := (RadioLteChannels Ch).
Local Open Scope nl_scope.

Definition publish_logs (lines : list str) (ch : Chs) : Chs := foldl (fun ch line => snd (publish_log line ch)) ch lines.

(** The message of a line, and the line printed for it. *)
Definition log_bytes (line : str) : str := enc log_msg_c (fs_set MODEM_LONG_STR line).
Definition log_line (line : str) : Line := Line_log (cstr (fs_set MODEM_LONG_STR line)).

Lemma log_bytes_size line : length (log_bytes line) = sizeof log_msg_c.
Proof.
  apply (sized_struct long_c id id); [vm_compute; lia|]. eauto 20 with codec.
Qed.

Lemma log_bytes_read line : dec log_msg_c (log_bytes line) = fs_set MODEM_LONG_STR line.
Proof.
  unfold log_bytes. rewrite <- (app_nil_r (enc log_msg_c _)).
  apply (decodes_struct long_c id id (fun s => length s <= MODEM_LONG_STR) (fun s => length s <= MODEM_LONG_STR)); [|done|].
  - apply decodes_string. unfold MODEM_LONG_STR. lia.
  - unfold fs_set. rewrite length_take. lia.
Qed.

(** Publishing appends to the log queue until it is full and notifies. *)
Lemma publish_logs_rel lines : forall (ch : Chs) l,
  ch_rel MODEM_LOG_Q_DEPTH (modem_log_q ch) l -> length l <= MODEM_LOG_Q_DEPTH ->
  let ch' := publish_logs lines ch in
  ch_rel MODEM_LOG_Q_DEPTH (modem_log_q ch') (take MODEM_LOG_Q_DEPTH (l ++ map log_bytes lines)) /\
  (modem_tx_q ch', modem_rx_q ch', state_msg ch') = (modem_tx_q ch, modem_rx_q ch, state_msg ch) /\
  Z.ldiff (modem_evt ch') ALL_EVENTS = Z.ldiff (modem_evt ch) ALL_EVENTS /\
  (forall i, Z.testbit (modem_evt ch) i = true -> Z.testbit (modem_evt ch') i = true) /\
  (lines <> [] -> length l < MODEM_LOG_Q_DEPTH -> Z.testbit (modem_evt ch') 3 = true).
Proof using HL.
  induction lines as [|x lines IH]; intros ch l Hq Hl; cbn [publish_logs foldl map].
  { rewrite app_nil_r, take_ge by done. by split_and!. }
  unfold publish_log, send_message. destruct (law_send _ _ _ (log_bytes x) Hq) as [He Hq'].
  fold (log_bytes x). destruct (ch_send (log_bytes x) (modem_log_q ch)) as [err q]. cbn [fst snd] in He, Hq' |- *.
  unfold spec_send in He, Hq'. rewrite log_bytes_size in He, Hq'.
  assert ((MESSAGE_CHANNEL_MAX_DATA <? sizeof log_msg_c) = false) as Hs by (vm_compute; reflexivity).
  rewrite Hs in He, Hq'.
  destruct (MODEM_LOG_Q_DEPTH <=? length l) eqn:E; bool_facts; cbn [fst snd] in He, Hq'; subst err; unfold notify.
  - rewrite decide_False by done. destruct (IH (set_log_q q ch) l Hq' Hl) as (H1 & H2 & H3 & H4 & H5).
    rewrite !take_app_ge in H1 |- * by lia.
    assert (forall k : list str, take (MODEM_LOG_Q_DEPTH - length l) k = []) as Hz
      by (intros k; replace (MODEM_LOG_Q_DEPTH - length l) with 0 by lia; done).
    rewrite Hz in H1 |- *. split_and!; try done. intros _ Hlt. lia.
  - rewrite decide_True by done. set (ch1 := set_evt _ _).
    destruct (IH ch1 (l ++ [log_bytes x]) Hq') as (H1 & H2 & H3 & H4 & H5); [rewrite length_app; cbn; lia|].
    rewrite <- app_assoc in H1. assert (Z.testbit (modem_evt ch1) 3 = true) as Hb.
    { unfold ch1, EventFlags.set. cbn [modem_evt set_evt set_log_q]. rewrite Z.lor_spec. apply orb_true_r. }
    split_and!; try done.
    + etransitivity; [exact H3|]. unfold ch1, EventFlags.set. cbn [modem_evt set_evt set_log_q]. apply Z.bits_inj'. intros j Hj.
      rewrite !Z.ldiff_spec, Z.lor_spec. unfold ALL_EVENTS. rewrite Z.lor_spec.
      by destruct (Z.testbit (modem_evt ch) j), (Z.testbit MODEM_EVT_STATE j), (Z.testbit MODEM_EVT_LOG j).
    + intros i Hi. apply H4. unfold ch1, EventFlags.set. cbn [modem_evt set_evt set_log_q]. by rewrite Z.lor_spec, Hi.
    + intros _ _. by apply H4.
Qed.

(** The loop over the queued lines prints each once, in order, and ends. *)
Lemma print_logs_rel lines : forall k msg (s : S),
  ch_rel MODEM_LOG_Q_DEPTH (modem_log_q (channels s)) (map log_bytes lines) -> length lines < k ->
  exists q, print_logs k msg s = Done (map log_line lines, mkService (set_log_q q (channels s)) (radio s)) /\
            ch_rel MODEM_LOG_Q_DEPTH q [].
Proof using HL.
  induction lines as [|x lines IH]; intros [|k] msg s Hq Hk; cbn [length] in Hk; try lia; cbn [print_logs map] in *;
    unfold nl_bind at 1, on_channels, recv_log.
  - unfold receive_message. destruct (law_receive_empty _ _ MessageFrame_default Hq) as (Hok & Hq').
    destruct (ch_receive MessageFrame_default (modem_log_q (channels s))) as [[err f] q]. cbn [fst snd] in Hok, Hq'. subst err.
    rewrite bool_decide_false by done. cbn [negb]. rewrite bool_decide_false by done. by exists q.
  - pose proof (receive_message_rel log_msg_c msg _ _ _ _ Hq (log_bytes_size x)) as Hr.
    destruct (receive_message log_msg_c msg (modem_log_q (channels s))) as [r q]. destruct Hr as [-> Hq'].
    rewrite bool_decide_true, log_bytes_read by done. unfold nl_bind.
    destruct (IH k (fs_set MODEM_LONG_STR x) (mkService (set_log_q q (channels s)) (radio s)) Hq' ltac:(lia)) as (q' & E & Hq'').
    rewrite E. by exists q'.
Qed.

End Logs.

Section Events.
Context {Ch : Type} {HCh : MessageChannel Ch} {HL : MessageChannelLaws Ch}.
Context {C : Type} {HC : Controller C} {HR : Residue}.
Notation S := (Service Ch C).
Notation Chs := (RadioLteChannels Ch).
Local Open Scope nl_scope.

(** A wait for the thread's two notifications, one of which is there: it returns
    exactly those that are set and clears them. *)
Lemma wait_events worker (ch : Chs) (r : NetworkLte C) :
  Z.testbit (modem_evt ch) 2 = true ->
  exists matched, wait_for worker ALL_EVENTS 1000 (mkService ch r) =
      Done (matched, mkService (set_evt (Z.ldiff (modem_evt ch) ALL_EVENTS) ch) r) /\
    (matched =? 0)%Z = false /\ is_set matched MODEM_EVT_STATE = true /\
    is_set matched MODEM_EVT_LOG = Z.testbit (modem_evt ch) 3.
Proof.
  intros Hb2. set (matched := Z.land (modem_evt ch) ALL_EVENTS). exists matched.
  assert (forall i, (0 <= i)%Z -> is_set matched (2 ^ i) = Z.testbit (modem_evt ch) i && Z.testbit ALL_EVENTS i) as Hset.
  { intros i Hi. unfold is_set, matched. rewrite land_bit, Z.land_spec by done.
    assert (0 < 2 ^ i)%Z by (apply Z.pow_pos_nonneg; lia).
    destruct (_ && _); [|done]. apply negb_true_iff, Z.eqb_neq. lia. }
  pose proof (Hset 2%Z ltac:(lia)) as H2. pose proof (Hset 3%Z ltac:(lia)) as H3. rewrite Hb2 in H2.
  change (2 ^ 2)%Z with MODEM_EVT_STATE in H2. change (2 ^ 3)%Z with MODEM_EVT_LOG in H3. rewrite andb_true_r in H3.
  assert ((matched =? 0)%Z = false) as Hm by (apply Z.eqb_neq; intros Hz; by rewrite Hz in H2).
  split_and!; [|done|by rewrite H2|done].
  unfold wait_for, nl_bind at 1, on_channels, wait, EventFlags.wait. cbn [channels radio]. fold matched. rewrite Hm. cbn [negb].
  rewrite Hm. cbn [negb orb]. unfold nl_ret. do 4 f_equal. apply Z.bits_inj'. intros j Hj. unfold matched.
  rewrite Z.ldiff_spec, Z.land_spec, Z.lnot_spec, Z.land_spec by done.
  by destruct (Z.testbit (modem_evt ch) j), (Z.testbit ALL_EVENTS j).
Qed.

(** The event thread prints what was published: after the state and any number of
    log lines were published on empty queues, one turn of the thread prints the
    state and then the lines in order, each once and cut at 128 characters; lines
    beyond the 16 the queue holds are lost.  The turn ends, the log queue is empty
    afterwards, exactly the two notifications are cleared, and requests, responses
    and the radio are left alone. *)
Theorem event_thread_prints worker rounds lines st ev (ch : Chs) (r : NetworkLte C) :
  ch_rel MODEM_LOG_Q_DEPTH (modem_log_q ch) [] -> MODEM_LOG_Q_DEPTH < rounds ->
  exists ch', event_thread_turn worker rounds (mkService (publish_logs lines (publish_state st ev ch)) r) =
    Done (Line_state st ev :: map log_line (take MODEM_LOG_Q_DEPTH lines), mkService ch' r) /\
    ch_rel MODEM_LOG_Q_DEPTH (modem_log_q ch') [] /\ modem_evt ch' = Z.ldiff (modem_evt ch) ALL_EVENTS /\
    (modem_tx_q ch', modem_rx_q ch') = (modem_tx_q ch, modem_rx_q ch).
Proof using HL.
  intros Hq Hr. destruct (publish_logs_rel lines (publish_state st ev ch) [] Hq ltac:(cbn; lia)) as (H1 & H2 & H3 & H4 & H5).
  assert (lines = [] \/ Z.testbit (modem_evt (publish_logs lines (publish_state st ev ch))) 3 = true) as Hlog.
  { destruct lines; [by left|]. right. apply H5; [done|cbn; unfold MODEM_LOG_Q_DEPTH; lia]. }
  set (ch1 := publish_logs lines (publish_state st ev ch)) in *. injection H2 as Htx Hrx Hst.
  rewrite app_nil_l, firstn_map in H1.
  destruct (wait_events worker ch1 r) as (matched & Ew & Hm & Hs2 & Hs3).
  { apply H4. change (Z.testbit (Z.lor (modem_evt ch) MODEM_EVT_STATE) 2 = true). rewrite Z.lor_spec. apply orb_true_r. }
  set (ch2 := set_evt _ ch1) in Ew.
  assert (modem_evt ch2 = Z.ldiff (modem_evt ch) ALL_EVENTS) as He.
  { unfold ch2. cbn. rewrite H3. apply Z.bits_inj'. intros j Hj. cbn. rewrite !Z.ldiff_spec.
    unfold EventFlags.set, ALL_EVENTS. rewrite !Z.lor_spec.
    by destruct (Z.testbit (modem_evt ch) j), (Z.testbit MODEM_EVT_STATE j), (Z.testbit MODEM_EVT_LOG j). }
  unfold event_thread_turn. rewrite (bind_done _ _ _ _ _ Ew), Hm, Hs2, Hs3. unfold nl_bind at 1, nl_gets. cbn [channels].
  change (state_msg ch2) with (state_msg ch1). rewrite Hst. cbn [fst snd].
  destruct (Z.testbit (modem_evt ch1) 3).
  - destruct (print_logs_rel (take MODEM_LOG_Q_DEPTH lines) rounds [] (mkService ch2 r) H1) as (q & E & Hq');
      [rewrite length_take; lia|].
    rewrite (bind_done _ _ _ _ _ E). exists (set_log_q q ch2). split_and!; first [done|by cbn; rewrite Htx, Hrx].
  - destruct Hlog as [->|?]; [|done]. exists ch2. split_and!; first [done|by cbn; rewrite Htx, Hrx].
Qed.

End Events.

(** ** What the trace thread prints *)

Section Traces.
Context {Ch : Type} {HCh : MessageChannel Ch} {C : Type} {HC : Controller C} {HR : Residue}.
Notation S := (Service Ch C).
Local Open Scope nl_scope.

(** [k] turns of the thread, one after the other. *)
Fixpoint trace_turns (k : nat) : NL S (list Line) :=
  match k with
  | 0 => nl_ret []
  | Datatypes.S k' => let* l := trace_thread_turn id in let* l' := trace_turns k' in nl_ret (l ++ l')
  end.

(** The trace thread prints the traced entries in order, each once. *)
Lemma trace_turns_print k : forall (s : S) l,
  trace_rel (trace_ (radio s)) l ->
  exists t, trace_turns k s = Done (map trace_line (take k l), mkService (channels s) (set_trace t (radio s))) /\
            trace_rel t (drop k l).
Proof.
  induction k as [|k IH]; intros s l Hl; cbn [trace_turns].
  { exists (trace_ (radio s)). rewrite drop_0. split; [|done]. by destruct s as [ch []]. }
  unfold trace_thread_turn. unfold nl_bind at 1, on_radio. destruct (pop_trace_rel _ _ Hl) as [Hh Ht].
  destruct (pop_trace id (trace_ (radio s))) as [entry t]. cbn [fst snd] in Hh, Ht. subst entry.
  destruct (IH (mkService (channels s) (set_trace t (radio s))) (tail l) Ht) as (t' & E & Ht').
  unfold nl_bind at 1. rewrite E. exists t'. destruct l as [|x l]; cbn [tail head take drop map] in *; [|by split].
  rewrite take_nil, drop_nil in *. by split.
Qed.

End Traces.

(** ** The program *)


(** ** Witnesses *)

Import Scripted Pipe.
#[local] Existing Instance example_residue.

(** A serial line with a modem that is registered and answers every command in a
    second: the clock and the bytes still to be read. *)
Module Answering.

Record World := mkWorld { clock : Z; reply : str }.

Definition answer (cmd : str) : str := CRLF ++ table cmd ++ CRLF ++ lit "OK" ++ CRLF.

#[export] Instance World_Platform : Platform World := {
  uart_open _ _ w := (UartError_ok, w);
  uart_close w := w;
  uart_is_open _ := true;
  uart_write b w := (UartError_ok, mkWorld (clock w) (answer (take (length b - 2) b)));
  uart_read n t w :=
    match take n (reply w) with
    | [] => (UartError_timeout, [], mkWorld (clock w + t) [])
    | b => (UartError_ok, b, mkWorld (clock w + 1000) (drop n (reply w)))
    end;
  lock_for _ w := (true, w);
  unlock w := w;
  now_ms := clock;
  delay_ms ms w := mkWorld (clock w + ms) (reply w) }.

End Answering.
#[local] Existing Instance Answering.World_Platform.

Definition some_steps : list Step :=
  [Step_client (Client_connects Server_rpc 5); Step_client (Client_data (lit "ping")); Step_network_turn;
   Step_client (Client_rpc (lit "GET STATE") one_turn);   Step_event_turn; Step_trace_turn; Step_client (Client_at_command (lit "AT"))].

Definition a_run : Outcome (unit * Desktop PosixChannel.Channel (ModemController Answering.World) Pipe.World) :=
  main_program 1 9 9 9 3 0 [Client_connects Server_data 4] [] [Client_coap (lit "x")] some_steps
    (main_init [lit "modem"; lit "-p"; lit "/dev/ttyUSB0"] (Answering.mkWorld 0 [])
       (os (connected Mode_line [])) (os (connected Mode_framed [])) (os (connected Mode_line [])) (os (connected Mode_line []))).


Lemma event_thread_prints_witness :
  exists ch', event_thread_turn (fun _ => nl_ret tt) 20
      (mkService (publish_logs [lit "attached"; lit "ready"] (publish_state State_data_ready Event_none idle_channels)) silent) =
    Done ([Line_state State_data_ready Event_none; Line_log (lit "attached"); Line_log (lit "ready")], mkService ch' silent) /\
    ch_rel MODEM_LOG_Q_DEPTH (modem_log_q ch') [] /\ modem_evt ch' = 0%Z /\
    (modem_tx_q ch', modem_rx_q ch') = (modem_tx_q idle_channels, modem_rx_q idle_channels).
Proof.
  apply (event_thread_prints (fun _ => nl_ret tt) 20 [lit "attached"; lit "ready"] State_data_ready Event_none idle_channels silent);
    [exact (PosixChannel.create_rel 16)|unfold MODEM_LOG_Q_DEPTH; lia].
Defined.
