(* ===== verification/ZephyrHal.v ===== *)
(** * The platform objects on Zephyr (src/hal/zephyr_timer.cpp,
      src/hal/zephyr_message_queue.cpp as the state machine sees them)

    The timer factory of Zephyr returns the address of one static object, so the
    state timer of [NetworkLte], the timer of its public interface and the command
    timer of [ModemController] are one timer: it lives in the controller, and the
    timer members of the state machine are only addresses ([unit]).  The instances
    below meet the contracts of [Hal] and [NetworkTypes], so every theorem stated
    for any platform holds on Zephyr; the last section shows what the sharing does
    to the state timeouts. *)

From S2P Require Import Prelude CLib FixedString StaticVector Layout AtCommand MessageChannel MessageQueue Timer.
From S2P Require Import ZephyrQueue ModemController ControllerProps Xe310Types Xe310 Survey Trace Hal NetworkTypes Typed.
From S2P Require Import NetworkLte NetworkInv NetworkSafety NetworkApi.
Import ZephyrChannel (KMsgq, KMsgqLaws, k_msgq_num_used_get).
Import ZephyrQueue (ZephyrMessageQueue, mkZQueue, zlane_rel).

#[export] Existing Instance zephyr_command_timer_type.
#[export] Existing Instance zephyr_command_timer.
#[export] Existing Instance zephyr_command_timer_laws.

(** What the uninitialised slot of a push holds. *)
Class SlotResidue := { slot_junk : str; slot_junk_size : length slot_junk = ZephyrQueue.SLOT_SIZE }.

(** The clock of a pop that does not wait is not read. *)
Definition no_clock : KTime unit := {| k_uptime_get _ := 0%Z; k_sleep _ w := w |}.

Section Objects.
Context {Q : Type} {HK : KMsgq Q}.

Definition zephyr_types : HalTypes :=
  {| timer_obj := Zephyr.ZTimer TimerCb; hal_timer := unit; hal_queue := @ZephyrMessageQueue Q |}.

Definition zephyr_timer : HalTimer (T := zephyr_types) := {|
  create_platform_timer := tt : @hal_timer zephyr_types;
  timer_start := Zephyr.start (CB := TimerCb); timer_stop := Zephyr.stop (CB := TimerCb);
  timer_reset := Zephyr.reset (CB := TimerCb); timer_is_running := Zephyr.is_running (CB := TimerCb);
  timer_elapsed_ms := Zephyr.elapsed_ms (CB := TimerCb); timer_run := Zephyr.run (CB := TimerCb) |}.

Lemma zephyr_elapsed_range {CB} now (t : Zephyr.ZTimer CB) : (0 <= Zephyr.elapsed_ms now t < 2 ^ 32)%Z.
Proof. unfold Zephyr.elapsed_ms. case_goal; [lia|apply u32_range]. Qed.

Definition zephyr_timer_laws : @HalTimerLaws zephyr_types zephyr_timer.
Proof.
  refine {| timer_ok := fun _ : @timer_obj zephyr_types => True; member_timer_ok := fun _ => True |}; try done.
  intros now t. apply (zephyr_elapsed_range (CB := TimerCb)).
Defined.

Context {HJ : SlotResidue}.

(** The methods as the state machine calls them, without waiting.  A queue that is
    not consistent would make them undefined; [zephyr_queue_laws] shows that the
    second branches are never taken. *)
Definition zpush (o : Outcome (QueueError * ZephyrMessageQueue)) (z : @ZephyrMessageQueue Q)
  : QueueError * ZephyrMessageQueue := match o with Done r => r | _ => (QueueError_full, z) end.
Definition zpop (o : Outcome (QueueError * option QueueMessage * unit * ZephyrMessageQueue)) (z : @ZephyrMessageQueue Q)
  : QueueError * option QueueMessage * ZephyrMessageQueue :=
  match o with Done (e, m, _, z') => (e, m, z') | _ => (QueueError_empty, None, z) end.

Definition nobody : unit -> ZephyrQueue.ZLane Q -> ZephyrQueue.ZLane Q := fun _ l => l.

Definition zephyr_queue : HalQueue (T := zephyr_types) := {|
  mq_create := ZephyrQueue.create_platform_message_queue DEFAULT_CAPACITY : @hal_queue zephyr_types;
  mq_tx_push z c bytes := zpush (ZephyrQueue.tx_push slot_junk z c bytes) z;
  mq_tx_pop_next z := zpop (ZephyrQueue.tx_pop_next (HW := no_clock) nobody 1 tt z 0) z;
  mq_rx_push z c bytes := zpush (ZephyrQueue.rx_push slot_junk z c bytes) z;
  mq_rx_pop z c := zpop (ZephyrQueue.rx_pop (HW := no_clock) nobody 1 tt z c 0) z;
  mq_tx_pending z := k_msgq_num_used_get (ZephyrQueue.zorder (ZephyrQueue.ztx z)) |}.

(** *** The queue meets its contract *)

Context {HKL : KMsgqLaws Q}.

Definition zephyr_queue_rel (z : @ZephyrMessageQueue Q) (tx rx : list QueueMessage) : Prop :=
  ZephyrQueue.queue_capacity_ z = DEFAULT_CAPACITY /\
  zlane_rel DEFAULT_CAPACITY (ZephyrQueue.ztx z) tx /\ zlane_rel DEFAULT_CAPACITY (ZephyrQueue.zrx z) rx.

Notation CAP := DEFAULT_CAPACITY.

Lemma zspec_push_fits cap L c bytes :
  length bytes <= MAX_MSG_DATA -> ZephyrQueue.zspec_push cap L c bytes = spec_push cap L c bytes.
Proof.
  intros Hl. unfold ZephyrQueue.zspec_push. destruct (ZephyrQueue.MAX_MSG_SIZE <? length bytes) eqn:E; bool_facts.
  - unfold ZephyrQueue.MAX_MSG_SIZE, MAX_MSG_DATA in *. lia.
  - by rewrite andb_false_r.
Qed.

Lemma zephyr_tx_push_rel z tx rx c bytes : zephyr_queue_rel z tx rx ->
  let r := mq_tx_push (HalQueue := zephyr_queue) z c bytes in
  fst r = fst (ZephyrQueue.zspec_push CAP tx c bytes) /\ zephyr_queue_rel (snd r) (snd (ZephyrQueue.zspec_push CAP tx c bytes)) rx.
Proof using HKL.
  intros (Hc & Ht & Hr). cbn. unfold ZephyrQueue.tx_push. rewrite Hc.
  pose proof (ZephyrQueue.zephyr_push_refines slot_junk CAP _ tx c bytes slot_junk_size Ht) as H.
  destruct (ZephyrQueue.zspec_push CAP tx c bytes) as [e L']. destruct H as (l' & -> & Hl'). cbn. by split.
Qed.

Lemma zephyr_rx_push_rel z tx rx c bytes : zephyr_queue_rel z tx rx ->
  let r := mq_rx_push (HalQueue := zephyr_queue) z c bytes in
  fst r = fst (ZephyrQueue.zspec_push CAP rx c bytes) /\ zephyr_queue_rel (snd r) tx (snd (ZephyrQueue.zspec_push CAP rx c bytes)).
Proof using HKL.
  intros (Hc & Ht & Hr). cbn. unfold ZephyrQueue.rx_push. rewrite Hc.
  pose proof (ZephyrQueue.zephyr_push_refines slot_junk CAP _ rx c bytes slot_junk_size Hr) as H.
  destruct (ZephyrQueue.zspec_push CAP rx c bytes) as [e L']. destruct H as (l' & -> & Hl'). cbn. by split.
Qed.

(** One step of a lane, from [ZephyrQueue.zlane_step_refines]. *)
Lemma zephyr_pop_next_lane l L : zlane_rel CAP l L ->
  exists l', ZephyrQueue.pop_next_from (HW := no_clock) nobody 1 tt l 0 =
             Done (fst (fst (spec_pop_next L)), snd (fst (spec_pop_next L)), tt, l') /\ zlane_rel CAP l' (snd (spec_pop_next L)).
Proof using HKL HJ.
  intros Hl. destruct (ZephyrQueue.zlane_step_refines (HW := no_clock) nobody tt slot_junk CAP l L LPopNext) as [H1 H2];
    [apply slot_junk_size|done|]. unfold ZephyrQueue.zspec_step in *. cbn [ZephyrQueue.zlane_step spec_step] in *.
  destruct (spec_pop_next L) as [[e m] L']. destruct (ZephyrQueue.pop_next_from _ _ _ _ _) as [[[[e' m'] []] l']| |];
    cbn [fst snd] in *; [|done|done]. simplify_eq. by exists l'.
Qed.

Lemma zephyr_pop_lane l L c : zlane_rel CAP l L ->
  exists l', ZephyrQueue.pop_from (HW := no_clock) nobody 1 tt l c 0 =
             Done (fst (fst (spec_pop L c)), snd (fst (spec_pop L c)), tt, l') /\ zlane_rel CAP l' (snd (spec_pop L c)).
Proof using HKL HJ.
  intros Hl. destruct (ZephyrQueue.zlane_step_refines (HW := no_clock) nobody tt slot_junk CAP l L (LPop c)) as [H1 H2];
    [apply slot_junk_size|done|]. unfold ZephyrQueue.zspec_step in *. cbn [ZephyrQueue.zlane_step spec_step] in *.
  destruct (spec_pop L c) as [[e m] L']. destruct (ZephyrQueue.pop_from _ _ _ _ _ _) as [[[[e' m'] []] l']| |];
    cbn [fst snd] in *; [|done|done]. simplify_eq. by exists l'.
Qed.

Lemma zephyr_tx_pop_next_rel z tx rx : zephyr_queue_rel z tx rx ->
  let r := mq_tx_pop_next (HalQueue := zephyr_queue) z in
  fst r = fst (spec_pop_next tx) /\ zephyr_queue_rel (snd r) (snd (spec_pop_next tx)) rx.
Proof using HKL.
  intros (Hc & Ht & Hr). cbn. unfold ZephyrQueue.tx_pop_next.
  destruct (zephyr_pop_next_lane _ _ Ht) as (l' & -> & Hl'). cbn. split; [by destruct (spec_pop_next tx) as [[]]|by split].
Qed.

Lemma zephyr_rx_pop_rel z tx rx c : zephyr_queue_rel z tx rx ->
  let r := mq_rx_pop (HalQueue := zephyr_queue) z c in
  fst r = fst (spec_pop rx c) /\ zephyr_queue_rel (snd r) tx (snd (spec_pop rx c)).
Proof using HKL.
  intros (Hc & Ht & Hr). cbn. unfold ZephyrQueue.rx_pop.
  destruct (zephyr_pop_lane _ _ c Hr) as (l' & -> & Hl'). cbn. split; [by destruct (spec_pop rx c) as [[]]|by split].
Qed.

Definition zephyr_queue_laws : @HalQueueLaws zephyr_types zephyr_queue.
Proof using HKL.
  refine {| mq_capacity := CAP; mq_rel := zephyr_queue_rel : @hal_queue zephyr_types -> _ -> _ -> Prop |}.
  - pose proof (ZephyrQueue.create_lane_rel CAP (le_n _)) as H. by split.
  - intros q tx rx c bytes Hq Hl. rewrite <- !(zspec_push_fits CAP) by done. by apply zephyr_tx_push_rel.
  - intros q tx rx c bytes Hq. eexists. by apply (zephyr_tx_push_rel q tx rx c bytes).
  - apply zephyr_tx_pop_next_rel.
  - intros q tx rx c bytes Hq Hl. rewrite <- !(zspec_push_fits CAP) by done. by apply zephyr_rx_push_rel.
  - intros q tx rx c bytes Hq. eexists. by apply (zephyr_rx_push_rel q tx rx c bytes).
  - apply zephyr_rx_pop_rel.
  - intros q tx rx (_ & (_ & Ho & _) & _). cbn. by rewrite (ZephyrQueue.order_used _ _ _ Ho), length_fmap.
Defined.

End Objects.

#[export] Existing Instances zephyr_types zephyr_timer zephyr_timer_laws zephyr_queue zephyr_queue_laws.

(** ** The one timer *)

Section Access.
Context {Q : Type} {HK : KMsgq Q} {E : Type} {HE : Platform E}.
Notation C := (@ModemController zephyr_command_timer_type E).
Notation L := (@NetworkLte (zephyr_types (Q := Q)) C).
Implicit Type s : L.

(** The static object, through the controller's member that points to it. *)
Definition the_timer (s : L) : Zephyr.ZTimer TimerCb := cmd_timer_ (XE310.controller_ (modem_ s)).
Definition put_the_timer (t : Zephyr.ZTimer TimerCb) (s : L) : L :=
  set_modem (XE310.set_ctl (set_cmd_timer (t : @command_timer zephyr_command_timer_type) (XE310.controller_ (modem_ s)))
               (modem_ s)) s.

#[export] Instance zephyr_access : TimerAccess (T := zephyr_types (Q := Q)) C := {|
  st_timer_obj := the_timer : L -> @timer_obj (zephyr_types (Q := Q));
  put_st_timer := put_the_timer;
  user_timer_obj s := match timer_ s with Some _ => Some (the_timer s) | None => None end;
  put_user_timer := put_the_timer |}.

#[export] Instance zephyr_access_laws : TimerAccessLaws (T := zephyr_types (Q := Q)) C.
Proof.
  split; try done.
  - intros t s. exists (modem_ (put_the_timer t s)), (st_timer s). by destruct s.
  - intros s _. cbn. by destruct (timer_ s).
  - intros t s. exists (modem_ (put_the_timer t s)), (timer_ s). split; [by destruct s|]. intros _. by destruct (timer_ s).
Qed.

End Access.

(** ** What a command does to the timer *)

Section Sharing.
Context {Q : Type} {HK : KMsgq Q} {HJ : SlotResidue} {E : Type} {HE : Platform E}.
Notation C := (@ModemController zephyr_command_timer_type E).
Notation L := (@NetworkLte (zephyr_types (Q := Q)) C).
Implicit Types (m : C) (s : L).

(** The modem was written to. *)
Definition reached_modem (st : ModemStatus) : bool :=
  match st with ModemStatus_ok | ModemStatus_at_error | ModemStatus_timeout => true | _ => false end.

Lemma read_loop_timer fuel total_ms acc r m :
  cmd_timer_ (snd (read_loop fuel total_ms acc r m)) = cmd_timer_ m.
Proof.
  revert acc r m. induction fuel as [|fuel IH]; intros acc r m; [done|]. cbn [read_loop].
  case_goal; [done|]. destruct (uart_read _ _ _) as [[err bytes] e].
  destruct err; try done. destruct bytes; [by rewrite IH|].
  destruct (status _); try done. by rewrite IH.
Qed.

(** The callback of a timer that is stopped and started without one. *)
Lemma restarted_cb now ms (t : Zephyr.ZTimer TimerCb) :
  Zephyr.cb_ (snd (Zephyr.start now ms None (snd (Zephyr.stop t)))) = None.
Proof.
  unfold Zephyr.stop, Zephyr.start. destruct (Zephyr.running_ t) eqn:Er; cbn [negb snd Zephyr.running_]; [done|].
  by rewrite Er.
Qed.

Lemma send_command_disarms cmd r m :
  reached_modem (fst (fst (send_command cmd r m))) = true ->
  Zephyr.cb_ (cmd_timer_ (snd (send_command cmd r m)) : Zephyr.ZTimer TimerCb) = None.
Proof.
  unfold send_command, with_lock. destruct (lock_for 5000 (env m)) as [[] e1]; [|done].
  destruct (negb (is_open _)); [done|]. destruct (uart_write _ _) as [err e2]. case_decide; [|done].
  cbv zeta. set (m2 := set_cmd_timer _ _). pose proof (read_loop_timer (S (Z.to_nat (timeout_ms cmd))) (timeout_ms cmd) [] r m2) as Ht.
  destruct (read_loop _ _ _ _ m2) as [a m3]. cbn [snd] in Ht. intros _.
  change (cmd_timer_ (snd (a, set_env (unlock (env m3)) m3))) with (cmd_timer_ m3). rewrite Ht. apply restarted_cb.
Qed.

Lemma send_raw_disarms cmd r t retry m :
  reached_modem (fst (fst (send_raw cmd r t retry m))) = true ->
  Zephyr.cb_ (cmd_timer_ (snd (send_raw cmd r t retry m)) : Zephyr.ZTimer TimerCb) = None.
Proof.
  unfold send_raw. set (r0 := send_command _ r m).
  assert (reached_modem (fst (fst r0)) = true -> Zephyr.cb_ (cmd_timer_ (snd r0) : Zephyr.ZTimer TimerCb) = None) as H0
    by apply send_command_disarms.
  destruct (_ && _); [|exact H0]. generalize (MAX_AT_RETRIES - 1). intros n. clearbody r0. revert r0 H0.
  induction n as [|n IH]; intros r0 H0; [exact H0|]. cbn [retry_loop]. destruct r0 as [[st resp] m0].
  destruct (status_eqb st ModemStatus_timeout); [|exact H0]. apply IH, send_command_disarms.
Qed.

(** No callback: the timers get to run and nothing happens. *)
Lemma tick_without_cb s : Zephyr.cb_ (the_timer s) = None -> event_ (tick s) = event_ s /\ Zephyr.cb_ (the_timer (tick s)) = None.
Proof.
  assert (forall now t, Zephyr.cb_ t = None ->
    fst (Zephyr.run (CB := TimerCb) now t) = None /\ Zephyr.cb_ (snd (Zephyr.run now t)) = None) as Hrun.
  { intros now t Ht. unfold Zephyr.run. destruct (Zephyr.k_timer t); [|done]. by case_goal. }
  intros Hs. unfold tick. cbn [timer_run zephyr_timer st_timer_obj put_st_timer user_timer_obj put_user_timer zephyr_access].
  destruct (Hrun (now s) (the_timer s) Hs) as [H1 H2].
  destruct (Zephyr.run (now s) (the_timer s)) as [cb t]. cbn [fst snd] in H1, H2. subst cb. cbn [run_cb].
  set (s1 := put_the_timer t s). cbv zeta. destruct (timer_ s1); [|done].
  destruct (Hrun (now s1) (the_timer s1) H2) as [H3 H4].
  destruct (Zephyr.run (now s1) (the_timer s1)) as [cb' t']. cbn [fst snd] in H3, H4. by subst cb'.
Qed.

(** C23. On Zephyr every AT command cancels the state timeout.  The command timer of
    the controller and the state timer of the state machine are the same object, so
    once a command has been written to the modem, whatever state timeout was armed
    before, the command posts no event and the timer has no callback: however long
    the machine stays in the state, no [timeout] event will come from it, until the
    next state is entered.  (On the other platforms a command leaves the state timer
    alone.) *)
Theorem zephyr_command_cancels_timeout cmd t s st s' :
  modem (XE310.send_cmd cmd t) s = (st, s') -> reached_modem st = true ->
  event_ s' = event_ s /\ forall later, fst (timer_run later (st_timer_obj s')) = None.
Proof.
  unfold modem, XE310.send_cmd, XE310.ask, XE310.send_raw, st_bind, st_ret. cbn [ctl_send_raw ModemController_Controller].
  pose proof (send_raw_disarms cmd AtResponse_default t true (XE310.controller_ (modem_ s))) as Hd.
  destruct (send_raw cmd AtResponse_default t true (XE310.controller_ (modem_ s))) as [[st0 r] c]. cbn [fst snd] in Hd.
  intros [= <- <-] Hw. set (s1 := set_modem _ s).
  destruct (tick_without_cb s1 (Hd Hw)) as [H1 H2]. split; [by rewrite H1|]. intros later.
  cbn [timer_run zephyr_timer st_timer_obj zephyr_access]. unfold Zephyr.run.
  destruct (Zephyr.k_timer _); [|done]. case_goal; [|done]. exact H2.
Qed.

(** While the object runs, as it does after a command, entering a state cannot arm
    it. *)
Lemma zephyr_start_refused ms cb s : Zephyr.running_ (the_timer s) = true -> the_timer (start_st_timer ms cb s) = the_timer s.
Proof.
  intros Hr. change (snd (Zephyr.start (now s) ms (Some cb) (the_timer s)) = the_timer s).
  unfold Zephyr.start. by rewrite Hr.
Qed.

End Sharing.

(** ** Witness *)

Import Scripted.

#[local] Instance zero_slot : SlotResidue := {| slot_junk := ZephyrQueue.zeros; slot_junk_size := eq_refl |}.

(** A state machine on Zephyr whose modem sends the given chunks. *)
Definition zephyr_lte (chunks : list str) : @NetworkLte (zephyr_types (Q := ListMsgq.Q)) (@ModemController zephyr_command_timer_type World) :=
  NetworkLte_init (XE310.xE310_init (controller_init (mkWorld true chunks 0 []) true)) NetworkLteConfig_default true None.

(** It has entered [network_attaching], whose timeout is two minutes. *)
Definition zephyr_attaching : @NetworkLte (zephyr_types (Q := ListMsgq.Q)) (@ModemController zephyr_command_timer_type World) :=
  start_st_timer 120000 cb_on_timer_expired (set_state State_network_attaching (zephyr_lte [CRLF ++ lit "OK" ++ CRLF])).

Lemma zephyr_command_cancels_timeout_witness :
  fst (timer_run 120000 (st_timer_obj zephyr_attaching)) = Some cb_on_timer_expired /\
  forall later, fst (timer_run later (st_timer_obj (snd (modem (XE310.send_cmd (lit "AT+CFUN=1") 5000) zephyr_attaching)))) = None.
Proof.
  split; [reflexivity|].
  apply (zephyr_command_cancels_timeout (lit "AT+CFUN=1") 5000 zephyr_attaching ModemStatus_ok);
    vm_compute; reflexivity.
Defined.
