(* ===== verification/ZephyrApp.v ===== *)
(** * The Zephyr application (examples/embedded/zephyr/zephyr_main.cpp)

    [main] opens the UART, checks the modem, starts the event thread, connects and
    then turns for ever: the network's main loop, the radio requests of other
    threads, the published state, the received datagrams.  The threads share the
    channels only.  A run is a sequence of steps: turns of [main], requests of other
    threads, and turns of the event thread with what happens during its wait. *)

From S2P Require Import Prelude CLib FixedString StaticVector Layout AtCommand MessageChannel ZephyrEvents MessageQueue Timer.
From S2P Require Import ZephyrQueue ModemController ControllerProps Xe310Types Xe310 Survey Trace Hal NetworkTypes Typed.
From S2P Require Import NetworkLte NetworkInv NetworkSafety NetworkApi RadioMessages RadioLte RadioLteProps.
From S2P Require Import RpcServer RpcServerProps RpcSafety Desktop DesktopProps ZephyrHal.
Import ZephyrChannel (KMsgq, KMsgqLaws).

(** What the program logs. *)
Inductive LogLine :=
| Log_not_responsive | Log_initialized | Log_connect_failed | Log_connected
| Log_state (state : NetworkLteState) (event : NetworkLteEvent)
| Log_text (text : str)
| Log_rx (conn_id : Z) (bytes : str).

Section Program.
Context {Q : Type} {HK : KMsgq Q} {HJ : SlotResidue} {E : Type} {HE : Platform E} {HR : Residue}.
Context {Ch : Type} {HCh : MessageChannel Ch}.

Notation C := (@ModemController zephyr_command_timer_type E).
Notation L := (@NetworkLte (zephyr_types (Q := Q)) C).
Notation S := (@Service (zephyr_types (Q := Q)) Ch C).

(** The network and the channels, and the log.  The data callback only logs; its calls
    are the [received_] member of the network. *)
Record ZephyrMain := mkMain { service : S; logged : list LogLine }.

(** Bounds of the loops of the state machine and of the messages taken in a turn;
    the address of the server array. *)
Variable n fuel rounds : nat.
Variable server_info_ptr : Z.

Local Open Scope nl_scope.

Definition log_line (l : LogLine) : NL ZephyrMain unit :=
  nl_modify (fun p => mkMain (service p) (logged p ++ [l])).

Definition on_serv {A} (m : NL S A) : NL ZephyrMain A := fun p =>
  match m (service p) with
  | Done (a, s) => Done (a, mkMain s (logged p))
  | Undef => Undef
  | NoFuel => NoFuel
  end.

(** [lteConfig.conn_id] of the local configuration. *)
Definition main_conn_id : Z := cfg_conn_id NetworkLteConfig_default.

(** [while (network.rx_read(lteConfig.conn_id, rx_msg) == QueueError::ok)]. *)
Fixpoint log_received (k : nat) : NL ZephyrMain unit :=
  match k with
  | 0 => nl_nofuel
  | Datatypes.S k' =>
      let* (err, msg) := on_serv (on_radio (lift (rx_read main_conn_id))) in
      match err, msg with
      | QueueError_ok, Some m => log_line (Log_rx main_conn_id (data m)) ;;; log_received k'
      | _, _ => nl_ret tt
      end
  end.

(** [channels.publish_state(network.state(), network.event())]. *)
Definition publish_current_state : NL S unit :=
  nl_modify (fun s => mkService (publish_state (state_ (radio s)) (event_ (radio s)) (channels s)) (radio s)).

(** One turn of [main]'s loop. *)
Definition main_turn : NL ZephyrMain unit :=
  on_serv (on_radio (loop fuel State_none)) ;;;
  on_serv (process_radio_requests server_info_ptr n fuel rounds) ;;;
  on_serv publish_current_state ;;;
  log_received rounds.

(** What happens while the event thread does not run. *)
Inductive MainStep :=
| Main_turn
| Main_request (bytes : str).

(** Another thread puts a message into the request queue. *)
Definition queue_request (bytes : str) : ST (RadioLteChannels Ch) MessageChannelError := fun ch =>
  let '(err, q) := ch_send bytes (modem_tx_q ch) in (err, notify err MODEM_EVT_REQUEST (set_tx_q q ch)).

Definition main_step (m : MainStep) : NL ZephyrMain unit :=
  match m with
  | Main_turn => main_turn
  | Main_request bytes => on_serv (on_channels (queue_request bytes)) ;;; nl_ret tt
  end.

(** [channels->wait(events, true, 1000)] on Zephyr, with what happens [during] it:
    the kernel forgets the tracked events first and afterwards returns those that
    were posted meanwhile, without removing them ([ZephyrEvents.wait]). *)
Definition zephyr_wait (events : Z) (during : list MainStep) : NL ZephyrMain Z :=
  on_serv (on_channels (fun ch => (tt, set_evt 0 ch))) ;;;
  nl_for main_step during ;;;
  nl_gets (fun p => Z.land (modem_evt (channels (service p))) events).

(** The log lines of the printing loop of [Desktop]. *)
Definition of_line (l : Line) : LogLine :=
  match l with
  | Line_state st ev => Log_state st ev
  | Line_log text => Log_text text
  | _ => Log_text []
  end.

(** One turn of [event_thread_entry]. *)
Definition event_thread_entry (during : list MainStep) : NL ZephyrMain unit :=
  let* matched := zephyr_wait ALL_EVENTS during in
  if (matched =? 0)%Z then nl_ret tt
  else
    (if is_set matched MODEM_EVT_STATE
     then let* st := nl_gets (fun p => state_msg (channels (service p))) in log_line (Log_state (fst st) (snd st))
     else nl_ret tt) ;;;
    (if is_set matched MODEM_EVT_LOG
     then let* printed := on_serv (print_logs rounds []) in nl_for (fun l => log_line (of_line l)) printed
     else nl_ret tt).

Inductive Step := Step_main (m : MainStep) | Step_event (during : list MainStep).

Definition step (s : Step) : NL ZephyrMain unit :=
  match s with
  | Step_main m => main_step m
  | Step_event during => event_thread_entry during
  end.

(** ** [main] *)

(** The program returned with a code, the controller it left and its log, or is
    running. *)
Inductive Result := Exited (code : Z) (controller : C) (log : list LogLine) | Running (p : ZephyrMain).

(** The objects [main] makes, once the modem answers. *)
Definition network_init (modem : XE310.xE310 C) : ZephyrMain :=
  mkMain (mkService RadioLteChannels_init (NetworkLte_init modem NetworkLteConfig_default true None)) [Log_initialized].

(** [connecting]: the requests other threads queue until the network has been
    connected; nothing is published in that time, so the event thread only waits.
    [steps]: the run after that. *)
Definition main (p : E) (connecting : list str) (steps : list Step) : Outcome Result :=
  let modem_controller := snd (connect (lit "UART_1") UartConfig_default (controller_init p true)) in
  let '(status, modem) := XE310.at_ok (XE310.xE310_init modem_controller) in
  if negb (status_eqb status ModemStatus_ok)
  then Done (Exited 1 (snd (disconnect (XE310.controller_ modem))) [Log_not_responsive])
  else
    match (nl_for (fun b => main_step (Main_request b)) connecting ;;; on_serv (on_radio (network_connect n fuel)))
            (network_init modem) with
    | Done (fNetRes, p1) =>
        if negb fNetRes
        then Done (Exited 1 (snd (disconnect (XE310.controller_ (modem_ (radio (service p1))))))
                     (logged p1 ++ [Log_connect_failed]))
        else match (log_line Log_connected ;;; nl_for step steps) p1 with
             | Done (_, p2) => Done (Running p2)
             | Undef => Undef
             | NoFuel => NoFuel
             end
    | Undef => Undef
    | NoFuel => NoFuel
    end.

End Program.
Arguments mkMain {Q E Ch} _ _.
Arguments Result : clear implicits.

(** ** Safety *)

Section Safety.
Context {Q : Type} {HK : KMsgq Q} {HKL : KMsgqLaws Q} {HJ : SlotResidue} {E : Type} {HE : Platform E} {HR : Residue}.
Context {Ch : Type} {HCh : MessageChannel Ch} {HL : MessageChannelLaws Ch}.
Variable n fuel rounds : nat.
Variable server_info_ptr : Z.
Hypothesis enough_rounds : MODEM_TX_Q_DEPTH < rounds.
Local Open Scope nl_scope.

Notation C := (@ModemController zephyr_command_timer_type E).
Notation L := (@NetworkLte (zephyr_types (Q := Q)) C).
Notation S := (@Service (zephyr_types (Q := Q)) Ch C).
Notation P := (ZephyrMain (Q := Q) (E := E) (Ch := Ch)).

Definition main_ok (p : P) : Prop := service_ok (service p).

Definition main_step_ok (m : MainStep) : Prop :=
  match m with Main_turn => True | Main_request bytes => request_ok bytes = true end.
Definition step_ok (s : Step) : Prop :=
  match s with Step_main m => main_step_ok m | Step_event during => Forall main_step_ok during end.

Lemma keeps_on_serv {A} (m : NL S A) : keeps service_ok m -> keeps main_ok (on_serv m).
Proof. intros Hm p Hp. unfold on_serv. specialize (Hm _ Hp). by destruct (m (service p)) as [[a s]| |]. Qed.

(** Until the loop starts nothing is logged. *)
Lemma keeps_quiet {A} (m : NL S A) l :
  keeps service_ok m -> keeps (fun p => main_ok p /\ logged p = l) (on_serv m).
Proof. intros Hm p [Hp Hl]. unfold on_serv. specialize (Hm _ Hp). by destruct (m (service p)) as [[a s]| |]. Qed.

Lemma keeps_log l : keeps main_ok (log_line l).
Proof. by apply keeps_modify. Qed.

Lemma keeps_radio_call {A} (m : NL L A) c :
  run_call n fuel c = (m ;;; nl_ret tt) -> call_ok c = true -> keeps main_ok (on_serv (on_radio m)).
Proof using HKL. intros Hc Hok. by apply keeps_on_serv, keeps_radio, (keeps_of_call n fuel m c). Qed.

Lemma keeps_log_received k : keeps main_ok (log_received k).
Proof using HKL n fuel HR HE.
  induction k as [|k IH]; [apply keeps_nofuel|]. cbn [log_received].
  apply keeps_bind; [by apply (keeps_radio_call _ (Call_rx_read main_conn_id))|]. intros [err msg].
  destruct err; try apply keeps_ret. destruct msg; [|apply keeps_ret].
  apply keeps_bind; [apply keeps_log|intros _; exact IH].
Qed.

Lemma keeps_publish_state : keeps (service_ok : S -> Prop) publish_current_state.
Proof.
  apply keeps_modify. intros s (rest & tx & d & Hl & Hok & (Htx & Hrx & He & Hr) & Hwf).
  exists (modem_log_q (channels s), (state_ (radio s), event_ (radio s))), tx,
    (fst d, EventFlags.set (modem_evt (channels s)) MODEM_EVT_STATE). by split_and!.
Qed.

Lemma keeps_main_turn : keeps main_ok (main_turn n fuel rounds server_info_ptr).
Proof using HL HKL enough_rounds.
  unfold main_turn. apply keeps_bind; [by apply (keeps_radio_call _ (Call_loop State_none))|intros _].
  apply keeps_bind; [apply keeps_on_serv, keeps_service; intros rest; by apply keeps_requests|intros _].
  apply keeps_bind; [apply keeps_on_serv, keeps_publish_state|intros _]. apply keeps_log_received.
Qed.

Lemma keeps_queue_request bytes : request_ok bytes = true -> keeps (service_ok : S -> Prop) (on_channels (queue_request bytes)).
Proof using HL.
  intros Hx. apply keeps_service. intros rest. exact (keeps_send_request rest (mkCodec 0 0 id id) bytes Hx).
Qed.

Lemma keeps_main_step m : main_step_ok m -> keeps main_ok (main_step n fuel rounds server_info_ptr m).
Proof using HL HKL enough_rounds.
  intros Hm. destruct m as [|bytes]; cbn [main_step]; [apply keeps_main_turn|].
  apply keeps_bind; [by apply keeps_on_serv, keeps_queue_request|intros; apply keeps_ret].
Qed.

Lemma keeps_event_thread during :
  Forall main_step_ok during -> keeps main_ok (event_thread_entry n fuel rounds server_info_ptr during).
Proof using HL HKL enough_rounds.
  intros Hd. unfold event_thread_entry, zephyr_wait. apply keeps_bind.
  { apply keeps_bind; [|intros _; apply keeps_bind; [|intros _; apply keeps_gets]].
    - apply keeps_on_serv, keeps_service. intros rest. apply keeps_channels.
      intros tx d ch Hl Hok (Htx & Hrx & He & Hr). by exists tx, (fst d, 0%Z).
    - eapply keeps_for_ok; [|exact Hd]. apply keeps_main_step. }
  intros matched. case_goal; [apply keeps_ret|]. apply keeps_bind.
  - case_goal; [|apply keeps_ret]. apply keeps_bind; [apply keeps_gets|intros; apply keeps_log].
  - intros _. case_goal; [|apply keeps_ret]. apply keeps_bind; [apply keeps_on_serv, keeps_print_logs|intros lines].
    eapply (keeps_for_ok _ (fun _ => True)); [intros; apply keeps_log|]. by apply Forall_forall.
Qed.

Lemma keeps_app_step s : step_ok s -> keeps main_ok (step n fuel rounds server_info_ptr s).
Proof using HL HKL enough_rounds. destruct s; [apply keeps_main_step|apply keeps_event_thread]. Qed.

Lemma network_init_ok modem : main_ok (network_init modem).
Proof using HL HKL rounds enough_rounds.
  exists (modem_log_q (RadioLteChannels_init (Ch := Ch)), (State_none, Event_none)), [], ([], 0%Z). split; [simpl; lia|]. split; [done|].
  split; [|by apply wf_init]. split; [exact (law_create MODEM_TX_Q_DEPTH)|]. by split; [exact (law_create MODEM_RX_Q_DEPTH)|].
Qed.

Lemma keeps_connecting connecting l :
  forallb request_ok connecting = true ->
  keeps (fun p => main_ok p /\ logged p = l)
    (nl_for (fun b => main_step n fuel rounds server_info_ptr (Main_request b)) connecting ;;;
     on_serv (on_radio (network_connect n fuel))).
Proof using HL HKL.
  intros Hc. apply keeps_bind.
  - eapply (keeps_for_ok _ (fun b => request_ok b = true)); [|apply List.Forall_forall; by rewrite forallb_forall in Hc].
    intros b Hb. cbn [main_step]. apply keeps_bind; [by apply keeps_quiet, keeps_queue_request|intros; apply keeps_ret].
  - intros _. by apply keeps_quiet, keeps_radio, (keeps_of_call n fuel _ Call_network_connect).
Qed.


End Safety.
