(* ===== verification/ZephyrAppProps.v ===== *)
(** * What the Zephyr application does with datagrams and notifications *)

From S2P Require Import Prelude CLib FixedString StaticVector Layout AtCommand MessageChannel ZephyrEvents MessageQueue Timer.
From S2P Require Import ZephyrQueue ModemController ControllerProps Xe310Types Xe310 Survey Trace Hal NetworkTypes Typed.
From S2P Require Import NetworkLte NetworkInv NetworkSafety NetworkApi RadioMessages RadioLte RadioLteProps.
From S2P Require Import RpcServer RpcServerProps RpcSafety AppIpcProps Desktop DesktopProps ZephyrHal ZephyrApp.
Import ZephyrChannel (KMsgq, KMsgqLaws).

Section Behaviour.
Context {Q : Type} {HK : KMsgq Q} {HKL : KMsgqLaws Q} {HJ : SlotResidue} {E : Type} {HE : Platform E} {HR : Residue}.
Context {Ch : Type} {HCh : MessageChannel Ch} {HL : MessageChannelLaws Ch}.
Variable n fuel rounds : nat.
Variable server_info_ptr : Z.
Local Open Scope nl_scope.

Notation C := (@ModemController zephyr_command_timer_type E).
Notation L := (@NetworkLte (zephyr_types (Q := Q)) C).
Notation S := (@Service (zephyr_types (Q := Q)) Ch C).
Notation P := (ZephyrMain (Q := Q) (E := E) (Ch := Ch)).

(** ** Datagrams *)

Lemma rx_read_spec c (r : L) q tx rx :
  message_queue_ r = Some q -> mq_rel q tx rx ->
  exists q', rx_read c r = (fst (spec_pop rx c), set_message_queue (Some q') r) /\ mq_rel q' tx (snd (spec_pop rx c)).
Proof.
  intros Hq Hr. unfold rx_read. rewrite Hq. destruct (law_rx_pop q tx rx c Hr) as [H1 H2].
  destruct (mq_rx_pop q c) as [[e m] q']. cbn [fst snd] in H1, H2. rewrite <- H1. by exists q'.
Qed.

(** Received datagrams are logged: one run of the receive loop takes every
    datagram queued for connection 1, the one of the program's own configuration,
    and logs it, in order and each once; datagrams of other connections, the
    datagrams to send and the rest of the network are left as they are.  One more
    round than there are queued datagrams is enough. *)
Theorem zephyr_received_logged k : forall (p : P) q tx rx,
  message_queue_ (radio (service p)) = Some q -> mq_rel q tx rx -> length rx < k ->
  exists q', log_received k p =
      Done (tt, mkMain (mkService (channels (service p)) (set_message_queue (Some q') (radio (service p))))
                  (logged p ++ map (fun m => Log_rx 1 (data m)) (filter (fun m => cid m = 1%Z) rx))) /\
    mq_rel q' tx (filter (fun m => cid m <> 1%Z) rx).
Proof.
  induction k as [|k IH]; intros p q tx rx Hq Hr Hk; [lia|]. cbn [log_received].
  destruct (rx_read_spec main_conn_id _ q tx rx Hq Hr) as (q1 & E1 & Hr1).
  unfold nl_bind at 1, on_serv at 1, on_radio at 1, lift. rewrite E1. unfold spec_pop in *.
  change (valid_id main_conn_id) with true in *. cbn [negb] in *. change main_conn_id with 1%Z in *.
  destruct (take_first 1 rx) as [[m rest]|] eqn:Et; cbn [fst snd] in *.
  - destruct (take_first_filter _ _ _ _ Et) as (H1 & _ & _ & Hlen & _ & _).
    unfold nl_bind at 1, log_line at 1, nl_modify. cbn [service logged channels radio].
    edestruct (IH (mkMain (mkService (channels (service p)) (set_message_queue (Some q1) (radio (service p))))
                    (logged p ++ [Log_rx 1 (data m)])) q1 tx rest eq_refl Hr1 ltac:(lia)) as (q' & E2 & Hr').
    exists q'. rewrite (take_first_others _ _ _ _ Et), H1. split; [|exact Hr'].
    rewrite E2. cbn [service logged channels radio map]. by rewrite <- app_assoc.
  - apply take_first_None in Et. exists q1. rewrite (filter_others _ _ Et), Et, app_nil_r. done.
Qed.

(** ** Notifications *)

(** The tracked events are forgotten. *)
Definition cleared (p : P) : P := mkMain (mkService (set_evt 0 (channels (service p))) (radio (service p))) (logged p).

(** The receive loop leaves the channels, the state and the event alone. *)
Lemma log_received_frame k : forall (p p' : P), log_received k p = Done (tt, p') ->
  channels (service p') = channels (service p) /\ state_ (radio (service p')) = state_ (radio (service p)) /\
  event_ (radio (service p')) = event_ (radio (service p)).
Proof.
  induction k as [|k IH]; intros p p'; [done|]. cbn [log_received]. unfold nl_bind at 1, on_serv, on_radio, lift.
  assert (exists em q, rx_read main_conn_id (radio (service p)) = (em, set_message_queue q (radio (service p)))) as (em & q & ->).
  { unfold rx_read. destruct (message_queue_ (radio (service p))) as [q|] eqn:Eq.
    - destruct (mq_rx_pop q main_conn_id) as [[e m] q']. by eexists _, _.
    - eexists _, None. rewrite <- Eq. by destruct (radio (service p)). }
  destruct em as [err msg]. destruct err; try (by intros [= <-]). destruct msg; [|by intros [= <-]].
  unfold nl_bind at 1, log_line at 1, nl_modify. intros H. apply IH in H. exact H.
Qed.

(** After a turn of [main] the published state is the machine's, its notification is
    posted, and the log queue is as it was. *)
Lemma main_turn_published (p p' : P) :
  MODEM_TX_Q_DEPTH < rounds -> main_ok p -> main_turn n fuel rounds server_info_ptr p = Done (tt, p') ->
  let ch := channels (service p') in
  state_msg ch = (state_ (radio (service p')), event_ (radio (service p'))) /\ Z.testbit (modem_evt ch) 2 = true /\
  modem_log_q ch = modem_log_q (channels (service p)).
Proof using HL HKL.
  intros Hr (rest & Hp) H. unfold main_turn in H.
  assert (modem_log_q (channels (service p)) = fst rest) as Hlog.
  { destruct Hp as (tx & d & _ & _ & (_ & _ & _ & <-) & _). done. }
  unfold nl_bind at 1 in H. unfold on_serv at 1 in H.
  pose proof (keeps_on_radio rest _ (keeps_of_call n fuel (loop fuel State_none) (Call_loop State_none) eq_refl eq_refl)
    (service p) Hp) as H1.
  destruct (on_radio (loop fuel State_none) (service p)) as [[u1 s1]| |]; [|done|done].
  unfold nl_bind at 1 in H. unfold on_serv at 1 in H. cbn [service logged] in H.
  pose proof (keeps_requests rest server_info_ptr n fuel rounds Hr s1 H1) as H2.
  destruct (process_radio_requests server_info_ptr n fuel rounds s1) as [[u2 s2]| |]; [|done|done].
  unfold nl_bind at 1 in H. unfold on_serv at 1, publish_current_state, nl_modify in H. cbn [service logged] in H.
  destruct (log_received_frame _ _ _ H) as (-> & -> & ->). cbn [service channels radio].
  split; [done|]. split.
  - change (Z.testbit (Z.lor (modem_evt (channels s2)) MODEM_EVT_STATE) 2 = true). rewrite Z.lor_spec. apply orb_true_r.
  - destruct H2 as (tx & d & _ & _ & (_ & _ & _ & Hrest) & _). cbn [publish_state modem_log_q]. rewrite Hlog, <- Hrest. done.
Qed.

(** The wait of the model is the class's wait on a kernel's event object, with what
    was posted meanwhile. *)
Lemma zephyr_wait_is_kernel_wait events during (p p' : P) matched :
  zephyr_wait n fuel rounds server_info_ptr events during p = Done (matched, p') ->
  ZephyrEvents.wait (HK := ZephyrEvents.WordEvents.word_events) (fun _ => Some (modem_evt (channels (service p')))) events true 1000
    (modem_evt (channels (service p))) = (matched, modem_evt (channels (service p'))).
Proof.
  unfold zephyr_wait, nl_bind, on_serv, nl_gets. destruct (on_channels _ _) as [[u s0]| |]; [|done|done].
  destruct (nl_for _ _ _) as [[u1 p1]| |]; [|done|done]. intros [= <- <-].
  unfold ZephyrEvents.wait. cbn [ZephyrEvents.k_event_wait ZephyrEvents.WordEvents.word_events default].
  by rewrite Z.land_0_l.
Qed.

(** The event thread of the Zephyr application logs the states that are published
    while it waits, and only those: a wait first forgets what was posted before, so
    a turn of the thread during which [main] does nothing logs nothing, even if a
    state is waiting to be logged; a turn during which [main] turns once logs the
    state and the event the machine has after that turn, once, after what [main]
    logged. *)
Theorem zephyr_event_thread_logs (p : P) :
  event_thread_entry n fuel rounds server_info_ptr [] p = Done (tt, cleared p) /\
  (MODEM_TX_Q_DEPTH < rounds -> main_ok p -> ch_rel MODEM_LOG_Q_DEPTH (modem_log_q (channels (service p))) [] ->
   forall p', main_turn n fuel rounds server_info_ptr (cleared p) = Done (tt, p') ->
   exists s', event_thread_entry n fuel rounds server_info_ptr [Main_turn] p =
       Done (tt, mkMain s' (logged p' ++ [Log_state (state_ (radio (service p'))) (event_ (radio (service p')))])) /\
     radio s' = radio (service p') /\ modem_evt (channels s') = modem_evt (channels (service p'))).
Proof using HL HKL.
  split; [done|]. intros Hr Hp Hlog p' Hturn.
  assert (main_ok (cleared p)) as Hp0.
  { destruct Hp as (rest & tx & d & Hl & Hok & (Htx & Hrx & He & Hre) & Hwf). by exists rest, tx, (fst d, 0%Z). }
  destruct (main_turn_published (cleared p) p' Hr Hp0 Hturn) as (Hst & Hbit & Hq).
  change (modem_log_q (channels (service (cleared p)))) with (modem_log_q (channels (service p))) in Hq.
  assert (zephyr_wait n fuel rounds server_info_ptr ALL_EVENTS [Main_turn] p =
          Done (Z.land (modem_evt (channels (service p'))) ALL_EVENTS, p')) as Ew.
  { unfold zephyr_wait. unfold nl_bind at 1.
    change (on_serv (on_channels (fun ch : RadioLteChannels Ch => (tt, set_evt 0 ch))) p) with (Done (tt, cleared p)).
    cbn [nl_for main_step]. unfold nl_bind. rewrite Hturn. done. }
  unfold event_thread_entry. unfold nl_bind at 1. rewrite Ew. set (e := modem_evt (channels (service p'))) in *.
  set (matched := Z.land e ALL_EVENTS).
  assert (Z.testbit matched 2 = true) as Hm2 by (unfold matched; by rewrite Z.land_spec, Hbit).
  assert (is_set matched MODEM_EVT_STATE = true) as ->.
  { unfold is_set. change MODEM_EVT_STATE with (2 ^ 2)%Z. by rewrite land_bit, Hm2 by lia. }
  assert ((matched =? 0)%Z = false) as -> by (apply Z.eqb_neq; intros Hz; by rewrite Hz in Hm2).
  unfold nl_bind at 1, nl_gets at 1. unfold nl_bind at 1. rewrite Hst. unfold log_line at 1, nl_modify at 1. cbn [fst snd].
  set (p2 := mkMain (service p') _). destruct (is_set matched MODEM_EVT_LOG); [|by eexists].
  destruct (print_logs_rel [] rounds [] (service p2)) as (q & E2 & _); [by cbn; rewrite Hq|cbn; lia|].
  unfold nl_bind, on_serv. rewrite E2. cbn [map nl_for]. by eexists.
Qed.

End Behaviour.

(** ** Witnesses *)

Import Scripted.
#[local] Existing Instance example_residue.
#[local] Existing Instance zero_slot.

Notation ZChannel := (ZephyrChannel.Channel ListMsgq.Q).

(** The program in its loop; its modem is silent and the queue is given. *)
Definition zephyr_running (q : @hal_queue (zephyr_types (Q := ListMsgq.Q))) : ZephyrMain (Ch := ZChannel) :=
  mkMain (mkService RadioLteChannels_init (set_message_queue (Some q) (zephyr_lte []))) [].

Lemma zephyr_running_ok q : queue_ok q -> main_ok (zephyr_running q).
Proof.
  intros Hq. exists (modem_log_q (RadioLteChannels_init (Ch := ZChannel)), (State_none, Event_none)), [], ([], 0%Z).
  split; [simpl; lia|]. split; [done|]. split.
  - split; [exact (law_create MODEM_TX_Q_DEPTH)|]. by split; [exact (law_create MODEM_RX_Q_DEPTH)|].
  - apply wf_set_message_queue; [exact Hq|]. by apply wf_init.
Qed.


Definition pong_queue : @hal_queue (zephyr_types (Q := ListMsgq.Q)) := snd (mq_rx_push mq_create 1 (lit "pong")).

Lemma pong_queue_holds : mq_rel pong_queue [] [mkMsg 1 (lit "pong")].
Proof.
  destruct (law_rx_push (T := zephyr_types (Q := ListMsgq.Q)) mq_create [] [] 1 (lit "pong") law_mq_create) as [_ H]; [|exact H].
  cbn. unfold MAX_MSG_DATA. lia.
Qed.

Lemma zephyr_received_logged_witness :
  exists q', log_received 2 (zephyr_running pong_queue) =
      Done (tt, mkMain (mkService RadioLteChannels_init (set_message_queue (Some q') (zephyr_lte []))) [Log_rx 1 (lit "pong")]) /\
    mq_rel q' [] [].
Proof.
  apply (zephyr_received_logged 2 (zephyr_running pong_queue) pong_queue [] [mkMsg 1 (lit "pong")]).
  - reflexivity.
  - exact pong_queue_holds.
  - simpl. lia.
Defined.

(** The program after one turn. *)
Definition zephyr_turned : ZephyrMain (Ch := ZChannel) :=
  match main_turn 3 2 9 0 (cleared (zephyr_running mq_create)) with
  | Done (_, p) => p
  | _ => zephyr_running mq_create
  end.

Lemma zephyr_event_thread_logs_witness :
  exists s', event_thread_entry 3 2 9 0 [Main_turn] (zephyr_running mq_create) =
    Done (tt, mkMain s' [Log_state State_switched_off Event_none]).
Proof.
  destruct (zephyr_event_thread_logs 3 2 9 0 (zephyr_running mq_create)) as [_ H].
  destruct (H ltac:(unfold MODEM_TX_Q_DEPTH; lia)) with (p' := zephyr_turned) as (s' & E & _).
  - apply zephyr_running_ok. exists [], []. apply law_mq_create.
  - apply (law_create MODEM_LOG_Q_DEPTH).
  - vm_compute. reflexivity.
  - exists s'. rewrite E. vm_compute. reflexivity.
Defined.
