(* ===== verification/ZephyrLive.v ===== *)
(** * The Zephyr application connects

    With a modem at the UART that answers ([UartModem]), [main] of the Zephyr
    application gets the network connected and enters its loop: the parts proved on
    their own (controller, driver, state machine, shared timer, queue) composed from
    the bytes on the line up to the log. *)

From S2P Require Import Prelude CLib FixedString StaticVector Layout AtCommand MessageChannel ZephyrEvents MessageQueue Timer.
From S2P Require Import ZephyrQueue ModemController ControllerProps Xe310Types Xe310 Survey Trace Hal NetworkTypes Typed.
From S2P Require Import NetworkLte NetworkInv NetworkSafety NetworkApi NetworkProps NetworkLive UartModem.
From S2P Require Import RadioMessages RadioLte RadioLteProps ZephyrHal ZephyrApp.
Import ZephyrChannel (KMsgq, KMsgqLaws).

Section Live.
Context {Q : Type} {HK : KMsgq Q} {HKL : KMsgqLaws Q} {HJ : SlotResidue}.
Context {E : Type} {HE : Platform E} {HL : @PlatformLaws E HE} {HR : Residue}.
Context (replies : str -> str) {HU : UartModem E replies}.
Notation C := (@ModemController zephyr_command_timer_type E).
Notation L := (@NetworkLte (zephyr_types (Q := Q)) C).
Notation ready := (ctl_ready replies : C -> Prop).

(** ** The shared timer *)

(** The one timer has no callback. *)
Definition zephyr_quiet (_ : @hal_timer (zephyr_types (Q := Q))) (u : option (@hal_timer (zephyr_types (Q := Q)))) (c : C) : Prop :=
  u = None /\ Zephyr.cb_ (cmd_timer_ c : Zephyr.ZTimer TimerCb) = None.

Lemma poll_urc_timer t (m : C) : cmd_timer_ (snd (poll_urc t m)) = cmd_timer_ m.
Proof.
  unfold poll_urc, with_lock. destruct (lock_for 5000 (env m)) as [[] e1]; [|done]. destruct (negb (is_open _)); [done|].
  destruct (uart_read _ _ _) as [[err bytes] e]. destruct err; try done; [destruct bytes|];
    by destruct (urc_loop _ _ _) as [urcs rest].
Qed.

#[export] Instance zephyr_quiet_timers : QuietTimers (T := zephyr_types (Q := Q)) C ready zephyr_quiet.
Proof using HL.
  split.
  - intros t u cmd r ms retry c [Hu Hcb] Hr Hms. split; [exact Hu|]. apply send_raw_disarms.
    destruct (answers_send (C := C) (reply := reply_to replies) (ready := ready) cmd r ms retry c Hr Hms) as (c' & E1 & _).
    cbn in E1. by rewrite E1.
  - intros t u ms c [Hu Hcb] Hr. split; [exact Hu|]. cbn. by rewrite poll_urc_timer.
  - intros s [Hu Hcb] Hr.
    assert (exists t, tick s = put_the_timer t s /\ Zephyr.cb_ t = None) as (t & Et & Hcb').
    { unfold tick. cbn [timer_run zephyr_timer st_timer_obj put_st_timer user_timer_obj put_user_timer zephyr_access].
      assert (fst (Zephyr.run (now s) (the_timer s)) = None /\ Zephyr.cb_ (snd (Zephyr.run (now s) (the_timer s))) = None) as [H1 H2].
      { change (Zephyr.cb_ (the_timer s) = None) in Hcb. unfold Zephyr.run. destruct (Zephyr.k_timer (the_timer s)); [|done].
        by case_goal. }
      destruct (Zephyr.run (now s) (the_timer s)) as [cb t]. cbn [fst snd] in H1, H2. subst cb. cbn [run_cb]. cbv zeta.
      exists t. change (timer_ (put_the_timer t s)) with (timer_ s). by rewrite Hu. }
    exists (st_timer s), (timer_ s), (set_cmd_timer (t : @command_timer zephyr_command_timer_type) (XE310.controller_ (modem_ s))).
    split; [rewrite Et; by destruct s|]. by split.
Qed.

(** ** [main] *)

Context {Ch : Type} {HCh : MessageChannel Ch}.
Variable n fuel rounds : nat.
Variable server_info_ptr : Z.
Local Open Scope nl_scope.
Notation P := (ZephyrMain (Q := Q) (E := E) (Ch := Ch)).

(** Requests of other threads reach the queue only. *)
Lemma requests_queued k connecting (p : P) :
  exists ch, nl_for (fun b => main_step k fuel rounds server_info_ptr (Main_request b)) connecting p =
             Done (tt, mkMain (mkService ch (radio (service p))) (logged p)).
Proof.
  revert p. induction connecting as [|b bs IH]; intros p; [exists (channels (service p)); by destruct p as [[]]|].
  cbn [nl_for main_step]. unfold nl_bind at 1 2, on_serv, on_channels. destruct (queue_request b (channels (service p))) as [err ch].
  cbn. exact (IH (mkMain (mkService ch (radio (service p))) (logged p))).
Qed.

(** The modem's answer to [AT]. *)
Lemma at_ok_answered (c : C) :
  ready c -> Zephyr.cb_ (cmd_timer_ c : Zephyr.ZTimer TimerCb) = None ->
  exists x, XE310.at_ok (XE310.xE310_init c) = (ModemStatus_ok, x) /\
    at_rest ready zephyr_quiet tt None x /\ XE310.last_status_ x = ModemStatus_ok.
Proof using HL.
  intros Hr Hcb. destruct (good_send_cmd (reply_to replies) ready zephyr_quiet (lit "AT") 5000 ltac:(lia) tt None (XE310.xE310_init c))
    as (x & E1 & Hx & Hs); [by split; [split|]|]. by exists x.
Qed.


End Live.

(** ** Witness *)

Import TableModem.
#[local] Existing Instance zero_slot.

